(* ===== verification/_CoqProject ===== *)
-Q . S2P
Prelude.v
Provider.v
World.v
EvmProvider.v
Refinement.v
Dispatch.v
Utils.v
Asset.v
AssetSpec.v
AssetPrecompile.v
AssetPrecompileSpec.v
SimpleJournal.v
ProviderProps.v
AssetProps.v
Keyed.v
HashDemo.v
Rlp.v
Trap.v
CallSpec.v
FeeMarket.v
Mempool.v
MempoolSpec.v
Security.v
Compliance.v
Validator.v
ValidatorSpec.v
ValidatorProps.v
Fork.v
ForkProps.v
Proposer.v
Governance.v
GovAdvancer.v
GovernanceSpec.v
GovLayout.v
GovernanceLife.v
AdvancerSpec.v
GovDemo.v
GovernanceProps.v
GovernanceFunds.v
GovernanceData.v
AdvancerProps.v
GovernancePause.v
GovernanceCall.v
EthProof.v
EthLightClient.v
Bridge.v
BridgeSpec.v
BridgeDemo.v
BridgeProps.v
BridgeFraud.v
BridgeCall.v
BridgeExternal.v
OracleTracker.v
OracleTrackerProps.v
Oracle.v
OracleProps.v
NestedEvm.v
Switch.v
SwitchSpec.v
SwitchDemo.v
Agent.v
AgentSpec.v
AgentProps.v
AgentFunds.v
AgentCall.v
AgentDemo.v
