(* ===== verification/Prelude.v ===== *)
(** * call-node: a verification development

    This library models the protocol core of call-node, a blockchain node
    whose protocol features are stateful precompiled contracts of an EVM, and
    proves what makes that core correct.  Sources are named relative to
    [src/crates/].

    ** The program and its parts

    A precompile receives calldata and a caller.  It decodes the call, runs a
    handler over a [StorageProvider] (storage words, transient storage, native
    balances, events, gas), charges a base gas amount, and commits or reverts a
    checkpoint.  The handlers use domain storages, which read with
    [unwrap_or_default] and drop the result of writes.  Nine precompiles are
    built this way: assets, validators, compliance, governance, bridge, oracle,
    switch, agents and the shielded pool; they meet in the balances of the
    asset ledger and in the compliance registry.  The bridge verifies fraud
    proofs with the light client; the switch calls ERC-20 contracts in a nested
    EVM.  Transactions reach blocks through admission control and the mempool;
    the fee market sets the base fee; proposers are elected per epoch; after
    each block the governance advancer moves the proposals on and the fork
    manager activates upgrades.

    ** Files

    Framework.
    - [Prelude] (this file): Rust's [Result], checked integer operations at
      their width, big-endian bytes, shared lemmas, tactics and hints.
    - [Provider] ([precompile/src/storage.rs]): the provider trait as a class,
      handlers as programs ([prog]) over its methods ([op]), the test double
      [HashMapStorageProvider], the error-dropping [load] and [store].
    - [World]: the abstract storage, a provider without gas and failures; it is
      the specification state of every handler.
    - [EvmProvider] ([precompile/src/storage.rs]): the production provider.
      revm's journal is the class [JournalTr], its documented behaviour the
      class [JournalLaws]; [SimpleJournal] is a journal with these laws.
    - [Refinement]: [guarded] programs and [run_refines], by which a guarded
      handler on the production provider has its [World] meaning, or errs, or
      ends with less than one cold read's gas, which the closing charge detects.
    - [Dispatch] ([precompile/src/dispatch.rs], [lib.rs]): [view], [mutate], the
      output and its gas; [Trap]: handlers that may panic or not return;
      [CallSpec]: the statement that a precompile implements its handlers.
    - [Utils] ([precompile/src/utils.rs]): word codecs, slots, shared checks;
      [Keyed]: storages addressed by keys whose slots are hashes; [HashDemo]: a
      hash without collisions, on which the examples run.
    - [NestedEvm] ([precompile/src/evm_caller.rs]): contracts called from
      precompiles, with revm's execution as the class [NestedEvm].

    Precompiles.  A file named after a component holds its data and operations;
    [...Spec] holds what the operations do to the state, [...Props], [...Call]
    and the others the properties, [...Demo] the concrete scenarios.
    - [Asset], [AssetPrecompile], [AssetSpec], [AssetPrecompileSpec],
      [AssetProps] ([asset/src/lib.rs], [precompile.rs]).
    - [Validator], [ValidatorSpec], [ValidatorProps] ([validator/src/]).
    - [Compliance] ([compliance/src/]).
    - [Governance], [GovernanceSpec], [GovLayout], [GovernanceLife],
      [GovernanceProps], [GovernanceFunds], [GovernanceData],
      [GovernancePause], [GovernanceCall], [GovDemo] ([governance/src/]), and
      the per-block state machine [GovAdvancer], [AdvancerSpec], [AdvancerProps]
      ([node/src/governance_advancer.rs], [consensus/src/exec/]).
    - [Bridge], [BridgeSpec], [BridgeProps], [BridgeFraud], [BridgeCall],
      [BridgeDemo], [BridgeExternal] ([bridge/src/]).
    - [OracleTracker], [OracleTrackerProps], [Oracle], [OracleProps]
      ([oracle/src/tracker.rs], [precompile.rs]).
    - [Switch], [SwitchSpec], [SwitchDemo] ([switch/src/precompile.rs]).
    - [Agent], [AgentSpec], [AgentProps], [AgentFunds], [AgentCall],
      [AgentDemo] ([agent/src/lib.rs], [precompile.rs]).

    Chain.
    - [FeeMarket] ([protocol/src/gas.rs]), [Mempool], [MempoolSpec]
      ([mempool/src/priority.rs], [pool.rs]), [Security]
      ([protocol/src/security.rs]).
    - [Fork], [ForkProps] ([consensus/src/fork.rs]); [Proposer]
      ([consensus/src/proposer.rs], [block_cache.rs]).
    - [Rlp], [EthProof], [EthLightClient] ([light-client/src/]).

    ** What the theorems show

    - Framework (C1): a mutating call is all or nothing and has exactly its
      handler's meaning.
    - Assets (C2-C3, C33): the balances add up to the capped supply after any
      entry point; the entry points refine the ledger; restricted accounts
      cannot move assets.
    - Governance (C4-C8, C37): the precompile implements its handlers; tallies
      are the votes cast, one per account; execution waits for the timelock;
      every proposal is decided after its period; CALL is conserved by
      deposits, refunds and spends; the advancer returns on all data that does
      not make it panic.
    - Bridge and light client (C9-C16): the precompile implements its
      handlers; deposits stay within the daily limit and are not credited
      twice while remembered; a challenge is resolved and paid once; trie
      proofs bind and are complete; the light client's chain stays well formed
      and keeps its final headers.
    - Switch (C17-C20): a switch moves an asset between the protocol and the
      EVM without creating or losing any; the escrow backs the protocol
      balances; CALL comes back unchanged; the precompile implements its
      handlers.
    - Agents (C21-C25, C40): a session spends within its terms along any
      history and nothing once revoked; an agent acts by its own address only;
      assets are conserved; the precompile implements its handlers; a revoked
      agent's balance is out of reach.
    - Oracle (C26-C29): the aggregated price lies between honest prices;
      strikes disable a validator; the flags agree with the list of tracked
      assets; averages lie between the submitted prices.
    - Staking (C30-C32): every operation returns the registry's verdict; the
      escrow stays solvent; the precompile refines the registry.
    - Chain (C34-C36, C38-C39): the pool's invariant and order; the version a
      block must carry is the version the node runs; elected proposers are
      active validators; the exact base fee.

    Other theorems, without a number, show the results of the remaining
    operations and, where the code falls short of its documentation, the
    consequence on a concrete state.

    ** Modelling choices

    Integers are [Z] with their width written out ([fits], [checked_add],
    [wrap_u64]); addresses and storage words are [Z]; byte strings are lists of
    [Z].  State is passed explicitly.  Loops follow lists or a count read from
    storage, so the programs terminate structurally; the decoders of [Rlp] and
    [EthProof], whose loops may not make progress, use fuel above the length of
    the input and return a separate outcome when the real loop would not end.
    Panics are outcomes of their own.  Code outside the repository is a class or
    an argument, with the laws the theorems use as hypotheses and an instance
    in the examples: revm's journal and execution, keccak256, SHA-256, Ed25519,
    BLS and secp256k1, the ABI codecs alloy generates, serde's and postcard's
    encodings, the iteration order of hash maps, ERC-20 contracts.
    Distinctness of hashed storage slots is a hypothesis on the slots in use
    ([live_slots], [layout_ok], [Layout]), which holds for a hash without
    collisions on them.  The journal's laws say that loads succeed, so database
    errors are out of scope.

    ** Not modelled

    The asset precompile's [registerErc20] and [createWrapper]; the shielded
    pool; the SSZ decoders and requests of the light client; the standard
    Ethereum precompiles, which are library code; and the parts that are
    I/O, asynchronous wiring or wrappers of external libraries: node, rpc,
    network, storage, the EVM executor, consensus engine adapters, block
    assembly, cryptography, prover, chain specification, the price fetcher
    and domain verification. *)

From stdpp Require Import base gmap list strings numbers sorting.
From Stdlib Require Import ZArith Lia.

Local Open Scope Z_scope.

Declare Scope callnode_scope.
Delimit Scope callnode_scope with cn.

(** ** Rust's [Result] *)

Inductive result (E A : Type) : Type :=
| Ok (a : A)
| Err (e : E).
Arguments Ok {E A} a.
Arguments Err {E A} e.

#[global] Instance result_eq_dec `{EqDecision E, EqDecision A} : EqDecision (result E A).
Proof. solve_decision. Defined.

Definition is_ok {E A} (r : result E A) : bool :=
  match r with Ok _ => true | Err _ => false end.

(** [Result::unwrap_or]. *)
Definition unwrap_or {E A} (d : A) (r : result E A) : A :=
  match r with Ok a => a | Err _ => d end.

(** [Option::ok_or]. *)
Definition ok_or {E A} (e : E) (o : option A) : result E A :=
  match o with Some a => Ok a | None => Err e end.

(** [Result::map_err]. *)
Definition map_err {E E' A} (f : E -> E') (r : result E A) : result E' A :=
  match r with Ok a => Ok a | Err e => Err (f e) end.

Definition result_bind {E A B} (r : result E A) (f : A -> result E B) : result E B :=
  match r with Ok a => f a | Err e => Err e end.

Notation "x <-! r ; q" := (result_bind r (fun x => q))
  (at level 100, r at next level, q at level 200, right associativity) : callnode_scope.

(** ** Machine integers

    A [w]-bit unsigned integer is a [Z]; the operations write out the width. *)

Definition U8_MAX : Z := 255.
Definition U16_MAX : Z := 65535.
Definition U32_MAX : Z := 4294967295.
Definition U64_MAX : Z := 18446744073709551615.
Definition U128_MAX : Z := 340282366920938463463374607431768211455.
Definition U256_MAX : Z :=
  115792089237316195423570985008687907853269984665640564039457584007913129639935.

Definition fits (max v : Z) : Prop := 0 <= v <= max.

#[global] Instance fits_dec max v : Decision (fits max v).
Proof. unfold fits. apply _. Defined.

(** [checked_add], [checked_sub], [checked_mul] at the width with maximum [max]. *)
Definition checked_add (max a b : Z) : option Z :=
  if a + b <=? max then Some (a + b) else None.
Definition checked_sub (a b : Z) : option Z :=
  if b <=? a then Some (a - b) else None.
Definition checked_mul (max a b : Z) : option Z :=
  if a * b <=? max then Some (a * b) else None.

Definition saturating_add (max a b : Z) : Z := Z.min max (a + b).
Definition saturating_sub (a b : Z) : Z := Z.max 0 (a - b).
Definition saturating_mul (max a b : Z) : Z := Z.min max (a * b).

(** [as u32], [as u64] and unchecked arithmetic in release builds wrap. *)
Definition wrap_u32 (v : Z) : Z := v mod (U32_MAX + 1).
Definition wrap_u64 (v : Z) : Z := v mod (U64_MAX + 1).
Definition wrap_u128 (v : Z) : Z := v mod (U128_MAX + 1).
Definition div_ceil (a b : Z) : Z := (a + b - 1) / b.

Lemma wrap_u64_fits v : fits U64_MAX (wrap_u64 v).
Proof. unfold wrap_u64, fits. pose proof (Z.mod_pos_bound v (U64_MAX + 1)). unfold U64_MAX in *. lia. Qed.
Lemma wrap_u128_fits v : fits U128_MAX (wrap_u128 v).
Proof. unfold wrap_u128, fits. pose proof (Z.mod_pos_bound v (U128_MAX + 1)). unfold U128_MAX in *. lia. Qed.
Lemma wrap_u64_id v : fits U64_MAX v -> wrap_u64 v = v.
Proof. unfold fits, wrap_u64, U64_MAX. intros. apply Z.mod_small. lia. Qed.
Lemma wrap_u128_id v : fits U128_MAX v -> wrap_u128 v = v.
Proof. unfold fits, wrap_u128, U128_MAX. intros. apply Z.mod_small. lia. Qed.

Lemma checked_add_Some max a b c :
  checked_add max a b = Some c <-> c = a + b /\ a + b <= max.
Proof. unfold checked_add. destruct (Z.leb_spec (a + b) max); intuition (congruence || lia). Qed.

Lemma checked_add_None max a b : checked_add max a b = None <-> max < a + b.
Proof. unfold checked_add. destruct (Z.leb_spec (a + b) max); intuition (congruence || lia). Qed.

Lemma checked_sub_Some a b c : checked_sub a b = Some c <-> c = a - b /\ b <= a.
Proof. unfold checked_sub. destruct (Z.leb_spec b a); intuition (congruence || lia). Qed.

Lemma checked_sub_None a b : checked_sub a b = None <-> a < b.
Proof. unfold checked_sub. destruct (Z.leb_spec b a); intuition (congruence || lia). Qed.

Lemma checked_mul_Some max a b c :
  checked_mul max a b = Some c <-> c = a * b /\ a * b <= max.
Proof. unfold checked_mul. destruct (Z.leb_spec (a * b) max); intuition (congruence || lia). Qed.

(** ** Big-endian byte strings

    A byte string is a list of [Z] below 256, most significant byte first. *)

Definition bytes : Type := list Z.

Definition is_byte (b : Z) : Prop := 0 <= b < 256.

Fixpoint be_bytes (n : nat) (v : Z) : list Z :=
  match n with
  | O => []
  | S m => (v / 256 ^ Z.of_nat m) mod 256 :: be_bytes m v
  end.

Fixpoint from_be (bs : list Z) : Z :=
  match bs with
  | [] => 0
  | b :: rest => b * 256 ^ Z.of_nat (length rest) + from_be rest
  end.

(** [to_le_bytes] of an [n]-byte integer. *)
Definition le_bytes (n : nat) (v : Z) : list Z := rev (be_bytes n v).

Lemma length_be_bytes n v : length (be_bytes n v) = n.
Proof. induction n; simpl; auto. Qed.

Lemma be_bytes_is_byte n v : Forall is_byte (be_bytes n v).
Proof.
  induction n; simpl; constructor; auto.
  unfold is_byte. apply Z.mod_pos_bound. lia.
Qed.

Lemma pow256_pos n : 0 < 256 ^ Z.of_nat n.
Proof. apply Z.pow_pos_nonneg; lia. Qed.

Lemma pow256_succ n : 256 ^ Z.of_nat (S n) = 256 * 256 ^ Z.of_nat n.
Proof. rewrite Nat2Z.inj_succ, Z.pow_succ_r; lia. Qed.

Lemma from_be_be_bytes n v : from_be (be_bytes n v) = v mod 256 ^ Z.of_nat n.
Proof.
  induction n as [|n IH]; simpl; [by rewrite Z.mod_1_r|].
  rewrite length_be_bytes, IH, (Z.mul_comm _ (256 ^ Z.of_nat n)).
  change (Z.pos (Pos.of_succ_nat n)) with (Z.of_nat (S n)).
  rewrite pow256_succ, (Z.mul_comm 256).
  rewrite Z.rem_mul_r; [lia | pose proof (pow256_pos n); lia | lia].
Qed.

Lemma from_be_bound bs :
  Forall is_byte bs -> 0 <= from_be bs < 256 ^ Z.of_nat (length bs).
Proof.
  induction 1 as [|b bs Hb _ IH]; [simpl; lia|].
  cbn [from_be length]. rewrite pow256_succ. unfold is_byte in Hb. nia.
Qed.

Lemma be_bytes_add n v c :
  be_bytes n (c * 256 ^ Z.of_nat n + v) = be_bytes n v.
Proof.
  assert (G : forall m c, (m <= n)%nat ->
    be_bytes m (c * 256 ^ Z.of_nat n + v) = be_bytes m v); [|by apply G].
  clear c. induction m as [|m IH]; intros c Hm; [done|].
  cbn [be_bytes]. rewrite IH by lia. f_equal.
  replace (Z.of_nat n) with (Z.of_nat m + Z.of_nat (S (n - S m))) by lia.
  rewrite Z.pow_add_r by lia. rewrite pow256_succ.
  replace (c * (256 ^ Z.of_nat m * (256 * 256 ^ Z.of_nat (n - S m))) + v)
    with (v + (c * 256 ^ Z.of_nat (n - S m) * 256) * 256 ^ Z.of_nat m) by lia.
  rewrite Z.div_add by (pose proof (pow256_pos m); lia).
  by rewrite Z.mod_add by lia.
Qed.

Lemma be_bytes_from_be bs :
  Forall is_byte bs -> be_bytes (length bs) (from_be bs) = bs.
Proof.
  induction 1 as [|b bs Hb Hbs IH]; [done|].
  pose proof (from_be_bound bs Hbs) as B. unfold is_byte in Hb.
  cbn [be_bytes from_be length]. rewrite be_bytes_add, IH. f_equal.
  rewrite Z.div_add_l by (pose proof (pow256_pos (length bs)); lia).
  rewrite (Z.div_small (from_be bs)) by lia. rewrite Z.add_0_r.
  apply Z.mod_small. lia.
Qed.

Lemma be_bytes_inj n a b :
  0 <= a < 256 ^ Z.of_nat n -> 0 <= b < 256 ^ Z.of_nat n ->
  be_bytes n a = be_bytes n b -> a = b.
Proof.
  intros Ha Hb E. apply (f_equal from_be) in E.
  rewrite !from_be_be_bytes, !Z.mod_small in E; lia.
Qed.

Lemma from_be_app xs ys :
  from_be (xs ++ ys) = from_be xs * 256 ^ Z.of_nat (length ys) + from_be ys.
Proof.
  induction xs as [|x xs IH]; [done|]. cbn [app from_be].
  rewrite IH, length_app, Nat2Z.inj_add, Z.pow_add_r by lia. lia.
Qed.

Lemma from_be_zeros n xs : from_be (replicate n 0 ++ xs) = from_be xs.
Proof. induction n as [|n IH]; simpl; auto. Qed.

(** The last [m] bytes of a big-endian word are its value modulo [256^m]. *)
Lemma drop_be_bytes k m v : drop k (be_bytes (k + m) v) = be_bytes m v.
Proof. induction k; simpl; auto. Qed.

(** Concatenations of blocks of equal width are equal block by block. *)
Lemma app_inj_len {A} (x1 x2 y1 y2 : list A) :
  length x1 = length x2 -> x1 ++ y1 = x2 ++ y2 -> x1 = x2 /\ y1 = y2.
Proof. intros. by apply app_inj_1. Qed.

Lemma NoDup_map_inj {A B} (f : A -> B) l x y :
  NoDup (map f l) -> x ∈ l -> y ∈ l -> f x = f y -> x = y.
Proof.
  induction l as [|z l IH]; cbn; [set_solver|].
  inversion_clear 1 as [|? ? Hn Hd]. intros Hx Hy E. rewrite elem_of_cons in Hx, Hy.
  destruct Hx as [->|Hx], Hy as [->|Hy]; [done| | |by apply IH].
  - destruct Hn. rewrite E. by apply list_elem_of_fmap_2.
  - destruct Hn. rewrite <- E. by apply list_elem_of_fmap_2.
Qed.

(** ASCII byte-string literals such as [b"symbol"]. *)
Definition b_ (s : string) : list Z :=
  map (fun c => Z.of_N (Ascii.N_of_ascii c)) (String.list_ascii_of_string s).

(** ** Automation *)

Create HintDb callnode.
Create Rewrite HintDb callnode_rw.

(** Case analysis on the boolean comparisons of a goal or a hypothesis. *)
Ltac destruct_cmp :=
  repeat match goal with
  | |- context [Z.leb ?a ?b] => destruct (Z.leb_spec a b)
  | |- context [Z.ltb ?a ?b] => destruct (Z.ltb_spec a b)
  | |- context [Z.eqb ?a ?b] => destruct (Z.eqb_spec a b)
  | H : context [Z.leb ?a ?b] |- _ => destruct (Z.leb_spec a b)
  | H : context [Z.ltb ?a ?b] |- _ => destruct (Z.ltb_spec a b)
  | H : context [Z.eqb ?a ?b] |- _ => destruct (Z.eqb_spec a b)
  end.

(** Range side conditions. *)
Ltac fit := solve [unfold fits in *; lia].

(** ** Sorting by a key

    [slice::sort_by_key], which is stable. *)

Fixpoint insert_by {A} (key : A -> Z) (x : A) (l : list A) : list A :=
  match l with
  | [] => [x]
  | y :: r => if key x <=? key y then x :: l else y :: insert_by key x r
  end.

Definition sort_by {A} (key : A -> Z) (l : list A) : list A := foldr (insert_by key) [] l.

Definition by_key {A} (key : A -> Z) (x y : A) : Prop := key x <= key y.

Section Sorting.
Context {A : Type} (key : A -> Z).
Implicit Types (x y : A) (l : list A).

Lemma insert_by_perm x l : insert_by key x l ≡ₚ x :: l.
Proof.
  induction l as [|y l IH]; cbn; [done|]. case_match; [done|]. rewrite IH. apply Permutation_swap.
Qed.

Lemma sort_by_perm l : sort_by key l ≡ₚ l.
Proof. induction l as [|x l IH]; cbn; [done|]. by rewrite insert_by_perm, IH. Qed.

Lemma insert_by_sorted x l : StronglySorted (by_key key) l -> StronglySorted (by_key key) (insert_by key x l).
Proof.
  induction 1 as [|y l Hs IH Hy]; cbn; [repeat constructor|].
  destruct (Z.leb_spec (key x) (key y)) as [Hle|Hlt].
  - constructor; [by constructor|]. constructor; [done|].
    eapply Forall_impl; [exact Hy|]. unfold by_key. lia.
  - constructor; [done|]. rewrite insert_by_perm. constructor; [unfold by_key; lia | done].
Qed.

Lemma sort_by_sorted l : StronglySorted (by_key key) (sort_by key l).
Proof. induction l; cbn; [constructor | by apply insert_by_sorted]. Qed.

(** Sorted lists with distinct keys are determined by their elements. *)
Lemma sorted_by_unique l1 l2 :
  StronglySorted (by_key key) l1 -> StronglySorted (by_key key) l2 -> NoDup (map key l1) ->
  l1 ≡ₚ l2 -> l1 = l2.
Proof.
  intros S1. revert l2. induction S1 as [|x l1 S1 IH Hx]; intros l2 S2 Hn P.
  - by apply Permutation_nil_l in P.
  - destruct S2 as [|y l2 S2 Hy]; [by apply Permutation_nil_r in P|].
    cbn in Hn. apply NoDup_cons in Hn as [Hnx Hn].
    assert (E : x = y).
    { assert (Iy : y ∈ x :: l1) by (rewrite P; constructor).
      assert (Ix : x ∈ y :: l2) by (rewrite <- P; constructor).
      apply elem_of_cons in Iy as [->|Iy]; [done|]. apply elem_of_cons in Ix as [->|Ix]; [done|].
      assert (key x <= key y) by (by eapply (proj1 (Forall_forall _ _) Hx)).
      assert (key y <= key x) by (by eapply (proj1 (Forall_forall _ _) Hy)).
      exfalso. apply Hnx. replace (key x) with (key y) by lia. by apply list_elem_of_fmap_2. }
    subst y. apply Permutation_cons_inv in P. f_equal. by apply IH.
Qed.

End Sorting.
