(* ===== verification/Provider.v ===== *)
(** * Provider: the [StorageProvider] trait and its test double

    Models [crates/precompile/src/storage.rs]: the trait every precompile runs
    against, handlers as programs over its methods, and
    [HashMapStorageProvider].  The production implementation over revm's
    journal is in [EvmProvider]. *)

From stdpp Require Import base gmap list strings.
From Stdlib Require Import ZArith Lia.
From S2P Require Import Prelude.

Local Open Scope Z_scope.

(** ** Errors and logs *)

(** revm's [PrecompileError] as the precompiles use it. *)
Inductive precompile_error : Type :=
| OutOfGas
| Other (msg : string)
| Fatal (msg : string).

#[global] Instance precompile_error_eq_dec : EqDecision precompile_error.
Proof. solve_decision. Defined.

Abbreviation res A := (result precompile_error A).

(** alloy's [LogData]: topics and payload. *)
Record LogData : Type := mkLog { log_topics : list Z; log_data : list Z }.

#[global] Instance LogData_eq_dec : EqDecision LogData.
Proof. solve_decision. Defined.

(** ** Gas schedule *)

(** Constants imported from revm ([COLD_SLOAD_COST], [WARM_STORAGE_READ_COST],
    [LOG], [LOGTOPIC], [LOGDATA]) and the ones the file declares. *)
Definition COLD_SLOAD_COST : Z := 2100.
Definition WARM_STORAGE_READ_COST : Z := 100.
Definition LOG : Z := 375.
Definition LOGTOPIC : Z := 375.
Definition LOGDATA : Z := 8.
Definition SSTORE_SET_GAS : Z := 20000.
Definition TLOAD_GAS : Z := 100.
Definition TSTORE_GAS : Z := 100.
Definition BALANCE_ACCESS_GAS : Z := WARM_STORAGE_READ_COST.
Definition CODE_ACCESS_GAS : Z := WARM_STORAGE_READ_COST.

Definition log_gas (ev : LogData) : Z :=
  LOG + LOGTOPIC * Z.of_nat (length (log_topics ev))
      + LOGDATA * Z.of_nat (length (log_data ev)).

Definition INPUT_PER_WORD_COST : Z := 6.

(** [len.div_ceil(32).saturating_mul(6)] at [usize] width. *)
Definition input_cost (len : Z) : Z :=
  saturating_mul U64_MAX ((len + 31) / 32) INPUT_PER_WORD_COST.

Definition I64_MAX : Z := 9223372036854775807.
Definition I64_MIN : Z := -9223372036854775808.

Definition saturating_add_i64 (a b : Z) : Z := Z.max I64_MIN (Z.min I64_MAX (a + b)).

(** ** The trait *)

(** The call context a provider is created with. *)
Record env : Type := mkEnv {
  e_gas_limit : Z;
  e_is_static : bool;
  e_chain_id : Z;
  e_timestamp : Z;
  e_block_number : Z;
  e_beneficiary : Z
}.

(** The methods a handler calls, each with the type of its answer. *)
Inductive op : Type -> Type :=
| OSload (address key : Z) : op (res Z)
| OSstore (address key value : Z) : op (res unit)
| OTload (address key : Z) : op (res Z)
| OTstore (address key value : Z) : op (res unit)
| OEmit (address : Z) (event : LogData) : op (res unit)
| OCharge (gas : N) : op (res unit)
| OBalanceAdd (address amount : Z) : op (res unit)
| OBalanceSub (address amount : Z) : op (res unit)
| OBalanceGet (address : Z) : op (res Z)
| OCodeGet (address : Z) : op (res (list Z))
| ORawSload (address key : Z) : op (res Z)
| ORawSstore (address key value : Z) : op (res unit)
| ORawBalanceGet (address : Z) : op (res Z)
| ORawCodeGet (address : Z) : op (res (list Z))
| OEnv : op env.

(** A provider interprets the methods and has a checkpoint discipline and a
    gas account.  [fields] of [env] answer [timestamp], [block_number], ... *)
Class StorageProvider (S : Type) : Type := {
  Checkpoint : Type;
  sp_exec : forall R, op R -> S -> R * S;
  sp_checkpoint : S -> Checkpoint * S;
  sp_commit : Checkpoint -> S -> S;
  sp_revert : Checkpoint -> S -> S;
  sp_gas_used : S -> Z;
  sp_gas_refunded : S -> Z;
  sp_reset_counters : S -> S
}.
Arguments sp_exec {S _ R} o s : simpl never.

(** ** Programs over the trait

    A handler that holds [&mut dyn StorageProvider] is a program whose only
    effects are the trait's methods.  Loops in the handlers range over finite
    lists, so the programs are inductive. *)

Inductive prog (A : Type) : Type :=
| Ret (a : A)
| Call {R} (o : op R) (k : R -> prog A).
Arguments Ret {A} a.
Arguments Call {A R} o k.

Fixpoint prog_bind {A B} (p : prog A) (f : A -> prog B) : prog B :=
  match p with
  | Ret a => f a
  | Call o k => Call o (fun r => prog_bind (k r) f)
  end.

#[global] Instance prog_ret : MRet prog := fun _ a => Ret a.
#[global] Instance prog_mbind : MBind prog := fun _ _ f p => prog_bind p f.

(** Rust's [?]: continue on [Ok], return the error otherwise. *)
Definition try_ {E A B} (p : prog (result E A)) (f : A -> prog (result E B)) :
    prog (result E B) :=
  prog_bind p (fun r => match r with Ok a => f a | Err e => Ret (Err e) end).

Notation "x <-? p ; q" := (try_ p (fun x => q))
  (at level 100, p at next level, q at level 200, right associativity) : callnode_scope.
Notation "'do?' p ; q" := (try_ p (fun _ => q))
  (at level 100, p at next level, q at level 200, right associativity) : callnode_scope.
Notation "x <- p ; q" := (prog_bind p (fun x => q))
  (at level 100, p at next level, q at level 200, right associativity) : callnode_scope.
Notation "'do' p ; q" := (prog_bind p (fun _ => q))
  (at level 100, p at next level, q at level 200, right associativity) : callnode_scope.
Notation "'lift' r" := (Ret r) (at level 10, only parsing) : callnode_scope.

Definition prog_map_err {E E' A} (f : E -> E') (p : prog (result E A)) :
    prog (result E' A) :=
  prog_bind p (fun r => Ret (map_err f r)).

(** The method calls. *)
Definition sload (a k : Z) : prog (res Z) := Call (OSload a k) Ret.
Definition sstore (a k v : Z) : prog (res unit) := Call (OSstore a k v) Ret.
Definition emit_event (a : Z) (ev : LogData) : prog (res unit) := Call (OEmit a ev) Ret.
Definition charge_gas (g : N) : prog (res unit) := Call (OCharge g) Ret.
Definition balance_add (a v : Z) : prog (res unit) := Call (OBalanceAdd a v) Ret.
Definition balance_sub (a v : Z) : prog (res unit) := Call (OBalanceSub a v) Ret.
Definition balance_get (a : Z) : prog (res Z) := Call (OBalanceGet a) Ret.
Definition code_get (a : Z) : prog (res (list Z)) := Call (OCodeGet a) Ret.
Definition timestamp : prog Z := Call OEnv (fun e => Ret (e_timestamp e)).
Definition block_number : prog Z := Call OEnv (fun e => Ret (e_block_number e)).

(** [StorageBackend] for [StorageRef] and for [dyn StorageProvider]: failed
    reads are zero and failed writes are dropped. *)
Definition load (a k : Z) : prog Z :=
  prog_bind (sload a k) (fun r => Ret (unwrap_or 0 r)).
Definition store (a k v : Z) : prog unit :=
  prog_bind (sstore a k v) (fun _ => Ret tt).

(** Running a program on a provider. *)
Fixpoint run {S} `{StorageProvider S} {A} (p : prog A) (s : S) : A * S :=
  match p with
  | Ret a => (a, s)
  | Call o k => let '(r, s') := sp_exec o s in run (k r) s'
  end.

(** ** [HashMapStorageProvider] *)

(** The fields a checkpoint saves. *)
Record hm_fields : Type := mkHm {
  hm_persistent : gmap (Z * Z) Z;
  hm_transient : gmap (Z * Z) Z;
  hm_events : gmap Z (list LogData);
  hm_balances : gmap Z Z;
  hm_codes : gmap Z (list Z);
  hm_accessed_slots : gmap (Z * Z) Z;
  hm_gas_remaining : Z;
  hm_gas_refunded : Z;
  hm_sload_count : Z;
  hm_sstore_count : Z
}.

Record HashMapStorageProvider : Type := mkHashMap {
  hm_cur : hm_fields;
  hm_env : env;
  hm_checkpoints : list hm_fields
}.

Definition hm_upd (f : hm_fields -> hm_fields) (s : HashMapStorageProvider) :
    HashMapStorageProvider :=
  mkHashMap (f (hm_cur s)) (hm_env s) (hm_checkpoints s).

Definition hm_set_persistent m f := mkHm m (hm_transient f) (hm_events f)
  (hm_balances f) (hm_codes f) (hm_accessed_slots f) (hm_gas_remaining f)
  (hm_gas_refunded f) (hm_sload_count f) (hm_sstore_count f).
Definition hm_set_transient m f := mkHm (hm_persistent f) m (hm_events f)
  (hm_balances f) (hm_codes f) (hm_accessed_slots f) (hm_gas_remaining f)
  (hm_gas_refunded f) (hm_sload_count f) (hm_sstore_count f).
Definition hm_set_events m f := mkHm (hm_persistent f) (hm_transient f) m
  (hm_balances f) (hm_codes f) (hm_accessed_slots f) (hm_gas_remaining f)
  (hm_gas_refunded f) (hm_sload_count f) (hm_sstore_count f).
Definition hm_set_balances m f := mkHm (hm_persistent f) (hm_transient f)
  (hm_events f) m (hm_codes f) (hm_accessed_slots f) (hm_gas_remaining f)
  (hm_gas_refunded f) (hm_sload_count f) (hm_sstore_count f).
Definition hm_set_accessed m f := mkHm (hm_persistent f) (hm_transient f)
  (hm_events f) (hm_balances f) (hm_codes f) m (hm_gas_remaining f)
  (hm_gas_refunded f) (hm_sload_count f) (hm_sstore_count f).
Definition hm_set_gas g r f := mkHm (hm_persistent f) (hm_transient f)
  (hm_events f) (hm_balances f) (hm_codes f) (hm_accessed_slots f) g r
  (hm_sload_count f) (hm_sstore_count f).
Definition hm_set_counts a b f := mkHm (hm_persistent f) (hm_transient f)
  (hm_events f) (hm_balances f) (hm_codes f) (hm_accessed_slots f)
  (hm_gas_remaining f) (hm_gas_refunded f) a b.

(** [HashMapStorageProvider::with_block] ([new] is the case of zero [chain_id]
    and [block_number]). *)
Definition hm_with_block (gas_limit chain_id block_number : Z) :
    HashMapStorageProvider :=
  mkHashMap (mkHm ∅ ∅ ∅ ∅ ∅ ∅ gas_limit 0 0 0)
    (mkEnv gas_limit false chain_id 0 block_number 0) [].

Definition hm_new (gas_limit : Z) : HashMapStorageProvider := hm_with_block gas_limit 0 0.

Definition hm_get (s : HashMapStorageProvider) (a k : Z) : Z :=
  default 0 (hm_persistent (hm_cur s) !! (a, k)).

Definition hm_is_warm (s : HashMapStorageProvider) (a k : Z) : bool :=
  bool_decide (is_Some (hm_accessed_slots (hm_cur s) !! (a, k))).

Definition hm_warm_slot (a k : Z) (s : HashMapStorageProvider) : HashMapStorageProvider :=
  if hm_is_warm s a k then s
  else hm_upd (hm_set_accessed
         (<[(a, k) := hm_get s a k]> (hm_accessed_slots (hm_cur s)))) s.

Definition hm_deduct_gas (gas : Z) (s : HashMapStorageProvider) :
    res unit * HashMapStorageProvider :=
  match checked_sub (hm_gas_remaining (hm_cur s)) gas with
  | Some g => (Ok tt, hm_upd (hm_set_gas g (hm_gas_refunded (hm_cur s))) s)
  | None => (Err OutOfGas, s)
  end.

Definition hm_refund_gas (gas : Z) (s : HashMapStorageProvider) : HashMapStorageProvider :=
  hm_upd (fun f => hm_set_gas (hm_gas_remaining f)
                     (saturating_add_i64 (hm_gas_refunded f) gas) f) s.

Definition hm_count_sload (s : HashMapStorageProvider) : HashMapStorageProvider :=
  hm_upd (fun f => hm_set_counts (hm_sload_count f + 1) (hm_sstore_count f) f) s.
Definition hm_count_sstore (s : HashMapStorageProvider) : HashMapStorageProvider :=
  hm_upd (fun f => hm_set_counts (hm_sload_count f) (hm_sstore_count f + 1) f) s.

Definition hm_sload (a k : Z) (s : HashMapStorageProvider) :
    res Z * HashMapStorageProvider :=
  let s := hm_count_sload s in
  let gas := if hm_is_warm s a k then WARM_STORAGE_READ_COST else COLD_SLOAD_COST in
  match hm_deduct_gas gas s with
  | (Err e, s) => (Err e, s)
  | (Ok _, s) => let s := hm_warm_slot a k s in (Ok (hm_get s a k), s)
  end.

Definition hm_sstore (a k v : Z) (s : HashMapStorageProvider) :
    res unit * HashMapStorageProvider :=
  let s := hm_count_sstore s in
  if e_is_static (hm_env s) then (Err (Other "static call"), s)
  else
    let dynamic_gas := if hm_is_warm s a k then 0 else COLD_SLOAD_COST in
    match hm_deduct_gas (SSTORE_SET_GAS + dynamic_gas) s with
    | (Err e, s) => (Err e, s)
    | (Ok _, s) =>
        let present := hm_get s a k in
        let original := default 0 (hm_accessed_slots (hm_cur s) !! (a, k)) in
        let s := if ((original =? v) && negb (present =? v))
                    || (negb (present =? 0) && (v =? 0))
                 then hm_refund_gas 4800 s else s in
        let s := hm_warm_slot a k s in
        (Ok tt, hm_upd (hm_set_persistent
                  (<[(a, k) := v]> (hm_persistent (hm_cur s)))) s)
    end.

Definition hm_tload (a k : Z) (s : HashMapStorageProvider) :
    res Z * HashMapStorageProvider :=
  match hm_deduct_gas TLOAD_GAS s with
  | (Err e, s) => (Err e, s)
  | (Ok _, s) => (Ok (default 0 (hm_transient (hm_cur s) !! (a, k))), s)
  end.

Definition hm_tstore (a k v : Z) (s : HashMapStorageProvider) :
    res unit * HashMapStorageProvider :=
  if e_is_static (hm_env s) then (Err (Other "static call"), s)
  else match hm_deduct_gas TSTORE_GAS s with
  | (Err e, s) => (Err e, s)
  | (Ok _, s) => (Ok tt, hm_upd (hm_set_transient
                    (<[(a, k) := v]> (hm_transient (hm_cur s)))) s)
  end.

Definition hm_emit_event (a : Z) (ev : LogData) (s : HashMapStorageProvider) :
    res unit * HashMapStorageProvider :=
  match hm_deduct_gas (log_gas ev) s with
  | (Err e, s) => (Err e, s)
  | (Ok _, s) =>
      (Ok tt, hm_upd (hm_set_events
        (<[a := default [] (hm_events (hm_cur s) !! a) ++ [ev]]> (hm_events (hm_cur s)))) s)
  end.

Definition hm_balance (s : HashMapStorageProvider) (a : Z) : Z :=
  default 0 (hm_balances (hm_cur s) !! a).

Definition hm_balance_add (a amount : Z) (s : HashMapStorageProvider) :
    res unit * HashMapStorageProvider :=
  if e_is_static (hm_env s) then (Err (Other "static call cannot mutate balance"), s)
  else match checked_add U256_MAX (hm_balance s a) amount with
  | None => (Err (Other "balance overflow"), s)
  | Some b => hm_deduct_gas BALANCE_ACCESS_GAS
                (hm_upd (hm_set_balances (<[a := b]> (hm_balances (hm_cur s)))) s)
  end.

Definition hm_balance_sub (a amount : Z) (s : HashMapStorageProvider) :
    res unit * HashMapStorageProvider :=
  if e_is_static (hm_env s) then (Err (Other "static call cannot mutate balance"), s)
  else match checked_sub (hm_balance s a) amount with
  | None => (Err (Other "insufficient native balance"), s)
  | Some b => hm_deduct_gas BALANCE_ACCESS_GAS
                (hm_upd (hm_set_balances (<[a := b]> (hm_balances (hm_cur s)))) s)
  end.

Definition hm_balance_get (a : Z) (s : HashMapStorageProvider) :
    res Z * HashMapStorageProvider :=
  match hm_deduct_gas BALANCE_ACCESS_GAS s with
  | (Err e, s) => (Err e, s)
  | (Ok _, s) => (Ok (hm_balance s a), s)
  end.

Definition hm_code_get (a : Z) (s : HashMapStorageProvider) :
    res (list Z) * HashMapStorageProvider :=
  match hm_deduct_gas CODE_ACCESS_GAS s with
  | (Err e, s) => (Err e, s)
  | (Ok _, s) => (Ok (default [] (hm_codes (hm_cur s) !! a)), s)
  end.

Definition hm_raw_sstore (a k v : Z) (s : HashMapStorageProvider) :
    res unit * HashMapStorageProvider :=
  (Ok tt, hm_upd (hm_set_persistent (<[(a, k) := v]> (hm_persistent (hm_cur s)))) s).

Definition hm_checkpoint (s : HashMapStorageProvider) : unit * HashMapStorageProvider :=
  (tt, mkHashMap (hm_cur s) (hm_env s) (hm_cur s :: hm_checkpoints s)).

Definition hm_checkpoint_commit (_ : unit) (s : HashMapStorageProvider) :
    HashMapStorageProvider :=
  mkHashMap (hm_cur s) (hm_env s) (tail (hm_checkpoints s)).

Definition hm_checkpoint_revert (_ : unit) (s : HashMapStorageProvider) :
    HashMapStorageProvider :=
  match hm_checkpoints s with
  | saved :: rest => mkHashMap saved (hm_env s) rest
  | [] => s
  end.

Definition hm_gas_used (s : HashMapStorageProvider) : Z :=
  e_gas_limit (hm_env s) - hm_gas_remaining (hm_cur s).

Definition hm_reset_gas_counters (s : HashMapStorageProvider) : HashMapStorageProvider :=
  hm_upd (hm_set_counts 0 0) s.

Definition hm_exec (R : Type) (o : op R) : HashMapStorageProvider -> R * HashMapStorageProvider :=
  match o in op R return HashMapStorageProvider -> R * HashMapStorageProvider with
  | OSload a k => hm_sload a k
  | OSstore a k v => hm_sstore a k v
  | OTload a k => hm_tload a k
  | OTstore a k v => hm_tstore a k v
  | OEmit a ev => hm_emit_event a ev
  | OCharge g => hm_deduct_gas (Z.of_N g)
  | OBalanceAdd a v => hm_balance_add a v
  | OBalanceSub a v => hm_balance_sub a v
  | OBalanceGet a => hm_balance_get a
  | OCodeGet a => hm_code_get a
  | ORawSload a k => fun s => (Ok (hm_get s a k), s)
  | ORawSstore a k v => hm_raw_sstore a k v
  | ORawBalanceGet a => fun s => (Ok (hm_balance s a), s)
  | ORawCodeGet a => fun s => (Ok (default [] (hm_codes (hm_cur s) !! a)), s)
  | OEnv => fun s => (hm_env s, s)
  end.

#[global] Instance HashMap_provider : StorageProvider HashMapStorageProvider := {|
  Checkpoint := unit;
  sp_exec := hm_exec;
  sp_checkpoint := hm_checkpoint;
  sp_commit := hm_checkpoint_commit;
  sp_revert := hm_checkpoint_revert;
  sp_gas_used := hm_gas_used;
  sp_gas_refunded := fun s => hm_gas_refunded (hm_cur s);
  sp_reset_counters := hm_reset_gas_counters
|}.

(** ** Laws of programs *)

Lemma run_call {S} `{StorageProvider S} {A R} (o : op R) (k : R -> prog A) (s : S) :
  run (Call o k) s = run (k (sp_exec o s).1) (sp_exec o s).2.
Proof. cbn. by destruct (sp_exec o s). Qed.

Lemma run_bind {S} `{StorageProvider S} {A B} (p : prog A) (f : A -> prog B) (s : S) :
  run (prog_bind p f) s = let '(a, s') := run p s in run (f a) s'.
Proof.
  revert s. induction p as [a|R o k IH]; intros s; [done|].
  cbn. destruct (sp_exec o s). apply IH.
Qed.

Lemma run_try {S} `{StorageProvider S} {E A B} (p : prog (result E A))
    (f : A -> prog (result E B)) (s : S) :
  run (try_ p f) s = match run p s with
                     | (Ok a, s') => run (f a) s'
                     | (Err e, s') => (Err e, s')
                     end.
Proof. unfold try_. rewrite run_bind. by destruct (run p s) as [[]]. Qed.

Lemma run_try_ok {S} `{StorageProvider S} {E A B} (p : prog (result E A))
    (f : A -> prog (result E B)) (s s' : S) b :
  run (try_ p f) s = (Ok b, s') ->
  exists a s1, run p s = (Ok a, s1) /\ run (f a) s1 = (Ok b, s').
Proof. rewrite run_try. destruct (run p s) as [[a|e] s1]; [eauto | done]. Qed.

Lemma run_map_err_ok {S} `{StorageProvider S} {E E' A} (g : E -> E')
    (p : prog (result E A)) (s s' : S) a :
  run (prog_map_err g p) s = (Ok a, s') -> run p s = (Ok a, s').
Proof.
  unfold prog_map_err. rewrite run_bind. destruct (run p s) as [[]]; cbn; congruence.
Qed.

Lemma run_map_err {S} `{StorageProvider S} {E E' A} (f : E -> E')
    (p : prog (result E A)) (s : S) :
  run (prog_map_err f p) s = (map_err f (run p s).1, (run p s).2).
Proof. unfold prog_map_err. rewrite run_bind. by destruct (run p s). Qed.

#[export] Hint Rewrite @run_bind @run_try @run_map_err : callnode_rw.
