(* ===== verification/World.v ===== *)
(** * World: the abstract storage specification

    The state a precompile is meant to act on, without gas and without
    failures: finite maps for persistent and transient storage, native
    balances and code, and the log in emission order.  It is a
    [StorageProvider] whose methods always succeed (except for a native
    balance that would overflow or go negative), so every handler has a
    meaning on it; [Refinement] proves that the production provider refines
    this meaning. *)

From stdpp Require Import base gmap list strings.
From Stdlib Require Import ZArith Lia.
From S2P Require Import Prelude Provider.

Local Open Scope Z_scope.

Record wstate : Type := mkW {
  w_persistent : gmap (Z * Z) Z;
  w_transient : gmap (Z * Z) Z;
  w_logs : list (Z * LogData);
  w_balances : gmap Z Z;
  w_codes : gmap Z (list Z)
}.

Record world : Type := mkWorld {
  w_cur : wstate;
  w_env : env;
  w_stack : list wstate
}.

Definition slot (m : wstate) (a k : Z) : Z := default 0 (w_persistent m !! (a, k)).
Definition tslot (m : wstate) (a k : Z) : Z := default 0 (w_transient m !! (a, k)).
Definition native (m : wstate) (a : Z) : Z := default 0 (w_balances m !! a).
Definition code_of (m : wstate) (a : Z) : list Z := default [] (w_codes m !! a).

Definition put_slot (a k v : Z) (m : wstate) : wstate :=
  mkW (<[(a, k) := v]> (w_persistent m)) (w_transient m) (w_logs m) (w_balances m) (w_codes m).
Definition put_tslot (a k v : Z) (m : wstate) : wstate :=
  mkW (w_persistent m) (<[(a, k) := v]> (w_transient m)) (w_logs m) (w_balances m) (w_codes m).
Definition put_log (a : Z) (ev : LogData) (m : wstate) : wstate :=
  mkW (w_persistent m) (w_transient m) (w_logs m ++ [(a, ev)]) (w_balances m) (w_codes m).
Definition put_native (a v : Z) (m : wstate) : wstate :=
  mkW (w_persistent m) (w_transient m) (w_logs m) (<[a := v]> (w_balances m)) (w_codes m).

Definition w_upd (f : wstate -> wstate) (w : world) : world :=
  mkWorld (f (w_cur w)) (w_env w) (w_stack w).

Definition w_exec (R : Type) (o : op R) : world -> R * world :=
  match o in op R return world -> R * world with
  | OSload a k | ORawSload a k => fun w => (Ok (slot (w_cur w) a k), w)
  | OSstore a k v | ORawSstore a k v => fun w => (Ok tt, w_upd (put_slot a k v) w)
  | OTload a k => fun w => (Ok (tslot (w_cur w) a k), w)
  | OTstore a k v => fun w => (Ok tt, w_upd (put_tslot a k v) w)
  | OEmit a ev => fun w => (Ok tt, w_upd (put_log a ev) w)
  | OCharge _ => fun w => (Ok tt, w)
  | OBalanceAdd a v => fun w =>
      match checked_add U256_MAX (native (w_cur w) a) v with
      | Some b => (Ok tt, w_upd (put_native a b) w)
      | None => (Err (Other "balance overflow"), w)
      end
  | OBalanceSub a v => fun w =>
      match checked_sub (native (w_cur w) a) v with
      | Some b => (Ok tt, w_upd (put_native a b) w)
      | None => (Err (Other "insufficient native balance"), w)
      end
  | OBalanceGet a | ORawBalanceGet a => fun w => (Ok (native (w_cur w) a), w)
  | OCodeGet a | ORawCodeGet a => fun w => (Ok (code_of (w_cur w) a), w)
  | OEnv => fun w => (w_env w, w)
  end.

#[global] Instance World_provider : StorageProvider world := {|
  Checkpoint := unit;
  sp_exec := w_exec;
  sp_checkpoint := fun w => (tt, mkWorld (w_cur w) (w_env w) (w_cur w :: w_stack w));
  sp_commit := fun _ w => mkWorld (w_cur w) (w_env w) (tail (w_stack w));
  sp_revert := fun _ w =>
    match w_stack w with
    | m :: rest => mkWorld m (w_env w) rest
    | [] => w
    end;
  sp_gas_used := fun _ => 0;
  sp_gas_refunded := fun _ => 0;
  sp_reset_counters := fun w => w
|}.

(** Reading the storage of a world directly. *)
Abbreviation wslot w a k := (slot (w_cur w) a k).

Lemma slot_put_same m a k v : slot (put_slot a k v m) a k = v.
Proof. unfold slot. cbn. by rewrite lookup_insert_eq. Qed.

Lemma slot_put_ne m a k v a' k' :
  (a, k) <> (a', k') -> slot (put_slot a k v m) a' k' = slot m a' k'.
Proof. intros. unfold slot. cbn. by rewrite lookup_insert_ne. Qed.

Lemma slot_put m a k v a' k' :
  slot (put_slot a k v m) a' k' = if decide ((a, k) = (a', k')) then v else slot m a' k'.
Proof.
  case_decide as E; [|by apply slot_put_ne].
  injection E as <- <-. apply slot_put_same.
Qed.

Lemma slot_put_log m a ev a' k' : slot (put_log a ev m) a' k' = slot m a' k'.
Proof. done. Qed.

(** The basic programs on the world. *)
Lemma w_run_load a k (w : world) : run (load a k) w = (wslot w a k, w).
Proof. done. Qed.

Lemma w_run_store a k v (w : world) : run (store a k v) w = (tt, w_upd (put_slot a k v) w).
Proof. done. Qed.

Lemma w_run_sload a k (w : world) : run (sload a k) w = (Ok (wslot w a k), w).
Proof. done. Qed.

Lemma w_run_emit a ev (w : world) : run (emit_event a ev) w = (Ok tt, w_upd (put_log a ev) w).
Proof. done. Qed.

#[export] Hint Rewrite slot_put_same slot_put_log w_run_load w_run_store w_run_sload
  w_run_emit : callnode_rw.

(** ** Frames: the slots a program may write *)

Definition op_writes (P : Z -> Z -> Prop) {R} (o : op R) : Prop :=
  match o with
  | OSstore a k _ | ORawSstore a k _ => P a k
  | _ => True
  end.

Inductive writes (P : Z -> Z -> Prop) {A} : prog A -> Prop :=
| wr_ret a : writes P (Ret a)
| wr_call R (o : op R) k : op_writes P o -> (forall r, writes P (k r)) -> writes P (Call o k).

Lemma writes_bind P {A B} (p : prog A) (f : A -> prog B) :
  writes P p -> (forall a, writes P (f a)) -> writes P (prog_bind p f).
Proof. intros Hp Hf. induction Hp; cbn; [done|]. constructor; auto. Qed.

Lemma writes_try P {E A B} (p : prog (result E A)) (f : A -> prog (result E B)) :
  writes P p -> (forall a, writes P (f a)) -> writes P (try_ p f).
Proof. intros. apply writes_bind; [done|]. intros []; [done | constructor]. Qed.

Lemma writes_map_err P {E E' A} (g : E -> E') (p : prog (result E A)) :
  writes P p -> writes P (prog_map_err g p).
Proof. intros. apply writes_bind; [done|]. intros. constructor. Qed.

Lemma writes_load P a k : writes P (load a k).
Proof. constructor; [done|]. intros. constructor. Qed.

Lemma writes_sload P a k : writes P (sload a k).
Proof. constructor; [done|]. intros. constructor. Qed.

Lemma writes_store (P : Z -> Z -> Prop) a k v : P a k -> writes P (store a k v).
Proof. intros. constructor; [done|]. intros. constructor. Qed.

Lemma writes_sstore (P : Z -> Z -> Prop) a k v : P a k -> writes P (sstore a k v).
Proof. intros. constructor; [done|]. intros. constructor. Qed.

Lemma writes_emit P a ev : writes P (emit_event a ev).
Proof. constructor; [done|]. intros. constructor. Qed.

Lemma writes_block_number P : writes P block_number.
Proof. constructor; [done|]. intros. constructor. Qed.

Lemma writes_timestamp P : writes P timestamp.
Proof. constructor; [done|]. intros. constructor. Qed.

#[export] Hint Resolve wr_ret writes_load writes_sload writes_emit writes_block_number
  writes_timestamp : callnode.

Lemma writes_impl (P Q : Z -> Z -> Prop) {A} (p : prog A) :
  (forall a k, P a k -> Q a k) -> writes P p -> writes Q p.
Proof.
  intros HPQ Hp. induction Hp as [|R o k Ho _ IH]; constructor; [|done].
  destruct o; cbn in *; auto.
Qed.

(** [writes_prog] follows a program; what remains are the written slots. *)
Ltac writes_step :=
  match goal with
  | |- writes _ (Ret _) => constructor
  | |- writes _ (try_ _ _) => apply writes_try; [|intros]
  | |- writes _ (prog_map_err _ _) => apply writes_map_err
  | |- writes _ (prog_bind _ _) => apply writes_bind; [|intros]
  | |- writes _ (store _ _ _) => apply writes_store
  | |- writes _ (sstore _ _ _) => apply writes_sstore
  | |- writes _ (if ?b then _ else _) => destruct b eqn:?
  | |- writes _ (match ?x with _ => _ end) => destruct x eqn:?
  | |- writes _ _ => solve [auto with callnode]
  end.
Ltac writes_prog := repeat writes_step.

(** Unfolds the definition a program starts with. *)
Ltac writes_unfold :=
  match goal with
  | |- writes _ ?p =>
      let rec head t := lazymatch t with ?f _ => head f | _ => t end in
      let h := head p in unfold h
  end.

Lemma w_exec_env {R} (o : op R) (w : world) : w_env (sp_exec o w).2 = w_env w.
Proof.
  destruct o; cbn; try done; unfold sp_exec; cbn; by destruct (checked_add _ _ _) || destruct (checked_sub _ _).
Qed.

Lemma run_env {A} (p : prog A) (w : world) : w_env (run p w).2 = w_env w.
Proof.
  revert w. induction p as [a|R o k IH]; intros w; [done|].
  rewrite run_call, IH. apply w_exec_env.
Qed.

Lemma w_exec_frame (P : Z -> Z -> Prop) {R} (o : op R) (w : world) a k :
  op_writes P o -> ~ P a k -> wslot (sp_exec o w).2 a k = wslot w a k.
Proof.
  intros Ho Hn. destruct o; unfold sp_exec; cbn in *; try done;
    try (apply slot_put_ne; congruence).
  - by destruct (checked_add _ _ _).
  - by destruct (checked_sub _ _).
Qed.

(** A program leaves every slot it may not write as it is. *)
Lemma run_writes (P : Z -> Z -> Prop) {A} (p : prog A) (w : world) a k :
  writes P p -> ~ P a k -> wslot (run p w).2 a k = wslot w a k.
Proof.
  intros Hp Hn. revert w. induction Hp as [|R o c Ho _ IH]; intros w; [done|].
  rewrite run_call, IH. by apply (w_exec_frame P).
Qed.
