(* ===== verification/EvmProvider.v ===== *)
(** * EvmProvider: the production [StorageProvider] over revm's journal

    Models [EvmStorageProvider] of [crates/precompile/src/storage.rs].  revm's
    journal is a library: it is the class [JournalTr], and what the provider
    relies on is the class [JournalLaws], stated through the abstract storage
    of [World].  [Refinement] shows when a handler run on this provider has its
    [World] meaning. *)

From stdpp Require Import base gmap list strings.
From Stdlib Require Import ZArith Lia.
From S2P Require Import Prelude Provider World.

Local Open Scope Z_scope.

(** ** revm's journal *)

(** What [journal.sstore] reports. *)
Record SStoreResult : Type := mkSStore {
  original_value : Z;
  present_value : Z;
  sstore_is_cold : bool
}.

Class JournalTr (J : Type) : Type := {
  JournalCheckpoint : Type;
  j_load_account : Z -> J -> result string (Z * list Z) * J;
  j_sload : Z -> Z -> J -> result string (Z * bool) * J;
  j_sstore : Z -> Z -> Z -> J -> result string SStoreResult * J;
  j_tload : Z -> Z -> J -> Z;
  j_tstore : Z -> Z -> Z -> J -> J;
  j_log : Z -> LogData -> J -> J;
  j_checkpoint : J -> JournalCheckpoint * J;
  j_checkpoint_commit : J -> J;
  j_checkpoint_revert : JournalCheckpoint -> J -> J;
  j_incr_balance : Z -> Z -> J -> result string bool * J;
  j_decr_balance : Z -> Z -> J -> result string bool * J
}.

(** The journal's documented behaviour, for a database that does not fail: it
    is a storage with a stack of saved states. *)
Class JournalLaws (J : Type) `{JournalTr J} : Type := {
  j_view : J -> wstate;
  j_saved : J -> list (JournalCheckpoint * wstate);
  j_load_account_ok a j :
    exists j', j_load_account a j = (Ok (native (j_view j) a, code_of (j_view j) a), j') /\
      j_view j' = j_view j /\ j_saved j' = j_saved j;
  j_sload_ok a k j :
    exists c j', j_sload a k j = (Ok (slot (j_view j) a k, c), j') /\
      j_view j' = j_view j /\ j_saved j' = j_saved j;
  j_sstore_ok a k v j :
    exists r j', j_sstore a k v j = (Ok r, j') /\
      j_view j' = put_slot a k v (j_view j) /\ j_saved j' = j_saved j;
  j_tload_ok a k j : j_tload a k j = tslot (j_view j) a k;
  j_tstore_ok a k v j :
    j_view (j_tstore a k v j) = put_tslot a k v (j_view j) /\
    j_saved (j_tstore a k v j) = j_saved j;
  j_log_ok a ev j :
    j_view (j_log a ev j) = put_log a ev (j_view j) /\
    j_saved (j_log a ev j) = j_saved j;
  j_checkpoint_ok j :
    j_view (j_checkpoint j).2 = j_view j /\
    j_saved (j_checkpoint j).2 = ((j_checkpoint j).1, j_view j) :: j_saved j;
  j_commit_ok j :
    j_view (j_checkpoint_commit j) = j_view j /\
    j_saved (j_checkpoint_commit j) = tail (j_saved j);
  j_revert_ok cp m rest j :
    j_saved j = (cp, m) :: rest ->
    j_view (j_checkpoint_revert cp j) = m /\ j_saved (j_checkpoint_revert cp j) = rest;
  j_incr_ok a v j :
    exists b j', j_incr_balance a v j = (Ok b, j') /\ j_saved j' = j_saved j /\
      match checked_add U256_MAX (native (j_view j) a) v with
      | Some n => b = true /\ j_view j' = put_native a n (j_view j)
      | None => b = false /\ j_view j' = j_view j
      end;
  j_decr_ok a v j :
    exists b j', j_decr_balance a v j = (Ok b, j') /\ j_saved j' = j_saved j /\
      match checked_sub (native (j_view j) a) v with
      | Some n => b = true /\ j_view j' = put_native a n (j_view j)
      | None => b = false /\ j_view j' = j_view j
      end
}.

(** ** [EvmStorageProvider] *)

Record EvmStorageProvider (J : Type) : Type := mkEvm {
  evm_journal : J;
  evm_gas_remaining : Z;
  evm_gas_refunded : Z;
  evm_env : env;
  evm_sload_count : Z;
  evm_sstore_count : Z
}.
Arguments mkEvm {J}.
Arguments evm_journal {J}.
Arguments evm_gas_remaining {J}.
Arguments evm_gas_refunded {J}.
Arguments evm_env {J}.
Arguments evm_sload_count {J}.
Arguments evm_sstore_count {J}.

Section Evm.
Context {J : Type} `{!JournalTr J}.
Implicit Types (s : EvmStorageProvider J).

Definition evm_new (journal : J) (e : env) : EvmStorageProvider J :=
  mkEvm journal (e_gas_limit e) 0 e 0 0.

Definition evm_set_journal (j : J) s : EvmStorageProvider J :=
  mkEvm j (evm_gas_remaining s) (evm_gas_refunded s) (evm_env s)
    (evm_sload_count s) (evm_sstore_count s).

Definition evm_deduct_gas (gas : Z) s : res unit * EvmStorageProvider J :=
  match checked_sub (evm_gas_remaining s) gas with
  | Some g => (Ok tt, mkEvm (evm_journal s) g (evm_gas_refunded s) (evm_env s)
                        (evm_sload_count s) (evm_sstore_count s))
  | None => (Err OutOfGas, s)
  end.

Definition evm_refund_gas (gas : Z) s : EvmStorageProvider J :=
  mkEvm (evm_journal s) (evm_gas_remaining s)
    (saturating_add_i64 (evm_gas_refunded s) gas) (evm_env s)
    (evm_sload_count s) (evm_sstore_count s).

(** [self.journal.load_account(address).map_err(..)]: the account's balance
    and code. *)
Definition evm_load_account (a : Z) s : res (Z * list Z) * EvmStorageProvider J :=
  let '(r, j) := j_load_account a (evm_journal s) in
  (map_err (fun e => Other ("load_account error: " ++ e)%string) r, evm_set_journal j s).

Definition evm_journal_sload (a k : Z) s : res (Z * bool) * EvmStorageProvider J :=
  let '(r, j) := j_sload a k (evm_journal s) in
  (map_err (fun e => Other ("sload error: " ++ e)%string) r, evm_set_journal j s).

Definition evm_journal_sstore (a k v : Z) s : res SStoreResult * EvmStorageProvider J :=
  let '(r, j) := j_sstore a k v (evm_journal s) in
  (map_err (fun e => Other ("sstore error: " ++ e)%string) r, evm_set_journal j s).

Definition evm_sload (a k : Z) s : res Z * EvmStorageProvider J :=
  let s := mkEvm (evm_journal s) (evm_gas_remaining s) (evm_gas_refunded s) (evm_env s)
             (evm_sload_count s + 1) (evm_sstore_count s) in
  match evm_load_account a s with
  | (Err e, s) => (Err e, s)
  | (Ok _, s) =>
    match evm_journal_sload a k s with
    | (Err e, s) => (Err e, s)
    | (Ok (data, is_cold), s) =>
      match evm_deduct_gas (if is_cold : bool then COLD_SLOAD_COST
                            else WARM_STORAGE_READ_COST) s with
      | (Err e, s) => (Err e, s)
      | (Ok _, s) => (Ok data, s)
      end
    end
  end.

Definition evm_sstore (a k v : Z) s : res unit * EvmStorageProvider J :=
  let s := mkEvm (evm_journal s) (evm_gas_remaining s) (evm_gas_refunded s) (evm_env s)
             (evm_sload_count s) (evm_sstore_count s + 1) in
  if e_is_static (evm_env s) then (Err (Other "static call cannot mutate state"), s)
  else
  match evm_load_account a s with
  | (Err e, s) => (Err e, s)
  | (Ok _, s) =>
    match evm_journal_sstore a k v s with
    | (Err e, s) => (Err e, s)
    | (Ok r, s) =>
      let dynamic_gas := if sstore_is_cold r then COLD_SLOAD_COST else 0 in
      match evm_deduct_gas (SSTORE_SET_GAS + dynamic_gas) s with
      | (Err e, s) => (Err e, s)
      | (Ok _, s) =>
          (Ok tt,
           if ((original_value r =? v) && negb (present_value r =? v))
              || (negb (present_value r =? 0) && (v =? 0))
           then evm_refund_gas 4800 s else s)
      end
    end
  end.

Definition evm_tload (a k : Z) s : res Z * EvmStorageProvider J :=
  match evm_deduct_gas TLOAD_GAS s with
  | (Err e, s) => (Err e, s)
  | (Ok _, s) => (Ok (j_tload a k (evm_journal s)), s)
  end.

Definition evm_tstore (a k v : Z) s : res unit * EvmStorageProvider J :=
  if e_is_static (evm_env s) then (Err (Other "static call cannot mutate state"), s)
  else match evm_deduct_gas TSTORE_GAS s with
  | (Err e, s) => (Err e, s)
  | (Ok _, s) => (Ok tt, evm_set_journal (j_tstore a k v (evm_journal s)) s)
  end.

Definition evm_emit_event (a : Z) (ev : LogData) s : res unit * EvmStorageProvider J :=
  match evm_deduct_gas (log_gas ev) s with
  | (Err e, s) => (Err e, s)
  | (Ok _, s) => (Ok tt, evm_set_journal (j_log a ev (evm_journal s)) s)
  end.

(** [balance_add] and [balance_sub]: [load_account_mut] followed by
    [incr_balance] / [decr_balance], then the access gas. *)
Definition evm_balance_add (a amount : Z) s : res unit * EvmStorageProvider J :=
  if e_is_static (evm_env s) then (Err (Other "static call cannot mutate balance"), s)
  else
  let '(r, j) := j_incr_balance a amount (evm_journal s) in
  let s := evm_set_journal j s in
  match r with
  | Err e => (Err (Other ("load_account_mut error: " ++ e)%string), s)
  | Ok false => (Err (Other "balance overflow"), s)
  | Ok true => evm_deduct_gas BALANCE_ACCESS_GAS s
  end.

Definition evm_balance_sub (a amount : Z) s : res unit * EvmStorageProvider J :=
  if e_is_static (evm_env s) then (Err (Other "static call cannot mutate balance"), s)
  else
  let '(r, j) := j_decr_balance a amount (evm_journal s) in
  let s := evm_set_journal j s in
  match r with
  | Err e => (Err (Other ("load_account_mut error: " ++ e)%string), s)
  | Ok false => (Err (Other "insufficient native balance"), s)
  | Ok true => evm_deduct_gas BALANCE_ACCESS_GAS s
  end.

Definition evm_balance_get (a : Z) s : res Z * EvmStorageProvider J :=
  match evm_load_account a s with
  | (Err e, s) => (Err e, s)
  | (Ok acc, s) =>
    match evm_deduct_gas BALANCE_ACCESS_GAS s with
    | (Err e, s) => (Err e, s)
    | (Ok _, s) => (Ok acc.1, s)
    end
  end.

Definition evm_code_get (a : Z) s : res (list Z) * EvmStorageProvider J :=
  match evm_load_account a s with
  | (Err e, s) => (Err e, s)
  | (Ok acc, s) =>
    match evm_deduct_gas CODE_ACCESS_GAS s with
    | (Err e, s) => (Err e, s)
    | (Ok _, s) => (Ok acc.2, s)
    end
  end.

Definition evm_raw_sload (a k : Z) s : res Z * EvmStorageProvider J :=
  match evm_load_account a s with
  | (Err e, s) => (Err e, s)
  | (Ok _, s) =>
    match evm_journal_sload a k s with
    | (Err e, s) => (Err e, s)
    | (Ok (data, _), s) => (Ok data, s)
    end
  end.

Definition evm_raw_balance_get (a : Z) s : res Z * EvmStorageProvider J :=
  match evm_load_account a s with
  | (Err e, s) => (Err e, s)
  | (Ok acc, s) => (Ok acc.1, s)
  end.

Definition evm_raw_code_get (a : Z) s : res (list Z) * EvmStorageProvider J :=
  match evm_load_account a s with
  | (Err e, s) => (Err e, s)
  | (Ok acc, s) => (Ok acc.2, s)
  end.

Definition evm_raw_sstore (a k v : Z) s : res unit * EvmStorageProvider J :=
  if e_is_static (evm_env s) then (Err (Other "static call cannot mutate state"), s)
  else
  match evm_load_account a s with
  | (Err e, s) => (Err e, s)
  | (Ok _, s) =>
    match evm_journal_sstore a k v s with
    | (Err e, s) => (Err e, s)
    | (Ok _, s) => (Ok tt, s)
    end
  end.

Definition evm_checkpoint s : JournalCheckpoint * EvmStorageProvider J :=
  let '(cp, j) := j_checkpoint (evm_journal s) in (cp, evm_set_journal j s).
Definition evm_checkpoint_commit (_ : JournalCheckpoint) s : EvmStorageProvider J :=
  evm_set_journal (j_checkpoint_commit (evm_journal s)) s.
Definition evm_checkpoint_revert (cp : JournalCheckpoint) s : EvmStorageProvider J :=
  evm_set_journal (j_checkpoint_revert cp (evm_journal s)) s.

Definition evm_gas_used s : Z := e_gas_limit (evm_env s) - evm_gas_remaining s.

Definition evm_reset_gas_counters s : EvmStorageProvider J :=
  mkEvm (evm_journal s) (evm_gas_remaining s) (evm_gas_refunded s) (evm_env s) 0 0.

Definition evm_exec (R : Type) (o : op R) :
    EvmStorageProvider J -> R * EvmStorageProvider J :=
  match o in op R return EvmStorageProvider J -> R * EvmStorageProvider J with
  | OSload a k => evm_sload a k
  | OSstore a k v => evm_sstore a k v
  | OTload a k => evm_tload a k
  | OTstore a k v => evm_tstore a k v
  | OEmit a ev => evm_emit_event a ev
  | OCharge g => evm_deduct_gas (Z.of_N g)
  | OBalanceAdd a v => evm_balance_add a v
  | OBalanceSub a v => evm_balance_sub a v
  | OBalanceGet a => evm_balance_get a
  | OCodeGet a => evm_code_get a
  | ORawSload a k => evm_raw_sload a k
  | ORawSstore a k v => evm_raw_sstore a k v
  | ORawBalanceGet a => evm_raw_balance_get a
  | ORawCodeGet a => evm_raw_code_get a
  | OEnv => fun s => (evm_env s, s)
  end.

#[global] Instance Evm_provider : StorageProvider (EvmStorageProvider J) := {|
  Checkpoint := JournalCheckpoint;
  sp_exec := evm_exec;
  sp_checkpoint := evm_checkpoint;
  sp_commit := evm_checkpoint_commit;
  sp_revert := evm_checkpoint_revert;
  sp_gas_used := evm_gas_used;
  sp_gas_refunded := evm_gas_refunded;
  sp_reset_counters := evm_reset_gas_counters
|}.

End Evm.
