(* ===== verification/Refinement.v ===== *)
(** * Refinement: handlers on the production provider

    The domain storages read with [unwrap_or_default] and drop the result of
    writes, so a handler that runs out of gas keeps going.  This file shows
    when that is harmless on [EvmStorageProvider]: a failed read leaves less
    than [COLD_SLOAD_COST] gas, which the closing gas charge of a handler
    detects, and a write reaches the journal before its gas is charged. *)

From stdpp Require Import base gmap list strings.
From Stdlib Require Import ZArith Lia.
From S2P Require Import Prelude Provider World EvmProvider.

Local Open Scope Z_scope.

(** ** Guarded programs *)

Definition failed {E A} (p : prog (result E A)) : Prop := exists e, p = Ret (Err e).

(** The discipline the handlers follow.  Reads may ignore their error; writes
    either ignore it or propagate it; events, native balance updates and gas
    charges propagate it; a cheap event may ignore it.  [wr] says whether
    writes are allowed. *)
Inductive guarded {E A} (wr : bool) : prog (result E A) -> Prop :=
| g_ret r : guarded wr (Ret r)
| g_sload a k c : (forall v, guarded wr (c (Ok v))) -> guarded wr (Call (OSload a k) c)
| g_tload a k c : (forall v, guarded wr (c (Ok v))) -> guarded wr (Call (OTload a k) c)
| g_balance_get a c : (forall v, guarded wr (c (Ok v))) -> guarded wr (Call (OBalanceGet a) c)
| g_code_get a c : (forall v, guarded wr (c (Ok v))) -> guarded wr (Call (OCodeGet a) c)
| g_raw_sload a k c : (forall v, guarded wr (c (Ok v))) -> guarded wr (Call (ORawSload a k) c)
| g_raw_balance a c : (forall v, guarded wr (c (Ok v))) -> guarded wr (Call (ORawBalanceGet a) c)
| g_raw_code a c : (forall v, guarded wr (c (Ok v))) -> guarded wr (Call (ORawCodeGet a) c)
| g_env c : (forall v, guarded wr (c v)) -> guarded wr (Call OEnv c)
| g_sstore a k v c :
    wr = true -> guarded wr (c (Ok tt)) ->
    (c (Err OutOfGas) = c (Ok tt) \/ failed (c (Err OutOfGas))) ->
    guarded wr (Call (OSstore a k v) c)
| g_raw_sstore a k v c :
    wr = true -> guarded wr (c (Ok tt)) -> guarded wr (Call (ORawSstore a k v) c)
| g_tstore a k v c :
    wr = true -> guarded wr (c (Ok tt)) -> guarded wr (Call (OTstore a k v) c)
| g_emit a ev c :
    guarded wr (c (Ok tt)) -> failed (c (Err OutOfGas)) -> guarded wr (Call (OEmit a ev) c)
| g_emit_dropped a ev c :
    log_gas ev <= COLD_SLOAD_COST -> guarded wr (c (Ok tt)) -> guarded wr (Call (OEmit a ev) c)
| g_charge g c :
    guarded wr (c (Ok tt)) -> failed (c (Err OutOfGas)) -> guarded wr (Call (OCharge g) c)
| g_balance_add a v c :
    wr = true -> guarded wr (c (Ok tt)) -> (forall m, guarded wr (c (Err (Other m)))) ->
    failed (c (Err OutOfGas)) -> guarded wr (Call (OBalanceAdd a v) c)
| g_balance_sub a v c :
    wr = true -> guarded wr (c (Ok tt)) -> (forall m, guarded wr (c (Err (Other m)))) ->
    failed (c (Err OutOfGas)) -> guarded wr (Call (OBalanceSub a v) c).

#[export] Hint Constructors guarded : callnode.

(** Closure under sequencing. *)
Lemma guarded_bind {E E' A B} wr (p : prog (result E A)) (f : result E A -> prog (result E' B)) :
  guarded wr p -> (forall r, guarded wr (f r)) -> (forall e, failed (f (Err e))) ->
  guarded wr (prog_bind p f).
Proof.
  intros Hp Hf Hfail.
  assert (F : forall q : prog (result E A), failed q -> failed (prog_bind q f)).
  { intros q [e ->]. apply Hfail. }
  induction Hp; cbn; auto with callnode.
  constructor; auto. destruct H0 as [->|?]; auto.
Qed.

Lemma guarded_try {E A B} wr (p : prog (result E A)) (f : A -> prog (result E B)) :
  guarded wr p -> (forall a, guarded wr (f a)) -> guarded wr (try_ p f).
Proof.
  intros Hp Hf. apply guarded_bind; auto.
  - intros []; [auto | constructor].
  - intros e. by exists e.
Qed.

Lemma guarded_map_err {E E' A} wr (g : E -> E') (p : prog (result E A)) :
  guarded wr p -> guarded wr (prog_map_err g p).
Proof.
  intros Hp. apply guarded_bind; auto; [constructor|]. intros e. eexists. reflexivity.
Qed.

(** Programs with no error of their own, such as [load] and [store]. *)
Inductive benign {X} (wr : bool) : prog X -> Prop :=
| b_ret x : benign wr (Ret x)
| b_sload a k c : (forall v, benign wr (c (Ok v))) -> benign wr (Call (OSload a k) c)
| b_env c : (forall v, benign wr (c v)) -> benign wr (Call OEnv c)
| b_sstore a k v c :
    wr = true -> benign wr (c (Ok tt)) -> c (Err OutOfGas) = c (Ok tt) ->
    benign wr (Call (OSstore a k v) c).

#[export] Hint Constructors benign : callnode.

Lemma benign_bind {X Y} wr (p : prog X) (f : X -> prog Y) :
  benign wr p -> (forall x, benign wr (f x)) -> benign wr (prog_bind p f).
Proof.
  intros Hp Hf. induction Hp; cbn; auto with callnode. constructor; auto. by rewrite H0.
Qed.

Lemma guarded_benign_bind {X E B} wr (p : prog X) (f : X -> prog (result E B)) :
  benign wr p -> (forall x, guarded wr (f x)) -> guarded wr (prog_bind p f).
Proof.
  intros Hp Hf. induction Hp; cbn; auto with callnode.
  constructor; auto. left. by rewrite H0.
Qed.

Lemma benign_load wr a k : benign wr (load a k).
Proof. constructor. constructor. Qed.

Lemma benign_store a k v : benign true (store a k v).
Proof. constructor; [done | constructor | done]. Qed.

Lemma benign_timestamp wr : benign wr timestamp.
Proof. constructor. constructor. Qed.

Lemma benign_block_number wr : benign wr block_number.
Proof. constructor. constructor. Qed.

Lemma guarded_emit wr a ev : guarded wr (emit_event a ev).
Proof. constructor; [constructor | by eexists]. Qed.

Lemma guarded_charge wr g : guarded wr (charge_gas g).
Proof. constructor; [constructor | by eexists]. Qed.

Lemma guarded_balance_add a v : guarded true (balance_add a v).
Proof. constructor; [done | constructor | constructor | by eexists]. Qed.

Lemma guarded_balance_sub a v : guarded true (balance_sub a v).
Proof. constructor; [done | constructor | constructor | by eexists]. Qed.

#[export] Hint Resolve benign_load benign_store benign_timestamp benign_block_number
  guarded_emit guarded_charge guarded_balance_add guarded_balance_sub : callnode.

(** [guard_prog] proves [guarded] and [benign] goals by following the program. *)
Ltac guard_step :=
  match goal with
  | |- guarded _ (Ret _) => constructor
  | |- benign _ (Ret _) => constructor
  | |- guarded _ (try_ _ _) => apply guarded_try; [|intros]
  | |- guarded _ (prog_map_err _ _) => apply guarded_map_err
  | |- guarded _ (prog_bind _ _) => apply guarded_benign_bind; [|intros]
  | |- benign _ (prog_bind _ _) => apply benign_bind; [|intros]
  | |- guarded _ (if ?b then _ else _) => destruct b
  | |- benign _ (if ?b then _ else _) => destruct b
  | |- guarded _ (match ?x with _ => _ end) => destruct x
  | |- benign _ (match ?x with _ => _ end) => destruct x
  | |- _ => solve [auto with callnode]
  end.
Ltac guard_prog := repeat guard_step.

(** Programs that only read, whatever the answers are. *)
Inductive readonly {A} : prog A -> Prop :=
| ro_ret a : readonly (Ret a)
| ro_sload a k c : (forall r, readonly (c r)) -> readonly (Call (OSload a k) c)
| ro_tload a k c : (forall r, readonly (c r)) -> readonly (Call (OTload a k) c)
| ro_balance_get a c : (forall r, readonly (c r)) -> readonly (Call (OBalanceGet a) c)
| ro_code_get a c : (forall r, readonly (c r)) -> readonly (Call (OCodeGet a) c)
| ro_raw_sload a k c : (forall r, readonly (c r)) -> readonly (Call (ORawSload a k) c)
| ro_raw_balance a c : (forall r, readonly (c r)) -> readonly (Call (ORawBalanceGet a) c)
| ro_raw_code a c : (forall r, readonly (c r)) -> readonly (Call (ORawCodeGet a) c)
| ro_charge g c : (forall r, readonly (c r)) -> readonly (Call (OCharge g) c)
| ro_env c : (forall r, readonly (c r)) -> readonly (Call OEnv c).

#[export] Hint Constructors readonly : callnode.

Lemma readonly_bind {A B} (p : prog A) (f : A -> prog B) :
  readonly p -> (forall a, readonly (f a)) -> readonly (prog_bind p f).
Proof. intros Hp Hf. induction Hp; cbn; auto with callnode. Qed.

Lemma readonly_try {E A B} (p : prog (result E A)) (f : A -> prog (result E B)) :
  readonly p -> (forall a, readonly (f a)) -> readonly (try_ p f).
Proof. intros Hp Hf. apply readonly_bind; auto. intros []; auto with callnode. Qed.

Lemma readonly_map_err {E E' A} (g : E -> E') (p : prog (result E A)) :
  readonly p -> readonly (prog_map_err g p).
Proof. intros Hp. apply readonly_bind; auto with callnode. Qed.

Lemma readonly_sload a k : readonly (sload a k).
Proof. constructor. constructor. Qed.
Lemma readonly_load a k : readonly (load a k).
Proof. constructor. constructor. Qed.
Lemma readonly_charge g : readonly (charge_gas g).
Proof. constructor. constructor. Qed.

#[export] Hint Resolve readonly_sload readonly_load readonly_charge : callnode.

Ltac readonly_prog :=
  repeat match goal with
  | |- readonly (Ret _) => constructor
  | |- readonly (try_ _ _) => apply readonly_try; [|intros]
  | |- readonly (prog_map_err _ _) => apply readonly_map_err
  | |- readonly (prog_bind _ _) => apply readonly_bind; [|intros]
  | |- readonly (if ?b then _ else _) => destruct b
  | |- readonly (match ?x with _ => _ end) => destruct x
  | |- _ => solve [auto with callnode]
  end.

(** ** Gas and context are monotone *)

Lemma deduct_gas_cases {J : Type} g (s : EvmStorageProvider J) :
  (evm_deduct_gas g s = (Err OutOfGas, s) /\ evm_gas_remaining s < g) \/
  (g <= evm_gas_remaining s /\
   evm_deduct_gas g s = (Ok tt, mkEvm (evm_journal s) (evm_gas_remaining s - g)
     (evm_gas_refunded s) (evm_env s) (evm_sload_count s) (evm_sstore_count s))).
Proof.
  unfold evm_deduct_gas. destruct (checked_sub _ _) eqn:E.
  - apply checked_sub_Some in E as [-> ?]. right. split; [lia | done].
  - apply checked_sub_None in E. auto.
Qed.

Lemma log_gas_nonneg ev : 0 <= log_gas ev.
Proof. unfold log_gas, LOG, LOGTOPIC, LOGDATA. lia. Qed.

(** Case analysis on a provider's journal calls and gas deduction. *)
Ltac evm_cases :=
  repeat match goal with
  | |- context [j_load_account ?a ?j] =>
      let E := fresh "E" in
      destruct (j_load_account_ok a j) as (? & E & ? & ?); rewrite E; cbn
  | |- context [j_sload ?a ?k ?j] =>
      let E := fresh "E" in
      destruct (j_sload_ok a k j) as (? & ? & E & ? & ?); rewrite E; cbn
  | |- context [j_sstore ?a ?k ?v ?j] =>
      let E := fresh "E" in
      destruct (j_sstore_ok a k v j) as (? & ? & E & ? & ?); rewrite E; cbn
  | |- context [j_incr_balance ?a ?v ?j] =>
      let E := fresh "E" in
      destruct (j_incr_ok a v j) as (? & ? & E & ? & ?); rewrite E; cbn
  | |- context [j_decr_balance ?a ?v ?j] =>
      let E := fresh "E" in
      destruct (j_decr_ok a v j) as (? & ? & E & ? & ?); rewrite E; cbn
  | |- context [if ?b then _ else _] => destruct b eqn:?; cbn in *
  | |- context [evm_deduct_gas ?g ?s] =>
      let E := fresh "E" in
      destruct (deduct_gas_cases g s) as [[E ?] | [? E]]; rewrite E; clear E; cbn in *
  end.

Ltac evm_unfold :=
  unfold evm_sload, evm_sstore, evm_tload, evm_tstore, evm_emit_event, evm_balance_add,
    evm_balance_sub, evm_balance_get, evm_code_get, evm_raw_sload, evm_raw_sstore,
    evm_raw_balance_get, evm_raw_code_get, evm_load_account, evm_journal_sload,
    evm_journal_sstore, evm_refund_gas, evm_set_journal in *; cbn.

Section Evm.
Context {J : Type} `{HJ : JournalTr J} `{HL : !JournalLaws J}.
Implicit Types (s : EvmStorageProvider J) (w : world).

(** What no method changes: the call context, the saved states, and the gas
    only goes down. *)
Definition evm_frame s s' : Prop :=
  evm_env s' = evm_env s /\
  j_saved (evm_journal s') = j_saved (evm_journal s) /\
  evm_gas_remaining s' <= evm_gas_remaining s.

#[global] Instance evm_frame_preorder : PreOrder evm_frame.
Proof.
  split; [intros s; repeat split; lia|].
  intros s1 s2 s3 (?&?&?) (?&?&?). repeat split; try congruence; lia.
Qed.

Lemma exec_frame {R} (o : op R) s : evm_frame s (sp_exec o s).2.
Proof.
  unfold evm_frame.
  unfold sp_exec. destruct o; cbn; evm_unfold; evm_cases;
    repeat match goal with
    | |- context [j_saved (j_tstore ?a ?k ?v ?j)] => rewrite (proj2 (j_tstore_ok a k v j))
    | |- context [j_saved (j_log ?a ?e ?j)] => rewrite (proj2 (j_log_ok a e j))
    end;
    pose proof log_gas_nonneg;
    repeat split; try congruence; unfold COLD_SLOAD_COST, WARM_STORAGE_READ_COST,
      SSTORE_SET_GAS, BALANCE_ACCESS_GAS, CODE_ACCESS_GAS, TLOAD_GAS, TSTORE_GAS in *;
    unfold WARM_STORAGE_READ_COST in *;
    try match goal with H : forall ev, 0 <= log_gas ev |- context [log_gas ?e] => specialize (H e) end;
    try lia.
Qed.

Lemma run_frame {A} (p : prog A) s : evm_frame s (run p s).2.
Proof.
  revert s. induction p as [a|R o k IH]; intros s; [reflexivity|].
  rewrite run_call. transitivity (sp_exec o s).2; [apply exec_frame | apply IH].
Qed.

(** Read-only programs leave the journal's storage as it is. *)
Lemma run_readonly {A} (p : prog A) s :
  readonly p -> j_view (evm_journal (run p s).2) = j_view (evm_journal s).
Proof.
  intros Hp. revert s. induction Hp; intros s; [done|..]; rewrite run_call; rewrite H0.
  all: unfold sp_exec; cbn; evm_unfold; evm_cases; congruence.
Qed.

(** ** The refinement relation *)

Definition sync s w : Prop :=
  j_view (evm_journal s) = w_cur w /\ evm_env s = w_env w.

(** A method agrees with the world, or gas ran out. *)
Definition low_gas s : Prop := evm_gas_remaining s < COLD_SLOAD_COST.

Lemma low_gas_run {A} (p : prog A) s : low_gas s -> low_gas (run p s).2.
Proof. unfold low_gas. destruct (run_frame p s) as (_&_&?). lia. Qed.

(** Outcome of running a guarded program from synchronised states. *)
Definition refines_out {E A} (x : result E A * EvmStorageProvider J)
    (y : result E A * world) : Prop :=
  (x.1 = y.1 /\ sync x.2 y.2) \/ low_gas x.2 \/ is_ok x.1 = false.

(** Reads: the value of the world, or out of gas with less than a cold read's
    gas left. *)
Definition read_ok {X} (x : res X * EvmStorageProvider J) (y : res X * world) : Prop :=
  (x.1 = y.1 /\ sync x.2 y.2) \/ low_gas x.2.

#[local] Ltac read_tac :=
  intros [Hv He]; unfold sp_exec; cbn; evm_unfold; evm_cases; unfold read_ok, sync, low_gas; cbn;
  unfold BALANCE_ACCESS_GAS, CODE_ACCESS_GAS, TLOAD_GAS, TSTORE_GAS, COLD_SLOAD_COST,
    WARM_STORAGE_READ_COST in *;
  try (right; lia); left; rewrite ?j_tload_ok in *; repeat split; congruence.

Lemma read_sload a k s w : sync s w -> read_ok (sp_exec (OSload a k) s) (sp_exec (OSload a k) w).
Proof. read_tac. Qed.

Lemma read_tload a k s w : sync s w -> read_ok (sp_exec (OTload a k) s) (sp_exec (OTload a k) w).
Proof. read_tac. Qed.

Lemma read_balance_get a s w :
  sync s w -> read_ok (sp_exec (OBalanceGet a) s) (sp_exec (OBalanceGet a) w).
Proof. read_tac. Qed.

Lemma read_code_get a s w :
  sync s w -> read_ok (sp_exec (OCodeGet a) s) (sp_exec (OCodeGet a) w).
Proof. read_tac. Qed.

Lemma read_raw_sload a k s w :
  sync s w -> read_ok (sp_exec (ORawSload a k) s) (sp_exec (ORawSload a k) w).
Proof. read_tac. Qed.

Lemma read_raw_balance a s w :
  sync s w -> read_ok (sp_exec (ORawBalanceGet a) s) (sp_exec (ORawBalanceGet a) w).
Proof. read_tac. Qed.

Lemma read_raw_code a s w :
  sync s w -> read_ok (sp_exec (ORawCodeGet a) s) (sp_exec (ORawCodeGet a) w).
Proof. read_tac. Qed.

(** Writes and events: the world's effect, or the answer is [OutOfGas].  A
    write has then already reached the journal. *)
#[local] Ltac write_tac :=
  intros [Hv He] ?; unfold sp_exec; cbn; evm_unfold; evm_cases; cbn in *;
  rewrite ?(fun a ev j => proj1 (j_log_ok a ev j)), ?(fun a k v j => proj1 (j_tstore_ok a k v j));
  unfold sync; cbn; try congruence;
  first [ by left; repeat split; congruence
        | by right; repeat split; congruence ].

Lemma write_sstore a k v s w :
  sync s w -> e_is_static (evm_env s) = false ->
  let x := sp_exec (OSstore a k v) s in
  (x.1 = Ok tt /\ sync x.2 (sp_exec (OSstore a k v) w).2) \/
  (x.1 = Err OutOfGas /\ sync x.2 (sp_exec (OSstore a k v) w).2).
Proof. write_tac. Qed.

Lemma write_raw_sstore a k v s w :
  sync s w -> e_is_static (evm_env s) = false ->
  let x := sp_exec (ORawSstore a k v) s in
  x.1 = Ok tt /\ sync x.2 (sp_exec (ORawSstore a k v) w).2.
Proof.
  intros [Hv He] Hs. unfold sp_exec; cbn; evm_unfold; evm_cases; unfold sync; cbn;
    repeat split; congruence.
Qed.

Lemma write_tstore a k v s w :
  sync s w -> e_is_static (evm_env s) = false ->
  let x := sp_exec (OTstore a k v) s in
  (x.1 = Ok tt /\ sync x.2 (sp_exec (OTstore a k v) w).2) \/ low_gas x.2.
Proof.
  intros [Hv He] Hs. unfold sp_exec; cbn; evm_unfold; evm_cases; unfold low_gas, sync; cbn;
    try congruence.
  - right. unfold TSTORE_GAS, COLD_SLOAD_COST in *. lia.
  - left. rewrite (proj1 (j_tstore_ok _ _ _ _)). repeat split; congruence.
Qed.

Lemma write_emit a ev s w :
  sync s w ->
  let x := sp_exec (OEmit a ev) s in
  (x.1 = Ok tt /\ sync x.2 (sp_exec (OEmit a ev) w).2) \/ x.1 = Err OutOfGas.
Proof.
  intros [Hv He]. unfold sp_exec; cbn; evm_unfold; evm_cases; unfold sync; cbn; auto.
  left. rewrite (proj1 (j_log_ok _ _ _)). repeat split; congruence.
Qed.

Lemma write_charge g s w :
  sync s w ->
  let x := sp_exec (OCharge g) s in
  (x.1 = Ok tt /\ sync x.2 w) \/ x.1 = Err OutOfGas.
Proof.
  intros [Hv He]. unfold sp_exec; cbn; evm_unfold; evm_cases; unfold sync; cbn; auto.
Qed.

#[local] Ltac balance_tac :=
  intros [Hv He] Hs; unfold sp_exec; cbn; evm_unfold; rewrite Hs; evm_cases;
  rewrite <- Hv;
  match goal with H : match ?c with Some _ => _ | None => _ end |- _ => destruct c end;
  destruct_and?; simplify_eq; evm_cases; unfold sync; cbn; auto;
  left; repeat split; congruence.

Lemma write_balance_add a v s w :
  sync s w -> e_is_static (evm_env s) = false ->
  let x := sp_exec (OBalanceAdd a v) s in
  let y := sp_exec (OBalanceAdd a v) w in
  (x.1 = y.1 /\ sync x.2 y.2) \/ x.1 = Err OutOfGas.
Proof. balance_tac. Qed.

Lemma write_balance_sub a v s w :
  sync s w -> e_is_static (evm_env s) = false ->
  let x := sp_exec (OBalanceSub a v) s in
  let y := sp_exec (OBalanceSub a v) w in
  (x.1 = y.1 /\ sync x.2 y.2) \/ x.1 = Err OutOfGas.
Proof. balance_tac. Qed.

Definition writable (wr : bool) s : Prop := wr = true -> e_is_static (evm_env s) = false.

Lemma writable_exec wr {R} (o : op R) s : writable wr s -> writable wr (sp_exec o s).2.
Proof. unfold writable. by rewrite (proj1 (exec_frame o s)). Qed.

Lemma refines_failed {E A} (p : prog (result E A)) s y : failed p -> refines_out (run p s) y.
Proof. intros [e ->]. right; right. done. Qed.

Lemma refines_read {E A X} wr (o : op (res X)) (c : res X -> prog (result E A)) s w :
  read_ok (sp_exec o s) (sp_exec o w) ->
  (exists v, (sp_exec o w).1 = Ok v) -> writable wr s ->
  (forall v s' w', sync s' w' -> writable wr s' ->
     refines_out (run (c (Ok v)) s') (run (c (Ok v)) w')) ->
  refines_out (run (Call o c) s) (run (Call o c) w).
Proof.
  intros [[E1 Hs]|L] [v Ev] Hw IH; rewrite !run_call.
  - rewrite E1, Ev. apply IH; [done | by apply writable_exec].
  - right; left. by apply low_gas_run.
Qed.

(** Guarded programs refine their meaning on the world. *)
Lemma run_refines {E A} wr (p : prog (result E A)) :
  guarded wr p -> forall s w, sync s w -> writable wr s -> refines_out (run p s) (run p w).
Proof.
  induction 1; intros s w Hs Hw; [by left| ..].
  1-7: eapply refines_read; eauto using read_sload, read_tload, read_balance_get,
         read_code_get, read_raw_sload, read_raw_balance, read_raw_code; eexists; reflexivity.
  - rewrite !run_call. unfold sp_exec; cbn. rewrite (proj2 Hs). auto.
  - subst wr. rewrite !run_call.
    destruct (write_sstore a k v s w Hs (Hw eq_refl)) as [[E1 S1]|[E1 S1]]; rewrite E1.
    + apply IHguarded; [done | by apply writable_exec].
    + destruct H1 as [E2|F]; [|by apply refines_failed].
      rewrite E2. apply IHguarded; [done | by apply writable_exec].
  - subst wr. rewrite !run_call.
    destruct (write_raw_sstore a k v s w Hs (Hw eq_refl)) as [E1 S1]. rewrite E1.
    apply IHguarded; [done | by apply writable_exec].
  - subst wr. rewrite !run_call.
    destruct (write_tstore a k v s w Hs (Hw eq_refl)) as [[E1 S1]|L].
    + rewrite E1. apply IHguarded; [done | by apply writable_exec].
    + right; left. by apply low_gas_run.
  - rewrite !run_call. destruct (write_emit a ev s w Hs) as [[E1 S1]|E1]; rewrite E1.
    + apply IHguarded; [done | by apply writable_exec].
    + by apply refines_failed.
  - rewrite !run_call. destruct (write_emit a ev s w Hs) as [[E1 S1]|E1].
    + rewrite E1. apply IHguarded; [done | by apply writable_exec].
    + right; left. apply low_gas_run. revert E1. unfold low_gas, sp_exec; cbn; evm_unfold;
        evm_cases; [lia | done].
  - rewrite !run_call. destruct (write_charge g s w Hs) as [[E1 S1]|E1]; rewrite E1.
    + apply IHguarded; [done | by apply writable_exec].
    + by apply refines_failed.
  - subst wr. rewrite !run_call.
    destruct (write_balance_add a v s w Hs (Hw eq_refl)) as [[E1 S1]|E1]; rewrite E1;
      [|by apply refines_failed].
    unfold sp_exec in S1 |- *. cbn in S1 |- *.
    destruct (checked_add _ _ _); auto using writable_exec.
    + apply IHguarded; [done|]. by apply (writable_exec true (OBalanceAdd a v)).
    + apply H2; [done|]. by apply (writable_exec true (OBalanceAdd a v)).
  - subst wr. rewrite !run_call.
    destruct (write_balance_sub a v s w Hs (Hw eq_refl)) as [[E1 S1]|E1]; rewrite E1;
      [|by apply refines_failed].
    unfold sp_exec in S1 |- *. cbn in S1 |- *.
    destruct (checked_sub _ _).
    + apply IHguarded; [done|]. by apply (writable_exec true (OBalanceSub a v)).
    + apply H2; [done|]. by apply (writable_exec true (OBalanceSub a v)).
Qed.

End Evm.
