(* ===== verification/Dispatch.v ===== *)
(** * Dispatch: the precompile dispatch framework

    Models [crates/precompile/src/dispatch.rs] ([view], [view_void],
    [mutate], [mutate_void]), [fill_precompile_output] of [storage.rs] and the
    part of [CallPrecompiles::run] ([precompile/src/lib.rs]) that accounts a
    custom precompile's gas.  ABI decoding and encoding are alloy's: they are
    the arguments [decode] and [encode]. *)

From stdpp Require Import base gmap list strings.
From Stdlib Require Import ZArith Lia.
From S2P Require Import Prelude Provider World EvmProvider Refinement.

Local Open Scope Z_scope.

(** revm's [PrecompileOutput]. *)
Record PrecompileOutput : Type := mkOut {
  out_gas_used : Z;
  out_gas_refunded : Z;
  out_bytes : list Z;
  out_reverted : bool
}.

(** [PrecompileOutput::new(0, bytes)]. *)
Definition output_new (bs : list Z) : PrecompileOutput := mkOut 0 0 bs false.

Section Dispatch.
Context {S : Type} `{!StorageProvider S}.
Context {T R : Type}.
Variable decode : list Z -> result string T.
Variable encode : R -> list Z.

Definition fill_precompile_output (o : PrecompileOutput) (s : S) : PrecompileOutput :=
  mkOut (sp_gas_used s)
    (if out_reverted o then out_gas_refunded o else sp_gas_refunded s)
    (out_bytes o) (out_reverted o).

Definition decode_call (calldata : list Z) : res T :=
  map_err (fun e => Other ("decode error: " ++ e)%string) (decode calldata).

Definition view (calldata : list Z) (gas : N) (handler : T -> prog (res R)) (s : S) :
    res PrecompileOutput * S :=
  let s := sp_reset_counters s in
  match decode_call calldata with
  | Err e => (Err e, s)
  | Ok call =>
    match run (handler call) s with
    | (Err e, s) => (Err e, s)
    | (Ok v, s) =>
      match sp_exec (OCharge gas) s with
      | (Err e, s) => (Err e, s)
      | (Ok _, s) => (Ok (fill_precompile_output (output_new (encode v)) s), s)
      end
    end
  end.

Definition mutate (calldata : list Z) (gas : N) (handler : T -> prog (res R)) (s : S) :
    res PrecompileOutput * S :=
  let s := sp_reset_counters s in
  match decode_call calldata with
  | Err e => (Err e, s)
  | Ok call =>
    let '(cp, s) := sp_checkpoint s in
    match run (handler call) s with
    | (Ok v, s) =>
      match sp_exec (OCharge gas) s with
      | (Ok _, s) =>
          let s := sp_commit cp s in
          (Ok (fill_precompile_output (output_new (encode v)) s), s)
      | (Err _, s) => (Err OutOfGas, sp_revert cp s)
      end
    | (Err e, s) => (Err e, sp_revert cp s)
    end
  end.

End Dispatch.

(** [view_void] and [mutate_void] return no bytes. *)
Definition view_void {S} `{!StorageProvider S} {T} (decode : list Z -> result string T) :=
  view (S := S) decode (fun _ : unit => []).
Definition mutate_void {S} `{!StorageProvider S} {T} (decode : list Z -> result string T) :=
  mutate (S := S) decode (fun _ : unit => []).

(** ** Gas accounting of [CallPrecompiles::run]

    revm's [Gas]: [record_cost] fails when the cost exceeds what remains. *)
Inductive InstructionResult : Type := Return | Revert | PrecompileOOG | PrecompileErr.

Record InterpreterResult : Type := mkIR {
  ir_result : InstructionResult;
  ir_gas_remaining : Z;
  ir_gas_refunded : Z;
  ir_output : list Z
}.

(** The result of the custom-precompile branch: [None] is the panic of
    [assert!(underflow, "Gas underflow is not possible")], [Some (Err e)] is a
    fatal error. *)
Definition custom_result (gas_limit : Z) (r : res PrecompileOutput) :
    option (result string InterpreterResult) :=
  match r with
  | Ok o =>
      g ← checked_sub gas_limit (out_gas_used o);
      Some (Ok (mkIR (if out_reverted o then Revert else Return) g
                  (out_gas_refunded o) (out_bytes o)))
  | Err (Fatal e) => Some (Err e)
  | Err OutOfGas => Some (Ok (mkIR PrecompileOOG gas_limit 0 []))
  | Err (Other _) => Some (Ok (mkIR PrecompileErr gas_limit 0 []))
  end.

(** ** Properties on the production provider *)

(** The abstract storage and the saved states of a provider. *)
Abbreviation vw s := (j_view (evm_journal s)).
Abbreviation saved s := (j_saved (evm_journal s)).

Section Evm.
Context {J : Type} `{HJ : JournalTr J} `{HL : !JournalLaws J}.
Context {T R : Type}.
Variable decode : list Z -> result string T.
Variable encode : R -> list Z.
Implicit Types (s : EvmStorageProvider J).


(** The world a provider state stands for. *)
Definition abs (s : EvmStorageProvider J) : world := mkWorld (vw s) (evm_env s) [].

Lemma sync_abs s : sync s (abs s).
Proof. done. Qed.

Lemma charge_cases (g : N) s :
  (sp_exec (OCharge g) s = (Err OutOfGas, s) /\ evm_gas_remaining s < Z.of_N g) \/
  (exists s', sp_exec (OCharge g) s = (Ok tt, s') /\ Z.of_N g <= evm_gas_remaining s /\
     evm_gas_remaining s' = evm_gas_remaining s - Z.of_N g /\
     evm_journal s' = evm_journal s /\ evm_env s' = evm_env s).
Proof.
  unfold sp_exec; cbn. destruct (deduct_gas_cases (Z.of_N g) s) as [[-> ?]|[? ->]]; eauto 10.
Qed.

(** What happens between a checkpoint and its revert leaves nothing behind. *)
Lemma checkpoint_revert s s1 :
  evm_frame (sp_checkpoint s).2 s1 ->
  let s' := sp_revert (sp_checkpoint s).1 s1 in
  vw s' = vw s /\ saved s' = saved s /\ evm_env s' = evm_env s.
Proof.
  cbn. unfold evm_checkpoint, evm_checkpoint_revert.
  destruct (j_checkpoint_ok (evm_journal s)) as [Hv Hs].
  destruct (j_checkpoint (evm_journal s)) as [cp j] eqn:E; cbn in *.
  intros (He & Hsv & _); cbn in *. rewrite Hs in Hsv.
  destruct (j_revert_ok _ _ _ _ Hsv) as [-> ->]. auto.
Qed.

Lemma checkpoint_commit s s1 :
  evm_frame (sp_checkpoint s).2 s1 ->
  let s' := sp_commit (sp_checkpoint s).1 s1 in
  vw s' = vw s1 /\ saved s' = saved s /\ evm_env s' = evm_env s.
Proof.
  cbn. unfold evm_checkpoint, evm_checkpoint_commit.
  destruct (j_checkpoint_ok (evm_journal s)) as [Hv Hs].
  destruct (j_checkpoint (evm_journal s)) as [cp j] eqn:E; cbn in *.
  intros (He & Hsv & _); cbn in *. rewrite Hs in Hsv.
  destruct (j_commit_ok (evm_journal s1)) as [-> ->]. by rewrite Hsv.
Qed.

Lemma sync_checkpoint s : sync (sp_checkpoint s).2 (abs s).
Proof.
  unfold sync; cbn. unfold evm_checkpoint.
  destruct (j_checkpoint_ok (evm_journal s)) as [Hv _].
  destruct (j_checkpoint (evm_journal s)); cbn in *. by rewrite Hv.
Qed.

(** Outcome of a mutating call: all of the handler's meaning, or nothing. *)
Definition call_outcome (handler : T -> prog (res R)) (calldata : list Z) s
    (x : res PrecompileOutput * EvmStorageProvider J) : Prop :=
  saved x.2 = saved s /\
  match x.1 with
  | Err _ => vw x.2 = vw s
  | Ok o => exists call v,
      decode calldata = Ok call /\
      (run (handler call) (abs s)).1 = Ok v /\
      vw x.2 = w_cur (run (handler call) (abs s)).2 /\
      out_bytes o = encode v
  end.

Lemma mutate_outcome_on handler calldata (gas : N) s :
  (forall call, decode calldata = Ok call -> guarded true (handler call)) ->
  e_is_static (evm_env s) = false -> COLD_SLOAD_COST <= Z.of_N gas ->
  call_outcome handler calldata s (mutate decode encode calldata gas handler s).
Proof.
  intros Hg Hst Hgas. unfold mutate, decode_call, call_outcome.
  set (s0 := sp_reset_counters s). change (abs s) with (abs s0).
  change (vw s) with (vw s0). change (saved s) with (saved s0).
  destruct (decode calldata) as [call|e] eqn:Ed; [|done]. cbn [map_err].
  destruct (sp_checkpoint s0) as [cp s1] eqn:Ecp.
  assert (Hs1 : s1 = (sp_checkpoint s0).2) by (by rewrite Ecp).
  assert (Hcp : cp = (sp_checkpoint s0).1) by (by rewrite Ecp).
  pose proof (run_frame (handler call) s1) as F.
  destruct (run_refines true _ (Hg call eq_refl) s1 (abs s0)) as [[E1 S1]|HR].
  { rewrite Hs1. apply sync_checkpoint. }
  { intros _. rewrite Hs1. cbn. unfold evm_checkpoint. by destruct (j_checkpoint _). }
  all: destruct (run (handler call) s1) as [[v|e] s2]; cbn [fst snd] in *; subst s1 cp;
    try (destruct (checkpoint_revert s0 s2 F) as (?&?&?); done).
  all: pose proof (exec_frame (OCharge gas) s2) as F2;
    destruct (charge_cases gas s2) as [[E ?]|(s3 & E & ? & ? & Ej & ?)];
    rewrite E in F2 |- *; cbn [snd] in F2;
    try (destruct (checkpoint_revert s0 s2 F) as (?&?&?); done).
  all: destruct (checkpoint_commit s0 s3) as (Hv & Hs & _); [by etransitivity|];
    cbn [fst snd] in *; split; [exact Hs|].
  - exists call, v. rewrite Hv, Ej. destruct S1. rewrite <- E1. auto.
  - destruct HR as [HR|HR]; [unfold low_gas in HR; lia | done].
Qed.

Lemma mutate_outcome handler calldata (gas : N) s :
  (forall call, guarded true (handler call)) ->
  e_is_static (evm_env s) = false -> COLD_SLOAD_COST <= Z.of_N gas ->
  call_outcome handler calldata s (mutate decode encode calldata gas handler s).
Proof. intros Hg. apply mutate_outcome_on. auto. Qed.

(** A view call that succeeds with at least [COLD_SLOAD_COST] base gas returns
    the value the world's storage determines. *)
Lemma view_outcome handler calldata (gas : N) s :
  (forall call, guarded false (handler call)) -> COLD_SLOAD_COST <= Z.of_N gas ->
  forall o s', view decode encode calldata gas handler s = (Ok o, s') ->
  exists call v, decode calldata = Ok call /\
    (run (handler call) (abs s)).1 = Ok v /\ out_bytes o = encode v.
Proof.
  intros Hg Hgas o s'. unfold view, decode_call.
  set (s0 := sp_reset_counters s). change (abs s) with (abs s0).
  destruct (decode calldata) as [call|e]; [|done]. cbn [map_err].
  destruct (run_refines false _ (Hg call) s0 (abs s0)) as [[E1 S1]|HR]; [done|done|..].
  all: destruct (run (handler call) s0) as [[v|e] s2]; cbn [fst snd] in *; [|done].
  all: destruct (charge_cases gas s2) as [[-> ?]|(s3 & -> & ? & ? & Ej & ?)]; [done|].
  - intros [= <- <-]. eauto 10.
  - destruct HR as [HR|HR]; [unfold low_gas in HR; lia | done].
Qed.

End Evm.

Section Views.
Context {J : Type} `{HJ : JournalTr J} `{HL : !JournalLaws J}.
Implicit Types (s : EvmStorageProvider J).

(** A view with a read-only handler leaves the storage alone. *)
Lemma view_readonly {T R} (dec : list Z -> result string T) (enc : R -> list Z) calldata gas h s :
  (forall c, readonly (h c)) -> vw (view dec enc calldata gas h s).2 = vw s.
Proof.
  intros Hr. unfold view. destruct (decode_call dec calldata) as [c|e]; [|done].
  pose proof (run_readonly (h c) (sp_reset_counters s) (Hr c)) as E.
  destruct (run (h c) (sp_reset_counters s)) as [[v|e] s1]; cbn [snd] in E; [|exact E].
  destruct (charge_cases gas s1) as [[-> _]|(s2 & -> & _ & _ & Ej & _)]; cbn [snd].
  - exact E.
  - rewrite Ej. exact E.
Qed.

End Views.
