(* ===== verification/Utils.v ===== *)
(** * Utils: shared precompile helpers

    Models [crates/precompile/src/utils.rs] and [storage_slot] of [storage.rs]:
    ABI word decoding and encoding, conversions of storage words, slot
    layouts, and the compliance, balance and caller checks the precompiles
    share.  keccak256 is a library function: it is the class [Keccak]. *)

From stdpp Require Import base gmap list strings.
From Stdlib Require Import ZArith Lia.
From S2P Require Import Prelude Provider World EvmProvider Refinement.

Local Open Scope Z_scope.
Local Open Scope callnode_scope.

(** ** Addresses *)

Definition ORACLE_ADDRESS : Z := 0x101.
Definition BRIDGE_ADDRESS : Z := 0x103.
Definition ASSET_ADDRESS : Z := 0x201.
Definition SHIELDED_ADDRESS : Z := 0x202.
Definition GOVERNANCE_ADDRESS : Z := 0x203.
Definition VALIDATOR_ADDRESS : Z := 0x204.
Definition COMPLIANCE_ADDRESS : Z := 0x205.
Definition SWITCH_ADDRESS : Z := 0x207.
Definition AGENT_ADDRESS : Z := 0x209.
Definition WRAPPED_TOKEN_FACTORY_ADDRESS : Z := 0x20a.

(** An address is a 160-bit number; its byte string is [addr.as_slice()]. *)
Definition ADDRESS_MAX : Z := 2 ^ 160 - 1.
Definition addr_bytes (a : Z) : list Z := be_bytes 20 a.
Definition u64_bytes (v : Z) : list Z := be_bytes 8 v.

(** ** ABI word decoding *)

(** [input[start..start + n]]. *)
Definition slice (input : list Z) (start n : nat) : list Z := take n (drop start input).

Definition decode_u64 (input : list Z) (slot_offset : nat) : option Z :=
  let start := (slot_offset + 24)%nat in
  if (length input <? start + 8)%nat then None
  else Some (from_be (slice input start 8)).

Definition decode_u128 (input : list Z) (slot_offset : nat) : option Z :=
  let start := (slot_offset + 16)%nat in
  if (length input <? start + 16)%nat then None
  else Some (from_be (slice input start 16)).

Definition decode_address (input : list Z) (slot_offset : nat) : option Z :=
  let start := (slot_offset + 12)%nat in
  if (length input <? start + 20)%nat then None
  else Some (from_be (slice input start 20)).

Definition decode_u8 (input : list Z) (slot_offset : nat) : option Z :=
  if (length input <? slot_offset + 32)%nat then None
  else input !! (slot_offset + 31)%nat.

Definition decode_bytes32 (input : list Z) (slot_offset : nat) : option (list Z) :=
  if (length input <? slot_offset + 32)%nat then None
  else Some (slice input slot_offset 32).

Definition decode_u256_usize (input : list Z) (slot_offset : nat) : option Z :=
  if (length input <? slot_offset + 32)%nat then None
  else Some (from_be (slice (slice input slot_offset 32) 24 8)).

(** ** ABI word encoding *)

Definition encode_u128 (v : Z) : list Z := replicate 16 0 ++ be_bytes 16 v.
Definition encode_u64 (v : Z) : list Z := replicate 24 0 ++ be_bytes 8 v.
Definition encode_u8 (v : Z) : list Z := replicate 31 0 ++ [v].
Definition encode_u256 (v : Z) : list Z := encode_u128 v.
Definition encode_bool (b : bool) : list Z := encode_u8 (if b then 1 else 0).

(** ** Storage word conversions *)

Definition u256_to_u128 (v : Z) : Z := from_be (slice (be_bytes 32 v) 16 16).
Definition u128_to_u256 (v : Z) : Z := from_be (replicate 16 0 ++ be_bytes 16 v).
Definition u256_to_u64 (v : Z) : Z := from_be (slice (be_bytes 32 v) 24 8).
Definition u64_to_u256 (v : Z) : Z := from_be (replicate 24 0 ++ be_bytes 8 v).
Definition u256_to_u8 (v : Z) : Z := default 0 (be_bytes 32 v !! 31%nat).
Definition u8_to_u256 (v : Z) : Z := from_be (replicate 31 0 ++ [v]).
Definition u256_to_address (v : Z) : Z := from_be (slice (be_bytes 32 v) 12 20).
Definition address_to_u256 (a : Z) : Z := from_be (replicate 12 0 ++ addr_bytes a).

(** A string in memory is its UTF-8 byte string. *)
Definition write_string32 (s : list Z) : Z :=
  let len := Nat.min (length s) 32 in
  from_be (take len s ++ replicate (32 - len) 0).

(** ** Storage slots *)

Class Keccak : Type := keccak256 : list Z -> Z.

Section Slots.
Context `{Keccak}.

(** The hash of the concatenation of the parts. *)
Definition storage_slot (parts : list (list Z)) : Z := keccak256 (concat parts).

Definition slot_balance (asset_id addr : Z) : Z :=
  storage_slot [u64_bytes asset_id; addr_bytes addr].
Definition slot_asset_meta (asset_id : Z) (suffix : list Z) : Z :=
  storage_slot [u64_bytes asset_id; suffix].
Definition slot_evm_contract (asset_id : Z) : Z :=
  slot_asset_meta asset_id (b_ "evm_contract").
Definition slot_allowance (asset_id owner spender : Z) : Z :=
  storage_slot [u64_bytes asset_id; addr_bytes owner; addr_bytes spender].
Definition slot_validator_by_addr (addr : Z) : Z :=
  storage_slot [addr_bytes addr; b_ "validator_id"].
Definition slot_compliance (addr : Z) : Z := storage_slot [addr_bytes addr].

(** ** Shared checks and balance helpers *)

Definition check_compliance (addr : Z) : prog (res unit) :=
  r <- sload COMPLIANCE_ADDRESS (slot_compliance addr);
  let status := unwrap_or 0 (match r with Ok v => Ok (u256_to_u8 v) | Err e => Err e end) in
  Ret (if status =? 0 then Ok tt else Err (Other "compliance check failed")).

Definition load_bal (asset_id addr : Z) : prog Z :=
  r <- sload ASSET_ADDRESS (slot_balance asset_id addr);
  Ret (unwrap_or 0 (match r with Ok v => Ok (u256_to_u128 v) | Err e => Err e end)).

Definition save_bal (asset_id addr amount : Z) : prog unit :=
  do sstore ASSET_ADDRESS (slot_balance asset_id addr) (u128_to_u256 amount); Ret tt.

Definition credit_bal (asset_id addr amount : Z) : prog (res unit) :=
  cur <- load_bal asset_id addr;
  match checked_add U128_MAX cur amount with
  | None => Ret (Err (Other "balance overflow"))
  | Some bal => do save_bal asset_id addr bal; Ret (Ok tt)
  end.

Definition debit_bal (asset_id addr amount : Z) : prog (res unit) :=
  cur <- load_bal asset_id addr;
  match checked_sub cur amount with
  | None => Ret (Err (Other "insufficient balance"))
  | Some bal => do save_bal asset_id addr bal; Ret (Ok tt)
  end.

Definition require_caller (msg_sender : Z) : res Z :=
  if msg_sender =? 0 then Err (Other "caller not available") else Ok msg_sender.

Definition is_validator (sender : Z) : prog bool :=
  r <- sload VALIDATOR_ADDRESS (slot_validator_by_addr sender);
  Ret (unwrap_or false
        (match r with Ok v => Ok (negb (u256_to_u64 v =? 0)) | Err e => Err e end)).

Definition require_validator (sender : Z) : prog (res unit) :=
  ok <- is_validator sender;
  Ret (if ok : bool then Ok tt else Err (Other "sender not a registered validator")).

End Slots.

#[global] Arguments u256_to_u128 : simpl never.
#[global] Arguments u128_to_u256 : simpl never.
#[global] Arguments u256_to_u64 : simpl never.
#[global] Arguments u64_to_u256 : simpl never.
#[global] Arguments u256_to_u8 : simpl never.
#[global] Arguments u8_to_u256 : simpl never.
#[global] Arguments u256_to_address : simpl never.
#[global] Arguments address_to_u256 : simpl never.
#[global] Arguments write_string32 : simpl never.

(** ** Word conversion lemmas *)

Lemma slice_be_bytes k m v : slice (be_bytes (k + m) v) k m = be_bytes m v.
Proof.
  unfold slice. rewrite drop_be_bytes. apply take_ge. by rewrite length_be_bytes.
Qed.

Lemma u256_to_u128_mod v : u256_to_u128 v = v mod 2 ^ 128.
Proof.
  unfold u256_to_u128. change 32%nat with (16 + 16)%nat.
  rewrite slice_be_bytes, from_be_be_bytes. done.
Qed.

Lemma u256_to_u64_mod v : u256_to_u64 v = v mod 2 ^ 64.
Proof.
  unfold u256_to_u64. change 32%nat with (24 + 8)%nat.
  rewrite slice_be_bytes, from_be_be_bytes. done.
Qed.

Lemma u256_to_address_mod v : u256_to_address v = v mod 2 ^ 160.
Proof.
  unfold u256_to_address. change 32%nat with (12 + 20)%nat.
  rewrite slice_be_bytes, from_be_be_bytes. done.
Qed.

Lemma u256_to_u8_mod v : u256_to_u8 v = v mod 256.
Proof. unfold u256_to_u8. cbn. by rewrite Z.div_1_r. Qed.

Lemma u128_to_u256_mod v : u128_to_u256 v = v mod 2 ^ 128.
Proof. unfold u128_to_u256. rewrite from_be_zeros, from_be_be_bytes. done. Qed.

Lemma u64_to_u256_mod v : u64_to_u256 v = v mod 2 ^ 64.
Proof. unfold u64_to_u256. rewrite from_be_zeros, from_be_be_bytes. done. Qed.

Lemma address_to_u256_mod a : address_to_u256 a = a mod 2 ^ 160.
Proof. unfold address_to_u256, addr_bytes. rewrite from_be_zeros, from_be_be_bytes. done. Qed.

Lemma u128_to_u256_id v : fits U128_MAX v -> u128_to_u256 v = v.
Proof. unfold fits, U128_MAX. intros. rewrite u128_to_u256_mod, Z.mod_small; lia. Qed.

Lemma u256_to_u128_id v : fits U128_MAX v -> u256_to_u128 v = v.
Proof. unfold fits, U128_MAX. intros. rewrite u256_to_u128_mod, Z.mod_small; lia. Qed.

Lemma address_to_u256_id a : fits ADDRESS_MAX a -> address_to_u256 a = a.
Proof. unfold fits, ADDRESS_MAX. intros. rewrite address_to_u256_mod, Z.mod_small; lia. Qed.

Lemma u256_to_address_id a : fits ADDRESS_MAX a -> u256_to_address a = a.
Proof. unfold fits, ADDRESS_MAX. intros. rewrite u256_to_address_mod, Z.mod_small; lia. Qed.

Lemma u256_to_u64_id v : fits U64_MAX v -> u256_to_u64 v = v.
Proof. unfold fits, U64_MAX. intros. rewrite u256_to_u64_mod, Z.mod_small; lia. Qed.

Lemma u256_to_u64_fits v : fits U64_MAX (u256_to_u64 v).
Proof. rewrite u256_to_u64_mod. pose proof (Z.mod_pos_bound v (2 ^ 64)). unfold U64_MAX. fit. Qed.
Lemma u256_to_u128_fits v : fits U128_MAX (u256_to_u128 v).
Proof. rewrite u256_to_u128_mod. pose proof (Z.mod_pos_bound v (2 ^ 128)). unfold U128_MAX. fit. Qed.

Lemma u64_to_u256_id v : fits U64_MAX v -> u64_to_u256 v = v.
Proof. unfold fits, U64_MAX. intros. rewrite u64_to_u256_mod, Z.mod_small; lia. Qed.

(** Words read back. *)
Lemma u64_word v : fits U64_MAX v -> u256_to_u64 (u64_to_u256 v) = v.
Proof. intros. by rewrite (u64_to_u256_id v), (u256_to_u64_id v). Qed.
Lemma u128_word v : fits U128_MAX v -> u256_to_u128 (u128_to_u256 v) = v.
Proof. intros. by rewrite (u128_to_u256_id v), (u256_to_u128_id v). Qed.
Lemma address_word a : fits ADDRESS_MAX a -> u256_to_address (address_to_u256 a) = a.
Proof. intros. by rewrite (address_to_u256_id a), (u256_to_address_id a). Qed.

Lemma u256_to_address_fits v : fits ADDRESS_MAX (u256_to_address v).
Proof.
  unfold u256_to_address. change 32%nat with (12 + 20)%nat. rewrite slice_be_bytes, from_be_be_bytes.
  unfold fits, ADDRESS_MAX. pose proof (Z.mod_pos_bound v (2 ^ 160)). change (256 ^ Z.of_nat 20) with (2 ^ 160). lia.
Qed.

(** ** Rust strings

    [String::from_utf8] accepts exactly the well-formed UTF-8 sequences. *)

Definition in_range (lo hi b : Z) : bool := (lo <=? b) && (b <=? hi).
Definition is_cont (b : Z) : bool := in_range 0x80 0xBF b.

Fixpoint utf8_valid (bs : list Z) : bool :=
  match bs with
  | [] => true
  | b0 :: r0 =>
    if in_range 0 0x7F b0 then utf8_valid r0
    else if in_range 0xC2 0xDF b0 then
      match r0 with b1 :: r1 => is_cont b1 && utf8_valid r1 | _ => false end
    else if in_range 0xE0 0xEF b0 then
      match r0 with
      | b1 :: b2 :: r2 =>
          (if b0 =? 0xE0 then in_range 0xA0 0xBF b1
           else if b0 =? 0xED then in_range 0x80 0x9F b1 else is_cont b1)
          && is_cont b2 && utf8_valid r2
      | _ => false
      end
    else if in_range 0xF0 0xF4 b0 then
      match r0 with
      | b1 :: b2 :: b3 :: r3 =>
          (if b0 =? 0xF0 then in_range 0x90 0xBF b1
           else if b0 =? 0xF4 then in_range 0x80 0x8F b1 else is_cont b1)
          && is_cont b2 && is_cont b3 && utf8_valid r3
      | _ => false
      end
    else false
  end.

(** The bytes before the first NUL (all of them when there is none). *)
Fixpoint until_nul (bs : list Z) : list Z :=
  match bs with
  | [] => []
  | b :: rest => if b =? 0 then [] else b :: until_nul rest
  end.

(** alloy's EIP-55 [Display] of an address. *)
Class AddressDisplay : Type := address_display : Z -> string.
