(* ===== verification/Asset.v ===== *)
(** * Asset: protocol asset accounting

    Models [AssetStorage] of [crates/asset/src/lib.rs]: balances, allowances,
    metadata, transfers, minting, burning and registration, over the storage
    backend of [Provider].  The properties are stated on the abstract storage
    of [World]. *)

From stdpp Require Import base gmap list strings pretty.
From Stdlib Require Import ZArith Lia.
From S2P Require Import Prelude Provider World EvmProvider Refinement Utils.

Local Open Scope Z_scope.
Local Open Scope callnode_scope.

Inductive AssetError : Type :=
| InsufficientBalance
| BalanceOverflow
| SupplyOverflow
| SupplyUnderflow
| MaxSupplyExceeded
| NotIssuer
| AssetNotFound
| InsufficientAllowance
| ComplianceFailed
| InvalidMetadata (key : string)
| AssetIdOverflow
| InvalidDecimals (d : Z)
| Erc20AlreadyBound (addr : Z).

#[global] Instance AssetError_eq_dec : EqDecision AssetError.
Proof. solve_decision. Defined.

(** [impl Display for AssetError]. *)
Definition asset_error_to_string `{AddressDisplay} (e : AssetError) : string :=
  match e with
  | InsufficientBalance => "insufficient balance"
  | BalanceOverflow => "balance overflow"
  | SupplyOverflow => "supply overflow"
  | SupplyUnderflow => "supply underflow"
  | MaxSupplyExceeded => "max supply exceeded"
  | NotIssuer => "not asset issuer"
  | AssetNotFound => "asset not found"
  | InsufficientAllowance => "insufficient allowance"
  | ComplianceFailed => "compliance check failed"
  | InvalidMetadata key => "invalid metadata: " ++ key
  | AssetIdOverflow => "asset id overflow"
  | InvalidDecimals d => "invalid decimals: " ++ pretty d ++ " (max 18)"
  | Erc20AlreadyBound a => "ERC-20 contract already bound: " ++ address_display a
  end%string.

Record AssetMeta : Type := mkMeta {
  symbol : list Z;
  name : list Z;
  decimals : Z;
  issuer : Z;
  max_supply : Z;
  supply : Z;
  status : Z;
  registered_at : Z;
  evm_contract : Z;
  dominance : Z
}.

Definition CALL_ASSET_ID : Z := 1.

Abbreviation ares A := (result AssetError A).

Section Asset.
Context `{Keccak}.

(** ** Balances and allowances *)

Definition checked_u128 (raw : Z) : ares Z :=
  if U128_MAX <? raw then Err BalanceOverflow else Ok (u256_to_u128 raw).

Definition read_balance (asset_id addr : Z) : prog (ares Z) :=
  raw <- load ASSET_ADDRESS (slot_balance asset_id addr);
  Ret (checked_u128 raw).

Definition write_balance (asset_id addr amount : Z) : prog unit :=
  store ASSET_ADDRESS (slot_balance asset_id addr) (u128_to_u256 amount).

Definition add_balance (asset_id addr amount : Z) : prog (ares unit) :=
  current <-? read_balance asset_id addr;
  new <-? Ret (ok_or BalanceOverflow (checked_add U128_MAX current amount));
  do write_balance asset_id addr new;
  Ret (Ok tt).

Definition deduct_balance (asset_id addr amount : Z) : prog (ares unit) :=
  current <-? read_balance asset_id addr;
  new <-? Ret (ok_or InsufficientBalance (checked_sub current amount));
  do write_balance asset_id addr new;
  Ret (Ok tt).

Definition read_allowance (asset_id owner spender : Z) : prog (ares Z) :=
  raw <- load ASSET_ADDRESS (slot_allowance asset_id owner spender);
  Ret (checked_u128 raw).

Definition write_allowance (asset_id owner spender amount : Z) : prog unit :=
  store ASSET_ADDRESS (slot_allowance asset_id owner spender) (u128_to_u256 amount).

(** ** Metadata *)

Definition load_meta_u256 (asset_id : Z) (key : string) : prog Z :=
  load ASSET_ADDRESS (slot_asset_meta asset_id (b_ key)).
Definition load_meta_u128 (asset_id : Z) (key : string) : prog Z :=
  v <- load_meta_u256 asset_id key; Ret (u256_to_u128 v).
Definition load_meta_u8 (asset_id : Z) (key : string) : prog Z :=
  v <- load_meta_u256 asset_id key; Ret (u256_to_u8 v).
Definition load_meta_address (asset_id : Z) (key : string) : prog Z :=
  v <- load_meta_u256 asset_id key; Ret (u256_to_address v).

Definition load_meta_string (asset_id : Z) (key : string) : prog (ares (list Z)) :=
  v <- load_meta_u256 asset_id key;
  let bs := until_nul (be_bytes 32 v) in
  Ret (if utf8_valid bs then Ok bs else Err (InvalidMetadata key)).

Definition store_meta_u256 (asset_id : Z) (key : string) (value : Z) : prog unit :=
  store ASSET_ADDRESS (slot_asset_meta asset_id (b_ key)) value.

Definition store_meta_string (asset_id : Z) (key : string) (value : list Z) :
    prog (ares unit) :=
  if (32 <? length value)%nat then
    Ret (Err (InvalidMetadata
      ("'" ++ key ++ "' exceeds 32 bytes (" ++ pretty (Z.of_nat (length value)) ++ " bytes)")))
  else
    do store_meta_u256 asset_id key (write_string32 value);
    Ret (Ok tt).

Definition read_meta (asset_id : Z) : prog (ares AssetMeta) :=
  symbol <-? load_meta_string asset_id "symbol";
  issuer <- load_meta_address asset_id "issuer";
  if (issuer =? 0) && bool_decide (symbol = []) then Ret (Err AssetNotFound) else
  name <-? load_meta_string asset_id "name";
  decimals <- load_meta_u8 asset_id "decimals";
  max_supply <- load_meta_u128 asset_id "max_supply";
  supply <- load_meta_u128 asset_id "supply";
  status <- load_meta_u8 asset_id "status";
  registered_at <- load_meta_u256 asset_id "registered_at";
  evm_contract <- load_meta_address asset_id "evm_contract";
  dominance <- load_meta_u8 asset_id "dominance";
  Ret (Ok (mkMeta symbol name decimals issuer max_supply supply status registered_at
             evm_contract dominance)).

Definition write_meta (asset_id : Z) (meta : AssetMeta) : prog (ares unit) :=
  do? store_meta_string asset_id "symbol" (symbol meta);
  do? store_meta_string asset_id "name" (name meta);
  do store_meta_u256 asset_id "decimals" (decimals meta);
  do store_meta_u256 asset_id "issuer" (address_to_u256 (issuer meta));
  do store_meta_u256 asset_id "max_supply" (u128_to_u256 (max_supply meta));
  do store_meta_u256 asset_id "supply" (u128_to_u256 (supply meta));
  do store_meta_u256 asset_id "status" (status meta);
  do store_meta_u256 asset_id "registered_at" (registered_at meta);
  do store_meta_u256 asset_id "evm_contract" (address_to_u256 (evm_contract meta));
  do store_meta_u256 asset_id "dominance" (dominance meta);
  Ret (Ok tt).

(** ** Business logic *)

Definition transfer (asset_id from to amount : Z) : prog (ares unit) :=
  to_current <-? read_balance asset_id to;
  do? Ret (ok_or BalanceOverflow (checked_add U128_MAX to_current amount));
  if from =? to then Ret (Ok tt) else
  do? deduct_balance asset_id from amount;
  do write_balance asset_id to (to_current + amount);
  Ret (Ok tt).

Fixpoint batch_transfer (asset_id from : Z) (recipients : list (Z * Z)) : prog (ares unit) :=
  match recipients with
  | [] => Ret (Ok tt)
  | (to, amount) :: rest =>
      do? transfer asset_id from to amount;
      batch_transfer asset_id from rest
  end.

Definition approve (asset_id owner spender amount : Z) : prog (ares unit) :=
  do? read_meta asset_id;
  do write_allowance asset_id owner spender amount;
  Ret (Ok tt).

Definition transfer_from (asset_id spender from to amount : Z) : prog (ares unit) :=
  allowance <-? read_allowance asset_id from spender;
  if allowance <? amount then Ret (Err InsufficientAllowance) else
  do? transfer asset_id from to amount;
  do write_allowance asset_id from spender (allowance - amount);
  Ret (Ok tt).

Definition mint (asset_id caller to amount : Z) : prog (ares unit) :=
  meta <-? read_meta asset_id;
  if negb (issuer meta =? caller) then Ret (Err NotIssuer) else
  new_supply <-? Ret (ok_or SupplyOverflow (checked_add U128_MAX (supply meta) amount));
  if (0 <? max_supply meta) && (max_supply meta <? new_supply)
  then Ret (Err MaxSupplyExceeded) else
  do? add_balance asset_id to amount;
  do store_meta_u256 asset_id "supply" (u128_to_u256 new_supply);
  Ret (Ok tt).

Definition burn (asset_id caller from amount : Z) : prog (ares unit) :=
  new_allowance <-?
    (if negb (caller =? from) then
       allowance <-? read_allowance asset_id from caller;
       if allowance <? amount then Ret (Err InsufficientAllowance)
       else Ret (Ok (Some (allowance - amount)))
     else Ret (Ok None));
  do? deduct_balance asset_id from amount;
  do (match new_allowance with
      | Some na => write_allowance asset_id from caller na
      | None => Ret tt
      end);
  supply <- load_meta_u128 asset_id "supply";
  new_supply <-? Ret (ok_or SupplyUnderflow (checked_sub supply amount));
  do store_meta_u256 asset_id "supply" (u128_to_u256 new_supply);
  Ret (Ok tt).

(** ** Registration *)

Definition next_id_slot : Z := 0.

Definition allocate_asset_id : prog (ares Z) :=
  raw <- load ASSET_ADDRESS next_id_slot;
  if U64_MAX <? raw then Ret (Err AssetIdOverflow) else
  let asset_id := if raw =? 0 then 1 else raw in
  next_id <-? Ret (ok_or AssetIdOverflow (checked_add U64_MAX asset_id 1));
  do store ASSET_ADDRESS next_id_slot next_id;
  Ret (Ok asset_id).

Definition write_base_meta (asset_id : Z) (sym nm : list Z)
    (dec maxs iss reg_at : Z) : prog (ares unit) :=
  do? store_meta_string asset_id "symbol" sym;
  do? store_meta_string asset_id "name" nm;
  do store_meta_u256 asset_id "decimals" dec;
  do store_meta_u256 asset_id "issuer" (address_to_u256 iss);
  do store_meta_u256 asset_id "max_supply" (u128_to_u256 maxs);
  do store_meta_u256 asset_id "supply" 0;
  do store_meta_u256 asset_id "status" 0;
  do store_meta_u256 asset_id "compliance" 0;
  do store_meta_u256 asset_id "registered_at" reg_at;
  Ret (Ok tt).

(** Index slot from an ERC-20 contract to its asset. *)
Definition erc20_binding_slot (evm_contract : Z) : Z :=
  storage_slot [b_ "call:asset:erc20_binding"; addr_bytes evm_contract].

Definition evm_contract_asset_id (evm_contract : Z) : prog (option Z) :=
  raw <- load ASSET_ADDRESS (erc20_binding_slot evm_contract);
  Ret (if raw =? 0 then None else Some raw).

Definition set_evm_contract_asset_id (evm_contract asset_id : Z) : prog unit :=
  store ASSET_ADDRESS (erc20_binding_slot evm_contract) asset_id.

Definition register (sym nm : list Z) (dec maxs iss reg_at : Z) : prog (ares Z) :=
  if 18 <? dec then Ret (Err (InvalidDecimals dec)) else
  asset_id <-? allocate_asset_id;
  do? write_base_meta asset_id sym nm dec maxs iss reg_at;
  do store_meta_u256 asset_id "has_erc20" 0;
  Ret (Ok asset_id).

Definition register_erc20 (evm_contract : Z) (sym nm : list Z)
    (dec maxs iss reg_at : Z) : prog (ares Z) :=
  if 18 <? dec then Ret (Err (InvalidDecimals dec)) else
  bound <- evm_contract_asset_id evm_contract;
  match bound with
  | Some _ => Ret (Err (Erc20AlreadyBound evm_contract))
  | None =>
      asset_id <-? allocate_asset_id;
      do? write_base_meta asset_id sym nm dec maxs iss reg_at;
      do store_meta_u256 asset_id "has_erc20" 1;
      do store_meta_u256 asset_id "evm_contract" (address_to_u256 evm_contract);
      do set_evm_contract_asset_id evm_contract asset_id;
      Ret (Ok asset_id)
  end.

Definition has_erc20 (asset_id : Z) : prog bool :=
  if asset_id =? CALL_ASSET_ID then Ret false else
  v <- load_meta_u8 asset_id "has_erc20"; Ret (v =? 1).

Definition set_has_erc20 (asset_id value : Z) : prog unit :=
  store_meta_u256 asset_id "has_erc20" value.
Definition set_evm_contract (asset_id addr : Z) : prog unit :=
  store_meta_u256 asset_id "evm_contract" (address_to_u256 addr).
Definition read_dominance (asset_id : Z) : prog Z := load_meta_u8 asset_id "dominance".
Definition set_dominance (asset_id value : Z) : prog unit :=
  store_meta_u256 asset_id "dominance" value.

Definition next_asset_id : prog Z :=
  raw <- load ASSET_ADDRESS next_id_slot;
  Ret (if U64_MAX <? raw then U64_MAX else if raw =? 0 then 1 else raw).

End Asset.
