(* ===== verification/AssetSpec.v ===== *)
(** * AssetSpec: correctness of asset accounting

    Functional equations of the operations of [Asset] on the abstract storage,
    the supply invariant (the balances of the holders of an asset add up to
    its recorded supply, which respects the cap), its preservation by every
    operation, and the storage layout. *)

From stdpp Require Import base gmap list strings pretty.
From Stdlib Require Import ZArith Lia.
From S2P Require Import Prelude Provider World EvmProvider Refinement Utils Asset.

Local Open Scope Z_scope.

(** ** Finite sums *)

Fixpoint sum_of {A} (f : A -> Z) (l : list A) : Z :=
  match l with [] => 0 | x :: r => f x + sum_of f r end.

Lemma sum_of_ext {A} (f g : A -> Z) l :
  (forall x, x ∈ l -> f x = g x) -> sum_of f l = sum_of g l.
Proof. induction l; cbn; [done|]. intros E. rewrite E, IHl; set_solver. Qed.

Lemma sum_of_nonneg {A} (f : A -> Z) l : (forall x, x ∈ l -> 0 <= f x) -> 0 <= sum_of f l.
Proof.
  induction l as [|y l IH]; cbn; [lia|]. intros Hf.
  assert (0 <= f y) by (apply Hf; constructor). assert (0 <= sum_of f l) by (apply IH; set_solver). lia.
Qed.

Lemma sum_of_member {A} (f : A -> Z) l x :
  (forall y, y ∈ l -> 0 <= f y) -> x ∈ l -> f x <= sum_of f l.
Proof.
  induction l as [|y l IH]; cbn; [set_solver|]. intros Hf [->|Hx]%elem_of_cons.
  - assert (0 <= sum_of f l) by (apply sum_of_nonneg; set_solver). lia.
  - assert (0 <= f y) by (apply Hf; constructor). specialize (IH ltac:(set_solver) Hx). lia.
Qed.

(** Changing the summand at one member of a duplicate-free list. *)
Lemma sum_of_update {A} (f g : A -> Z) l x :
  NoDup l -> x ∈ l -> (forall y, y ∈ l -> y <> x -> g y = f y) ->
  sum_of g l = sum_of f l - f x + g x.
Proof.
  induction 1 as [|y l Hn _ IH]; cbn; [set_solver|].
  intros [->|Hx]%elem_of_cons Hg.
  - rewrite (sum_of_ext g f l); [lia|]. intros z Hz. apply Hg; set_solver.
  - rewrite IH; [|done|set_solver]. rewrite (Hg y); [lia | set_solver | set_solver].
Qed.

Lemma sum_of_two_le {A} (f : A -> Z) l x y :
  NoDup l -> (forall z, z ∈ l -> 0 <= f z) -> x ∈ l -> y ∈ l -> x <> y ->
  f x + f y <= sum_of f l.
Proof.
  induction 1 as [|z l Hn Hd IH]; cbn; [set_solver|]. intros Hf Hx Hy Hne.
  assert (0 <= f z) by (apply Hf; constructor).
  rewrite elem_of_cons in Hx, Hy. destruct Hx as [Ex|Hx], Hy as [Ey|Hy]; subst; [done| | |].
  - assert (f y <= sum_of f l) by (apply sum_of_member; set_solver). lia.
  - assert (f x <= sum_of f l) by (apply sum_of_member; set_solver). lia.
  - specialize (IH ltac:(set_solver) Hx Hy Hne). lia.
Qed.

Section Spec.
Context `{Keccak}.

(** ** Reading the storage *)

Definition bal (w : world) (id a : Z) : Z := wslot w ASSET_ADDRESS (slot_balance id a).
Definition allow (w : world) (id o s : Z) : Z := wslot w ASSET_ADDRESS (slot_allowance id o s).
Definition meta_slot (id : Z) (key : string) : Z := slot_asset_meta id (b_ key).
Definition meta_word (w : world) (id : Z) (key : string) : Z :=
  wslot w ASSET_ADDRESS (meta_slot id key).
Definition put (k v : Z) (w : world) : world := w_upd (put_slot ASSET_ADDRESS k v) w.

Lemma wslot_put k v w k' :
  wslot (put k v w) ASSET_ADDRESS k' = if decide (k = k') then v else wslot w ASSET_ADDRESS k'.
Proof. unfold put. cbn. rewrite slot_put. repeat case_decide; congruence. Qed.

Lemma wslot_put_ne k v w k' : k <> k' -> wslot (put k v w) ASSET_ADDRESS k' = wslot w ASSET_ADDRESS k'.
Proof. intros. rewrite wslot_put. by case_decide. Qed.

Lemma put_comm k1 v1 k2 v2 w :
  k1 <> k2 -> put k1 v1 (put k2 v2 w) = put k2 v2 (put k1 v1 w).
Proof.
  intros. unfold put, w_upd, put_slot; cbn. do 2 f_equal. apply insert_insert_ne. congruence.
Qed.

Lemma run_read_balance id a (w : world) :
  fits U128_MAX (bal w id a) -> run (read_balance id a) w = (Ok (bal w id a), w).
Proof.
  intros Hf. unfold read_balance, checked_u128. autorewrite with callnode_rw. fold (bal w id a).
  cbn. rewrite u256_to_u128_id by done. destruct Hf. destruct (Z.ltb_spec U128_MAX (bal w id a)); [lia|done].
Qed.

Lemma run_read_allowance id o s (w : world) :
  fits U128_MAX (allow w id o s) -> run (read_allowance id o s) w = (Ok (allow w id o s), w).
Proof.
  intros Hf. unfold read_allowance, checked_u128. autorewrite with callnode_rw.
  fold (allow w id o s). cbn. rewrite u256_to_u128_id by done. destruct Hf.
  destruct (Z.ltb_spec U128_MAX (allow w id o s)); [lia|done].
Qed.

Lemma run_write_balance id a v (w : world) :
  fits U128_MAX v -> run (write_balance id a v) w = (tt, put (slot_balance id a) v w).
Proof. intros. unfold write_balance. autorewrite with callnode_rw. by rewrite u128_to_u256_id. Qed.

Lemma run_write_allowance id o s v (w : world) :
  fits U128_MAX v -> run (write_allowance id o s v) w = (tt, put (slot_allowance id o s) v w).
Proof. intros. unfold write_allowance. autorewrite with callnode_rw. by rewrite u128_to_u256_id. Qed.

(** ** Functional equations *)

Lemma run_add_balance id a v (w : world) :
  fits U128_MAX (bal w id a) -> 0 <= v ->
  run (add_balance id a v) w =
    if U128_MAX <? bal w id a + v then (Err BalanceOverflow, w)
    else (Ok tt, put (slot_balance id a) (bal w id a + v) w).
Proof.
  intros Hf Hv. unfold add_balance. rewrite run_try, run_read_balance by done.
  rewrite run_try. unfold checked_add. destruct Hf. destruct_cmp; cbn [ok_or run]; try lia; [|done].
  rewrite run_bind, run_write_balance; [done | fit].
Qed.

Lemma run_deduct_balance id a v (w : world) :
  fits U128_MAX (bal w id a) -> 0 <= v ->
  run (deduct_balance id a v) w =
    if bal w id a <? v then (Err InsufficientBalance, w)
    else (Ok tt, put (slot_balance id a) (bal w id a - v) w).
Proof.
  intros Hf Hv. unfold deduct_balance. rewrite run_try, run_read_balance by done.
  rewrite run_try. unfold checked_sub. destruct Hf. destruct_cmp; cbn [ok_or run]; try lia; [|done].
  rewrite run_bind, run_write_balance; [done | fit].
Qed.

Lemma run_transfer id from to v (w : world) :
  fits U128_MAX (bal w id from) -> fits U128_MAX (bal w id to) -> 0 <= v ->
  run (transfer id from to v) w =
    if U128_MAX <? bal w id to + v then (Err BalanceOverflow, w)
    else if from =? to then (Ok tt, w)
    else if bal w id from <? v then (Err InsufficientBalance, w)
    else (Ok tt, put (slot_balance id to) (bal w id to + v)
                   (put (slot_balance id from) (bal w id from - v) w)).
Proof.
  intros Hf Ht Hv. unfold transfer. rewrite run_try, run_read_balance by done.
  rewrite run_try. unfold checked_add. destruct Hf, Ht.
  destruct_cmp; cbn [ok_or run]; try lia; try done;
    rewrite run_try, run_deduct_balance by fit; destruct_cmp; try lia;
    first [done | rewrite run_bind, run_write_balance; [done | fit]].
Qed.

Lemma run_transfer_from id sp from to v (w : world) :
  fits U128_MAX (bal w id from) -> fits U128_MAX (bal w id to) ->
  fits U128_MAX (allow w id from sp) -> 0 <= v ->
  run (transfer_from id sp from to v) w =
    if allow w id from sp <? v then (Err InsufficientAllowance, w)
    else match run (transfer id from to v) w with
         | (Ok _, w') => (Ok tt, put (slot_allowance id from sp) (allow w id from sp - v) w')
         | (Err e, w') => (Err e, w')
         end.
Proof.
  intros Hf Ht Ha Hv. unfold transfer_from. rewrite run_try, run_read_allowance by done.
  destruct Ha. destruct (Z.ltb_spec (allow w id from sp) v); [done|].
  rewrite run_try. destruct (run (transfer id from to v) w) as [[]]; [|done].
  rewrite run_bind, run_write_allowance; [done | fit].
Qed.

(** The metadata record the storage holds. *)
Definition meta_string (w : world) (id : Z) (key : string) : ares (list Z) :=
  let bs := until_nul (be_bytes 32 (meta_word w id key)) in
  if utf8_valid bs then Ok bs else Err (InvalidMetadata key).

Definition meta_of (w : world) (id : Z) : ares AssetMeta :=
  (sym <-! meta_string w id "symbol";
   let iss := u256_to_address (meta_word w id "issuer") in
   if (iss =? 0) && bool_decide (sym = []) then Err AssetNotFound else
   nm <-! meta_string w id "name";
   Ok (mkMeta sym nm (u256_to_u8 (meta_word w id "decimals")) iss
         (u256_to_u128 (meta_word w id "max_supply"))
         (u256_to_u128 (meta_word w id "supply"))
         (u256_to_u8 (meta_word w id "status")) (meta_word w id "registered_at")
         (u256_to_address (meta_word w id "evm_contract"))
         (u256_to_u8 (meta_word w id "dominance"))))%cn.

Lemma run_load_meta_string id key (w : world) :
  run (load_meta_string id key) w = (meta_string w id key, w).
Proof. done. Qed.

Lemma run_read_meta id (w : world) : run (read_meta id) w = (meta_of w id, w).
Proof.
  unfold read_meta, meta_of. rewrite run_try, run_load_meta_string.
  destruct (meta_string w id "symbol") as [sym|]; [|done]. cbn [result_bind].
  rewrite run_bind. change (run (load_meta_address id "issuer") w)
    with (u256_to_address (meta_word w id "issuer"), w).
  cbv beta iota zeta. destruct ((_ =? 0) && _); [done|].
  rewrite run_try, run_load_meta_string. by destruct (meta_string w id "name").
Qed.

Definition supply_slot (id : Z) : Z := meta_slot id "supply".
Definition supply_of (w : world) (id : Z) : Z := meta_word w id "supply".
Definition cap_of (w : world) (id : Z) : Z := u256_to_u128 (meta_word w id "max_supply").

Lemma run_approve id o sp v (w : world) :
  fits U128_MAX v ->
  run (approve id o sp v) w =
    match meta_of w id with
    | Ok _ => (Ok tt, put (slot_allowance id o sp) v w)
    | Err e => (Err e, w)
    end.
Proof.
  intros. unfold approve. rewrite run_try, run_read_meta.
  destruct (meta_of w id); [|done]. by rewrite run_bind, run_write_allowance.
Qed.

Lemma run_store_supply id v (w : world) :
  fits U128_MAX v ->
  run (store_meta_u256 id "supply" (u128_to_u256 v)) w = (tt, put (supply_slot id) v w).
Proof. intros. by rewrite u128_to_u256_id. Qed.

Lemma run_mint id caller to v (w : world) :
  fits U128_MAX (bal w id to) -> fits U128_MAX (supply_of w id) -> 0 <= v ->
  run (mint id caller to v) w =
    match meta_of w id with
    | Err e => (Err e, w)
    | Ok m =>
        if negb (issuer m =? caller) then (Err NotIssuer, w)
        else if U128_MAX <? supply_of w id + v then (Err SupplyOverflow, w)
        else if (0 <? cap_of w id) && (cap_of w id <? supply_of w id + v)
        then (Err MaxSupplyExceeded, w)
        else if U128_MAX <? bal w id to + v then (Err BalanceOverflow, w)
        else (Ok tt, put (supply_slot id) (supply_of w id + v)
                       (put (slot_balance id to) (bal w id to + v) w))
    end.
Proof.
  intros Ht Hs Hv. unfold mint. rewrite run_try, run_read_meta.
  destruct (meta_of w id) as [m|] eqn:Em; [|done].
  assert (supply m = supply_of w id /\ max_supply m = cap_of w id) as [-> ->].
  { revert Em. unfold meta_of, result_bind. repeat case_match; try done.
    intros [= <-]. cbn. split; [by apply u256_to_u128_id | done]. }
  destruct (negb _); [done|]. rewrite run_try. unfold checked_add.
  destruct (Z.leb_spec (supply_of w id + v) U128_MAX), (Z.ltb_spec U128_MAX (supply_of w id + v));
    try lia; [|done]. cbn [ok_or run].
  destruct (_ && _); [done|]. rewrite run_try, run_add_balance by done.
  destruct (U128_MAX <? bal w id to + v); [done|].
  rewrite run_bind, run_store_supply; [done | fit].
Qed.

Lemma run_burn id caller from v (w : world) :
  fits U128_MAX (bal w id from) -> fits U128_MAX (supply_of w id) ->
  fits U128_MAX (allow w id from caller) -> 0 <= v ->
  supply_slot id <> slot_balance id from -> supply_slot id <> slot_allowance id from caller ->
  run (burn id caller from v) w =
    if negb (caller =? from) && (allow w id from caller <? v) then (Err InsufficientAllowance, w)
    else if bal w id from <? v then (Err InsufficientBalance, w)
    else
      let w1 := put (slot_balance id from) (bal w id from - v) w in
      let w2 := if negb (caller =? from)
                then put (slot_allowance id from caller) (allow w id from caller - v) w1
                else w1 in
      if supply_of w id <? v then (Err SupplyUnderflow, w2)
      else (Ok tt, put (supply_slot id) (supply_of w id - v) w2).
Proof.
  intros Hf Hs Ha Hv N1 N2. unfold burn. rewrite run_try.
  assert (Tail : forall w2, supply_of w2 id = supply_of w id ->
    run (supply <- load_meta_u128 id "supply";
         new_supply <-? Ret (ok_or SupplyUnderflow (checked_sub supply v));
         do store_meta_u256 id "supply" (u128_to_u256 new_supply); Ret (Ok tt))%cn w2 =
    if supply_of w id <? v then (Err SupplyUnderflow, w2)
    else (Ok tt, put (supply_slot id) (supply_of w id - v) w2)).
  { intros w2 E. rewrite run_bind. change (run (load_meta_u128 id "supply") w2)
      with (u256_to_u128 (supply_of w2 id), w2). cbv beta iota zeta.
    rewrite E, u256_to_u128_id by done. rewrite run_try. unfold checked_sub.
    destruct_cmp; cbn [ok_or run]; try lia; [|done].
    rewrite run_bind, run_store_supply; [done|fit]. }
  assert (Hput : forall k x w', supply_slot id <> k -> supply_of (put k x w') id = supply_of w' id).
  { intros. unfold supply_of, meta_word. rewrite wslot_put. case_decide; [|done].
    by subst; exfalso; eauto. }
  destruct (negb (caller =? from)) eqn:Ec; cbn [andb].
  - rewrite run_try, run_read_allowance by done.
    destruct (Z.ltb_spec (allow w id from caller) v); [done|]. cbn [run].
    rewrite run_try, run_deduct_balance by done.
    destruct (Z.ltb_spec (bal w id from) v); [done|].
    rewrite run_bind, run_write_allowance by fit. apply Tail. by rewrite !Hput.
  - cbn [run]. rewrite run_try, run_deduct_balance by done.
    destruct (Z.ltb_spec (bal w id from) v); [done|].
    rewrite run_bind. cbn [run]. apply Tail. by rewrite !Hput.
Qed.

(** ** The supply invariant *)

Definition meta_keys : list string :=
  ["symbol"; "name"; "decimals"; "issuer"; "max_supply"; "supply"; "status";
   "compliance"; "registered_at"; "evm_contract"; "dominance"; "has_erc20"].

(** The slots of one asset with holders [hs]. *)
Definition live_slots (id : Z) (hs : list Z) : list Z :=
  map (slot_balance id) hs ++
  map (fun p => slot_allowance id p.1 p.2) (list_prod hs hs) ++
  map (meta_slot id) meta_keys.

Record supply_inv (id : Z) (hs : list Z) (w : world) : Prop := {
  inv_bal : forall h, h ∈ hs -> 0 <= bal w id h;
  inv_allow : forall o sp, o ∈ hs -> sp ∈ hs -> fits U128_MAX (allow w id o sp);
  inv_supply : fits U128_MAX (supply_of w id);
  inv_sum : sum_of (bal w id) hs = supply_of w id;
  inv_cap : 0 < cap_of w id -> supply_of w id <= cap_of w id
}.

Inductive asset_op : Type :=
| ATransfer (from to amount : Z)
| ABatch (from : Z) (recipients : list (Z * Z))
| AApprove (owner spender amount : Z)
| ATransferFrom (spender from to amount : Z)
| AMint (caller to amount : Z)
| ABurn (caller from amount : Z).

Definition op_prog (id : Z) (o : asset_op) : prog (ares unit) :=
  match o with
  | ATransfer from to v => transfer id from to v
  | ABatch from rs => batch_transfer id from rs
  | AApprove o sp v => approve id o sp v
  | ATransferFrom sp from to v => transfer_from id sp from to v
  | AMint caller to v => mint id caller to v
  | ABurn caller from v => burn id caller from v
  end.

(** The accounts involved belong to [hs] and the amounts are [u128]. *)
Definition op_ok (hs : list Z) (o : asset_op) : Prop :=
  match o with
  | ATransfer from to v => from ∈ hs /\ to ∈ hs /\ fits U128_MAX v
  | ABatch from rs => from ∈ hs /\ Forall (fun r => r.1 ∈ hs /\ fits U128_MAX r.2) rs
  | AApprove o sp v => o ∈ hs /\ sp ∈ hs /\ fits U128_MAX v
  | ATransferFrom sp from to v => sp ∈ hs /\ from ∈ hs /\ to ∈ hs /\ fits U128_MAX v
  | AMint caller to v => to ∈ hs /\ fits U128_MAX v
  | ABurn caller from v => caller ∈ hs /\ from ∈ hs /\ fits U128_MAX v
  end.

(** A call commits on success and is rolled back on failure. *)
Definition apply_op (id : Z) (o : asset_op) (w : world) : world :=
  match run (op_prog id o) w with
  | (Ok _, w') => w'
  | (Err _, _) => w
  end.

Definition asset_step (id : Z) (hs : list Z) (w w' : world) : Prop :=
  exists o, op_ok hs o /\ w' = apply_op id o w.

Lemma supply_key : "supply"%string ∈ meta_keys.
Proof. unfold meta_keys. set_solver. Qed.
Lemma cap_key : "max_supply"%string ∈ meta_keys.
Proof. unfold meta_keys. set_solver. Qed.

Section Invariant.
Variables (id : Z) (hs : list Z).
Hypothesis layout : NoDup (live_slots id hs).

Lemma layout_balance : NoDup (map (slot_balance id) hs).
Proof. unfold live_slots in layout. by apply NoDup_app in layout as [? _]. Qed.

Lemma holders_NoDup : NoDup hs.
Proof. eapply NoDup_fmap_1, layout_balance. Qed.

Lemma balance_inj x y : x ∈ hs -> y ∈ hs -> slot_balance id x = slot_balance id y -> x = y.
Proof. apply NoDup_map_inj, layout_balance. Qed.

Lemma balance_ne_allow h o sp :
  h ∈ hs -> o ∈ hs -> sp ∈ hs -> slot_balance id h <> slot_allowance id o sp.
Proof.
  intros Hh Ho Hsp E. unfold live_slots in layout.
  apply NoDup_app in layout as (_ & D & _). apply (D (slot_balance id h)).
  - by apply list_elem_of_fmap_2.
  - apply elem_of_app; left. rewrite E.
    apply (list_elem_of_fmap_2 (fun p => slot_allowance id p.1 p.2) _ (o, sp)).
    apply list_elem_of_In, in_prod; by apply list_elem_of_In.
Qed.

Lemma balance_ne_meta h key : h ∈ hs -> key ∈ meta_keys -> slot_balance id h <> meta_slot id key.
Proof.
  intros Hh Hk E. unfold live_slots in layout.
  apply NoDup_app in layout as (_ & D & _). apply (D (slot_balance id h)).
  - by apply list_elem_of_fmap_2.
  - apply elem_of_app; right. rewrite E. by apply list_elem_of_fmap_2.
Qed.

Lemma allow_ne_meta o sp key :
  o ∈ hs -> sp ∈ hs -> key ∈ meta_keys -> slot_allowance id o sp <> meta_slot id key.
Proof.
  intros Ho Hsp Hk E. unfold live_slots in layout.
  apply NoDup_app in layout as (_ & _ & L). apply NoDup_app in L as (_ & D & _).
  apply (D (slot_allowance id o sp)).
  - apply (list_elem_of_fmap_2 (fun p => slot_allowance id p.1 p.2) _ (o, sp)).
    apply list_elem_of_In, in_prod; by apply list_elem_of_In.
  - rewrite E. by apply list_elem_of_fmap_2.
Qed.

Lemma meta_inj k1 k2 :
  k1 ∈ meta_keys -> k2 ∈ meta_keys -> meta_slot id k1 = meta_slot id k2 -> k1 = k2.
Proof.
  apply NoDup_map_inj. unfold live_slots in layout.
  apply NoDup_app in layout as (_ & _ & L). by apply NoDup_app in L as (_ & _ & ?).
Qed.

(** Reads after writes. *)
#[local] Ltac read_after :=
  intros; unfold bal, allow, supply_of, cap_of, meta_word, supply_slot;
  rewrite wslot_put_ne;
  [ done
  | eauto 3 using balance_ne_allow, balance_ne_meta, allow_ne_meta, supply_key, cap_key, not_eq_sym ].

Lemma bal_put_bal x v w y : x ∈ hs -> y ∈ hs ->
  bal (put (slot_balance id x) v w) id y = if decide (x = y) then v else bal w id y.
Proof.
  intros Hx Hy. unfold bal. rewrite wslot_put. repeat case_decide; subst; try done.
  exfalso. eauto using balance_inj.
Qed.

Lemma bal_put_allow o sp v w y : o ∈ hs -> sp ∈ hs -> y ∈ hs ->
  bal (put (slot_allowance id o sp) v w) id y = bal w id y.
Proof. read_after. Qed.

Lemma bal_put_supply v w y : y ∈ hs -> bal (put (supply_slot id) v w) id y = bal w id y.
Proof. read_after. Qed.

Lemma allow_put_bal x v w o sp : x ∈ hs -> o ∈ hs -> sp ∈ hs ->
  allow (put (slot_balance id x) v w) id o sp = allow w id o sp.
Proof. read_after. Qed.

Lemma allow_put_supply v w o sp : o ∈ hs -> sp ∈ hs ->
  allow (put (supply_slot id) v w) id o sp = allow w id o sp.
Proof. read_after. Qed.

Lemma supply_put_bal x v w : x ∈ hs -> supply_of (put (slot_balance id x) v w) id = supply_of w id.
Proof. read_after. Qed.

Lemma supply_put_allow o sp v w : o ∈ hs -> sp ∈ hs ->
  supply_of (put (slot_allowance id o sp) v w) id = supply_of w id.
Proof. read_after. Qed.

Lemma supply_put_supply v w : supply_of (put (supply_slot id) v w) id = v.
Proof. unfold supply_of, meta_word, supply_slot. rewrite wslot_put. by case_decide. Qed.

Lemma cap_put_bal x v w : x ∈ hs -> cap_of (put (slot_balance id x) v w) id = cap_of w id.
Proof. read_after. Qed.

Lemma cap_put_allow o sp v w : o ∈ hs -> sp ∈ hs ->
  cap_of (put (slot_allowance id o sp) v w) id = cap_of w id.
Proof. read_after. Qed.

Lemma cap_put_supply v w : cap_of (put (supply_slot id) v w) id = cap_of w id.
Proof.
  unfold cap_of, meta_word, supply_slot. rewrite wslot_put. case_decide as E; [|done].
  apply meta_inj in E; auto using supply_key, cap_key. done.
Qed.

Lemma inv_fits w h : supply_inv id hs w -> h ∈ hs -> fits U128_MAX (bal w id h).
Proof.
  intros I Hh. destruct (inv_supply _ _ _ I) as [_ B]. rewrite <- (inv_sum _ _ _ I) in B.
  pose proof (sum_of_member (bal w id) hs h (inv_bal _ _ _ I) Hh).
  pose proof (inv_bal _ _ _ I h Hh). fit.
Qed.

(** Writing one holder's balance shifts the sum. *)
Lemma sum_put_bal x v w : x ∈ hs ->
  sum_of (bal (put (slot_balance id x) v w) id) hs = sum_of (bal w id) hs - bal w id x + v.
Proof.
  intros Hx. rewrite (sum_of_update (bal w id) _ hs x).
  - rewrite bal_put_bal by done. by case_decide.
  - apply holders_NoDup.
  - done.
  - intros y Hy Hne. rewrite bal_put_bal by done. by case_decide.
Qed.

Lemma inv_put_allow o sp v w :
  o ∈ hs -> sp ∈ hs -> fits U128_MAX v -> supply_inv id hs w ->
  supply_inv id hs (put (slot_allowance id o sp) v w).
Proof.
  intros Ho Hsp Hv I. split.
  - intros h Hh. rewrite bal_put_allow by done. by apply (inv_bal _ _ _ I).
  - intros o' sp' Ho' Hsp'. unfold allow. rewrite wslot_put. case_decide; [done|]. by apply (inv_allow _ _ _ I).
  - rewrite supply_put_allow by done. apply (inv_supply _ _ _ I).
  - rewrite supply_put_allow, <- (inv_sum _ _ _ I) by done.
    apply sum_of_ext. intros. by apply bal_put_allow.
  - rewrite supply_put_allow, cap_put_allow by done. apply (inv_cap _ _ _ I).
Qed.

(** Moving [v] between two holders. *)
Lemma inv_move x y v w :
  x ∈ hs -> y ∈ hs -> x <> y -> 0 <= v <= bal w id x -> supply_inv id hs w ->
  supply_inv id hs (put (slot_balance id y) (bal w id y + v)
                      (put (slot_balance id x) (bal w id x - v) w)).
Proof.
  intros Hx Hy Hne Hv I. split.
  - intros h Hh. rewrite !bal_put_bal by done. pose proof (inv_bal _ _ _ I y Hy).
    repeat case_decide; try lia. by apply (inv_bal _ _ _ I).
  - intros. rewrite !allow_put_bal by done. by apply (inv_allow _ _ _ I).
  - rewrite !supply_put_bal by done. apply (inv_supply _ _ _ I).
  - rewrite !supply_put_bal, !sum_put_bal, bal_put_bal by done. case_decide; [done|].
    rewrite (inv_sum _ _ _ I). lia.
  - rewrite !supply_put_bal, !cap_put_bal by done. apply (inv_cap _ _ _ I).
Qed.

(** Changing one balance and the supply by the same amount. *)
Lemma inv_adjust x d w :
  x ∈ hs -> 0 <= bal w id x + d -> fits U128_MAX (supply_of w id + d) ->
  (0 < cap_of w id -> supply_of w id + d <= cap_of w id) -> supply_inv id hs w ->
  supply_inv id hs (put (supply_slot id) (supply_of w id + d)
                      (put (slot_balance id x) (bal w id x + d) w)).
Proof.
  intros Hx Hd Hs Hc I. split.
  - intros h Hh. rewrite bal_put_supply, bal_put_bal by done. case_decide; [by subst|]. by apply (inv_bal _ _ _ I).
  - intros. rewrite allow_put_supply, allow_put_bal by done. by apply (inv_allow _ _ _ I).
  - by rewrite supply_put_supply.
  - rewrite supply_put_supply. erewrite sum_of_ext; [|intros; by apply bal_put_supply].
    rewrite sum_put_bal by done. rewrite (inv_sum _ _ _ I). lia.
  - by rewrite supply_put_supply, cap_put_supply, cap_put_bal.
Qed.

Lemma inv_transfer from to v w :
  from ∈ hs -> to ∈ hs -> fits U128_MAX v -> supply_inv id hs w ->
  supply_inv id hs (run (transfer id from to v) w).2.
Proof.
  intros Hf Ht [Hv _] I. rewrite run_transfer by eauto using inv_fits.
  pose proof (inv_bal _ _ _ I from Hf). destruct_cmp; cbn; try done. by apply inv_move.
Qed.

Lemma inv_batch from rs w :
  from ∈ hs -> Forall (fun r => r.1 ∈ hs /\ fits U128_MAX r.2) rs -> supply_inv id hs w ->
  supply_inv id hs (run (batch_transfer id from rs) w).2.
Proof.
  intros Hf Hrs. revert w. induction Hrs as [|[to v] rs [Ht Hv] _ IH]; intros w I; [done|].
  cbn [batch_transfer]. rewrite run_try.
  pose proof (inv_transfer from to v w Hf Ht Hv I) as I'.
  destruct (run (transfer id from to v) w) as [[] w']; [by apply IH | done].
Qed.

Lemma inv_transfer_from sp from to v w :
  sp ∈ hs -> from ∈ hs -> to ∈ hs -> fits U128_MAX v -> supply_inv id hs w ->
  supply_inv id hs (run (transfer_from id sp from to v) w).2.
Proof.
  intros Hsp Hf Ht Hv I. pose proof (inv_allow _ _ _ I from sp Hf Hsp) as Ha.
  rewrite run_transfer_from; [|by apply inv_fits|by apply inv_fits|done|apply Hv].
  destruct (Z.ltb_spec (allow w id from sp) v); [done|].
  pose proof (inv_transfer from to v w Hf Ht Hv I) as P.
  destruct (run _ w) as [[] w']; [|done].
  apply inv_put_allow; try done. fit.
Qed.

Lemma inv_mint caller to v w :
  to ∈ hs -> fits U128_MAX v -> supply_inv id hs w ->
  supply_inv id hs (run (mint id caller to v) w).2.
Proof.
  intros Ht Hv I. pose proof (inv_bal _ _ _ I to Ht). pose proof (inv_supply _ _ _ I).
  rewrite run_mint; [|by apply inv_fits|done|apply Hv].
  destruct (meta_of w id); [|done]. destruct (negb _); [done|].
  destruct (Z.ltb_spec U128_MAX (supply_of w id + v)); [done|].
  destruct (Z.ltb_spec 0 (cap_of w id)), (Z.ltb_spec (cap_of w id) (supply_of w id + v));
    cbn [andb]; try done.
  all: destruct (Z.ltb_spec U128_MAX (bal w id to + v)); [done|].
  all: apply inv_adjust; [done | fit | fit | lia | done].
Qed.

Lemma inv_burn_ok caller from v w w' :
  caller ∈ hs -> from ∈ hs -> fits U128_MAX v -> supply_inv id hs w ->
  run (burn id caller from v) w = (Ok tt, w') -> supply_inv id hs w'.
Proof.
  intros Hc Hf Hv I. pose proof (inv_bal _ _ _ I from Hf). pose proof (inv_supply _ _ _ I).
  pose proof (inv_allow _ _ _ I from caller Hf Hc) as Ha.
  rewrite run_burn; [|by apply inv_fits|done|done|apply Hv
    |by apply not_eq_sym, balance_ne_meta, supply_key
    |by apply not_eq_sym, allow_ne_meta, supply_key].
  destruct (negb (caller =? from)); cbn [andb].
  1: destruct (Z.ltb_spec (allow w id from caller) v); [done|].
  all: destruct (Z.ltb_spec (bal w id from) v); [done|]; cbv zeta;
    destruct (Z.ltb_spec (supply_of w id) v); [done|]; intros [= <-].
  1: rewrite (put_comm (slot_allowance id from caller)) by (by apply not_eq_sym, balance_ne_allow).
  1: set (w1 := put (slot_allowance id from caller) (allow w id from caller - v) w).
  1: assert (I1 : supply_inv id hs w1) by (apply inv_put_allow; [done..|fit|done]).
  1: assert (supply_of w id = supply_of w1 id) as E1 by (by unfold w1; rewrite supply_put_allow).
  1: assert (bal w id from = bal w1 id from) as E2 by (by unfold w1; rewrite bal_put_allow).
  1: rewrite E1, E2 in *.
  all: unfold Z.sub; apply inv_adjust; [done | fit | fit | | done].
  1: pose proof (inv_cap _ _ _ I1); fit.
  pose proof (inv_cap _ _ _ I); fit.
Qed.

(** A failed operation is rolled back; a successful one keeps the invariant. *)
Lemma inv_apply o w : op_ok hs o -> supply_inv id hs w -> supply_inv id hs (apply_op id o w).
Proof.
  intros Ho I. unfold apply_op. destruct o; cbn [op_prog op_ok] in *; destruct_and?.
  - pose proof (inv_transfer from to amount w) as P.
    destruct (run _ w) as [[] w']; [by apply P | done].
  - pose proof (inv_batch from recipients w) as P.
    destruct (run _ w) as [[] w']; [by apply P | done].
  - rewrite run_approve by done. destruct (meta_of w id); [|done]. by apply inv_put_allow.
  - pose proof (inv_transfer_from spender from to amount w) as P.
    destruct (run _ w) as [[] w']; [by apply P | done].
  - pose proof (inv_mint caller to amount w) as P.
    destruct (run _ w) as [[] w']; [by apply P | done].
  - destruct (run _ w) as [[[]|] w'] eqn:E; [|done]. by eapply (inv_burn_ok caller from amount w).
Qed.

Lemma inv_reachable w w' : rtc (asset_step id hs) w w' -> supply_inv id hs w -> supply_inv id hs w'.
Proof.
  induction 1 as [|w1 w2 w3 (o & Ho & ->) _ IH]; [done|]. intros I. by apply IH, inv_apply.
Qed.

End Invariant.

(** ** Registration *)

Lemma run_allocate (w : world) :
  let raw := wslot w ASSET_ADDRESS next_id_slot in
  let id := if raw =? 0 then 1 else raw in
  run allocate_asset_id w =
    if U64_MAX <? raw then (Err AssetIdOverflow, w)
    else if U64_MAX <? id + 1 then (Err AssetIdOverflow, w)
    else (Ok id, put next_id_slot (id + 1) w).
Proof.
  intros raw id. unfold allocate_asset_id. rewrite run_bind, w_run_load. fold raw.
  destruct (U64_MAX <? raw); [done|]. cbv zeta. fold id. rewrite run_try. unfold checked_add.
  destruct (Z.leb_spec (id + 1) U64_MAX), (Z.ltb_spec U64_MAX (id + 1)); try lia; done.
Qed.

(** A string the registry stores faithfully: at most 32 bytes of UTF-8 without
    a NUL. *)
Definition plain_string (bs : list Z) : Prop :=
  (length bs <= 32)%nat /\ Forall (fun b => 0 < b < 256) bs /\ utf8_valid bs = true.

Lemma until_nul_app bs n : Forall (fun b => 0 < b < 256) bs -> until_nul (bs ++ replicate n 0) = bs.
Proof.
  induction 1 as [|b bs Hb _ IH]; cbn.
  - by destruct n.
  - rewrite IH. destruct (Z.eqb_spec b 0); [lia|done].
Qed.

Lemma string_word_roundtrip bs :
  plain_string bs -> until_nul (be_bytes 32 (write_string32 bs)) = bs.
Proof.
  intros (Hl & Hb & _). unfold write_string32. rewrite Nat.min_l by done.
  rewrite take_ge by done.
  replace 32%nat with (length (bs ++ replicate (32 - length bs) 0)) at 1
    by (rewrite length_app, length_replicate; lia).
  rewrite be_bytes_from_be; [by apply until_nul_app|].
  apply Forall_app. split.
  - eapply Forall_impl; [exact Hb|]. unfold is_byte. intros; cbn in *; lia.
  - apply Forall_replicate. unfold is_byte. lia.
Qed.

Lemma run_store_meta id key v (w : world) :
  run (store_meta_u256 id key v) w = (tt, put (meta_slot id key) v w).
Proof. done. Qed.

Lemma run_store_meta_string id key bs (w : world) :
  plain_string bs ->
  run (store_meta_string id key bs) w = (Ok tt, put (meta_slot id key) (write_string32 bs) w).
Proof.
  intros (Hl & _). unfold store_meta_string.
  destruct (Nat.ltb_spec 32 (length bs)); [lia|]. done.
Qed.

(** The writes of a registration, oldest first. *)
Definition base_writes (id : Z) (sym nm : list Z) (dec maxs iss reg_at : Z) (w : world) : world :=
  put (meta_slot id "registered_at") reg_at
  (put (meta_slot id "compliance") 0
  (put (meta_slot id "status") 0
  (put (meta_slot id "supply") 0
  (put (meta_slot id "max_supply") (u128_to_u256 maxs)
  (put (meta_slot id "issuer") (address_to_u256 iss)
  (put (meta_slot id "decimals") dec
  (put (meta_slot id "name") (write_string32 nm)
  (put (meta_slot id "symbol") (write_string32 sym) w)))))))).

Lemma run_write_base_meta id sym nm dec maxs iss reg_at (w : world) :
  plain_string sym -> plain_string nm ->
  run (write_base_meta id sym nm dec maxs iss reg_at) w =
    (Ok tt, base_writes id sym nm dec maxs iss reg_at w).
Proof.
  intros Hs Hn. unfold write_base_meta.
  rewrite run_try, run_store_meta_string, run_try, run_store_meta_string by done.
  by rewrite !run_bind.
Qed.

Definition next_id (w : world) : Z :=
  let raw := wslot w ASSET_ADDRESS next_id_slot in if raw =? 0 then 1 else raw.

Lemma run_register sym nm dec maxs iss reg_at (w : world) :
  plain_string sym -> plain_string nm -> dec <= 18 ->
  0 <= wslot w ASSET_ADDRESS next_id_slot < U64_MAX ->
  run (register sym nm dec maxs iss reg_at) w =
    (Ok (next_id w),
     put (meta_slot (next_id w) "has_erc20") 0
       (base_writes (next_id w) sym nm dec maxs iss reg_at
          (put next_id_slot (next_id w + 1) w))).
Proof.
  intros Hs Hn Hd Hr. unfold register.
  destruct (Z.ltb_spec 18 dec); [lia|]. rewrite run_try, run_allocate. cbv zeta.
  fold (next_id w).
  assert (next_id w < U64_MAX) by (unfold next_id, U64_MAX in *; destruct_cmp; lia).
  destruct (Z.ltb_spec U64_MAX (wslot w ASSET_ADDRESS next_id_slot)); [lia|].
  destruct (Z.ltb_spec U64_MAX (next_id w + 1)); [lia|].
  by rewrite run_try, run_write_base_meta.
Qed.

Lemma meta_word_put id k1 v w k2 :
  NoDup (map (meta_slot id) meta_keys) -> k1 ∈ meta_keys -> k2 ∈ meta_keys ->
  meta_word (put (meta_slot id k1) v w) id k2 = if decide (k1 = k2) then v else meta_word w id k2.
Proof.
  intros Hd H1 H2. unfold meta_word. rewrite wslot_put.
  repeat case_decide; subst; try done.
  exfalso. eauto using NoDup_map_inj.
Qed.

(** The slots a registration touches are distinct. *)
Definition registry_slots (id : Z) : list Z := next_id_slot :: map (meta_slot id) meta_keys.

Lemma meta_word_put_next id v w k :
  NoDup (registry_slots id) -> k ∈ meta_keys ->
  meta_word (put next_id_slot v w) id k = meta_word w id k.
Proof.
  intros Hd Hk. unfold meta_word. rewrite wslot_put_ne; [done|].
  intros E. apply NoDup_cons in Hd as [Hn _]. apply Hn. rewrite E. by apply list_elem_of_fmap_2.
Qed.

Lemma register_meta sym nm dec maxs iss reg_at (w : world) id :
  plain_string sym -> plain_string nm -> fits 18 dec -> fits U128_MAX maxs ->
  fits ADDRESS_MAX iss -> (iss <> 0 \/ sym <> []) -> NoDup (registry_slots id) ->
  meta_of (put (meta_slot id "has_erc20") 0
       (base_writes id sym nm dec maxs iss reg_at (put next_id_slot (id + 1) w))) id =
  Ok (mkMeta sym nm dec iss maxs 0 0 reg_at
        (u256_to_address (meta_word w id "evm_contract"))
        (u256_to_u8 (meta_word w id "dominance"))).
Proof.
  intros Hs Hn Hd Hm Hi Hne HD. assert (HD' : NoDup (map (meta_slot id) meta_keys))
    by (by apply NoDup_cons in HD as [_ ?]).
  assert (K : forall k, bool_decide (k ∈ meta_keys) = true -> k ∈ meta_keys)
    by (intros; by eapply bool_decide_eq_true_1).
  unfold meta_of, meta_string, base_writes.
  rewrite !meta_word_put by (first [exact HD' | apply K; reflexivity]).
  rewrite !meta_word_put_next by (first [exact HD | apply K; reflexivity]).
  repeat first [rewrite decide_True by reflexivity | rewrite decide_False by discriminate].
  rewrite !string_word_roundtrip by done.
  destruct Hs as (_ & _ & ->), Hn as (_ & _ & ->). cbn [result_bind].
  rewrite (address_to_u256_id iss Hi), (u256_to_address_id iss Hi),
    (u128_to_u256_id maxs Hm), (u256_to_u128_id maxs Hm).
  rewrite (u256_to_u128_id 0) by fit.
  rewrite (u256_to_u8_mod dec), (Z.mod_small dec) by fit.
  rewrite (u256_to_u8_mod 0), Z.mod_0_l by done.
  destruct (Z.eqb_spec iss 0), (bool_decide_reflect (sym = [])); cbn [andb]; try done.
  by destruct Hne.
Qed.

End Spec.

(** ** Storage layout *)

(** The logical entries of the asset precompile's storage. *)
Inductive asset_key : Type :=
| KBalance (id addr : Z)
| KAllowance (id owner spender : Z)
| KMeta (id : Z) (key : string)
| KBinding (contract : Z).

Definition key_ok (k : asset_key) : Prop :=
  match k with
  | KBalance id a => fits U64_MAX id /\ fits ADDRESS_MAX a
  | KAllowance id o sp => fits U64_MAX id /\ fits ADDRESS_MAX o /\ fits ADDRESS_MAX sp
  | KMeta id key => fits U64_MAX id /\ key ∈ meta_keys
  | KBinding c => fits ADDRESS_MAX c
  end.

Definition key_slot `{Keccak} (k : asset_key) : Z :=
  match k with
  | KBalance id a => slot_balance id a
  | KAllowance id o sp => slot_allowance id o sp
  | KMeta id key => slot_asset_meta id (b_ key)
  | KBinding c => erc20_binding_slot c
  end.

Definition key_preimage (k : asset_key) : list Z :=
  match k with
  | KBalance id a => u64_bytes id ++ addr_bytes a
  | KAllowance id o sp => u64_bytes id ++ addr_bytes o ++ addr_bytes sp
  | KMeta id key => u64_bytes id ++ b_ key
  | KBinding c => b_ "call:asset:erc20_binding" ++ addr_bytes c
  end.

Lemma key_slot_preimage `{Keccak} k : key_slot k = keccak256 (key_preimage k).
Proof.
  destruct k; unfold key_slot, slot_balance, slot_allowance, slot_asset_meta,
    erc20_binding_slot, storage_slot; cbn [concat]; by rewrite app_nil_r.
Qed.

Lemma length_addr_bytes a : length (addr_bytes a) = 20%nat.
Proof. apply length_be_bytes. Qed.
Lemma length_u64_bytes v : length (u64_bytes v) = 8%nat.
Proof. apply length_be_bytes. Qed.

Lemma addr_bytes_inj a b :
  fits ADDRESS_MAX a -> fits ADDRESS_MAX b -> addr_bytes a = addr_bytes b -> a = b.
Proof.
  unfold fits, ADDRESS_MAX. intros. apply (be_bytes_inj 20); [..|done]; change (Z.of_nat 20) with 20; lia.
Qed.

Lemma u64_bytes_inj a b : fits U64_MAX a -> fits U64_MAX b -> u64_bytes a = u64_bytes b -> a = b.
Proof.
  unfold fits, U64_MAX. intros. apply (be_bytes_inj 8); [..|done]; change (Z.of_nat 8) with 8; lia.
Qed.

(** No metadata key is as long as an address, two addresses or a binding. *)
Lemma meta_key_lengths key : key ∈ meta_keys -> (length (b_ key) <= 13)%nat.
Proof.
  intros Hk. assert (F : Forall (fun k => (length (b_ k) <= 13)%nat) meta_keys)
    by (repeat constructor; vm_compute; lia).
  rewrite Forall_forall in F. by apply F.
Qed.

Lemma meta_key_inj k1 k2 : k1 ∈ meta_keys -> k2 ∈ meta_keys -> b_ k1 = b_ k2 -> k1 = k2.
Proof. apply NoDup_map_inj. refine (bool_decide_eq_true_1 _ _). vm_compute. done. Qed.

Lemma key_preimage_inj k1 k2 :
  key_ok k1 -> key_ok k2 -> key_preimage k1 = key_preimage k2 -> k1 = k2.
Proof.
  intros H1 H2 E. pose proof (f_equal length E) as L.
  destruct k1, k2; cbn [key_ok key_preimage] in *; destruct_and?;
    rewrite !length_app, ?length_addr_bytes, ?length_u64_bytes in L;
    repeat match goal with H : _ ∈ meta_keys |- _ =>
      lazymatch goal with
      | _ : (length (b_ _) <= 13)%nat |- _ => fail
      | _ => pose proof (meta_key_lengths _ H)
      end end;
    try (change (length (b_ "call:asset:erc20_binding")) with 24%nat in L; lia);
    repeat match goal with H : _ ++ _ = _ ++ _ |- _ =>
      apply app_inj_len in H as [? ?]; [|by rewrite ?length_addr_bytes, ?length_u64_bytes] end;
    repeat match goal with
    | H : addr_bytes _ = addr_bytes _ |- _ => apply addr_bytes_inj in H; [|done..]
    | H : u64_bytes _ = u64_bytes _ |- _ => apply u64_bytes_inj in H; [|done..]
    | H : b_ _ = b_ _ |- _ => apply meta_key_inj in H; [|done..]
    end; by subst.
Qed.
