(* ===== verification/AssetPrecompile.v ===== *)
(** * AssetPrecompile: the asset precompile at 0x201

    Models the handlers of [crates/asset/src/precompile.rs] over [Asset] and
    [Dispatch].  The calldata codecs alloy generates from the [sol!] interface
    are the class [AssetAbi]; the event topics are keccak hashes of the
    signatures in the source. *)

From stdpp Require Import base gmap list strings pretty.
From Stdlib Require Import ZArith Lia.
From S2P Require Import Prelude Provider World EvmProvider Refinement Dispatch Utils.
From S2P Require Import Asset AssetSpec.

Local Open Scope Z_scope.
Local Open Scope callnode_scope.

(** ** Call data *)

Record getBalanceCall := { gb_assetId : Z; gb_account : Z }.
Record getTotalSupplyCall := { gts_assetId : Z }.
Record getAssetInfoCall := { gai_assetId : Z }.
Record transferCall := { t_assetId : Z; t_to : Z; t_amount : Z }.
Record batchTransferCall := { bt_assetId : Z; bt_to : list Z; bt_amounts : list Z }.
Record approveCall := { a_assetId : Z; a_spender : Z; a_amount : Z }.
Record transferFromCall := { tf_assetId : Z; tf_from : Z; tf_to : Z; tf_amount : Z }.
Record mintCall := { m_assetId : Z; m_to : Z; m_amount : Z }.
Record burnCall := { bn_assetId : Z; bn_from : Z; bn_amount : Z }.
Record registerCall :=
  { r_symbol : list Z; r_name : list Z; r_decimals : Z; r_maxSupply : Z }.

(** The tuple [getAssetInfo] returns. *)
Record AssetInfo := {
  ai_symbol : Z; ai_name : Z; ai_decimals : Z; ai_issuer : Z; ai_maxSupply : Z;
  ai_status : Z; ai_registeredAt : Z
}.

Class AssetAbi : Type := {
  dec_getBalance : list Z -> result string getBalanceCall;
  dec_getTotalSupply : list Z -> result string getTotalSupplyCall;
  dec_getAssetInfo : list Z -> result string getAssetInfoCall;
  dec_transfer : list Z -> result string transferCall;
  dec_batchTransfer : list Z -> result string batchTransferCall;
  dec_approve : list Z -> result string approveCall;
  dec_transferFrom : list Z -> result string transferFromCall;
  dec_mint : list Z -> result string mintCall;
  dec_burn : list Z -> result string burnCall;
  dec_register : list Z -> result string registerCall;
  enc_u128 : Z -> list Z;
  enc_u64 : Z -> list Z;
  enc_info : AssetInfo -> list Z
}.

Section AssetPrecompile.
Context `{Keccak, AddressDisplay, AssetAbi}.
Context {S : Type} `{!StorageProvider S}.

(** ** Events *)

Definition TRANSFER_TOPIC : Z := keccak256 (b_ "Transfer(uint64,address,address,uint128)").
Definition APPROVAL_TOPIC : Z := keccak256 (b_ "Approval(uint64,address,address,uint128)").
Definition MINT_TOPIC : Z := keccak256 (b_ "Mint(uint64,address,uint128)").
Definition BURN_TOPIC : Z := keccak256 (b_ "Burn(uint64,address,uint128)").
Definition REGISTER_TOPIC : Z := keccak256 (b_ "Register(uint64,address,bytes32)").

Definition emit_asset_event (topic0 : Z) (topics data : list Z) : prog (res unit) :=
  emit_event ASSET_ADDRESS (mkLog (topic0 :: topics) data).

Definition transfer_event (asset_id from to amount : Z) : prog (res unit) :=
  emit_asset_event TRANSFER_TOPIC
    [u64_to_u256 asset_id; address_to_u256 from; address_to_u256 to] (encode_u128 amount).

(** [.map_err(|e| PrecompileError::Other(e.to_string().into()))]. *)
Definition asset {A} (p : prog (ares A)) : prog (res A) :=
  prog_map_err (fun e => Other (asset_error_to_string e)) p.

Definition require_compliance (addr : Z) : prog (res unit) :=
  prog_map_err (fun _ => Other (asset_error_to_string ComplianceFailed))
    (check_compliance addr).

(** ** Handlers: the closures passed to the dispatcher *)

Definition get_balance_handler (call : getBalanceCall) : prog (res Z) :=
  do? asset (read_meta (gb_assetId call));
  asset (read_balance (gb_assetId call) (gb_account call)).

Definition get_total_supply_handler (call : getTotalSupplyCall) : prog (res Z) :=
  meta <-? asset (read_meta (gts_assetId call));
  Ret (Ok (supply meta)).

Definition get_asset_info_handler (call : getAssetInfoCall) : prog (res AssetInfo) :=
  meta <-? asset (read_meta (gai_assetId call));
  Ret (Ok {| ai_symbol := write_string32 (symbol meta);
             ai_name := write_string32 (name meta);
             ai_decimals := decimals meta; ai_issuer := issuer meta;
             ai_maxSupply := max_supply meta; ai_status := status meta;
             ai_registeredAt := registered_at meta |}).

Definition transfer_handler (msg_sender : Z) (call : transferCall) : prog (res unit) :=
  from <-? Ret (require_caller msg_sender);
  do? require_compliance from;
  do? require_compliance (t_to call);
  do? asset (read_meta (t_assetId call));
  do? asset (transfer (t_assetId call) from (t_to call) (t_amount call));
  do? transfer_event (t_assetId call) from (t_to call) (t_amount call);
  Ret (Ok tt).

Definition approve_handler (msg_sender : Z) (call : approveCall) : prog (res unit) :=
  owner <-? Ret (require_caller msg_sender);
  do? asset (approve (a_assetId call) owner (a_spender call) (a_amount call));
  do? emit_asset_event APPROVAL_TOPIC
        [u64_to_u256 (a_assetId call); address_to_u256 owner; address_to_u256 (a_spender call)]
        (encode_u128 (a_amount call));
  Ret (Ok tt).

Definition transfer_from_handler (msg_sender : Z) (call : transferFromCall) : prog (res unit) :=
  spender <-? Ret (require_caller msg_sender);
  do? require_compliance spender;
  do? require_compliance (tf_from call);
  do? require_compliance (tf_to call);
  do? asset (read_meta (tf_assetId call));
  do? asset (transfer_from (tf_assetId call) spender (tf_from call) (tf_to call) (tf_amount call));
  do? transfer_event (tf_assetId call) (tf_from call) (tf_to call) (tf_amount call);
  Ret (Ok tt).

Definition mint_handler (msg_sender : Z) (call : mintCall) : prog (res unit) :=
  caller <-? Ret (require_caller msg_sender);
  if m_to call =? 0 then Ret (Err (Other "mint to zero address")) else
  do? require_compliance caller;
  do? require_compliance (m_to call);
  do? asset (mint (m_assetId call) caller (m_to call) (m_amount call));
  do? emit_asset_event MINT_TOPIC
        [u64_to_u256 (m_assetId call); address_to_u256 (m_to call)]
        (encode_u128 (m_amount call));
  Ret (Ok tt).

Definition burn_handler (msg_sender : Z) (call : burnCall) : prog (res unit) :=
  caller <-? Ret (require_caller msg_sender);
  if bn_from call =? 0 then Ret (Err (Other "burn from zero address")) else
  do? require_compliance caller;
  do? require_compliance (bn_from call);
  do? asset (read_meta (bn_assetId call));
  do? asset (burn (bn_assetId call) caller (bn_from call) (bn_amount call));
  do? emit_asset_event BURN_TOPIC
        [u64_to_u256 (bn_assetId call); address_to_u256 (bn_from call)]
        (encode_u128 (bn_amount call));
  Ret (Ok tt).

Definition register_handler (msg_sender : Z) (call : registerCall) : prog (res Z) :=
  caller <-? Ret (require_caller msg_sender);
  if (32 <? length (r_symbol call))%nat
  then Ret (Err (Other "symbol exceeds 32 bytes")) else
  if (32 <? length (r_name call))%nat
  then Ret (Err (Other "name exceeds 32 bytes")) else
  now <- timestamp;
  asset_id <-? asset (register (r_symbol call) (r_name call) (r_decimals call)
                        (r_maxSupply call) caller now);
  do? emit_asset_event REGISTER_TOPIC
        [u64_to_u256 asset_id; address_to_u256 caller]
        (be_bytes 32 (write_string32 (r_symbol call)));
  Ret (Ok asset_id).

(** ** Entry points *)

Definition precompile_get_balance (calldata : list Z) (s : S) :=
  view dec_getBalance enc_u128 calldata 800 get_balance_handler s.
Definition precompile_get_total_supply (calldata : list Z) (s : S) :=
  view dec_getTotalSupply enc_u128 calldata 800 get_total_supply_handler s.
Definition precompile_get_asset_info (calldata : list Z) (s : S) :=
  view dec_getAssetInfo enc_info calldata 1000 get_asset_info_handler s.
Definition precompile_transfer (calldata : list Z) (msg_sender : Z) (s : S) :=
  mutate_void dec_transfer calldata 5000 (transfer_handler msg_sender) s.
Definition precompile_approve (calldata : list Z) (msg_sender : Z) (s : S) :=
  mutate_void dec_approve calldata 3000 (approve_handler msg_sender) s.
Definition precompile_transfer_from (calldata : list Z) (msg_sender : Z) (s : S) :=
  mutate_void dec_transferFrom calldata 6000 (transfer_from_handler msg_sender) s.
Definition precompile_mint (calldata : list Z) (msg_sender : Z) (s : S) :=
  mutate_void dec_mint calldata 10000 (mint_handler msg_sender) s.
Definition precompile_burn (calldata : list Z) (msg_sender : Z) (s : S) :=
  mutate_void dec_burn calldata 8000 (burn_handler msg_sender) s.
Definition precompile_register (calldata : list Z) (msg_sender : Z) (s : S) :=
  mutate dec_register enc_u64 calldata 50000 (register_handler msg_sender) s.

(** ** Batch transfer

    It charges its gas and checks compliance before taking a checkpoint, and
    does not go through the dispatcher. *)

Definition MAX_BATCH_SIZE : nat := 256.
Definition BASE_PER_ITEM : Z := 5000.
Definition EVENT_OVERHEAD_PER_ITEM : Z := 1700.

Fixpoint require_compliance_all (l : list Z) : prog (res unit) :=
  match l with
  | [] => Ret (Ok tt)
  | a :: rest => do? require_compliance a; require_compliance_all rest
  end.

Fixpoint emit_transfers (asset_id from : Z) (pairs : list (Z * Z)) : prog (res unit) :=
  match pairs with
  | [] => Ret (Ok tt)
  | (to, amount) :: rest =>
      do? transfer_event asset_id from to amount;
      emit_transfers asset_id from rest
  end.

(** The part before the checkpoint. *)
Definition batch_prepare (msg_sender : Z) (call : batchTransferCall) : prog (res Z) :=
  if negb (length (bt_to call) =? length (bt_amounts call))%nat
  then Ret (Err (Other "recipients and amounts length mismatch")) else
  if bool_decide (bt_to call = []) then Ret (Err (Other "empty batch")) else
  if (MAX_BATCH_SIZE <? length (bt_to call))%nat
  then Ret (Err (Other ("batch size exceeds limit of " ++ pretty MAX_BATCH_SIZE))) else
  total_gas <-? Ret (ok_or (Other "batch gas overflow")
    (g ← checked_add U64_MAX BASE_PER_ITEM EVENT_OVERHEAD_PER_ITEM;
     checked_mul U64_MAX g (Z.of_nat (length (bt_to call)))));
  do? charge_gas (Z.to_N total_gas);
  from <-? Ret (require_caller msg_sender);
  do? require_compliance from;
  do? require_compliance_all (bt_to call);
  Ret (Ok from).

(** The closure run under the checkpoint. *)
Definition batch_body (from : Z) (call : batchTransferCall) : prog (res unit) :=
  let pairs := zip (bt_to call) (bt_amounts call) in
  do? asset (read_meta (bt_assetId call));
  do? asset (batch_transfer (bt_assetId call) from pairs);
  emit_transfers (bt_assetId call) from pairs.

Definition precompile_batch_transfer (calldata : list Z) (msg_sender : Z) (s : S) :
    res PrecompileOutput * S :=
  match decode_call dec_batchTransfer calldata with
  | Err e => (Err e, s)
  | Ok call =>
    match run (batch_prepare msg_sender call) s with
    | (Err e, s) => (Err e, s)
    | (Ok from, s) =>
      let '(cp, s) := sp_checkpoint s in
      match run (batch_body from call) s with
      | (Err e, s) => (Err e, sp_revert cp s)
      | (Ok _, s) =>
          let s := sp_commit cp s in
          (Ok (fill_precompile_output (output_new []) s), s)
      end
    end
  end.

End AssetPrecompile.
