(* ===== verification/AssetPrecompileSpec.v ===== *)
(** * AssetPrecompileSpec: the asset precompile on the production provider

    Every mutating entry point of the asset precompile, run on
    [EvmStorageProvider], either leaves the storage untouched or performs
    exactly the operation of [Asset]; no entry point breaks the supply
    invariant; restricted accounts cannot move assets. *)

From stdpp Require Import base gmap list strings pretty.
From Stdlib Require Import ZArith Lia.
From S2P Require Import Prelude Provider World EvmProvider Refinement Dispatch Utils.
From S2P Require Import Asset AssetSpec AssetPrecompile.

Local Open Scope Z_scope.

(** ** The handlers are guarded *)

Section Guards.
Context `{Keccak, AddressDisplay, AssetAbi}.

Lemma guarded_check_compliance wr a : guarded wr (check_compliance a).
Proof. constructor. intros v. constructor. Qed.

Lemma guarded_read_balance wr id a : guarded wr (read_balance id a).
Proof. unfold read_balance. guard_prog. Qed.

Lemma guarded_read_allowance wr id o sp : guarded wr (read_allowance id o sp).
Proof. unfold read_allowance. guard_prog. Qed.

Lemma benign_load_meta wr id key : benign wr (load_meta_u256 id key).
Proof. unfold load_meta_u256. guard_prog. Qed.

Lemma benign_store_meta id key v : benign true (store_meta_u256 id key v).
Proof. unfold store_meta_u256. guard_prog. Qed.

#[local] Hint Resolve guarded_check_compliance guarded_read_balance guarded_read_allowance
  benign_load_meta benign_store_meta : callnode.

Lemma guarded_load_meta_string wr id key : guarded wr (load_meta_string id key).
Proof. unfold load_meta_string. guard_prog. Qed.

#[local] Hint Resolve guarded_load_meta_string : callnode.

Lemma guarded_read_meta wr id : guarded wr (read_meta id).
Proof. unfold read_meta, load_meta_address, load_meta_u128, load_meta_u8. guard_prog. Qed.

Lemma guarded_deduct_balance id a v : guarded true (deduct_balance id a v).
Proof. unfold deduct_balance, write_balance. guard_prog. Qed.

Lemma guarded_add_balance id a v : guarded true (add_balance id a v).
Proof. unfold add_balance, write_balance. guard_prog. Qed.

#[local] Hint Resolve guarded_read_meta guarded_deduct_balance guarded_add_balance : callnode.

Lemma guarded_transfer id from to v : guarded true (transfer id from to v).
Proof. unfold transfer, write_balance. guard_prog. Qed.

#[local] Hint Resolve guarded_transfer : callnode.

Lemma guarded_batch_transfer id from rs : guarded true (batch_transfer id from rs).
Proof. induction rs as [|[to v] rs IH]; cbn [batch_transfer]; guard_prog. Qed.

Lemma guarded_approve id o sp v : guarded true (approve id o sp v).
Proof. unfold approve, write_allowance. guard_prog. Qed.

Lemma guarded_transfer_from id sp from to v : guarded true (transfer_from id sp from to v).
Proof. unfold transfer_from, write_allowance. guard_prog. Qed.

Lemma guarded_mint id c to v : guarded true (mint id c to v).
Proof. unfold mint. guard_prog. Qed.

Lemma guarded_burn id c from v : guarded true (burn id c from v).
Proof. unfold burn, write_allowance, load_meta_u128. guard_prog. Qed.

Lemma guarded_store_meta_string id key bs : guarded true (store_meta_string id key bs).
Proof. unfold store_meta_string. guard_prog. Qed.

#[local] Hint Resolve guarded_batch_transfer guarded_approve guarded_transfer_from
  guarded_mint guarded_burn guarded_store_meta_string : callnode.

Lemma guarded_register sym nm dec maxs iss t : guarded true (register sym nm dec maxs iss t).
Proof. unfold register, allocate_asset_id, write_base_meta. guard_prog. Qed.

#[local] Hint Resolve guarded_register : callnode.

Lemma guarded_require_compliance wr a : guarded wr (require_compliance a).
Proof. unfold require_compliance. guard_prog. Qed.

Lemma guarded_transfer_event wr id f t v : guarded wr (transfer_event id f t v).
Proof. unfold transfer_event, emit_asset_event. guard_prog. Qed.

#[local] Hint Resolve guarded_require_compliance guarded_transfer_event : callnode.

#[local] Ltac handler := unfold asset, emit_asset_event; guard_prog.

Lemma guarded_transfer_handler m c : guarded true (transfer_handler m c).
Proof. unfold transfer_handler; handler. Qed.
Lemma guarded_approve_handler m c : guarded true (approve_handler m c).
Proof. unfold approve_handler; handler. Qed.
Lemma guarded_transfer_from_handler m c : guarded true (transfer_from_handler m c).
Proof. unfold transfer_from_handler; handler. Qed.
Lemma guarded_mint_handler m c : guarded true (mint_handler m c).
Proof. unfold mint_handler; handler. Qed.
Lemma guarded_burn_handler m c : guarded true (burn_handler m c).
Proof. unfold burn_handler; handler. Qed.
Lemma guarded_register_handler m c : guarded true (register_handler m c).
Proof. unfold register_handler; handler. Qed.

Lemma guarded_batch_prepare wr m c : guarded wr (batch_prepare m c).
Proof.
  unfold batch_prepare. guard_prog.
  induction (bt_to c); cbn [require_compliance_all]; guard_prog.
Qed.

End Guards.

(** ** The handlers on the abstract storage *)

Section World.
Context `{Keccak, AddressDisplay, AssetAbi}.
Implicit Types w : world.

(** An account the compliance registry does not restrict. *)
Definition compliant (m : wstate) (a : Z) : Prop :=
  u256_to_u8 (slot m COMPLIANCE_ADDRESS (slot_compliance a)) = 0.

Lemma run_require_compliance a w w' :
  run (require_compliance a) w = (Ok tt, w') -> w' = w /\ compliant (w_cur w) a.
Proof.
  intros E%run_map_err_ok. unfold check_compliance in E. rewrite run_bind, w_run_sload in E.
  cbn [run unwrap_or] in E. unfold compliant.
  destruct (Z.eqb_spec (u256_to_u8 (wslot w COMPLIANCE_ADDRESS (slot_compliance a))) 0);
    [|congruence]. injection E as <-. done.
Qed.

Lemma run_require_caller m (w w' : world) a :
  run (Ret (require_caller m)) w = (Ok a, w') -> a = m /\ m <> 0 /\ w' = w.
Proof.
  cbn. unfold require_caller. destruct (Z.eqb_spec m 0); [congruence|].
  intros [= <- <-]. done.
Qed.

Lemma run_asset_read_meta id w w' m :
  run (asset (read_meta id)) w = (Ok m, w') -> w' = w /\ meta_of w id = Ok m.
Proof. intros E%run_map_err_ok. rewrite run_read_meta in E. by simplify_eq. Qed.

Lemma run_asset_event t ts d w w' :
  run (emit_asset_event t ts d) w = (Ok tt, w') ->
  w' = w_upd (put_log ASSET_ADDRESS (mkLog (t :: ts) d)) w.
Proof. unfold emit_asset_event. rewrite w_run_emit. congruence. Qed.

(** Follow a successful handler step by step. *)
#[local] Ltac follow :=
  repeat match goal with
  | E : run (try_ _ _) _ = (Ok _, _) |- _ => apply run_try_ok in E as (? & ? & ? & E)
  | E : run (Ret (require_caller _)) _ = (Ok _, _) |- _ =>
      apply run_require_caller in E as (-> & ? & ->)
  | u : unit |- _ => destruct u
  | E : run (require_compliance _) _ = (Ok tt, _) |- _ =>
      apply run_require_compliance in E as [-> ?]
  | E : run (asset (read_meta _)) _ = (Ok _, _) |- _ =>
      apply run_asset_read_meta in E as [-> ?]
  | E : run (transfer_event _ _ _ _) _ = (Ok _, _) |- _ => unfold transfer_event in E
  | E : run (emit_asset_event _ _ _) _ = (Ok _, _) |- _ => apply run_asset_event in E as ->
  | E : run (asset _) _ = (Ok _, _) |- _ => apply run_map_err_ok in E
  | E : run (if ?b then _ else _) _ = (Ok _, _) |- _ => destruct b eqn:?
  | E : run (Ret _) _ = _ |- _ => injection E; clear E; intros; subst
  | E : run (Ret (Err _)) _ = (Ok _, _) |- _ => discriminate E
  end.

Definition transfer_log (id from to v : Z) : LogData :=
  mkLog [TRANSFER_TOPIC; u64_to_u256 id; address_to_u256 from; address_to_u256 to]
    (encode_u128 v).

Lemma transfer_handler_ok m c w w' :
  run (transfer_handler m c) w = (Ok tt, w') ->
  m <> 0 /\ compliant (w_cur w) m /\ compliant (w_cur w) (t_to c) /\
  exists w1, run (transfer (t_assetId c) m (t_to c) (t_amount c)) w = (Ok tt, w1) /\
    w' = w_upd (put_log ASSET_ADDRESS (transfer_log (t_assetId c) m (t_to c) (t_amount c))) w1.
Proof. unfold transfer_handler. intros E. follow. eauto 10. Qed.

Lemma approve_handler_ok m c w w' :
  run (approve_handler m c) w = (Ok tt, w') ->
  exists w1 ev, run (approve (a_assetId c) m (a_spender c) (a_amount c)) w = (Ok tt, w1) /\
    w' = w_upd (put_log ASSET_ADDRESS ev) w1.
Proof. unfold approve_handler. intros E. follow. eauto 10. Qed.

Lemma transfer_from_handler_ok m c w w' :
  run (transfer_from_handler m c) w = (Ok tt, w') ->
  compliant (w_cur w) m /\ compliant (w_cur w) (tf_from c) /\ compliant (w_cur w) (tf_to c) /\
  exists w1 ev,
    run (transfer_from (tf_assetId c) m (tf_from c) (tf_to c) (tf_amount c)) w = (Ok tt, w1) /\
    w' = w_upd (put_log ASSET_ADDRESS ev) w1.
Proof. unfold transfer_from_handler. intros E. follow. eauto 10. Qed.

Lemma mint_handler_ok m c w w' :
  run (mint_handler m c) w = (Ok tt, w') ->
  compliant (w_cur w) m /\ compliant (w_cur w) (m_to c) /\ m_to c <> 0 /\
  exists w1 ev, run (mint (m_assetId c) m (m_to c) (m_amount c)) w = (Ok tt, w1) /\
    w' = w_upd (put_log ASSET_ADDRESS ev) w1.
Proof. unfold mint_handler. intros E. follow; [done|]. apply Z.eqb_neq in Heqb. eauto 10. Qed.

Lemma burn_handler_ok m c w w' :
  run (burn_handler m c) w = (Ok tt, w') ->
  compliant (w_cur w) m /\ compliant (w_cur w) (bn_from c) /\
  exists w1 ev, run (burn (bn_assetId c) m (bn_from c) (bn_amount c)) w = (Ok tt, w1) /\
    w' = w_upd (put_log ASSET_ADDRESS ev) w1.
Proof. unfold burn_handler. intros E. follow; [done|]. eauto 10. Qed.

(** Logs do not touch the accounts. *)
Lemma supply_inv_log id hs a ev w :
  supply_inv id hs (w_upd (put_log a ev) w) <-> supply_inv id hs w.
Proof. split; intros [? ? ? ? ?]; by split. Qed.

End World.

(** ** Batch transfers on the production provider *)

Section Batch.
Context `{Keccak, AddressDisplay, AssetAbi}.
Context {J : Type} `{HJ : JournalTr J} `{HL : !JournalLaws J}.
Implicit Types (s : EvmStorageProvider J) (w : world).

(** Emitting a [Transfer] event takes more than a cold read's gas, so a batch
    that ran low on gas cannot succeed. *)
Lemma transfer_log_gas id f t v : COLD_SLOAD_COST < log_gas (transfer_log id f t v).
Proof.
  unfold log_gas, transfer_log, encode_u128, COLD_SLOAD_COST, LOG, LOGTOPIC, LOGDATA. cbn. lia.
Qed.

Lemma emit_transfers_ok id f pairs s s' w :
  run (emit_transfers id f pairs) s = (Ok tt, s') ->
  (pairs <> [] -> ~ low_gas s) /\
  (sync s w -> sync s' (run (emit_transfers id f pairs) w).2).
Proof.
  revert s w. induction pairs as [|[t v] pairs IH]; intros s w E.
  { injection E as <-. done. }
  cbn [emit_transfers] in *. unfold transfer_event, emit_asset_event, emit_event in *.
  rewrite run_try in E. fold (transfer_log id f t v) in *.
  rewrite run_call in E. cbn [run] in E. split.
  - intros _ L. unfold sp_exec in E. cbn in E. unfold evm_emit_event in E.
    destruct (deduct_gas_cases (log_gas (transfer_log id f t v)) s) as [[E2 ?]|[? E2]];
      rewrite E2 in E; [done|].
    unfold low_gas in L. pose proof (transfer_log_gas id f t v). lia.
  - intros Hs. rewrite run_try, run_call. cbn [run].
    destruct (write_emit ASSET_ADDRESS (transfer_log id f t v) s w Hs) as [[E1 S1]|E1].
    + rewrite E1 in E. destruct (IH _ (sp_exec (OEmit ASSET_ADDRESS (transfer_log id f t v)) w).2 E)
        as [_ P]. by apply P.
    + rewrite E1 in E. done.
Qed.

(** The part of a batch before its events. *)
Definition batch_core (from : Z) (c : batchTransferCall) : prog (res unit) :=
  (do? asset (read_meta (bt_assetId c));
   do? asset (batch_transfer (bt_assetId c) from (zip (bt_to c) (bt_amounts c)));
   Ret (Ok tt))%cn.

Lemma batch_body_split {S} `{StorageProvider S} from c (s s' : S) :
  run (batch_body from c) s = (Ok tt, s') ->
  exists s1 : S, run (batch_core from c) s = (Ok tt, s1) /\
    run (emit_transfers (bt_assetId c) from (zip (bt_to c) (bt_amounts c))) s1 = (Ok tt, s').
Proof.
  unfold batch_body, batch_core. intros E.
  apply run_try_ok in E as (m & s1 & E1 & E). apply run_try_ok in E as ([] & s2 & E2 & E).
  exists s2. by rewrite run_try, E1, run_try, E2.
Qed.

Lemma guarded_batch_core from c : guarded true (batch_core from c).
Proof.
  unfold batch_core, asset.
  pose proof (guarded_read_meta true (bt_assetId c)).
  pose proof (guarded_batch_transfer (bt_assetId c) from (zip (bt_to c) (bt_amounts c))).
  guard_prog.
Qed.

Lemma batch_prepare_world m c w r w' :
  run (batch_prepare m c) w = (Ok r, w') ->
  w' = w /\ r = m /\ length (bt_to c) = length (bt_amounts c) /\ bt_to c <> [] /\
  compliant (w_cur w) m /\ Forall (compliant (w_cur w)) (bt_to c).
Proof.
  assert (All : forall l w w', run (require_compliance_all l) w = (Ok tt, w') ->
    w' = w /\ Forall (compliant (w_cur w)) l).
  { induction l as [|a l IH]; intros w0 w1 E; cbn [require_compliance_all] in E.
    - injection E as <-. done.
    - apply run_try_ok in E as ([] & ? & E1 & E). apply run_require_compliance in E1 as [-> ?].
      apply IH in E as [-> ?]. split; [done | by constructor]. }
  unfold batch_prepare. intros E.
  destruct (Nat.eqb_spec (length (bt_to c)) (length (bt_amounts c))); [|done].
  cbn [negb] in E. case_bool_decide; [done|]. destruct (_ <? _)%nat; [done|].
  apply run_try_ok in E as (g & w1 & Eg & E).
  assert (w1 = w) as -> by (cbn [run] in Eg; by simplify_eq).
  apply run_try_ok in E as ([] & w1 & E1 & E).
  assert (w1 = w) as -> by (by injection E1).
  apply run_try_ok in E as (a & w1 & E2 & E). apply run_require_caller in E2 as (-> & _ & ->).
  apply run_try_ok in E as ([] & w1 & E3 & E). apply run_require_compliance in E3 as [-> ?].
  apply run_try_ok in E as ([] & w1 & E4 & E). apply All in E4 as [-> ?].
  injection E as <- <-. auto 10.
Qed.

Lemma batch_prepare_shape {S} `{StorageProvider S} m c (s s' : S) r :
  run (batch_prepare m c) s = (Ok r, s') -> r = m /\ zip (bt_to c) (bt_amounts c) <> [].
Proof.
  unfold batch_prepare. intros E.
  destruct (Nat.eqb_spec (length (bt_to c)) (length (bt_amounts c))) as [El|]; [|done].
  cbn [negb] in E. case_bool_decide; [done|]. destruct (_ <? _)%nat; [done|].
  do 2 apply run_try_ok in E as (? & ? & _ & E). apply run_try_ok in E as (a & s1 & E1 & E).
  cbn [run] in E1. do 2 apply run_try_ok in E as (? & ? & _ & E). cbn [run] in E.
  unfold require_caller in E1. destruct (m =? 0); simplify_eq. split; [done|].
  destruct (bt_to c), (bt_amounts c); done.
Qed.

Lemma readonly_batch_prepare m c : readonly (batch_prepare m c).
Proof.
  assert (C : forall a, readonly (require_compliance a))
    by (intros; unfold require_compliance, check_compliance; readonly_prog).
  unfold batch_prepare. readonly_prog.
  induction (bt_to c); cbn [require_compliance_all]; readonly_prog.
Qed.

Lemma sync_checkpoint_of s w : sync s w -> sync (sp_checkpoint s).2 w.
Proof.
  intros [Hv He]. destruct (sync_checkpoint s) as [Hv' He']. split; cbn in *; congruence.
Qed.

Lemma batch_outcome calldata m s :
  e_is_static (evm_env s) = false ->
  let x := precompile_batch_transfer calldata m s in
  match x.1 with
  | Err _ => vw x.2 = vw s
  | Ok _ => exists c w1,
      dec_batchTransfer calldata = Ok c /\
      compliant (vw s) m /\ Forall (compliant (vw s)) (bt_to c) /\
      run (batch_transfer (bt_assetId c) m (zip (bt_to c) (bt_amounts c))) (abs s) = (Ok tt, w1) /\
      vw x.2 = w_cur (run (emit_transfers (bt_assetId c) m (zip (bt_to c) (bt_amounts c))) w1).2
  end.
Proof.
  intros Hst. unfold precompile_batch_transfer, decode_call.
  destruct (dec_batchTransfer calldata) as [c|e]; [|done]. cbn [map_err].
  pose proof (run_refines false _ (guarded_batch_prepare false m c) s (abs s) (sync_abs s)
    ltac:(done)) as R1.
  destruct (run_frame (batch_prepare m c) s) as (He1 & _ & _).
  pose proof (run_readonly (batch_prepare m c) s (readonly_batch_prepare m c)) as V1.
  destruct (run (batch_prepare m c) s) as [[from|e] s1] eqn:Ep; cbn [fst snd] in *; [|done].
  apply batch_prepare_shape in Ep as [-> Hne].
  destruct (sp_checkpoint s1) as [cp s2] eqn:Ec.
  assert (Hs2 : s2 = (sp_checkpoint s1).2) by (by rewrite Ec).
  assert (Hcp : cp = (sp_checkpoint s1).1) by (by rewrite Ec).
  assert (Hlow : low_gas s1 -> low_gas s2).
  { rewrite Hs2. unfold low_gas. cbn. unfold evm_checkpoint. by destruct (j_checkpoint _). }
  pose proof (run_frame (batch_body m c) s2) as F2.
  destruct (run (batch_body m c) s2) as [[[]|e] s3] eqn:Eb; cbn [fst snd] in *; rewrite Hs2 in F2.
  2: { destruct (checkpoint_revert s1 s3 F2) as (Hv & _). subst cp. by rewrite Hv. }
  destruct (checkpoint_commit s1 s3 F2) as (Hv & _). subst cp. rewrite Hv. clear Hv.
  apply batch_body_split in Eb as (s4 & E4 & Ee).
  destruct (emit_transfers_ok _ _ _ _ _ (run (batch_core m c) (abs s)).2 Ee) as [Hnl Hsync].
  assert (N4 : ~ low_gas s4) by auto.
  assert (N1 : ~ low_gas s1).
  { intros L. apply N4. pose proof (low_gas_run (batch_core m c) s2 (Hlow L)). by rewrite E4 in H2. }
  destruct R1 as [[E1 S1]|[L|B]]; [|done|done].
  destruct (run (batch_prepare m c) (abs s)) as [r w0] eqn:Ew; cbn [fst snd] in *; subst r.
  apply batch_prepare_world in Ew as (-> & _ & _ & _ & Hc1 & Hc2).
  assert (S2 : sync s2 (abs s)) by (rewrite Hs2; by apply sync_checkpoint_of).
  assert (W2 : writable true s2) by (intros _; by rewrite (proj2 S2)).
  pose proof (run_refines true _ (guarded_batch_core m c) s2 (abs s) S2 W2) as R2.
  rewrite E4 in R2. destruct R2 as [[E5 S5]|[L|B]]; [|done|done].
  cbn [fst snd] in *. destruct (run (batch_core m c) (abs s)) as [r w1] eqn:Ew; cbn [fst snd] in *.
  subst r. exists c, w1. split_and!; try done.
  - unfold batch_core in Ew. apply run_try_ok in Ew as (? & ? & Em & Ew).
    apply run_asset_read_meta in Em as [-> _].
    apply run_try_ok in Ew as ([] & ? & Eb & Ew). apply run_map_err_ok in Eb.
    injection Ew as <-. done.
  - by destruct (Hsync S5) as [-> _].
Qed.

End Batch.

(** ** All entry points *)

(** The state-changing entry points that move an existing asset. *)
Inductive asset_entry : Type :=
| ETransfer | EBatchTransfer | EApprove | ETransferFrom | EMint | EBurn.

Section Entries.
Context `{Keccak, AddressDisplay, AssetAbi}.

Definition entry_run {S} `{!StorageProvider S} (e : asset_entry) (calldata : list Z)
    (sender : Z) (s : S) : res PrecompileOutput * S :=
  match e with
  | ETransfer => precompile_transfer calldata sender s
  | EBatchTransfer => precompile_batch_transfer calldata sender s
  | EApprove => precompile_approve calldata sender s
  | ETransferFrom => precompile_transfer_from calldata sender s
  | EMint => precompile_mint calldata sender s
  | EBurn => precompile_burn calldata sender s
  end.

Definition ok_option {E A} (r : result E A) : option A :=
  match r with Ok a => Some a | Err _ => None end.

(** The asset and the operation a call requests. *)
Definition entry_op (e : asset_entry) (calldata : list Z) (m : Z) : option (Z * asset_op) :=
  match e with
  | ETransfer => c ← ok_option (dec_transfer calldata);
      Some (t_assetId c, ATransfer m (t_to c) (t_amount c))
  | EBatchTransfer => c ← ok_option (dec_batchTransfer calldata);
      Some (bt_assetId c, ABatch m (zip (bt_to c) (bt_amounts c)))
  | EApprove => c ← ok_option (dec_approve calldata);
      Some (a_assetId c, AApprove m (a_spender c) (a_amount c))
  | ETransferFrom => c ← ok_option (dec_transferFrom calldata);
      Some (tf_assetId c, ATransferFrom m (tf_from c) (tf_to c) (tf_amount c))
  | EMint => c ← ok_option (dec_mint calldata);
      Some (m_assetId c, AMint m (m_to c) (m_amount c))
  | EBurn => c ← ok_option (dec_burn calldata);
      Some (bn_assetId c, ABurn m (bn_from c) (bn_amount c))
  end.

Definition same_slots (m1 m2 : wstate) : Prop := forall a k, slot m1 a k = slot m2 a k.

Lemma supply_inv_same id hs w1 w2 :
  same_slots (w_cur w1) (w_cur w2) -> supply_inv id hs w1 -> supply_inv id hs w2.
Proof.
  intros E. assert (Es : supply_of w2 id = supply_of w1 id) by (symmetry; apply E).
  assert (Eb : forall h, bal w2 id h = bal w1 id h) by (intros; symmetry; apply E).
  assert (Ec : cap_of w2 id = cap_of w1 id)
    by (unfold cap_of; f_equal; symmetry; apply E).
  intros I. split.
  - intros h Hh. rewrite Eb. by apply (inv_bal _ _ _ I).
  - intros o sp Ho Hsp. replace (allow w2 id o sp) with (allow w1 id o sp) by apply E.
    by apply (inv_allow _ _ _ I).
  - rewrite Es. apply (inv_supply _ _ _ I).
  - rewrite Es, <- (inv_sum _ _ _ I). by apply sum_of_ext.
  - rewrite Es, Ec. apply (inv_cap _ _ _ I).
Qed.

Lemma emit_transfers_slots id f pairs (w : world) :
  same_slots (w_cur w) (w_cur (run (emit_transfers id f pairs) w).2).
Proof.
  revert w. induction pairs as [|[t v] pairs IH]; intros w; [done|].
  cbn [emit_transfers]. rewrite run_try. unfold transfer_event, emit_asset_event.
  rewrite w_run_emit. intros a k. by rewrite <- IH.
Qed.

Context {J : Type} `{HJ : JournalTr J} `{HL : !JournalLaws J}.
Implicit Types (s : EvmStorageProvider J).

(** Nothing, or exactly the requested operation. *)
Definition entry_outcome (e : asset_entry) (calldata : list Z) (m : Z) s : Prop :=
  let x := entry_run e calldata m s in
  match x.1 with
  | Err _ => vw x.2 = vw s
  | Ok _ => exists id o w1,
      entry_op e calldata m = Some (id, o) /\
      run (op_prog id o) (abs s) = (Ok tt, w1) /\
      same_slots (w_cur w1) (vw x.2)
  end.

(** A dispatched handler whose meaning is an asset operation and an event. *)
Lemma mutate_void_op {T} (dec : list Z -> result string T) (gas : N) h
    (f : T -> Z * asset_op) calldata s :
  e_is_static (evm_env s) = false -> COLD_SLOAD_COST <= Z.of_N gas ->
  (forall c, guarded true (h c)) ->
  (forall c w w', run (h c) w = (Ok tt, w') -> exists w1 ev,
     run (op_prog (f c).1 (f c).2) w = (Ok tt, w1) /\
     w' = w_upd (put_log ASSET_ADDRESS ev) w1) ->
  let x := mutate_void dec calldata gas h s in
  match x.1 with
  | Err _ => vw x.2 = vw s
  | Ok _ => exists id o w1, (c ← ok_option (dec calldata); Some (f c)) = Some (id, o) /\
      run (op_prog id o) (abs s) = (Ok tt, w1) /\ same_slots (w_cur w1) (vw x.2)
  end.
Proof.
  intros Hst Hgas Hg Hh x. unfold x, mutate_void.
  destruct (mutate_outcome dec (fun _ : unit => []) h calldata gas s Hg Hst Hgas) as [_ O].
  destruct (mutate dec (fun _ : unit => []) calldata gas h s) as [[o|e'] s'];
    cbn [fst snd] in *; [|done].
  destruct O as (c & [] & Ed & Er & Ev & _). rewrite Ed. cbn.
  destruct (run (h c) (abs s)) as [r w'] eqn:E; cbn [fst snd] in *; subst r.
  destruct (Hh c _ _ E) as (w1 & ev & E1 & ->).
  exists (f c).1, (f c).2, w1. split_and!; [by destruct (f c) | done | by rewrite Ev].
Qed.

Lemma entry_refines e calldata m s :
  e_is_static (evm_env s) = false -> entry_outcome e calldata m s.
Proof.
  intros Hst. unfold entry_outcome. destruct e; cbn [entry_run entry_op].
  2: { pose proof (batch_outcome calldata m s Hst) as B. cbv zeta in *.
       destruct (precompile_batch_transfer calldata m s) as [[o|e] s']; cbn [fst snd] in *; [|done].
       destruct B as (c & w1 & -> & _ & _ & Er & ->). eexists _, _, w1. split_and!; [done|done|].
       apply emit_transfers_slots. }
  - apply (mutate_void_op dec_transfer 5000%N _
      (fun c => (t_assetId c, ATransfer m (t_to c) (t_amount c))));
      [done | done | apply guarded_transfer_handler|].
    intros c w w' (_ & _ & _ & w1 & ? & ?)%transfer_handler_ok. eauto.
  - apply (mutate_void_op dec_approve 3000%N _
      (fun c => (a_assetId c, AApprove m (a_spender c) (a_amount c))));
      [done | done | apply guarded_approve_handler|].
    intros c w w' (w1 & ev & ? & ?)%approve_handler_ok. eauto.
  - apply (mutate_void_op dec_transferFrom 6000%N _
      (fun c => (tf_assetId c, ATransferFrom m (tf_from c) (tf_to c) (tf_amount c))));
      [done | done | apply guarded_transfer_from_handler|].
    intros c w w' (_ & _ & _ & w1 & ev & ? & ?)%transfer_from_handler_ok. eauto.
  - apply (mutate_void_op dec_mint 10000%N _
      (fun c => (m_assetId c, AMint m (m_to c) (m_amount c))));
      [done | done | apply guarded_mint_handler|].
    intros c w w' (_ & _ & _ & w1 & ev & ? & ?)%mint_handler_ok. eauto.
  - apply (mutate_void_op dec_burn 8000%N _
      (fun c => (bn_assetId c, ABurn m (bn_from c) (bn_amount c))));
      [done | done | apply guarded_burn_handler|].
    intros c w w' (_ & _ & w1 & ev & ? & ?)%burn_handler_ok. eauto.
Qed.

End Entries.
