(* ===== verification/SimpleJournal.v ===== *)
(** * SimpleJournal: a reference journal

    A concrete journal that satisfies [JournalLaws]: the storage of [World],
    a set of warm slots, the original value of every slot touched, and a stack
    of saved states.  It shows that the laws assumed of revm's journal can
    hold, and the examples of the development run on it.  With it come
    concrete instances of the other library parameters: an injective stand-in
    for keccak256 and ABI decoders for static arguments. *)

From stdpp Require Import base gmap list strings.
From Stdlib Require Import ZArith Lia.
From S2P Require Import Prelude Provider World EvmProvider Utils AssetPrecompile.

Local Open Scope Z_scope.

Record SimpleJournal : Type := mkSJ {
  sj_view : wstate;
  sj_saved : list (nat * wstate);
  sj_original : gmap (Z * Z) Z
}.

Definition sj_with_view (m : wstate) (j : SimpleJournal) : SimpleJournal :=
  mkSJ m (sj_saved j) (sj_original j).

Definition sj_touch (a k : Z) (j : SimpleJournal) : SimpleJournal :=
  match sj_original j !! (a, k) with
  | Some _ => j
  | None => mkSJ (sj_view j) (sj_saved j) (<[(a, k) := slot (sj_view j) a k]> (sj_original j))
  end.

Definition sj_cold (a k : Z) (j : SimpleJournal) : bool :=
  bool_decide (sj_original j !! (a, k) = None).

#[global] Instance SimpleJournal_tr : JournalTr SimpleJournal := {|
  JournalCheckpoint := nat;
  j_load_account := fun a j => (Ok (native (sj_view j) a, code_of (sj_view j) a), j);
  j_sload := fun a k j =>
    (Ok (slot (sj_view j) a k, sj_cold a k j), sj_touch a k j);
  j_sstore := fun a k v j =>
    let j1 := sj_touch a k j in
    (Ok (mkSStore (default 0 (sj_original j1 !! (a, k))) (slot (sj_view j) a k)
           (sj_cold a k j)),
     sj_with_view (put_slot a k v (sj_view j1)) j1);
  j_tload := fun a k j => tslot (sj_view j) a k;
  j_tstore := fun a k v j => sj_with_view (put_tslot a k v (sj_view j)) j;
  j_log := fun a ev j => sj_with_view (put_log a ev (sj_view j)) j;
  j_checkpoint := fun j =>
    (length (sj_saved j),
     mkSJ (sj_view j) ((length (sj_saved j), sj_view j) :: sj_saved j) (sj_original j));
  j_checkpoint_commit := fun j => mkSJ (sj_view j) (tail (sj_saved j)) (sj_original j);
  j_checkpoint_revert := fun _ j =>
    match sj_saved j with
    | (_, m) :: rest => mkSJ m rest (sj_original j)
    | [] => j
    end;
  j_incr_balance := fun a v j =>
    match checked_add U256_MAX (native (sj_view j) a) v with
    | Some n => (Ok true, sj_with_view (put_native a n (sj_view j)) j)
    | None => (Ok false, j)
    end;
  j_decr_balance := fun a v j =>
    match checked_sub (native (sj_view j) a) v with
    | Some n => (Ok true, sj_with_view (put_native a n (sj_view j)) j)
    | None => (Ok false, j)
    end
|}.

Lemma sj_touch_view a k j : sj_view (sj_touch a k j) = sj_view j.
Proof. unfold sj_touch. by destruct (sj_original j !! (a, k)). Qed.
Lemma sj_touch_saved a k j : sj_saved (sj_touch a k j) = sj_saved j.
Proof. unfold sj_touch. by destruct (sj_original j !! (a, k)). Qed.

#[global] Program Instance SimpleJournal_laws : JournalLaws SimpleJournal :=
  {| j_view := sj_view; j_saved := sj_saved |}.
Next Obligation. intros a j. exists j. done. Qed.
Next Obligation.
  intros a k j. eexists _, _. split; [reflexivity|]. by rewrite sj_touch_view, sj_touch_saved.
Qed.
Next Obligation.
  intros a k v j. eexists _, _. split; [reflexivity|]. cbn.
  by rewrite sj_touch_view, sj_touch_saved.
Qed.
Next Obligation. done. Qed.
Next Obligation. done. Qed.
Next Obligation. done. Qed.
Next Obligation. done. Qed.
Next Obligation. done. Qed.
Next Obligation. intros cp m rest j E. cbn. by rewrite E. Qed.
Next Obligation.
  intros a v j. cbn. destruct (checked_add _ _ _); eexists _, _; split; done.
Qed.
Next Obligation.
  intros a v j. cbn. destruct (checked_sub _ _); eexists _, _; split; done.
Qed.

(** ** Concrete library parameters for examples *)

Module Demo.

(** Injective on byte strings, as no collision of keccak256 is known. *)
#[global] Instance keccak : Keccak := fun bs => from_be (1 :: bs).
#[global] Instance display : AddressDisplay := fun _ => "0x".

Definition need {A} (o : option A) : result string A := ok_or "short calldata"%string o.

(** Static arguments decoded word by word after the 4-byte selector. *)
#[global] Instance abi : AssetAbi := {|
  dec_getBalance := fun d => need (
    i ← decode_u64 d 4; a ← decode_address d 36; Some {| gb_assetId := i; gb_account := a |});
  dec_getTotalSupply := fun d => need (i ← decode_u64 d 4; Some {| gts_assetId := i |});
  dec_getAssetInfo := fun d => need (i ← decode_u64 d 4; Some {| gai_assetId := i |});
  dec_transfer := fun d => need (
    i ← decode_u64 d 4; t ← decode_address d 36; v ← decode_u128 d 68;
    Some {| t_assetId := i; t_to := t; t_amount := v |});
  dec_batchTransfer := fun d => need (
    i ← decode_u64 d 4; t ← decode_address d 36; v ← decode_u128 d 68;
    Some {| bt_assetId := i; bt_to := [t]; bt_amounts := [v] |});
  dec_approve := fun d => need (
    i ← decode_u64 d 4; t ← decode_address d 36; v ← decode_u128 d 68;
    Some {| a_assetId := i; a_spender := t; a_amount := v |});
  dec_transferFrom := fun d => need (
    i ← decode_u64 d 4; f ← decode_address d 36; t ← decode_address d 68; v ← decode_u128 d 100;
    Some {| tf_assetId := i; tf_from := f; tf_to := t; tf_amount := v |});
  dec_mint := fun d => need (
    i ← decode_u64 d 4; t ← decode_address d 36; v ← decode_u128 d 68;
    Some {| m_assetId := i; m_to := t; m_amount := v |});
  dec_burn := fun d => need (
    i ← decode_u64 d 4; f ← decode_address d 36; v ← decode_u128 d 68;
    Some {| bn_assetId := i; bn_from := f; bn_amount := v |});
  dec_register := fun d => need (
    n ← decode_u8 d 4; v ← decode_u128 d 36;
    Some {| r_symbol := b_ "GOLD"; r_name := b_ "Gold"; r_decimals := n; r_maxSupply := v |});
  enc_u128 := encode_u128;
  enc_u64 := encode_u64;
  enc_info := fun _ => []
|}.

Definition env0 (gas : Z) (static : bool) : env := mkEnv gas static 1 1000 7 0.
Definition w0 : wstate := mkW ∅ ∅ [] ∅ ∅.

(** Two holders, asset 1 issued by [alice]. *)
Definition alice : Z := 0xA11CE.
Definition bob : Z := 0xB0B.

Definition put_meta (key : string) (v : Z) (m : wstate) : wstate :=
  put_slot ASSET_ADDRESS (slot_asset_meta 1 (b_ key)) v m.

Definition bank : wstate :=
  put_slot ASSET_ADDRESS (slot_balance 1 alice) 700
  (put_slot ASSET_ADDRESS (slot_balance 1 bob) 300
  (put_meta "symbol" (write_string32 (b_ "GOLD"))
  (put_meta "issuer" alice
  (put_meta "supply" 1000
  (put_meta "max_supply" 5000 w0))))).

Definition provider (m : wstate) (gas : Z) (static : bool) : EvmStorageProvider SimpleJournal :=
  evm_new (mkSJ m [] ∅) (env0 gas static).

(** Calldata of [transfer(1, to, v)]. *)
Definition calldata_transfer (to v : Z) : list Z :=
  [0; 0; 0; 0] ++ encode_u64 1 ++ (replicate 12 0 ++ addr_bytes to) ++ encode_u128 v.

End Demo.

(** The example runs: 200 units move, one event is logged. *)
Example demo_transfer_runs :
  let x := precompile_transfer (Demo.calldata_transfer Demo.bob 200) Demo.alice
             (Demo.provider Demo.bank 100000 false) in
  let m := j_view (evm_journal x.2) in
  is_ok x.1 = true /\ slot m ASSET_ADDRESS (slot_balance 1 Demo.alice) = 500 /\
  slot m ASSET_ADDRESS (slot_balance 1 Demo.bob) = 500 /\ length (w_logs m) = 1%nat.
Proof. vm_compute. done. Qed.
