(* ===== verification/ProviderProps.v ===== *)
(** * ProviderProps: guarantees of the precompile framework

    What every precompile gets from the storage providers and the dispatch
    helpers: gas accounting never underflows, a static call changes no
    account, a mutating call is all or nothing and has the meaning of its
    handler on the abstract storage, and a revert restores the saved state. *)

From stdpp Require Import base gmap list strings.
From Stdlib Require Import ZArith Lia.
From S2P Require Import Prelude Provider World EvmProvider Refinement Dispatch Utils.
From S2P Require Import Asset AssetSpec AssetPrecompile AssetPrecompileSpec SimpleJournal.

Local Open Scope Z_scope.

(** ** Gas accounting *)

Section Gas.
Context {J : Type} `{HJ : JournalTr J} `{HL : !JournalLaws J}.
Implicit Types (s : EvmStorageProvider J).

(** The remaining gas lies between zero and the limit. *)
Definition gas_ok s : Prop := 0 <= evm_gas_remaining s <= e_gas_limit (evm_env s).

Lemma exec_gas_ok {R} (o : op R) s : gas_ok s -> gas_ok (sp_exec o s).2.
Proof.
  intros [H0 H1]. destruct (exec_frame o s) as (He & _ & Hle). split; [|rewrite He; lia].
  clear He Hle. unfold sp_exec. destruct o; cbn; evm_unfold; evm_cases; lia.
Qed.

Lemma run_gas_ok {A} (p : prog A) s : gas_ok s -> gas_ok (run p s).2.
Proof.
  revert s. induction p as [a|R o k IH]; intros s Hs; [done|].
  rewrite run_call. by apply IH, exec_gas_ok.
Qed.

Lemma checkpoint_gas_ok s : gas_ok s -> gas_ok (sp_checkpoint s).2.
Proof. cbn. unfold evm_checkpoint. by destruct (j_checkpoint _). Qed.

Context {T R : Type} (decode : list Z -> result string T) (encode : R -> list Z).

Lemma mutate_gas_ok calldata gas h s : gas_ok s ->
  gas_ok (mutate decode encode calldata gas h s).2 /\
  forall o, (mutate decode encode calldata gas h s).1 = Ok o ->
    out_gas_used o = sp_gas_used (mutate decode encode calldata gas h s).2.
Proof.
  intros Hs. assert (Hr : gas_ok (sp_reset_counters s)) by done. unfold mutate.
  destruct (decode_call decode calldata) as [c|e]; [|split; done].
  pose proof (checkpoint_gas_ok _ Hr) as Hc.
  destruct (sp_checkpoint (sp_reset_counters s)) as [cp s1]; cbn [snd] in Hc.
  pose proof (run_gas_ok (h c) s1 Hc) as H1.
  destruct (run (h c) s1) as [[v|e] s2]; cbn [snd] in H1; [|split; done].
  pose proof (exec_gas_ok (OCharge gas) s2 H1) as H2.
  destruct (sp_exec (OCharge gas) s2) as [[?|?] s3]; cbn [snd] in H2; [|split; done].
  split; [done|]. intros o [= <-]. done.
Qed.

Lemma view_gas_ok calldata gas h s : gas_ok s ->
  gas_ok (view decode encode calldata gas h s).2 /\
  forall o, (view decode encode calldata gas h s).1 = Ok o ->
    out_gas_used o = sp_gas_used (view decode encode calldata gas h s).2.
Proof.
  intros Hs. assert (Hr : gas_ok (sp_reset_counters s)) by done. unfold view.
  destruct (decode_call decode calldata) as [c|e]; [|split; done].
  pose proof (run_gas_ok (h c) _ Hr) as H1.
  destruct (run (h c) _) as [[v|e] s2]; cbn [snd] in H1; [|split; done].
  pose proof (exec_gas_ok (OCharge gas) s2 H1) as H2.
  destruct (sp_exec (OCharge gas) s2) as [[?|?] s3]; cbn [snd] in H2; [|split; done].
  split; [done|]. intros o [= <-]. done.
Qed.

(** The environment is the one of the call. *)
Lemma mutate_env calldata gas h s :
  evm_env (mutate decode encode calldata gas h s).2 = evm_env s.
Proof.
  unfold mutate. destruct (decode_call decode calldata) as [c|e]; [|done].
  assert (He : evm_env (sp_checkpoint (sp_reset_counters s)).2 = evm_env s)
    by (cbn; unfold evm_checkpoint; by destruct (j_checkpoint _)).
  destruct (sp_checkpoint (sp_reset_counters s)) as [cp s1]; cbn [snd] in He.
  destruct (run_frame (h c) s1) as (H1 & _).
  destruct (run (h c) s1) as [[v|e] s2]; cbn [snd] in H1; cbn; [|congruence].
  destruct (exec_frame (OCharge gas) s2) as (H2 & _).
  destruct (sp_exec (OCharge gas) s2) as [[?|?] s3]; cbn in *; congruence.
Qed.

Lemma view_env calldata gas h s :
  evm_env (view decode encode calldata gas h s).2 = evm_env s.
Proof.
  unfold view. destruct (decode_call decode calldata) as [c|e]; [|done].
  destruct (run_frame (h c) (sp_reset_counters s)) as (H1 & _).
  destruct (run (h c) _) as [[v|e] s2]; cbn [snd] in H1; cbn; [|done].
  destruct (exec_frame (OCharge gas) s2) as (H2 & _).
  destruct (sp_exec (OCharge gas) s2) as [[?|?] s3]; cbn in *; congruence.
Qed.

Lemma custom_result_some limit r :
  (forall o, r = Ok o -> 0 <= out_gas_used o <= limit) -> 0 <= limit ->
  exists x, custom_result limit r = Some x /\
    forall ir, x = Ok ir -> 0 <= ir_gas_remaining ir <= limit.
Proof.
  intros Ho Hl. destruct r as [o|[|m|m]]; cbn.
  - specialize (Ho o eq_refl). unfold checked_sub. destruct (Z.leb_spec (out_gas_used o) limit);
      [|lia]. cbn. eexists; split; [done|]. intros ir [= <-]. cbn. lia.
  - eexists; split; [done|]. intros ir [= <-]. cbn. lia.
  - eexists; split; [done|]. intros ir [= <-]. cbn. lia.
  - eexists; split; [done|]. done.
Qed.

End Gas.

(** ** Static calls *)

(** Two storages that differ at most in their logs. *)
Definition same_accounts (m1 m2 : wstate) : Prop :=
  w_persistent m1 = w_persistent m2 /\ w_transient m1 = w_transient m2 /\
  w_balances m1 = w_balances m2 /\ w_codes m1 = w_codes m2.

#[global] Instance same_accounts_equiv : Equivalence same_accounts.
Proof.
  split; unfold same_accounts; [intros m | intros m1 m2 | intros m1 m2 m3];
    intros; destruct_and?; repeat split; congruence.
Qed.

Section Static.
Context {J : Type} `{HJ : JournalTr J} `{HL : !JournalLaws J}.
Implicit Types (s : EvmStorageProvider J).

Lemma exec_static {R} (o : op R) s :
  e_is_static (evm_env s) = true -> same_accounts (vw s) (vw (sp_exec o s).2).
Proof.
  intros Hs. unfold sp_exec. destruct o; cbn; evm_unfold; try rewrite Hs; evm_cases;
    rewrite ?(fun a ev j => proj1 (j_log_ok a ev j)); unfold same_accounts; cbn;
    try congruence; repeat split; congruence.
Qed.

Lemma run_static {A} (p : prog A) s :
  e_is_static (evm_env s) = true -> same_accounts (vw s) (vw (run p s).2).
Proof.
  revert s. induction p as [a|R o k IH]; intros s Hs; [reflexivity|].
  rewrite run_call. transitivity (vw (sp_exec o s).2); [by apply exec_static|].
  apply IH. by rewrite (proj1 (exec_frame o s)).
Qed.

Lemma checkpoint_vw s : vw (sp_checkpoint s).2 = vw s.
Proof. apply sync_checkpoint. Qed.

Lemma mutate_static {T R} (decode : list Z -> result string T) (encode : R -> list Z)
    calldata gas h s :
  e_is_static (evm_env s) = true ->
  same_accounts (vw s) (vw (mutate decode encode calldata gas h s).2).
Proof.
  intros Hs. unfold mutate. set (s0 := sp_reset_counters s). change (vw s) with (vw s0).
  destruct (decode_call decode calldata) as [c|e]; [|reflexivity].
  assert (He : e_is_static (evm_env (sp_checkpoint s0).2) = true)
    by (cbn; unfold evm_checkpoint; by destruct (j_checkpoint _)).
  pose proof (run_static (h c) _ He) as H1. pose proof (run_frame (h c) (sp_checkpoint s0).2) as F1.
  pose proof (checkpoint_vw s0) as Hv. pose proof (checkpoint_revert s0) as Rv.
  pose proof (checkpoint_commit s0) as Cm.
  destruct (sp_checkpoint s0) as [cp s1]; cbn [fst snd] in *. rewrite Hv in H1.
  destruct (run (h c) s1) as [[v|e] s2]; cbn [snd] in *;
    [|destruct (Rv s2 F1) as (-> & _); reflexivity].
  assert (He2 : e_is_static (evm_env s2) = true) by (by rewrite (proj1 F1)).
  pose proof (exec_static (OCharge gas) s2 He2) as H2.
  pose proof (exec_frame (OCharge gas) s2) as F2.
  destruct (sp_exec (OCharge gas) s2) as [[[]|?] s3]; cbn [snd] in *.
  - destruct (Cm s3) as (-> & _); [by transitivity s2|]. by transitivity (vw s2).
  - destruct (Rv s3) as (-> & _); [by transitivity s2|]. reflexivity.
Qed.

(** The effect of a void mutation on the storage. *)
Lemma mutate_void_effect {T} (dec : list Z -> result string T) (gas : N) h calldata s :
  COLD_SLOAD_COST <= Z.of_N gas -> (forall c, dec calldata = Ok c -> guarded true (h c)) ->
  let x := mutate_void dec calldata gas h s in
  same_accounts (vw s) (vw x.2) \/
  (is_ok x.1 = true /\ exists c w', dec calldata = Ok c /\ run (h c) (abs s) = (Ok tt, w') /\
     vw x.2 = w_cur w').
Proof.
  intros Hgas Hg x. destruct (e_is_static (evm_env s)) eqn:Hst.
  { left. by apply mutate_static. }
  unfold x, mutate_void.
  destruct (mutate_outcome_on dec (fun _ : unit => []) h calldata gas s Hg Hst Hgas) as [_ O].
  destruct (mutate dec (fun _ : unit => []) calldata gas h s) as [[o|e'] s'];
    cbn [fst snd] in *; [|left; by rewrite O].
  destruct O as (c & [] & Ed & Er & Ev & _). right. split; [done|].
  exists c, (run (h c) (abs s)).2. split_and!; try done.
  by destruct (run (h c) (abs s)); cbn in *; subst.
Qed.

Lemma same_accounts_slot m1 m2 a k : same_accounts m1 m2 -> slot m2 a k = slot m1 a k.
Proof. intros (E & _). unfold slot. by rewrite E. Qed.

End Static.

(** ** The test double's checkpoints *)

Lemma hm_exec_frame {R} (o : op R) (s : HashMapStorageProvider) :
  hm_checkpoints (sp_exec o s).2 = hm_checkpoints s /\ hm_env (sp_exec o s).2 = hm_env s.
Proof.
  assert (D : forall g x, hm_checkpoints (hm_deduct_gas g x).2 = hm_checkpoints x /\
                          hm_env (hm_deduct_gas g x).2 = hm_env x).
  { intros g x. unfold hm_deduct_gas. by destruct (checked_sub _ _). }
  assert (W : forall a k x, hm_checkpoints (hm_warm_slot a k x) = hm_checkpoints x /\
                            hm_env (hm_warm_slot a k x) = hm_env x).
  { intros a k x. unfold hm_warm_slot. by destruct (hm_is_warm x a k). }
  unfold sp_exec. destruct o; cbn;
    unfold hm_sload, hm_sstore, hm_tload, hm_tstore, hm_emit_event, hm_balance_add,
      hm_balance_sub, hm_balance_get, hm_code_get; cbn; auto;
    repeat match goal with
    | |- context [if e_is_static ?e then _ else _] => destruct (e_is_static e); cbn; auto
    | |- context [match checked_add ?a ?b ?c with _ => _ end] =>
        destruct (checked_add a b c); cbn; auto
    | |- context [match checked_sub ?a ?b with _ => _ end] => destruct (checked_sub a b); cbn; auto
    end;
    match goal with
    | |- context [match hm_deduct_gas ?g ?x with _ => _ end] =>
        pose proof (D g x) as Dx; destruct (hm_deduct_gas g x) as [[] ?]; cbn in *; auto
    | |- context [hm_deduct_gas ?g ?x] => apply (D g x)
    end.
  - rewrite !(proj1 (W _ _ _)), !(proj2 (W _ _ _)). done.
  - case_match; cbn; rewrite !(proj1 (W _ _ _)), !(proj2 (W _ _ _)); done.
Qed.

Lemma hm_run_frame {A} (p : prog A) (s : HashMapStorageProvider) :
  hm_checkpoints (run p s).2 = hm_checkpoints s /\ hm_env (run p s).2 = hm_env s.
Proof.
  revert s. induction p as [a|R o k IH]; intros s; [done|].
  rewrite run_call. destruct (IH (sp_exec o s).1 (sp_exec o s).2) as [-> ->].
  apply hm_exec_frame.
Qed.

(** ** Properties *)

Section Properties.
Context {J : Type} `{HJ : JournalTr J} `{HL : !JournalLaws J}.
Context {T R : Type}.
Implicit Types (decode : list Z -> result string T) (encode : R -> list Z)
  (h : T -> prog (res R)) (s : EvmStorageProvider J).

(** C1: a mutating precompile call is all or nothing.  Although the domain
    storages ignore failed reads and writes, a call dispatched by [mutate] with
    a base charge of at least [COLD_SLOAD_COST] either fails and leaves the
    journal's storage, balances and logs as they were, or succeeds with exactly
    the result and the effects its handler has on the gas-free storage.  The
    checkpoint it opened is closed in both cases. *)
Theorem mutate_all_or_nothing decode encode h calldata (gas : N) s :
  (forall call, guarded true (h call)) ->
  e_is_static (evm_env s) = false -> COLD_SLOAD_COST <= Z.of_N gas ->
  let x := mutate decode encode calldata gas h s in
  saved x.2 = saved s /\
  match x.1 with
  | Err _ => vw x.2 = vw s
  | Ok o => exists call v,
      decode calldata = Ok call /\ (run (h call) (abs s)).1 = Ok v /\
      vw x.2 = w_cur (run (h call) (abs s)).2 /\ out_bytes o = encode v
  end.
Proof. intros Hg Hst Hgas. exact (mutate_outcome decode encode h calldata gas s Hg Hst Hgas). Qed.

(** A view call whose base charge is at least [COLD_SLOAD_COST] never
    returns a wrong answer: if it succeeds, the bytes it returns encode the
    value its handler computes from the stored state. *)
Theorem view_reads_storage decode encode h calldata (gas : N) s o s' :
  (forall call, guarded false (h call)) -> COLD_SLOAD_COST <= Z.of_N gas ->
  view decode encode calldata gas h s = (Ok o, s') ->
  exists call v, decode calldata = Ok call /\
    (run (h call) (abs s)).1 = Ok v /\ out_bytes o = encode v.
Proof. intros Hg Hgas E. exact (view_outcome decode encode h calldata gas s Hg Hgas o s' E). Qed.

(** The assertion "Gas underflow is not possible" of [CallPrecompiles::run]
    never fires.  A call dispatched with the frame's gas limit reports a gas
    usage between zero and the limit, so the interpreter result exists and
    keeps the remaining gas within the limit. *)
Theorem dispatch_gas_never_underflows decode encode h calldata (gas : N) j e :
  0 <= e_gas_limit e ->
  let s := evm_new j e in
  (exists x, custom_result (e_gas_limit e) (mutate decode encode calldata gas h s).1 = Some x /\
     forall ir, x = Ok ir -> 0 <= ir_gas_remaining ir <= e_gas_limit e) /\
  (exists x, custom_result (e_gas_limit e) (view decode encode calldata gas h s).1 = Some x /\
     forall ir, x = Ok ir -> 0 <= ir_gas_remaining ir <= e_gas_limit e).
Proof.
  intros Hl s. assert (Hs : gas_ok s) by (unfold gas_ok; cbn; lia).
  destruct (mutate_gas_ok decode encode calldata gas h s Hs) as [[M0 M1] Mu].
  destruct (view_gas_ok decode encode calldata gas h s Hs) as [[V0 V1] Vu].
  rewrite mutate_env in M1. rewrite view_env in V1.
  split; apply custom_result_some; auto; intros o Eo.
  - rewrite (Mu o Eo). cbn. unfold evm_gas_used. rewrite mutate_env. cbn in *. lia.
  - rewrite (Vu o Eo). cbn. unfold evm_gas_used. rewrite view_env. cbn in *. lia.
Qed.

(** A static call changes no account.  Whatever a handler does and however
    the call ends, a call made in a static context leaves persistent and
    transient storage, native balances and code as they were. *)
Theorem static_call_changes_no_account decode encode h calldata (gas : N) s :
  e_is_static (evm_env s) = true ->
  same_accounts (vw s) (vw (mutate decode encode calldata gas h s).2).
Proof. apply mutate_static. Qed.

(** On the in-memory test provider a failed mutating call restores every
    field, the gas and the warm slots included, and leaves the stack of
    checkpoints as it was. *)
Theorem hashmap_failed_call_restores decode encode h calldata (gas : N)
    (s : HashMapStorageProvider) e :
  (mutate decode encode calldata gas h s).1 = Err e ->
  (mutate decode encode calldata gas h s).2 = hm_reset_gas_counters s.
Proof.
  unfold mutate. set (s0 := sp_reset_counters s). change (hm_reset_gas_counters s) with s0.
  destruct (decode_call decode calldata) as [c|e']; [|done]. cbn [sp_checkpoint HashMap_provider].
  cbn. set (s1 := mkHashMap _ _ _).
  destruct (hm_run_frame (h c) s1) as [F1 F2].
  destruct (run (h c) s1) as [[v|e'] s2]; cbn [fst snd] in *.
  - destruct (hm_exec_frame (OCharge gas) s2) as [G1 G2].
    destruct (sp_exec (OCharge gas) s2) as [[[]|e'] s3]; cbn [fst snd] in *; [done|].
    intros _. unfold hm_checkpoint_revert. rewrite G1, F1, G2, F2. by destruct s0.
  - intros _. unfold hm_checkpoint_revert. rewrite F1, F2. by destruct s0.
Qed.

End Properties.

(** ** The properties at concrete inputs *)

Section Witnesses.
Import Demo.

Lemma mutate_all_or_nothing_witness :
  let x := mutate dec_transfer (fun _ : unit => []) (calldata_transfer bob 200) 5000
             (transfer_handler alice) (provider bank 100000 false) in
  is_ok x.1 = true /\ slot (vw x.2) ASSET_ADDRESS (slot_balance 1 bob) = 500 /\ saved x.2 = [].
Proof.
  cbv zeta. split; [vm_compute; done|]. split; [vm_compute; done|].
  refine (proj1 (mutate_all_or_nothing dec_transfer (fun _ : unit => []) (transfer_handler alice)
    (calldata_transfer bob 200) 5000 (provider bank 100000 false) _ _ _)).
  - intros c. apply guarded_transfer_handler.
  - reflexivity.
  - vm_compute. discriminate.
Defined.

(** A view with enough base gas: the balance as a handler. *)
Definition balance_view (c : getBalanceCall) : prog (res Z) :=
  asset (read_balance (gb_assetId c) (gb_account c)).

Definition calldata_balance (a : Z) : list Z :=
  [0; 0; 0; 0] ++ encode_u64 1 ++ (replicate 12 0 ++ addr_bytes a).

Lemma view_reads_storage_witness :
  exists call v, dec_getBalance (calldata_balance bob) = Ok call /\
    (run (balance_view call) (abs (provider bank 100000 false))).1 = Ok v /\
    encode_u128 300 = enc_u128 v.
Proof.
  refine (view_reads_storage dec_getBalance enc_u128 balance_view (calldata_balance bob) 2100
    (provider bank 100000 false)
    (mkOut 4200 0 (encode_u128 300) false)
    (view dec_getBalance enc_u128 (calldata_balance bob) 2100 balance_view
       (provider bank 100000 false)).2 _ _ _).
  - intros c. unfold balance_view, asset. apply guarded_map_err, guarded_read_balance.
  - vm_compute. discriminate.
  - vm_compute. reflexivity.
Defined.

Lemma dispatch_gas_never_underflows_witness :
  (exists x, custom_result 100000 (mutate dec_transfer (fun _ : unit => [])
       (calldata_transfer bob 200) 5000 (transfer_handler alice)
       (provider bank 100000 false)).1 = Some x /\
     forall ir, x = Ok ir -> 0 <= ir_gas_remaining ir <= 100000) /\
  (exists x, custom_result 100000 (view dec_transfer (fun _ : unit => [])
       (calldata_transfer bob 200) 5000 (transfer_handler alice)
       (provider bank 100000 false)).1 = Some x /\
     forall ir, x = Ok ir -> 0 <= ir_gas_remaining ir <= 100000).
Proof.
  refine (dispatch_gas_never_underflows dec_transfer (fun _ : unit => []) (transfer_handler alice)
    (calldata_transfer bob 200) 5000 (mkSJ bank [] ∅) (env0 100000 false) _).
  vm_compute. discriminate.
Defined.

Lemma static_call_changes_no_account_witness :
  same_accounts bank (vw (mutate dec_transfer (fun _ : unit => []) (calldata_transfer bob 200) 5000
    (transfer_handler alice) (provider bank 100000 true)).2).
Proof.
  exact (static_call_changes_no_account dec_transfer (fun _ : unit => []) (transfer_handler alice)
    (calldata_transfer bob 200) 5000 (provider bank 100000 true) eq_refl).
Defined.

(** No asset is registered in an empty storage, so a transfer fails. *)
Lemma hashmap_failed_call_restores_witness :
  (mutate dec_transfer (fun _ : unit => []) (calldata_transfer bob 200) 5000
    (transfer_handler alice) (hm_new 100000)).2 = hm_reset_gas_counters (hm_new 100000).
Proof.
  refine (hashmap_failed_call_restores dec_transfer (fun _ : unit => []) (transfer_handler alice)
    (calldata_transfer bob 200) 5000 (hm_new 100000) (Other "asset not found") _).
  vm_compute. reflexivity.
Defined.

End Witnesses.
