(* ===== verification/AssetProps.v ===== *)
(** * AssetProps: guarantees of the asset precompile

    The properties of protocol assets: supply is conserved by every entry
    point on the production provider, restricted accounts cannot move assets,
    each operation's result on every branch, registration, storage layout, and
    the consequences of ignoring storage errors when gas runs low or a call is
    static. *)

From stdpp Require Import base gmap list strings pretty.
From Stdlib Require Import ZArith Lia.
From S2P Require Import Prelude Provider World EvmProvider Refinement Dispatch Utils.
From S2P Require Import Asset AssetSpec AssetPrecompile AssetPrecompileSpec SimpleJournal.

Local Open Scope Z_scope.

(** ** Who takes part in a call *)

Section Parties.
Context `{Keccak, AddressDisplay, AssetAbi}.

(** The accounts whose restriction must stop a call: everyone involved in
    moving, minting or burning; an approval moves nothing. *)
Definition entry_parties (e : asset_entry) (calldata : list Z) (m : Z) : list Z :=
  match e with
  | ETransfer => match dec_transfer calldata with Ok c => [m; t_to c] | Err _ => [] end
  | EBatchTransfer =>
      match dec_batchTransfer calldata with Ok c => m :: bt_to c | Err _ => [] end
  | EApprove => []
  | ETransferFrom =>
      match dec_transferFrom calldata with Ok c => [m; tf_from c; tf_to c] | Err _ => [] end
  | EMint => match dec_mint calldata with Ok c => [m; m_to c] | Err _ => [] end
  | EBurn => match dec_burn calldata with Ok c => [m; bn_from c] | Err _ => [] end
  end.

Context {J : Type} `{HJ : JournalTr J} `{HL : !JournalLaws J}.
Implicit Types (s : EvmStorageProvider J).

(** What a successful dispatched call reveals about its handler. *)
Lemma mutate_void_ok {T} (dec : list Z -> result string T) (gas : N) h calldata s :
  e_is_static (evm_env s) = false -> COLD_SLOAD_COST <= Z.of_N gas ->
  (forall c, guarded true (h c)) ->
  is_ok (mutate_void dec calldata gas h s).1 = true ->
  exists c w', dec calldata = Ok c /\ run (h c) (abs s) = (Ok tt, w').
Proof.
  intros Hst Hgas Hg. unfold mutate_void.
  destruct (mutate_outcome dec (fun _ : unit => []) h calldata gas s Hg Hst Hgas) as [_ O].
  destruct (mutate dec (fun _ : unit => []) calldata gas h s) as [[o|e'] s'];
    cbn [fst snd] in *; [|done].
  destruct O as (c & [] & Ed & Er & _ & _). intros _.
  exists c, (run (h c) (abs s)).2. split; [done|]. by destruct (run (h c) (abs s)); cbn in *; subst.
Qed.

Lemma entry_compliant e calldata m s :
  e_is_static (evm_env s) = false -> is_ok (entry_run e calldata m s).1 = true ->
  Forall (compliant (vw s)) (entry_parties e calldata m).
Proof.
  intros Hst Hok. destruct e; cbn [entry_run entry_parties] in *.
  2: { pose proof (batch_outcome calldata m s Hst) as B. cbv zeta in *.
       destruct (precompile_batch_transfer calldata m s) as [[o|e] s']; cbn [fst snd] in *; [|done].
       destruct B as (c & w1 & -> & ? & ? & _). by constructor. }
  - destruct (mutate_void_ok dec_transfer 5000%N _ calldata s Hst ltac:(done)
      (guarded_transfer_handler m) Hok) as (c & w' & -> & E).
    apply transfer_handler_ok in E as (_ & ? & ? & _). by repeat constructor.
  - constructor.
  - destruct (mutate_void_ok dec_transferFrom 6000%N _ calldata s Hst ltac:(done)
      (guarded_transfer_from_handler m) Hok) as (c & w' & -> & E).
    apply transfer_from_handler_ok in E as (? & ? & ? & _). by repeat constructor.
  - destruct (mutate_void_ok dec_mint 10000%N _ calldata s Hst ltac:(done)
      (guarded_mint_handler m) Hok) as (c & w' & -> & E).
    apply mint_handler_ok in E as (? & ? & _). by repeat constructor.
  - destruct (mutate_void_ok dec_burn 8000%N _ calldata s Hst ltac:(done)
      (guarded_burn_handler m) Hok) as (c & w' & -> & E).
    apply burn_handler_ok in E as (? & ? & _). by repeat constructor.
Qed.

(** The supply invariant after a call. *)
Lemma entry_keeps_inv e calldata m s id o hs :
  e_is_static (evm_env s) = false -> entry_op e calldata m = Some (id, o) ->
  NoDup (live_slots id hs) -> op_ok hs o -> supply_inv id hs (abs s) ->
  supply_inv id hs (abs (entry_run e calldata m s).2).
Proof.
  intros Hst Eo Hl Ho I. pose proof (entry_refines e calldata m s Hst) as R.
  unfold entry_outcome in R. destruct (entry_run e calldata m s) as [[out|e'] s'];
    cbn [fst snd] in *.
  - destruct R as (id' & o' & w1 & Eo' & Er & Hs). rewrite Eo in Eo'. injection Eo' as <- <-.
    apply (supply_inv_same id hs w1); [done|].
    pose proof (inv_apply id hs Hl o (abs s) Ho I) as P. unfold apply_op in P. by rewrite Er in P.
  - unfold abs. rewrite R. apply (supply_inv_same id hs (abs s)); [done | exact I].
Qed.

End Parties.

(** ** Registrations do not interfere *)

Section Registrations.
Context `{Keccak}.
Implicit Types w : world.

Lemma meta_of_put_ne id k v w :
  k ∉ map (meta_slot id) meta_keys -> meta_of (put k v w) id = meta_of w id.
Proof.
  intros Hk. assert (E : forall key, bool_decide (key ∈ meta_keys) = true ->
    meta_word (put k v w) id key = meta_word w id key).
  { intros key Hkey. unfold meta_word. apply wslot_put_ne. intros ->. apply Hk.
    apply list_elem_of_fmap_2. by eapply bool_decide_eq_true_1. }
  unfold meta_of, meta_string. by rewrite !E by reflexivity.
Qed.

Lemma meta_of_base_writes_ne id id' sym nm dec maxs iss t w :
  (forall key, key ∈ meta_keys -> meta_slot id' key ∉ map (meta_slot id) meta_keys) ->
  meta_of (put (meta_slot id' "has_erc20") 0 (base_writes id' sym nm dec maxs iss t w)) id =
  meta_of w id.
Proof.
  intros Hd. unfold base_writes.
  assert (K : forall key, bool_decide (key ∈ meta_keys) = true ->
    meta_slot id' key ∉ map (meta_slot id) meta_keys)
    by (intros; by eapply Hd, bool_decide_eq_true_1).
  by rewrite !meta_of_put_ne by (apply K; reflexivity).
Qed.

Lemma next_id_register sym nm dec maxs iss t w w' id :
  run (register sym nm dec maxs iss t) w = (Ok id, w') -> 
  plain_string sym -> plain_string nm -> dec <= 18 ->
  0 <= wslot w ASSET_ADDRESS next_id_slot < U64_MAX ->
  NoDup (registry_slots id) ->
  id = next_id w /\ wslot w' ASSET_ADDRESS next_id_slot = id + 1.
Proof.
  intros E Hs Hn Hd Hr HD. rewrite run_register in E by done.
  injection E as <- <-. split; [done|]. apply NoDup_cons in HD as [HD _].
  assert (N : forall key, bool_decide (key ∈ meta_keys) = true ->
    meta_slot (next_id w) key <> next_id_slot).
  { intros key Hk Eq. apply HD. rewrite <- Eq. apply list_elem_of_fmap_2.
    by eapply bool_decide_eq_true_1. }
  unfold base_writes. rewrite !wslot_put_ne by (apply N; reflexivity).
  rewrite wslot_put. by case_decide.
Qed.

(** The slots of two assets and the id counter are distinct. *)
Definition two_registry_slots (id1 id2 : Z) : list Z :=
  next_id_slot :: map (meta_slot id1) meta_keys ++ map (meta_slot id2) meta_keys.

Lemma two_registry_split id1 id2 :
  NoDup (two_registry_slots id1 id2) ->
  NoDup (registry_slots id1) /\ NoDup (registry_slots id2) /\
  (forall key, key ∈ meta_keys -> meta_slot id2 key ∉ map (meta_slot id1) meta_keys) /\
  next_id_slot ∉ map (meta_slot id1) meta_keys.
Proof.
  unfold two_registry_slots, registry_slots. intros [N0 (N1 & D & N2)%NoDup_app]%NoDup_cons.
  rewrite elem_of_app in N0. split_and!.
  - apply NoDup_cons. auto.
  - apply NoDup_cons. auto.
  - intros key Hk Hin. apply (D _ Hin). by apply list_elem_of_fmap_2.
  - auto.
Qed.

End Registrations.

(** ** Properties on the production provider *)

Section Production.
Context `{Keccak, AddressDisplay, AssetAbi}.
Context {J : Type} `{HJ : JournalTr J} `{HL : !JournalLaws J}.
Implicit Types (s : EvmStorageProvider J).


(** C3: the production precompile refines the asset ledger.  A mutating asset
    call either fails and changes nothing, or succeeds and leaves every storage
    slot as the requested ledger operation alone leaves it, batches
    included. *)
Theorem asset_entry_refines_ledger e calldata m s :
  e_is_static (evm_env s) = false ->
  let x := entry_run e calldata m s in
  match x.1 with
  | Err _ => vw x.2 = vw s
  | Ok _ => exists id o w1,
      entry_op e calldata m = Some (id, o) /\
      run (op_prog id o) (abs s) = (Ok tt, w1) /\ same_slots (w_cur w1) (vw x.2)
  end.
Proof. apply entry_refines. Qed.

(** C33: restricted accounts cannot take part in an asset movement.  If a
    transfer, batch transfer, delegated transfer, mint or burn succeeds, the
    compliance registry restricts none of the caller, the sender and the
    recipients. *)
Theorem restricted_accounts_cannot_move e calldata m s :
  e_is_static (evm_env s) = false -> is_ok (entry_run e calldata m s).1 = true ->
  Forall (compliant (vw s)) (entry_parties e calldata m).
Proof. apply entry_compliant. Qed.

End Production.

(** ** Properties of the ledger *)

Section Ledger.
Context `{Keccak}.
Implicit Types w : world.

(** Every state reachable from a sound ledger by committed operations and
    rolled-back failures is sound: balances add up to the supply and the cap
    is respected. *)
Theorem supply_invariant_reachable id hs w w' :
  NoDup (live_slots id hs) -> supply_inv id hs w -> rtc (asset_step id hs) w w' ->
  supply_inv id hs w'.
Proof. intros Hl I R. by eapply inv_reachable. Qed.

(** The result of a transfer on every branch: an overflowing receiver and
    an underfunded sender are reported with no write, a self-transfer writes
    nothing, otherwise exactly the two balances change. *)
Theorem transfer_result id from to v w :
  fits U128_MAX (bal w id from) -> fits U128_MAX (bal w id to) -> 0 <= v ->
  run (transfer id from to v) w =
    if U128_MAX <? bal w id to + v then (Err BalanceOverflow, w)
    else if from =? to then (Ok tt, w)
    else if bal w id from <? v then (Err InsufficientBalance, w)
    else (Ok tt, put (slot_balance id to) (bal w id to + v)
                   (put (slot_balance id from) (bal w id from - v) w)).
Proof. apply run_transfer. Qed.

(** A delegated transfer spends the allowance exactly: it needs an
    allowance of at least the amount, moves what the direct transfer moves and
    then lowers the allowance by the amount. *)
Theorem transfer_from_result id sp from to v w :
  fits U128_MAX (bal w id from) -> fits U128_MAX (bal w id to) ->
  fits U128_MAX (allow w id from sp) -> 0 <= v ->
  run (transfer_from id sp from to v) w =
    if allow w id from sp <? v then (Err InsufficientAllowance, w)
    else match run (transfer id from to v) w with
         | (Ok _, w') => (Ok tt, put (slot_allowance id from sp) (allow w id from sp - v) w')
         | (Err e, w') => (Err e, w')
         end.
Proof. apply run_transfer_from. Qed.

(** Only the issuer mints, and never beyond u128 or the cap: the result
    of a mint on every branch. *)
Theorem mint_result id caller to v w :
  fits U128_MAX (bal w id to) -> fits U128_MAX (supply_of w id) -> 0 <= v ->
  run (mint id caller to v) w =
    match meta_of w id with
    | Err e => (Err e, w)
    | Ok m =>
        if negb (issuer m =? caller) then (Err NotIssuer, w)
        else if U128_MAX <? supply_of w id + v then (Err SupplyOverflow, w)
        else if (0 <? cap_of w id) && (cap_of w id <? supply_of w id + v)
        then (Err MaxSupplyExceeded, w)
        else if U128_MAX <? bal w id to + v then (Err BalanceOverflow, w)
        else (Ok tt, put (supply_slot id) (supply_of w id + v)
                       (put (slot_balance id to) (bal w id to + v) w))
    end.
Proof. apply run_mint. Qed.

(** In a sound ledger a burn of a holder's tokens by an allowed caller
    always succeeds when the balance suffices: the supply cannot underflow. *)
Theorem burn_succeeds id hs caller from v w :
  NoDup (live_slots id hs) -> supply_inv id hs w -> caller ∈ hs -> from ∈ hs ->
  0 <= v <= bal w id from -> (caller <> from -> v <= allow w id from caller) ->
  exists w', run (burn id caller from v) w = (Ok tt, w') /\
    supply_inv id hs w' /\ supply_of w' id = supply_of w id - v /\
    bal w' id from = bal w id from - v.
Proof.
  intros Hl I Hc Hf Hv Ha. pose proof (inv_fits id hs _ from I Hf) as Hb.
  pose proof (inv_supply _ _ _ I) as Hs.
  assert (Hle : v <= supply_of w id).
  { rewrite <- (inv_sum _ _ _ I). pose proof (sum_of_member (bal w id) hs from (inv_bal _ _ _ I) Hf).
    lia. }
  assert (exists w', run (burn id caller from v) w = (Ok tt, w') /\
    supply_of w' id = supply_of w id - v /\ bal w' id from = bal w id from - v)
    as (w' & E & E1 & E2).
  { rewrite run_burn; [|done|done|by apply (inv_allow _ _ _ I)|lia
      |by apply not_eq_sym, (balance_ne_meta id hs Hl), supply_key
      |by apply not_eq_sym, (allow_ne_meta id hs Hl), supply_key].
    destruct (Z.eqb_spec caller from); cbn [negb andb];
      [|destruct (Z.ltb_spec (allow w id from caller) v); [by specialize (Ha n); lia|]].
    all: destruct (Z.ltb_spec (bal w id from) v); [lia|]; cbv zeta;
      destruct (Z.ltb_spec (supply_of w id) v); [lia|].
    all: eexists; split; [reflexivity|]; split; [apply supply_put_supply|].
    all: rewrite (bal_put_supply id hs Hl) by done;
      rewrite ?(bal_put_allow id hs Hl), (bal_put_bal id hs Hl) by done; by case_decide. }
  exists w'. split_and!; [done| |done|done].
  eapply (inv_burn_ok id hs Hl caller from v w); try done. fit.
Qed.

(** Two registrations get consecutive ids and keep their own metadata:
    reading each asset back returns the record it was registered with, with a
    zero supply. *)
Theorem registrations_read_back sym1 nm1 dec1 max1 iss1 t1 sym2 nm2 dec2 max2 iss2 t2 w :
  let id1 := next_id w in
  let id2 := id1 + 1 in
  plain_string sym1 -> plain_string nm1 -> fits 18 dec1 -> fits U128_MAX max1 ->
  fits ADDRESS_MAX iss1 -> iss1 <> 0 ->
  plain_string sym2 -> plain_string nm2 -> fits 18 dec2 -> fits U128_MAX max2 ->
  fits ADDRESS_MAX iss2 -> iss2 <> 0 ->
  0 <= wslot w ASSET_ADDRESS next_id_slot < U64_MAX - 1 ->
  NoDup (two_registry_slots id1 id2) ->
  exists w1 w2,
    run (register sym1 nm1 dec1 max1 iss1 t1) w = (Ok id1, w1) /\
    run (register sym2 nm2 dec2 max2 iss2 t2) w1 = (Ok id2, w2) /\
    run (read_meta id1) w2 =
      (Ok (mkMeta sym1 nm1 dec1 iss1 max1 0 0 t1 (u256_to_address (meta_word w id1 "evm_contract"))
             (u256_to_u8 (meta_word w id1 "dominance"))), w2) /\
    run (read_meta id2) w2 =
      (Ok (mkMeta sym2 nm2 dec2 iss2 max2 0 0 t2 (u256_to_address (meta_word w1 id2 "evm_contract"))
             (u256_to_u8 (meta_word w1 id2 "dominance"))), w2).
Proof.
  intros id1 id2 Hs1 Hn1 Hd1 Hm1 Hi1 Hz1 Hs2 Hn2 Hd2 Hm2 Hi2 Hz2 Hr HD.
  destruct (two_registry_split id1 id2 HD) as (HD1 & HD2 & Hne & Hnx).
  assert (E1 := run_register sym1 nm1 dec1 max1 iss1 t1 w Hs1 Hn1 ltac:(fit) ltac:(lia)).
  fold id1 in E1. set (w1 := put _ _ _) in E1. exists w1.
  destruct (next_id_register _ _ _ _ _ _ _ _ _ E1 Hs1 Hn1 ltac:(fit) ltac:(lia) HD1) as [_ Hnext].
  assert (Hid : 0 < id1 < U64_MAX - 1).
  { unfold id1, next_id, U64_MAX in *. destruct_cmp; lia. }
  assert (Hn : next_id w1 = id2).
  { unfold next_id. rewrite Hnext. destruct (Z.eqb_spec (id1 + 1) 0); [lia | done]. }
  assert (E2 := run_register sym2 nm2 dec2 max2 iss2 t2 w1 Hs2 Hn2 ltac:(fit) ltac:(lia)).
  rewrite Hn in E2. eexists. split_and!; [exact E1 | exact E2 |..]; rewrite run_read_meta; f_equal.
  - rewrite meta_of_base_writes_ne, meta_of_put_ne by done. unfold w1. by apply register_meta; auto.
  - by apply register_meta; auto.
Qed.

(** The storage layout is collision free up to keccak256: two different
    entries of the asset precompile (balances, allowances, metadata fields,
    ERC-20 bindings) share a slot only if keccak256 maps their different
    preimages to the same hash. *)
Theorem storage_layout_injective k1 k2 :
  key_ok k1 -> key_ok k2 -> k1 <> k2 -> key_slot k1 = key_slot k2 ->
  key_preimage k1 <> key_preimage k2 /\
  keccak256 (key_preimage k1) = keccak256 (key_preimage k2).
Proof.
  intros H1 H2 Hne E. rewrite !key_slot_preimage in E. split; [|done].
  intros Ep. by apply Hne, key_preimage_inj.
Qed.

End Ledger.

(** ** Ignored storage errors *)

Section IgnoredErrors.
Context {J : Type} `{HJ : JournalTr J} `{HL : !JournalLaws J}.
Implicit Types (s : EvmStorageProvider J).

(** A storage write that cannot be paid for still happens.
    [EvmStorageProvider::sstore] writes to the journal before it deducts its
    gas: with less than [SSTORE_SET_GAS] left it answers [OutOfGas], charges
    nothing, and the slot holds the new value.  [StorageRef::store] drops that
    answer, so the write stays unless a later charge fails. *)
Theorem sstore_out_of_gas_still_writes a k v s :
  e_is_static (evm_env s) = false -> evm_gas_remaining s < SSTORE_SET_GAS ->
  let x := run (sstore a k v) s in
  x.1 = Err OutOfGas /\ slot (vw x.2) a k = v /\
  evm_gas_remaining x.2 = evm_gas_remaining s /\
  (run (store a k v) s).2 = x.2.
Proof.
  intros Hst Hg x.
  assert (E : (run (store a k v) s).2 = x.2).
  { unfold x, store. rewrite run_bind. by destruct (run (sstore a k v) s). }
  rewrite E. unfold x, sstore. rewrite run_call. cbn [run fst snd].
  destruct (write_sstore a k v s (abs s) (sync_abs s) Hst) as [[Ex _]|[Ex [Ev _]]].
  - exfalso. revert Ex. unfold sp_exec; cbn; evm_unfold; rewrite Hst; evm_cases;
      unfold COLD_SLOAD_COST in *; try congruence; lia.
  - split; [done|]. split; [|split; [|done]].
    + rewrite Ev. apply slot_put_same.
    + revert Ex. unfold sp_exec; cbn; evm_unfold; rewrite Hst; evm_cases;
        unfold COLD_SLOAD_COST in *; try congruence; done.
Qed.

End IgnoredErrors.

Section Examples.
Import Demo.

(** Calldata of [getBalance(1, a)]. *)
Definition calldata_get_balance (a : Z) : list Z :=
  [0; 0; 0; 0] ++ encode_u64 1 ++ (replicate 12 0 ++ addr_bytes a).

(** [getBalance] can succeed with a wrong answer.  Its base charge is
    below the price of a cold read, so with a gas limit that pays for the
    metadata but not for the balance the failed read counts as zero: the call
    succeeds and returns 0 for an account that holds 300, which a larger limit
    reports correctly. *)
Theorem get_balance_wrong_on_low_gas :
  slot bank ASSET_ADDRESS (slot_balance 1 bob) = 300 /\
  out_bytes <$> ok_option (precompile_get_balance (calldata_get_balance bob)
                             (provider bank 22000 false)).1 = Some (encode_u128 0) /\
  out_bytes <$> ok_option (precompile_get_balance (calldata_get_balance bob)
                             (provider bank 30000 false)).1 = Some (encode_u128 300).
Proof. vm_compute. done. Qed.

(** A transfer made in a static call reports success and logs a
    [Transfer] event although no balance changes: the refused writes are
    ignored and events are not checked for staticness. *)
Theorem static_transfer_logs_event :
  let x := precompile_transfer (calldata_transfer bob 200) alice (provider bank 100000 true) in
  is_ok x.1 = true /\ w_logs (vw x.2) = [(ASSET_ADDRESS, transfer_log 1 alice bob 200)] /\
  slot (vw x.2) ASSET_ADDRESS (slot_balance 1 alice) = 700 /\
  slot (vw x.2) ASSET_ADDRESS (slot_balance 1 bob) = 300.
Proof. vm_compute. done. Qed.

(** The gas a transfer is charged depends on its limit: with 40000 the two
    writes are free. *)
Example transfer_writes_uncharged :
  let x1 := precompile_transfer (calldata_transfer bob 200) alice (provider bank 40000 false) in
  let x2 := precompile_transfer (calldata_transfer bob 200) alice (provider bank 100000 false) in
  is_ok x1.1 = true /\ is_ok x2.1 = true /\ vw x1.2 = vw x2.2 /\
  sp_gas_used x1.2 = 36531 /\ sp_gas_used x2.2 = 76531.
Proof. vm_compute. done. Qed.

(** A self-transfer is not checked against the balance: an account that
    holds 300 transfers 1000000 to itself successfully and the event says
    so. *)
Theorem self_transfer_ignores_balance :
  let x := precompile_transfer (calldata_transfer bob 1000000) bob (provider bank 100000 false) in
  is_ok x.1 = true /\ w_logs (vw x.2) = [(ASSET_ADDRESS, transfer_log 1 bob bob 1000000)] /\
  slot (vw x.2) ASSET_ADDRESS (slot_balance 1 bob) = 300.
Proof. vm_compute. done. Qed.

(** The demo storage in the test double. *)
Definition hm_bank (gas : Z) : HashMapStorageProvider :=
  hm_upd (hm_set_persistent (w_persistent bank)) (hm_new gas).

(** The test double and the production provider disagree when gas is
    short.  With a limit of 40000 the production transfer moves 200 units;
    the in-memory provider, which charges before it writes, reports success
    and logs the event but leaves both balances unchanged. *)
Theorem test_double_drops_writes :
  let x := precompile_transfer (calldata_transfer bob 200) alice (hm_bank 40000) in
  let y := precompile_transfer (calldata_transfer bob 200) alice (provider bank 40000 false) in
  is_ok x.1 = true /\ hm_get x.2 ASSET_ADDRESS (slot_balance 1 bob) = 300 /\
  hm_events (hm_cur x.2) !! ASSET_ADDRESS = Some [transfer_log 1 alice bob 200] /\
  is_ok y.1 = true /\ slot (vw y.2) ASSET_ADDRESS (slot_balance 1 bob) = 500.
Proof. vm_compute. done. Qed.

End Examples.

(** ** The properties at concrete inputs *)

Section Witnesses.
Import Demo.

Definition holders : list Z := [alice; bob].
Definition w_bank : world := abs (provider bank 100000 false).

Lemma demo_layout : NoDup (live_slots 1 holders).
Proof. refine (bool_decide_eq_true_1 _ _). vm_compute. done. Qed.

Lemma demo_inv : supply_inv 1 holders w_bank.
Proof.
  split.
  - apply Forall_forall. repeat constructor; vm_compute; discriminate.
  - assert (F : Forall (fun o => Forall (fun sp => fits U128_MAX (allow w_bank 1 o sp)) holders)
                  holders)
      by (refine (bool_decide_eq_true_1 _ _); vm_compute; reflexivity).
    intros o sp Ho Hsp. rewrite Forall_forall in F. specialize (F o Ho).
    rewrite Forall_forall in F. by apply F.
  - refine (bool_decide_eq_true_1 _ _). vm_compute. done.
  - vm_compute. done.
  - vm_compute. discriminate.
Qed.

Lemma holder_alice : alice ∈ holders.
Proof. constructor. Qed.
Lemma holder_bob : bob ∈ holders.
Proof. constructor; constructor. Qed.


Lemma asset_entry_refines_ledger_witness :
  exists id o w1,
    entry_op ETransfer (calldata_transfer bob 200) alice = Some (id, o) /\
    run (op_prog id o) (abs (provider bank 100000 false)) = (Ok tt, w1) /\
    same_slots (w_cur w1) (vw (entry_run ETransfer (calldata_transfer bob 200) alice
                                 (provider bank 100000 false)).2).
Proof.
  pose proof (asset_entry_refines_ledger ETransfer (calldata_transfer bob 200) alice
    (provider bank 100000 false)) as P.
  assert (Hst : e_is_static (evm_env (provider bank 100000 false)) = false) by reflexivity.
  specialize (P Hst). clear Hst. cbv zeta in P.
  assert (Hok : is_ok (entry_run ETransfer (calldata_transfer bob 200) alice
    (provider bank 100000 false)).1 = true) by (vm_compute; reflexivity).
  destruct (entry_run ETransfer (calldata_transfer bob 200) alice (provider bank 100000 false))
    as [[out|e] s']; [exact P | discriminate Hok].
Defined.

Lemma restricted_accounts_cannot_move_witness :
  Forall (compliant bank) (entry_parties ETransfer (calldata_transfer bob 200) alice).
Proof.
  refine (restricted_accounts_cannot_move ETransfer (calldata_transfer bob 200) alice
    (provider bank 100000 false) eq_refl _).
  vm_compute. reflexivity.
Defined.

Lemma supply_invariant_reachable_witness :
  supply_inv 1 holders (apply_op 1 (AMint alice bob 50) (apply_op 1 (ATransfer alice bob 200) w_bank)).
Proof.
  refine (supply_invariant_reachable 1 holders w_bank _ demo_layout demo_inv _).
  eapply rtc_l; [|eapply rtc_l; [|apply rtc_refl]].
  - exists (ATransfer alice bob 200). split; [|reflexivity].
    split; [exact holder_alice | split; [exact holder_bob|]].
    refine (bool_decide_eq_true_1 _ _). reflexivity.
  - exists (AMint alice bob 50). split; [|reflexivity].
    split; [exact holder_bob|]. refine (bool_decide_eq_true_1 _ _). reflexivity.
Defined.

(** A bound on a concrete amount. *)
#[local] Ltac fits_now := refine (bool_decide_eq_true_1 _ _); vm_compute; reflexivity.

Lemma transfer_result_witness :
  run (transfer 1 alice bob 200) w_bank =
    (Ok tt, put (slot_balance 1 bob) 500 (put (slot_balance 1 alice) 500 w_bank)).
Proof.
  refine (eq_trans (transfer_result 1 alice bob 200 w_bank _ _ _) _);
    [fits_now | fits_now | lia | vm_compute; reflexivity].
Defined.

Definition w_allowed : world := put (slot_allowance 1 alice bob) 150 w_bank.

Lemma transfer_from_result_witness :
  run (transfer_from 1 bob alice bob 200) w_allowed = (Err InsufficientAllowance, w_allowed).
Proof.
  refine (eq_trans (transfer_from_result 1 bob alice bob 200 w_allowed _ _ _ _) _);
    [fits_now | fits_now | fits_now | lia | vm_compute; reflexivity].
Defined.

Lemma mint_result_witness :
  run (mint 1 alice bob 4001) w_bank = (Err MaxSupplyExceeded, w_bank).
Proof.
  refine (eq_trans (mint_result 1 alice bob 4001 w_bank _ _ _) _);
    [fits_now | fits_now | lia | vm_compute; reflexivity].
Defined.

Lemma burn_succeeds_witness :
  exists w', run (burn 1 alice alice 100) w_bank = (Ok tt, w') /\
    supply_inv 1 holders w' /\ supply_of w' 1 = supply_of w_bank 1 - 100 /\
    bal w' 1 alice = bal w_bank 1 alice - 100.
Proof.
  refine (burn_succeeds 1 holders alice alice 100 w_bank demo_layout demo_inv holder_alice
    holder_alice _ _).
  - vm_compute. split; discriminate.
  - intros Hne. destruct (Hne eq_refl).
Defined.

Definition w_empty : world := mkWorld w0 (env0 100000 false) [].

Lemma plain_gold : plain_string (b_ "GOLD").
Proof. split_and!; [vm_compute; lia | repeat constructor | reflexivity]. Qed.

Lemma registrations_read_back_witness :
  exists w1 w2,
    run (register (b_ "GOLD") (b_ "GOLD") 6 5000 alice 1) w_empty = (Ok 1, w1) /\
    run (register (b_ "GOLD") (b_ "GOLD") 18 0 bob 2) w1 = (Ok 2, w2) /\
    run (read_meta 1) w2 = (Ok (mkMeta (b_ "GOLD") (b_ "GOLD") 6 alice 5000 0 0 1
      (u256_to_address (meta_word w_empty 1 "evm_contract"))
      (u256_to_u8 (meta_word w_empty 1 "dominance"))), w2) /\
    run (read_meta 2) w2 = (Ok (mkMeta (b_ "GOLD") (b_ "GOLD") 18 bob 0 0 0 2
      (u256_to_address (meta_word w1 2 "evm_contract"))
      (u256_to_u8 (meta_word w1 2 "dominance"))), w2).
Proof.
  refine (registrations_read_back (b_ "GOLD") (b_ "GOLD") 6 5000 alice 1
    (b_ "GOLD") (b_ "GOLD") 18 0 bob 2 w_empty plain_gold plain_gold _ _ _ _
    plain_gold plain_gold _ _ _ _ _ _);
    first [fits_now | discriminate].
Defined.

(** A keccak256 that collides everywhere: the slots agree, and the theorem
    exhibits the collision. *)
Lemma storage_layout_injective_witness :
  key_preimage (KBalance 1 alice) <> key_preimage (KBalance 1 bob) /\ 0 = 0.
Proof.
  refine (@storage_layout_injective (fun _ => 0) (KBalance 1 alice) (KBalance 1 bob) _ _ _ _).
  - split; fits_now.
  - split; fits_now.
  - discriminate.
  - reflexivity.
Defined.

Lemma sstore_out_of_gas_still_writes_witness :
  let x := run (sstore ASSET_ADDRESS 5 77) (provider bank 19999 false) in
  x.1 = Err OutOfGas /\ slot (vw x.2) ASSET_ADDRESS 5 = 77 /\ evm_gas_remaining x.2 = 19999 /\
  (run (store ASSET_ADDRESS 5 77) (provider bank 19999 false)).2 = x.2.
Proof.
  refine (sstore_out_of_gas_still_writes ASSET_ADDRESS 5 77 (provider bank 19999 false) _ _).
  - reflexivity.
  - vm_compute. reflexivity.
Defined.

End Witnesses.
