(* ===== verification/Keyed.v ===== *)
(** * Keyed: storages addressed by keys

    Each precompile keeps its data at its own address, in slots that are
    hashes of a tag and of the arguments of a key.  A storage is an instance
    of [Keyed]; this file gives the reads, writes and frames that the
    components built on it share, the storage of byte strings in chunks of 32
    bytes, and the tactics that tell preimages of slots apart. *)

From stdpp Require Import base gmap list strings.
From Stdlib Require Import ZArith Lia.
From S2P Require Import Prelude Provider World EvmProvider Refinement Utils Asset AssetSpec.

Local Open Scope Z_scope.
Local Open Scope callnode_scope.

(** ** Chunks of 32 bytes *)

(** [data.chunks(32)]. *)
Definition chunks (data : list Z) : list (list Z) :=
  map (fun i => slice data (32 * i) 32) (seq 0 ((length data + 31) / 32)).

(** A chunk as a word, padded with zeros. *)
Definition chunk_word (c : list Z) : Z := from_be (c ++ replicate (32 - length c) 0).

(** The chunk of [data] at index [i]. *)
Definition chunk_at (data : list Z) (i : nat) : list Z := slice data (32 * i) 32.

Lemma slice_bytes data i m : Forall is_byte data -> Forall is_byte (slice data i m).
Proof. intros. by apply Forall_take, Forall_drop. Qed.

Lemma length_chunk_at data i : length (chunk_at data i) = Nat.min 32 (length data - 32 * i).
Proof. unfold chunk_at, slice. by rewrite length_take, length_drop. Qed.

Lemma chunk_word_bytes c :
  Forall is_byte c -> (length c <= 32)%nat ->
  be_bytes 32 (chunk_word c) = c ++ replicate (32 - length c) 0.
Proof.
  intros Hc Hl. set (p := c ++ replicate (32 - length c) 0).
  assert (length p = 32%nat) as <- by (unfold p; rewrite length_app, length_replicate; lia).
  apply be_bytes_from_be, Forall_app. split; [done|]. apply Forall_replicate. done.
Qed.

Lemma take_next_chunk data i :
  take (32 * i) data ++ chunk_at data i = take (32 * S i) data.
Proof. unfold chunk_at, slice. rewrite take_take_drop. f_equal. lia. Qed.

Lemma chunk_count len : Z.to_nat ((Z.of_nat len + 31) / 32) = ((len + 31) / 32)%nat.
Proof. rewrite <- (Nat2Z.id ((len + 31) / 32)). f_equal. rewrite Nat2Z.inj_div. f_equal. lia. Qed.

Lemma length_chunks data : length (chunks data) = ((length data + 31) / 32)%nat.
Proof. unfold chunks. by rewrite length_map, length_seq. Qed.

Lemma length_chunks_le data : (length (chunks data) <= length data)%nat.
Proof.
  rewrite length_chunks. apply Nat.lt_succ_r, Nat.Div0.div_lt_upper_bound. lia.
Qed.

Lemma chunks_lookup data i :
  (i < (length data + 31) / 32)%nat -> chunks data !! i = Some (chunk_at data i).
Proof.
  intros Hi. unfold chunks. rewrite list_lookup_fmap, lookup_seq_lt by done. done.
Qed.

Lemma chunks_fit data : Z.of_nat (length data) <= U64_MAX -> 0 + Z.of_nat (length (chunks data)) <= U64_MAX.
Proof. pose proof (length_chunks_le data). lia. Qed.

(** ** Preimages *)

Lemma list_ascii_inj s1 s2 :
  String.list_ascii_of_string s1 = String.list_ascii_of_string s2 -> s1 = s2.
Proof.
  intros E. rewrite <- (String.string_of_list_ascii_of_string s1), E.
  apply String.string_of_list_ascii_of_string.
Qed.

Lemma b_inj s1 s2 : b_ s1 = b_ s2 -> s1 = s2.
Proof.
  unfold b_. intros E. apply list_ascii_inj. revert E.
  generalize (String.list_ascii_of_string s1) (String.list_ascii_of_string s2).
  intros l1. induction l1 as [|c1 l1 IH]; intros [|c2 l2]; cbn [map]; intros E; try done.
  injection E as Ec E. apply IH in E as ->. f_equal.
  rewrite <- (Ascii.ascii_N_embedding c1), <- (Ascii.ascii_N_embedding c2). f_equal. lia.
Qed.

(** Byte-string literals as lists. *)
Ltac bytes_now :=
  repeat match goal with
  | E : context [b_ (String ?c ?s)] |- _ =>
      let v := eval vm_compute in (b_ (String c s)) in
      change (b_ (String c s)) with v in E
  end.

Ltac same_tail E :=
  repeat match type of E with _ :: _ = _ :: _ => apply (f_equal tail) in E; cbn [tail] in E end.

Ltac take_apart :=
  repeat match goal with
  | E : u64_bytes _ ++ _ = u64_bytes _ ++ _ |- _ =>
      apply app_inj_len in E as [? ?]; [|by rewrite !length_u64_bytes]
  | E : addr_bytes _ = addr_bytes _ |- _ => apply addr_bytes_inj in E; [|by eauto..]
  | E : u64_bytes _ = u64_bytes _ |- _ => apply u64_bytes_inj in E; [|first [assumption | split; lia]..]
  | E : _ :: _ = _ :: _ |- _ => progress same_tail E
  | E : b_ _ = b_ _ |- _ => apply b_inj in E
  end.

(** ** Storages *)

(** The address of a storage and the slot of each of its keys. *)
Class Keyed (K : Type) : Type := {
  key_address : Z;
  key_slot : K -> Z
}.
#[global] Arguments key_address K {_}.
#[global] Arguments key_slot : simpl never.

(** Keys in use have slots of their own. *)
Class Layout {K} `{Keyed K} (used : K -> Prop) : Prop :=
  layout_inj : forall k k', used k -> used k' -> key_slot k = key_slot k' -> k = k'.

Section Ops.
Context `{HK : Keyed K}.
Implicit Types (k : K) (w : world).

Definition kload k : prog Z := load (key_address K) (key_slot k).
Definition kstore k (v : Z) : prog unit := store (key_address K) (key_slot k) v.

(** Reads with the conversion of the word. *)
Definition kget {A} (conv : Z -> A) k : prog A := v <- kload k; Ret (conv v).

(** Byte strings in chunks, from index [i]. *)
Fixpoint kstore_chunks (key : Z -> K) (i : Z) (cs : list (list Z)) : prog unit :=
  match cs with
  | [] => Ret tt
  | c :: cs => do kstore (key i) (chunk_word c); kstore_chunks key (i + 1) cs
  end.

Fixpoint kread_chunks (n : nat) (key : Z -> K) (i : Z) (len : nat) (acc : list Z) : prog (list Z) :=
  match n with
  | O => Ret acc
  | S n =>
      v <- kload (key i);
      kread_chunks n key (i + 1) len (acc ++ take (Nat.min 32 (len - length acc)) (be_bytes 32 v))
  end.

Fixpoint kclear_chunks (n : nat) (key : Z -> K) (i : Z) : prog unit :=
  match n with
  | O => Ret tt
  | S n => do kstore (key i) 0; kclear_chunks n key (i + 1)
  end.

(** *** Their meaning on the abstract storage *)

Definition krd w k : Z := wslot w (key_address K) (key_slot k).
Definition kwr k (v : Z) w : world := w_upd (put_slot (key_address K) (key_slot k) v) w.

Lemma run_kload k w : run (kload k) w = (krd w k, w).
Proof. done. Qed.
Lemma run_kstore k v w : run (kstore k v) w = (tt, kwr k v w).
Proof. done. Qed.
Lemma run_kget {A} (conv : Z -> A) k w : run (kget conv k) w = (conv (krd w k), w).
Proof. done. Qed.

Lemma krd_kwr_same k v w : krd (kwr k v w) k = v.
Proof. unfold krd, kwr. cbn. by rewrite slot_put_same. Qed.

(** Other addresses are not touched. *)
Lemma wslot_kwr a s k v w : a <> key_address K -> wslot (kwr k v w) a s = wslot w a s.
Proof. intros. unfold kwr. cbn. apply slot_put_ne. congruence. Qed.

Lemma krd_put k s v w : key_address K <> ASSET_ADDRESS -> krd (put s v w) k = krd w k.
Proof. intros. unfold krd, put. cbn. apply slot_put_ne. congruence. Qed.

Lemma krd_log a ev k w : krd (w_upd (put_log a ev) w) k = krd w k.
Proof. done. Qed.

Section Frames.
Context (used : K -> Prop) `{!Layout used}.

Lemma krd_kwr_ne k v w k' : used k -> used k' -> k <> k' -> krd (kwr k v w) k' = krd w k'.
Proof.
  intros Hk Hk' Hne. unfold krd, kwr. cbn. apply slot_put_ne. intros [= E].
  by apply Hne, layout_inj.
Qed.

Lemma krd_kwr `{!EqDecision K} k v w k' :
  used k -> used k' -> krd (kwr k v w) k' = if decide (k = k') then v else krd w k'.
Proof.
  intros Hk Hk'. case_decide as E; [subst; apply krd_kwr_same|by apply krd_kwr_ne].
Qed.

(** The slots of a set of keys, and everything at other addresses. *)
Definition kwrites (P : K -> Prop) (a s : Z) : Prop :=
  a = key_address K -> exists k, used k /\ P k /\ s = key_slot k.

Lemma run_kframe (P : K -> Prop) {A} (p : prog A) w k :
  writes (kwrites P) p -> used k -> ~ P k -> krd (run p w).2 k = krd w k.
Proof.
  intros Hw Hk Hn. unfold krd. apply (run_writes (kwrites P)); [done|].
  intros (k' & Hk' & HP & E); [done|]. apply layout_inj in E; [|done..]. by subst.
Qed.

Lemma writes_kstore (P : K -> Prop) k v : used k -> P k -> writes (kwrites P) (kstore k v).
Proof. intros. apply writes_store. intros _. eauto. Qed.

Lemma writes_kforeign (P : K -> Prop) a s v : a <> key_address K -> writes (kwrites P) (store a s v).
Proof. intros. apply writes_store. intros ?. done. Qed.

Lemma writes_kload P k : writes P (kload k).
Proof. apply writes_load. Qed.

(** *** Chunks *)

Variable key : Z -> K.
Hypothesis key_used : forall i, fits U64_MAX i -> used (key i).
Hypothesis key_inj : forall i j, key i = key j -> i = j.

Definition chunk_key (k : K) : Prop := exists i, k = key i.

Lemma writes_kstore_chunks i cs :
  0 <= i -> i + Z.of_nat (length cs) <= U64_MAX -> writes (kwrites chunk_key) (kstore_chunks key i cs).
Proof using key_used.
  revert i. induction cs as [|c cs IH]; intros i Hi Hl; cbn [kstore_chunks length] in *; [constructor|].
  apply writes_bind; [|intros; apply IH; lia].
  apply writes_kstore; [apply key_used; fit|by eexists].
Qed.

Lemma writes_kclear_chunks n i :
  0 <= i -> i + Z.of_nat n <= U64_MAX -> writes (kwrites chunk_key) (kclear_chunks n key i).
Proof using key_used.
  revert i. induction n as [|n IH]; intros i Hi Hl; cbn [kclear_chunks] in *; [constructor|].
  apply writes_bind; [|intros; apply IH; lia].
  apply writes_kstore; [apply key_used; fit|by eexists].
Qed.

Lemma later_kchunks i cs w j :
  0 <= j < i -> i + Z.of_nat (length cs) <= U64_MAX ->
  krd (run (kstore_chunks key i cs) w).2 (key j) = krd w (key j).
Proof using All.
  revert i w. induction cs as [|c cs IH]; intros i w Hj Hl; [done|].
  cbn [kstore_chunks length] in *. rewrite run_bind, run_kstore, IH by lia.
  apply krd_kwr_ne; [apply key_used; fit..|]. intros E. apply key_inj in E. lia.
Qed.

Lemma stored_kchunk cs i w j c :
  0 <= i -> i + Z.of_nat (length cs) <= U64_MAX -> cs !! j = Some c ->
  krd (run (kstore_chunks key i cs) w).2 (key (i + Z.of_nat j)) = chunk_word c.
Proof using All.
  revert i w j. induction cs as [|c' cs IH]; intros i w j Hi Hl Hj; [done|].
  cbn [kstore_chunks length] in *. rewrite run_bind, run_kstore. destruct j as [|j]; cbn in Hj.
  - injection Hj as ->. rewrite Z.add_0_r, later_kchunks by lia. apply krd_kwr_same.
  - replace (i + Z.of_nat (S j)) with (i + 1 + Z.of_nat j) by lia. apply IH; [lia|lia|done].
Qed.

Definition kchunks_stored w (data : list Z) : Prop :=
  forall i, (i < (length data + 31) / 32)%nat ->
    krd w (key (Z.of_nat i)) = chunk_word (chunk_at data i).

(** Storing a byte string stores its chunks, and reading gives it back. *)
Lemma kstore_chunks_stored data w :
  Z.of_nat (length data) <= U64_MAX ->
  kchunks_stored (run (kstore_chunks key 0 (chunks data)) w).2 data.
Proof using All.
  intros Hl i Hi. change (key (Z.of_nat i)) with (key (0 + Z.of_nat i)).
  apply stored_kchunk; [lia|by apply chunks_fit|by apply chunks_lookup].
Qed.

Lemma kread_back w data m i :
  Forall is_byte data -> kchunks_stored w data -> (i + m <= (length data + 31) / 32)%nat ->
  run (kread_chunks m key (Z.of_nat i) (length data) (take (32 * i) data)) w =
    (take (32 * (i + m)) data, w).
Proof using Type.
  intros Hd Hs. revert i. induction m as [|m IH]; intros i Hi; cbn [kread_chunks].
  { by rewrite Nat.add_0_r. }
  assert (Hl : (32 * i < length data)%nat).
  { assert (32 * ((length data + 31) / 32) <= length data + 31)%nat by (apply Nat.Div0.mul_div_le). lia. }
  rewrite run_bind, run_kload, Hs by lia.
  assert (Hc : Forall is_byte (chunk_at data i)) by (by apply slice_bytes).
  pose proof (length_chunk_at data i) as Lc.
  rewrite chunk_word_bytes by (done || lia).
  rewrite length_take, (Nat.min_l (32 * i) (length data)) by lia.
  rewrite (take_app_length' (chunk_at data i)) by lia. rewrite take_next_chunk.
  replace (Z.of_nat i + 1) with (Z.of_nat (S i)) by lia. rewrite IH by lia. do 2 f_equal. lia.
Qed.

Lemma kread_chunks_stored w data :
  Forall is_byte data -> kchunks_stored w data ->
  run (kread_chunks (length (chunks data)) key 0 (length data) []) w = (data, w).
Proof using Type.
  intros Hd Hs. rewrite length_chunks.
  pose proof (kread_back w data ((length data + 31) / 32) 0 Hd Hs ltac:(lia)) as E.
  rewrite take_0 in E by done. change (Z.of_nat 0) with 0 in E. rewrite E. f_equal. apply take_ge.
  pose proof (Nat.div_mod_eq (length data + 31) 32). pose proof (Nat.mod_upper_bound (length data + 31) 32).
  lia.
Qed.

End Frames.
End Ops.

#[export] Hint Resolve writes_kload : callnode.

(** Run rules of keyed storages, for [autorewrite]; [krun] adds the rules of
    the composed programs. *)
Create Rewrite HintDb krun.
Lemma run_kret {A} (a : A) (w : world) : run (Ret a) w = (a, w).
Proof. done. Qed.
#[export] Hint Rewrite @run_kret @run_kload @run_kstore @run_kget @run_bind @run_try @run_map_err : krun.

(** ** Programs that leave a storage alone *)

Definition same_at (a : Z) (w w' : world) : Prop := forall s, wslot w' a s = wslot w a s.

#[global] Instance same_at_preorder a : PreOrder (same_at a).
Proof. split; [done|]. intros x y z H1 H2 s. by rewrite H2. Qed.

Definition elsewhere (a : Z) (a' s : Z) : Prop := a' <> a.

Lemma run_elsewhere a {A} (p : prog A) w : writes (elsewhere a) p -> same_at a w (run p w).2.
Proof. intros Hp s. apply (run_writes (elsewhere a)); [done|]. by intros []. Qed.

Lemma run_elsewhere_eq a {A} (p : prog A) w r w' :
  writes (elsewhere a) p -> run p w = (r, w') -> same_at a w w'.
Proof. intros Hp E. pose proof (run_elsewhere a p w Hp) as S. by rewrite E in S. Qed.

Lemma same_at_krd `{Keyed K} w w' (k : K) : same_at (key_address K) w w' -> krd w' k = krd w k.
Proof. intros S. apply S. Qed.

Lemma same_at_put a k v w : a <> ASSET_ADDRESS -> same_at a w (put k v w).
Proof. intros Ha s. unfold put. cbn. apply slot_put_ne. congruence. Qed.

Lemma same_at_log a a' ev w : same_at a w (w_upd (put_log a' ev) w).
Proof. done. Qed.

Lemma same_at_kwr `{Keyed K} a (k : K) v w : a <> key_address K -> same_at a w (kwr k v w).
Proof. intros Ha s. by apply wslot_kwr. Qed.

(** ** The ledger *)

Section Ledger.
Context `{Keccak}.
Implicit Types (w : world).

Lemma writes_add_balance P id a v : (forall s, P ASSET_ADDRESS s) -> writes P (add_balance id a v).
Proof. intros HP. unfold add_balance, read_balance, write_balance. writes_prog. apply HP. Qed.
Lemma writes_deduct_balance P id a v : (forall s, P ASSET_ADDRESS s) -> writes P (deduct_balance id a v).
Proof. intros HP. unfold deduct_balance, read_balance, write_balance. writes_prog. apply HP. Qed.

(** A credit or a debit that succeeds. *)
Lemma add_balance_ok id a v w u w' :
  0 <= bal w id a -> 0 <= v -> run (add_balance id a v) w = (Ok u, w') ->
  bal w id a + v <= U128_MAX /\ w' = put (slot_balance id a) (bal w id a + v) w.
Proof.
  intros Hb Hv E. assert (Hf : fits U128_MAX (bal w id a)).
  { revert E. unfold add_balance, read_balance, checked_u128. rewrite run_try, run_bind, w_run_load.
    fold (bal w id a). cbn [run]. destruct (Z.ltb_spec U128_MAX (bal w id a)); [done|]. fit. }
  rewrite run_add_balance in E by done. destruct (Z.ltb_spec U128_MAX (bal w id a + v)); [done|].
  injection E as <- <-. split; [lia|done].
Qed.

Lemma deduct_balance_ok id a v w u w' :
  0 <= bal w id a -> 0 <= v -> run (deduct_balance id a v) w = (Ok u, w') ->
  v <= bal w id a /\ w' = put (slot_balance id a) (bal w id a - v) w.
Proof.
  intros Hb Hv E. assert (Hf : fits U128_MAX (bal w id a)).
  { revert E. unfold deduct_balance, read_balance, checked_u128. rewrite run_try, run_bind, w_run_load.
    fold (bal w id a). cbn [run]. destruct (Z.ltb_spec U128_MAX (bal w id a)); [done|]. fit. }
  rewrite run_deduct_balance in E by done. destruct (Z.ltb_spec (bal w id a) v); [done|].
  injection E as <- <-. split; [lia|done].
Qed.

End Ledger.

(** A run from its result. *)
Lemma run_to {A} (p : prog A) (a : A) (w : world) : (run p w).1 = a -> run p w = (a, (run p w).2).
Proof. intros <-. apply surjective_pairing. Qed.

(** Follows a run that is known to succeed: evaluates its reads and keeps the
    conditions it passed. *)
Ltac krun_inv H :=
  repeat (progress autorewrite with krun in H
          || match type of H with
             | context [if ?b then _ else _] => destruct b eqn:?; try discriminate H
             | context [match ?x with _ => _ end] => destruct x eqn:?; try discriminate H
             end).
