(* ===== verification/HashDemo.v ===== *)
(** * HashDemo: a hash without collisions

    The stand-in for keccak256 that the concrete examples use is injective on
    byte strings, so the layouts assumed of the storages hold for it. *)

From stdpp Require Import base list strings.
From Stdlib Require Import ZArith Lia.
From S2P Require Import Prelude Utils SimpleJournal.

Local Open Scope Z_scope.

Module HashDemo.
Import Demo.

Lemma pow_256_lt a b : 256 ^ Z.of_nat a < 2 * 256 ^ Z.of_nat b -> (a <= b)%nat.
Proof.
  intros Hl. destruct (Nat.le_gt_cases a b) as [|Hgt]; [done|]. exfalso.
  assert (256 ^ Z.of_nat (S b) <= 256 ^ Z.of_nat a) as Hm by (apply Z.pow_le_mono_r; lia).
  rewrite pow256_succ in Hm. pose proof (Z.pow_pos_nonneg 256 (Z.of_nat b)). lia.
Qed.

Lemma hash_inj xs ys :
  Forall is_byte xs -> Forall is_byte ys -> keccak256 xs = keccak256 ys -> xs = ys.
Proof.
  intros Hx Hy E. unfold keccak256, keccak in E. cbn [from_be] in E.
  pose proof (from_be_bound _ Hx) as Bx. pose proof (from_be_bound _ Hy) as By.
  assert (length xs = length ys) as El.
  { assert (length xs <= length ys /\ length ys <= length xs)%nat; [split; apply pow_256_lt; lia|lia]. }
  rewrite <- (be_bytes_from_be xs), <- (be_bytes_from_be ys), El by done. f_equal.
  rewrite El in E. lia.
Qed.

Lemma hash_positive xs : Forall is_byte xs -> keccak256 xs <> 0.
Proof.
  intros Hx. unfold keccak256, keccak. cbn [from_be]. pose proof (from_be_bound _ Hx).
  pose proof (Z.pow_pos_nonneg 256 (Z.of_nat (length xs))). lia.
Qed.

Lemma b_bytes s : Forall is_byte (b_ s).
Proof.
  unfold b_. apply Forall_map, Forall_forall. intros c _.
  pose proof (Ascii.N_ascii_bounded c). unfold is_byte. lia.
Qed.

Lemma hash_above xs : Forall is_byte xs -> xs <> [] -> 1 < keccak256 xs.
Proof.
  intros Hx Hne. unfold keccak256, keccak. cbn [from_be]. pose proof (from_be_bound _ Hx).
  destruct xs as [|x xs]; [done|]. cbn [length] in *. rewrite pow256_succ in *.
  pose proof (Z.pow_pos_nonneg 256 (Z.of_nat (length xs))). lia.
Qed.

End HashDemo.
