(* ===== verification/Rlp.v ===== *)
(** * Rlp: decoding of recursive-length-prefix data

    Models the RLP code of the light client: [parse_rlp_list] and
    [decode_one_rlp_item] of [light-client/src/verifier.rs],
    [parse_rlp_list_items], [decode_one_rlp_item], [rlp_encode_u64],
    [decode_u64] and [decode_u128] of [light-client/src/ethereum/proof.rs], the header
    fields of [light-client/src/types.rs], and the encoders the source keeps
    beside the decoders.  Lengths are 64-bit and wrap, as in a release build;
    a slice out of range panics; a loop that stops making progress diverges.
    Shows that decoding inverts encoding. *)

From stdpp Require Import base list strings.
From Stdlib Require Import ZArith Lia.
From S2P Require Import Prelude Provider World EvmProvider Refinement Utils.

Local Open Scope Z_scope.
Local Open Scope callnode_scope.

(** ** Computations that may panic *)

Inductive outcome (E A : Type) : Type :=
| Done (a : A)
| Fail (e : E)
| Panic
| Diverge.
Arguments Done {E A} a.
Arguments Fail {E A} e.
Arguments Panic {E A}.
Arguments Diverge {E A}.

#[global] Instance outcome_eq_dec `{EqDecision E, EqDecision A} : EqDecision (outcome E A).
Proof. solve_decision. Defined.

Definition outcome_bind {E A B} (o : outcome E A) (f : A -> outcome E B) : outcome E B :=
  match o with
  | Done a => f a
  | Fail e => Fail e
  | Panic => Panic
  | Diverge => Diverge
  end.

Notation "x <~ o ; q" := (outcome_bind o (fun x => q))
  (at level 100, o at next level, q at level 200, right associativity) : callnode_scope.

(** [Result::map_err]. *)
Definition outcome_map_err {E E' A} (f : E -> E') (o : outcome E A) : outcome E' A :=
  match o with
  | Done a => Done a
  | Fail e => Fail (f e)
  | Panic => Panic
  | Diverge => Diverge
  end.

(** ** Slices *)

Definition zlen (data : list Z) : Z := Z.of_nat (length data).

(** [&data[a..b]]. *)
Definition range {E} (data : list Z) (a b : Z) : outcome E (list Z) :=
  if (a <=? b) && (b <=? zlen data)
  then Done (slice data (Z.to_nat a) (Z.to_nat (b - a)))
  else Panic.

(** The big-endian length of [n] bytes that follows a long prefix. *)
Definition long_length (data : list Z) (n : Z) : Z := from_be (slice data 1 (Z.to_nat n)).

(** ** [verifier.rs] *)

Inductive MptError : Type :=
| InvalidRlp
| ProofIncomplete
| NodeHashMismatch (expected actual : Z)
| InvalidNode.

#[global] Instance MptError_eq_dec : EqDecision MptError.
Proof. solve_decision. Defined.

(** alloy's [Header::decode], of which only success matters here. *)
Class RlpHeader : Type := header_decodes : list Z -> bool.

(** A decoded header announces a payload that the buffer holds. *)
Class RlpHeaderLaws `{RlpHeader} : Prop :=
  header_payload_fits : forall data first, header_decodes data = true -> head data = Some first ->
    0xF8 <= first -> 1 + (first - 0xF7) + long_length data (first - 0xF7) <= zlen data.

Section Verifier.
Context `{RlpHeader}.

Definition decode_one_rlp_item (data : list Z) : outcome MptError (list Z * Z) :=
  match data with
  | [] => Fail InvalidRlp
  | first :: _ =>
      if first <? 0x80 then item <~ range data 0 1; Done (item, 1)
      else if first <? 0xB8 then
        let len := first - 0x80 in
        if zlen data <? 1 + len then Fail InvalidRlp
        else item <~ range data 1 (1 + len); Done (item, 1 + len)
      else if first <? 0xC0 then
        let len_of_len := first - 0xB7 in
        if zlen data <? 1 + len_of_len then Fail InvalidRlp else
        let total := wrap_u64 (1 + len_of_len + long_length data len_of_len) in
        if zlen data <? total then Fail InvalidRlp
        else item <~ range data (1 + len_of_len) total; Done (item, total)
      else if negb (header_decodes data) then Fail InvalidRlp
      else
        payload <~ (if first <? 0xF8 then Done (first - 0xC0)
                    else
                      let len_of_len := first - 0xF7 in
                      if zlen data <? 1 + len_of_len then Fail InvalidRlp
                      else Done (long_length data len_of_len));
        let total := wrap_u64 (1 + payload) in
        if zlen data <? total then Fail InvalidRlp
        else item <~ range data 0 total; Done (item, total)
  end.

End Verifier.

(** The loops over the items of a list payload: at most one round for each
    byte of a payload on which every round makes progress. *)
Fixpoint rlp_items {E} (decode : list Z -> outcome E (list Z * Z)) (rounds : nat)
    (payload : list Z) : outcome E (list (list Z)) :=
  match payload, rounds with
  | [], _ => Done []
  | _, O => Diverge
  | _, S rounds =>
      next <~ decode payload;
      rest <~ rlp_items decode rounds (drop (Z.to_nat next.2) payload);
      Done (next.1 :: rest)
  end.

Definition parse_rlp_list `{RlpHeader} (data : list Z) : outcome MptError (list (list Z)) :=
  match data with
  | [] => Fail InvalidRlp
  | first_byte :: _ =>
      if first_byte <? 0xC0 then Fail InvalidRlp else
      payload_start <~
        (if first_byte <? 0xF8 then
           let list_len := first_byte - 0xC0 in
           if (list_len =? 0) || negb (1 + list_len =? zlen data) then Fail InvalidRlp else Done 1
         else
           let len_of_len := first_byte - 0xF7 in
           if zlen data <? 1 + len_of_len then Fail InvalidRlp else
           if negb (wrap_u64 (1 + len_of_len + long_length data len_of_len) =? zlen data)
           then Fail InvalidRlp else Done (1 + len_of_len));
      payload <~ range data payload_start (zlen data);
      rlp_items decode_one_rlp_item (length payload) payload
  end.

(** ** [ethereum/proof.rs] *)

Definition sfail {A} (msg : string) : outcome string A := Fail msg.

Definition decode_one_item (data : list Z) : outcome string (list Z * Z) :=
  match data with
  | [] => sfail "empty data"
  | first :: _ =>
      if first <? 0x80 then item <~ range data 0 1; Done (item, 1)
      else if first <? 0xB8 then
        let len := first - 0x80 in
        if zlen data <? 1 + len then sfail "short RLP string"
        else item <~ range data 1 (1 + len); Done (item, 1 + len)
      else if first <? 0xC0 then
        let len_of_len := first - 0xB7 in
        if zlen data <? 1 + len_of_len then sfail "short RLP long string" else
        let total := wrap_u64 (1 + len_of_len + long_length data len_of_len) in
        if zlen data <? total then sfail "truncated RLP long string"
        else item <~ range data (1 + len_of_len) total; Done (item, total)
      else if first <? 0xF8 then
        let list_len := first - 0xC0 in
        if zlen data <? 1 + list_len then sfail "short RLP list"
        else item <~ range data 0 (1 + list_len); Done (item, 1 + list_len)
      else
        let len_of_len := first - 0xF7 in
        if zlen data <? 1 + len_of_len then sfail "invalid long RLP list" else
        let total := wrap_u64 (1 + len_of_len + long_length data len_of_len) in
        if zlen data <? total then sfail "long RLP list length mismatch"
        else item <~ range data 0 total; Done (item, total)
  end.

(** [{first:02x}]. *)
Definition hex_digit (d : Z) : string :=
  match String.get (Z.to_nat d) "0123456789abcdef" with
  | Some c => String c EmptyString
  | None => EmptyString
  end.
Definition hex_byte (b : Z) : string := (hex_digit (b / 16) +:+ hex_digit (b mod 16))%string.

Definition parse_rlp_list_items (data : list Z) : outcome string (list (list Z)) :=
  match data with
  | [] => sfail "empty data"
  | first :: _ =>
      payload_start <~
        (if (0xC0 <=? first) && (first <? 0xF8) then
           let list_len := first - 0xC0 in
           if (list_len =? 0) || negb (1 + list_len =? zlen data)
           then sfail "RLP list length mismatch" else Done 1
         else if 0xF8 <=? first then
           let len_of_len := first - 0xF7 in
           if zlen data <? 1 + len_of_len then sfail "invalid long RLP list" else
           if negb (wrap_u64 (1 + len_of_len + long_length data len_of_len) =? zlen data)
           then sfail "long RLP list length mismatch" else Done (1 + len_of_len)
         else sfail ("not an RLP list: first byte = 0x" +:+ hex_byte first));
      payload <~ range data payload_start (zlen data);
      rlp_items decode_one_item (length payload) payload
  end.

(** [rlp_encode_u64]. *)
Fixpoint strip_zeros (bs : list Z) : list Z :=
  match bs with
  | [] => []
  | b :: rest => if b =? 0 then strip_zeros rest else bs
  end.

Definition rlp_encode_u64 (value : Z) : list Z :=
  if value =? 0 then [0x80] else
  let data := strip_zeros (be_bytes 8 value) in
  match data with
  | [b] => if b <? 0x80 then data else (0x80 + zlen data) :: data
  | _ => (0x80 + zlen data) :: data
  end.

(** [decode_u64] and [decode_u128]: at most [n] bytes. *)
Definition decode_rlp_uint (n : nat) (data : list Z) : option Z :=
  match data with
  | [] => None
  | _ => if (n <? length data)%nat then None else Some (from_be data)
  end.

(** ** [types.rs] *)

(** RLP-encoded Ethereum block header with its precomputed hash. *)
Record EthHeader : Type := mkHeader { rlp_bytes : list Z; block_hash : Z }.

#[global] Instance EthHeader_eq_dec : EqDecision EthHeader.
Proof. solve_decision. Defined.

(** [decode_rlp_item]: the decoder of [proof.rs] with [None] for an error;
    [None] is [Fail tt]. *)
Definition decode_rlp_item (data : list Z) : outcome unit (list Z * Z) :=
  outcome_map_err (fun _ => tt) (decode_one_item data).

Fixpoint rlp_field (cursor : list Z) (idx : nat) : outcome unit (list Z) :=
  next <~ decode_rlp_item cursor;
  match idx with
  | O => Done next.1
  | S idx => rlp_field (drop (Z.to_nat next.2) cursor) idx
  end.

Definition decode_rlp_field (data : list Z) (idx : nat) : outcome unit (list Z) :=
  match data with
  | [] => Fail tt
  | first :: _ =>
      let payload_start := if first <? 0xF8 then 1 else 1 + (first - 0xF7) in
      if zlen data <=? payload_start then Fail tt
      else rlp_field (drop (Z.to_nat payload_start) data) idx
  end.

(** [parent_hash], [state_root], [transactions_root] and [receipts_root] are
    the hash fields 0, 3, 4 and 5. *)
Definition hash_field (h : EthHeader) (idx : nat) : outcome unit Z :=
  item <~ decode_rlp_field (rlp_bytes h) idx;
  if zlen item =? 32 then Done (from_be item) else Fail tt.

Definition parent_hash (h : EthHeader) : outcome unit Z := hash_field h 0.
Definition transactions_root (h : EthHeader) : outcome unit Z := hash_field h 4.
Definition receipts_root (h : EthHeader) : outcome unit Z := hash_field h 5.

(** [number]: the copy into eight bytes panics on a longer field. *)
Definition number (h : EthHeader) : outcome unit Z :=
  item <~ decode_rlp_field (rlp_bytes h) 8;
  if zlen item <=? 8 then Done (from_be item) else Panic.

Definition from_rlp `{Keccak} (rlp : list Z) : EthHeader := mkHeader rlp (keccak256 rlp).

(** ** Encoding

    [rlp_encode_short_bytes] and [rlp_encode_list] of [verifier.rs]. *)

Definition length_bytes (n : Z) : list Z := strip_zeros (be_bytes 8 n).

Definition rlp_encode_short_bytes (data : list Z) : list Z :=
  if (zlen data =? 1) && (default 0 (head data) <? 0x80) then data
  else if zlen data <? 56 then (0x80 + zlen data) :: data
  else
    let len_bytes := length_bytes (zlen data) in
    (0xB7 + zlen len_bytes) :: len_bytes ++ data.

Definition rlp_encode_list (items : list (list Z)) : list Z :=
  let total := zlen (concat items) in
  (if total <? 56 then [0xC0 + total]
   else
     let len_bytes := length_bytes total in
     (0xF7 + zlen len_bytes) :: len_bytes) ++ concat items.

(** ** Slices of concatenations *)

Lemma zlen_app xs ys : zlen (xs ++ ys) = zlen xs + zlen ys.
Proof. unfold zlen. rewrite length_app. lia. Qed.
Lemma zlen_cons x xs : zlen (x :: xs) = 1 + zlen xs.
Proof. unfold zlen. cbn [length]. lia. Qed.
Lemma zlen_nonneg xs : 0 <= zlen xs.
Proof. unfold zlen. lia. Qed.

Lemma range_app {E} xs ys zs a b :
  a = zlen xs -> b = zlen xs + zlen ys -> range (E:=E) (xs ++ ys ++ zs) a b = Done ys.
Proof.
  intros -> ->. unfold range. rewrite !zlen_app.
  pose proof (zlen_nonneg ys). pose proof (zlen_nonneg zs).
  destruct (Z.leb_spec (zlen xs) (zlen xs + zlen ys)); [|lia].
  destruct (Z.leb_spec (zlen xs + zlen ys) (zlen xs + (zlen ys + zlen zs))); [|lia]. cbn [andb].
  replace (zlen xs + zlen ys - zlen xs) with (zlen ys) by lia.
  unfold slice, zlen. by rewrite !Nat2Z.id, drop_app_length, take_app_length.
Qed.

Lemma range_prefix {E} xs ys b : b = zlen xs -> range (E:=E) (xs ++ ys) 0 b = Done xs.
Proof. intros ->. apply (range_app [] xs ys); by cbn. Qed.

Lemma range_suffix {E} xs ys a b :
  a = zlen xs -> b = zlen (xs ++ ys) -> range (E:=E) (xs ++ ys) a b = Done ys.
Proof.
  intros -> ->. rewrite <- (app_nil_r ys) at 1. apply range_app; [done|]. by rewrite zlen_app.
Qed.

Lemma drop_zlen xs ys : drop (Z.to_nat (zlen xs)) (xs ++ ys) = ys.
Proof. unfold zlen. rewrite Nat2Z.id. apply drop_app_length. Qed.

Lemma long_length_app p lb rest : long_length (p :: lb ++ rest) (zlen lb) = from_be lb.
Proof.
  unfold long_length, slice, zlen. rewrite Nat2Z.id. change (drop 1 (p :: lb ++ rest)) with (lb ++ rest).
  by rewrite take_app_length.
Qed.

(** ** The bytes of a length *)

Lemma from_be_strip bs : from_be (strip_zeros bs) = from_be bs.
Proof.
  induction bs as [|b bs IH]; cbn [strip_zeros]; [done|].
  destruct (Z.eqb_spec b 0) as [->|]; [|done]. cbn [from_be]. lia.
Qed.

Lemma length_strip bs : (length (strip_zeros bs) <= length bs)%nat.
Proof. induction bs as [|b bs IH]; cbn [strip_zeros]; [done|]. destruct (b =? 0); cbn; lia. Qed.

Lemma length_bytes_value n : fits U64_MAX n -> from_be (length_bytes n) = n.
Proof.
  intros Hn. unfold length_bytes. rewrite from_be_strip, from_be_be_bytes.
  change (256 ^ Z.of_nat 8) with (U64_MAX + 1). apply Z.mod_small. fit.
Qed.

Lemma length_bytes_size n : fits U64_MAX n -> n <> 0 -> 1 <= zlen (length_bytes n) <= 8.
Proof.
  intros Hn H0. pose proof (length_strip (be_bytes 8 n)) as L. rewrite length_be_bytes in L.
  pose proof (length_bytes_value n Hn) as V. unfold zlen.
  split; [|unfold length_bytes; lia]. destruct (length_bytes n); [|cbn; lia]. cbn in V. lia.
Qed.

(** ** Decoding inverts encoding *)

(** An item a header byte and a length can describe. *)
Definition encodable (item : list Z) : Prop := Forall is_byte item /\ zlen item + 9 <= U64_MAX.

Ltac decide_prefix :=
  repeat match goal with
  | |- context [Z.ltb ?a ?b] => destruct (Z.ltb_spec a b); [try lia|try lia]
  | |- context [Z.leb ?a ?b] => destruct (Z.leb_spec a b); [try lia|try lia]
  end.

Section RoundTrip.
Context `{RlpHeader}.

Lemma decode_long_item item rest :
  56 <= zlen item -> zlen item + 9 <= U64_MAX ->
  let bs := (0xB7 + zlen (length_bytes (zlen item))) :: length_bytes (zlen item) ++ item in
  decode_one_rlp_item (bs ++ rest) = Done (item, zlen bs) /\
  decode_one_item (bs ++ rest) = Done (item, zlen bs).
Proof.
  intros Hl Hu bs. subst bs. set (lb := length_bytes (zlen item)).
  assert (Hf : fits U64_MAX (zlen item)) by fit.
  assert (Hs : 1 <= zlen lb <= 8) by (apply length_bytes_size; [done|lia]).
  assert (Hv : from_be lb = zlen item) by by apply length_bytes_value.
  pose proof (zlen_nonneg rest). cbn [app]. rewrite <- app_assoc.
  set (data := 0xB7 + zlen lb :: lb ++ item ++ rest).
  assert (Hd : zlen data = 1 + zlen lb + zlen item + zlen rest).
  { unfold data. rewrite zlen_cons, !zlen_app. lia. }
  assert (Hr : forall E, range (E:=E) data (1 + zlen lb) (1 + zlen lb + zlen item) = Done item).
  { intros E. unfold data. rewrite app_comm_cons. apply range_app; rewrite zlen_cons; lia. }
  assert (Ht : zlen (0xB7 + zlen lb :: lb ++ item) = 1 + zlen lb + zlen item).
  { rewrite zlen_cons, zlen_app. lia. }
  assert (Hll : long_length data (zlen lb) = zlen item) by (unfold data; by rewrite long_length_app).
  split; [unfold decode_one_rlp_item|unfold decode_one_item]; unfold data at 1;
    replace (0xB7 + zlen lb - 0xB7) with (zlen lb) by lia;
    rewrite !Hll, (wrap_u64_id (1 + zlen lb + zlen item)) by fit; rewrite Ht;
    decide_prefix; by rewrite Hr.
Qed.

Lemma decode_item_both item rest :
  encodable item ->
  let bs := rlp_encode_short_bytes item in
  decode_one_rlp_item (bs ++ rest) = Done (item, zlen bs) /\
  decode_one_item (bs ++ rest) = Done (item, zlen bs).
Proof.
  intros [Hb Hl] bs. unfold bs, rlp_encode_short_bytes. pose proof (zlen_nonneg item).
  destruct ((zlen item =? 1) && (default 0 (head item) <? 0x80)) eqn:E1.
  - destruct item as [|x [|y item]]; [done| |].
    2: { rewrite !zlen_cons in E1. pose proof (zlen_nonneg item). lia. }
    apply andb_prop in E1 as [_ E1]. cbn in E1. cbn [app]. unfold decode_one_rlp_item, decode_one_item. rewrite E1.
    assert (Hr : forall E, range (E:=E) (x :: rest) 0 1 = Done [x]) by (intros; by apply (range_prefix [x])).
    by rewrite !Hr.
  - destruct (Z.ltb_spec (zlen item) 56); [|by apply decode_long_item; lia].
    set (data := (0x80 + zlen item :: item) ++ rest).
    assert (Hd : zlen data = 1 + zlen item + zlen rest)
      by (unfold data; rewrite zlen_app, zlen_cons; lia). pose proof (zlen_nonneg rest).
    assert (Hr : forall E, range (E:=E) data 1 (1 + zlen item) = Done item).
    { intros E. unfold data. apply (range_app [_] item rest); done. }
    split; [unfold decode_one_rlp_item|unfold decode_one_item]; unfold data at 1; cbn [app];
      replace (0x80 + zlen item - 0x80) with (zlen item) by lia; rewrite zlen_cons;
      decide_prefix; by rewrite Hr.
Qed.

(** The items of a payload made of encoded items. *)
Lemma rlp_items_encoded {E} (decode : list Z -> outcome E (list Z * Z)) items rounds :
  (forall item rest, encodable item ->
     decode (rlp_encode_short_bytes item ++ rest) = Done (item, zlen (rlp_encode_short_bytes item))) ->
  Forall encodable items -> (length items <= rounds)%nat ->
  rlp_items decode rounds (concat (map rlp_encode_short_bytes items)) = Done items.
Proof.
  intros Hd Hi. revert rounds. induction Hi as [|item items Hx _ IH]; intros rounds Hr; cbn [map concat].
  - by destruct rounds.
  - destruct rounds as [|rounds]; cbn in Hr; [lia|].
    assert (Hne : rlp_encode_short_bytes item <> []).
    { unfold rlp_encode_short_bytes. destruct (_ && _) eqn:E1; [|by destruct (zlen item <? 56)].
      by destruct item. }
    destruct (rlp_encode_short_bytes item ++ _) eqn:Eq; [by apply app_eq_nil in Eq as [? _]|].
    rewrite <- Eq. cbn [rlp_items]. rewrite Eq at 1. rewrite Hd by done. cbn [outcome_bind fst snd].
    rewrite drop_zlen, IH by lia. done.
Qed.

(** The start of the payload of an encoded list. *)
Lemma encoded_list_shape payload :
  zlen payload <> 0 -> zlen payload + 9 <= U64_MAX ->
  let total := zlen payload in
  let lb := length_bytes total in
  let prefix := if total <? 56 then [0xC0 + total] else (0xF7 + zlen lb) :: lb in
  let data := prefix ++ payload in
  (total < 56 /\ data = (0xC0 + total) :: payload) \/
  (56 <= total /\ data = (0xF7 + zlen lb) :: lb ++ payload /\ 1 <= zlen lb <= 8 /\
   long_length data (zlen lb) = total).
Proof.
  intros H0 Hu total lb prefix data. pose proof (zlen_nonneg payload).
  subst prefix data. destruct (Z.ltb_spec total 56); [by left|right].
  assert (fits U64_MAX total) by fit. split; [done|]. split; [done|].
  split; [by apply length_bytes_size|]. cbn [app]. rewrite long_length_app.
  by apply length_bytes_value.
Qed.

(** Parsing a printed list gives its items. *)
Theorem rlp_list_round_trip items :
  items <> [] -> Forall encodable items -> zlen (concat (map rlp_encode_short_bytes items)) + 9 <= U64_MAX ->
  let data := rlp_encode_list (map rlp_encode_short_bytes items) in
  parse_rlp_list data = Done items /\ parse_rlp_list_items data = Done items.
Proof.
  intros Hne Hi Hu data. set (payload := concat (map rlp_encode_short_bytes items)) in *.
  assert (Hlen : (length items <= length payload)%nat).
  { unfold payload. clear -Hi. induction Hi as [|item items [_ Hx] _ IH]; [done|].
    cbn [map concat]. rewrite length_app. cbn [length].
    enough (length (rlp_encode_short_bytes item) <> 0)%nat by lia.
    unfold rlp_encode_short_bytes. destruct (_ && _) eqn:E1; [by destruct item|].
    by destruct (zlen item <? 56). }
  assert (H0 : zlen payload <> 0).
  { unfold zlen. destruct items; [done|]. cbn [length] in Hlen. lia. }
  assert (R1 : rlp_items decode_one_rlp_item (length payload) payload = Done items).
  { apply rlp_items_encoded; [|done|done]. intros. by apply decode_item_both. }
  assert (R2 : rlp_items decode_one_item (length payload) payload = Done items).
  { apply rlp_items_encoded; [|done|done]. intros. by apply decode_item_both. }
  pose proof (zlen_nonneg payload). unfold data, rlp_encode_list. fold payload.
  destruct (encoded_list_shape payload H0 Hu) as [[Ht E]|(Ht & E & Hs & Hll)]; rewrite E.
  - unfold parse_rlp_list, parse_rlp_list_items.
    replace (0xC0 + zlen payload - 0xC0) with (zlen payload) by lia.
    assert (Hr : forall F, range (E:=F) (0xC0 + zlen payload :: payload) 1
                   (zlen (0xC0 + zlen payload :: payload)) = Done payload)
      by (intros; by apply (range_suffix [_] payload)).
    rewrite zlen_cons. rewrite zlen_cons in Hr. rewrite !Z.eqb_refl.
    destruct (Z.eqb_spec (zlen payload) 0); [done|].
    decide_prefix; cbn [andb orb negb outcome_bind]; rewrite !Hr; done.
  - rewrite E in Hll. set (lb := length_bytes (zlen payload)) in *.
    unfold parse_rlp_list, parse_rlp_list_items.
    replace (0xF7 + zlen lb - 0xF7) with (zlen lb) by lia. rewrite Hll.
    assert (Hz : zlen (0xF7 + zlen lb :: lb ++ payload) = 1 + zlen lb + zlen payload)
      by (rewrite zlen_cons, zlen_app; lia).
    assert (Hr : forall F, range (E:=F) (0xF7 + zlen lb :: lb ++ payload) (1 + zlen lb)
                   (1 + zlen lb + zlen payload) = Done payload).
    { intros F. rewrite <- Hz, app_comm_cons. apply range_suffix; [by rewrite zlen_cons|done]. }
    rewrite Hz, (wrap_u64_id (1 + zlen lb + zlen payload)) by fit. rewrite !Z.eqb_refl.
    decide_prefix; cbn [andb orb negb outcome_bind]; rewrite !Hr; done.
Qed.

End RoundTrip.

(** ** Termination of the node parser *)

Lemma rlp_items_terminates {E} (decode : list Z -> outcome E (list Z * Z)) (P : list Z -> Prop) :
  (forall d, P d -> decode d <> Diverge) ->
  (forall d item c, P d -> decode d = Done (item, c) -> 1 <= c) ->
  (forall d n, P d -> P (drop n d)) ->
  forall rounds payload, P payload -> (length payload <= rounds)%nat ->
  rlp_items decode rounds payload <> Diverge.
Proof.
  intros Hn Hc Hp rounds. induction rounds as [|rounds IH]; intros payload HP Hl.
  - destruct payload; cbn in *; [done|lia].
  - destruct payload as [|x payload]; [done|]. cbn [rlp_items].
    destruct (decode (x :: payload)) as [[item c]| | |] eqn:Ed; cbn [outcome_bind]; try done;
      [|by apply Hn in HP].
    specialize (Hc _ _ _ HP Ed). cbn [fst snd].
    assert (Hd : rlp_items decode rounds (drop (Z.to_nat c) (x :: payload)) <> Diverge).
    { apply IH; [by apply Hp|]. rewrite length_drop. cbn in Hl |- *. lia. }
    by destruct (rlp_items decode rounds _).
Qed.

(** A buffer of bytes that memory can hold. *)
Definition buffer (data : list Z) : Prop := Forall is_byte data /\ zlen data <= U64_MAX.

Lemma buffer_drop data n : buffer data -> buffer (drop n data).
Proof.
  intros [Hb Hl]. split; [by apply Forall_drop|]. unfold zlen in *. rewrite length_drop. lia.
Qed.

Lemma long_length_nonneg data n : Forall is_byte data -> 0 <= long_length data n.
Proof.
  intros Hb. apply from_be_bound. by apply Forall_take, Forall_drop.
Qed.

Lemma range_done {E} data a b item : range (E:=E) data a b = Done item -> a <= b <= zlen data.
Proof. unfold range. destruct_cmp; cbn [andb]; try discriminate. lia. Qed.

Lemma range_no_diverge {E} data a b : range (E:=E) data a b <> Diverge.
Proof. unfold range. by destruct (_ && _). Qed.

(** A decoding step that returns consumes at least a byte. *)
Definition progresses {E} (o : outcome E (list Z * Z)) : Prop :=
  o <> Diverge /\ forall item c, o = Done (item, c) -> 1 <= c.

Lemma progresses_range {E} data a b : 1 <= b -> progresses (E:=E) (item <~ range data a b; Done (item, b)).
Proof.
  intros Hb. pose proof (range_no_diverge (E:=E) data a b).
  destruct (range data a b); cbn; split; try done; intros ? ? [= <- <-]; done.
Qed.

Lemma progresses_fail {E} (e : E) : progresses (Fail e).
Proof. by split. Qed.

Section Termination.
Context `{Hlaws : RlpHeaderLaws}.

Lemma decode_one_progresses data : buffer data -> progresses (decode_one_rlp_item data).
Proof.
  intros [Hb Hl]. destruct data as [|first data]; [done|]. set (d := first :: data) in *.
  assert (Hf : 0 <= first < 256) by by inversion Hb.
  unfold decode_one_rlp_item, d at 1.
  destruct (Z.ltb_spec first 0x80); [by apply progresses_range|].
  destruct (Z.ltb_spec first 0xB8); [destruct (zlen d <? _); [done|apply progresses_range; lia]|].
  destruct (Z.ltb_spec first 0xC0).
  { destruct (zlen d <? 1 + (first - 0xB7)); [done|].
    set (total := wrap_u64 _). destruct (zlen d <? total); [done|].
    destruct (Z.leb_spec 1 total); [by apply progresses_range|].
    unfold range. destruct (Z.leb_spec (1 + (first - 0xB7)) total); [lia|]. by cbn. }
  destruct (header_decodes d) eqn:Eh; cbn [negb]; [|done].
  destruct (Z.ltb_spec first 0xF8); cbn [outcome_bind].
  { rewrite wrap_u64_id by (unfold U64_MAX; fit).
    destruct (zlen d <? _); [done|apply progresses_range; lia]. }
  destruct (zlen d <? 1 + (first - 0xF7)); cbn [outcome_bind]; [done|].
  assert (Hp := header_payload_fits d first Eh eq_refl ltac:(lia)).
  pose proof (long_length_nonneg d (first - 0xF7) Hb).
  rewrite wrap_u64_id by fit. destruct (zlen d <? _); [done|]. apply progresses_range. lia.
Qed.

(** [parse_rlp_list] returns on every buffer. *)
Lemma parse_rlp_list_terminates data : buffer data -> parse_rlp_list data <> Diverge.
Proof.
  intros Hb. unfold parse_rlp_list. destruct data as [|first data]; [done|].
  destruct (first <? 0xC0); [done|].
  match goal with |- (x <~ ?o; _) <> _ => destruct o eqn:Eo end; cbn [outcome_bind]; try done.
  - unfold range. destruct (_ && _); cbn [outcome_bind]; [|done].
    apply (rlp_items_terminates _ buffer); try lia.
    + intros d Hd. by apply decode_one_progresses.
    + intros d item c Hd. by apply decode_one_progresses.
    + intros. by apply buffer_drop.
    + destruct Hb as [Hb Hl]. unfold slice. split; [by apply Forall_take, Forall_drop|].
      unfold zlen in *. rewrite length_take, length_drop. lia.
  - destruct (first <? 0xF8); [by destruct (_ || _)|].
    destruct (zlen _ <? _); [done|]. by destruct (negb _).
Qed.

End Termination.
