(* ===== verification/Trap.v ===== *)
(** * Trap: handlers that may panic or not return

    A handler that runs the decoders of [Rlp] may panic or loop.  Such a
    handler is a program whose error type has these two outcomes besides the
    errors it raises; [mutate_trapping] is [mutate] of [Dispatch] for it: an
    error reverts the checkpoint, a panic or a loop gives no result at all. *)

From stdpp Require Import base list strings.
From Stdlib Require Import ZArith Lia.
From S2P Require Import Prelude Provider World EvmProvider Refinement Dispatch Rlp.

Local Open Scope Z_scope.
Local Open Scope callnode_scope.

Inductive trap (E : Type) : Type :=
| Raised (e : E)
| Panicked
| Diverged.
#[global] Arguments Raised {E}.
#[global] Arguments Panicked {E}.
#[global] Arguments Diverged {E}.

(** A program without traps, and the outcome of a decoder. *)
Definition raising {E A} (p : prog (result E A)) : prog (result (trap E) A) := prog_map_err Raised p.

Definition of_outcome {E E' A} (err : E -> result (trap E') A) (o : outcome E A) : result (trap E') A :=
  match o with
  | Done a => Ok a
  | Fail e => err e
  | Panic => Err Panicked
  | Diverge => Err Diverged
  end.

(** [map_err] on the errors that are raised. *)
Definition map_raised {E E' A} (f : E -> E') (p : prog (result (trap E) A)) : prog (result (trap E') A) :=
  prog_map_err (fun t => match t with
                         | Raised e => Raised (f e)
                         | Panicked => Panicked
                         | Diverged => Diverged
                         end) p.

Section Mutate.
Context {S : Type} `{!StorageProvider S}.
Context {T R : Type}.
Variable decode : list Z -> result string T.
Variable encode : R -> list Z.

Definition mutate_trapping (calldata : list Z) (gas : N)
    (handler : T -> prog (result (trap precompile_error) R)) (s : S) :
    outcome unit (res PrecompileOutput * S) :=
  let s := sp_reset_counters s in
  match decode_call decode calldata with
  | Err e => Done (Err e, s)
  | Ok call =>
    let '(cp, s) := sp_checkpoint s in
    match run (handler call) s with
    | (Ok v, s) =>
      match sp_exec (OCharge gas) s with
      | (Ok _, s) =>
          let s := sp_commit cp s in
          Done (Ok (fill_precompile_output (output_new (encode v)) s), s)
      | (Err _, s) => Done (Err OutOfGas, sp_revert cp s)
      end
    | (Err (Raised e), s) => Done (Err e, sp_revert cp s)
    | (Err Panicked, _) => Panic
    | (Err Diverged, _) => Diverge
    end
  end.

End Mutate.

(** Without traps it is [mutate]. *)
Lemma mutate_trapping_raising {S} `{!StorageProvider S} {T R} (decode : list Z -> result string T)
    (encode : R -> list Z) calldata gas (handler : T -> prog (res R)) (s : S) :
  mutate_trapping decode encode calldata gas (fun c => raising (handler c)) s =
    Done (mutate decode encode calldata gas handler s).
Proof.
  unfold mutate_trapping, mutate. destruct (decode_call decode calldata) as [c|e]; [|done].
  destruct (sp_checkpoint _) as [cp s1]. unfold raising. rewrite run_map_err.
  destruct (run (handler c) s1) as [[v|e] s2]; cbn [map_err fst snd]; [|done].
  by destruct (sp_exec (OCharge gas) s2) as [[]].
Qed.

Section Evm.
Context {J : Type} `{HJ : JournalTr J} `{HL : !JournalLaws J}.
Context {T R : Type}.
Variable decode : list Z -> result string T.
Variable encode : R -> list Z.
Implicit Types (s : EvmStorageProvider J).

(** On the production provider a trapping call that returns has the effect of
    its handler on the abstract storage, or none. *)
Definition trapping_ok (handler : T -> prog (result (trap precompile_error) R)) (calldata : list Z) s
    (x : outcome unit (res PrecompileOutput * EvmStorageProvider J)) : Prop :=
  match x with
  | Done (Err _, s') => vw s' = vw s
  | Done (Ok o, s') => exists call v,
      decode calldata = Ok call /\
      (run (handler call) (abs s)).1 = Ok v /\
      vw s' = w_cur (run (handler call) (abs s)).2 /\
      out_bytes o = encode v
  | _ => True
  end.

Lemma mutate_trapping_outcome handler calldata (gas : N) s :
  (forall call, guarded true (handler call)) ->
  e_is_static (evm_env s) = false -> COLD_SLOAD_COST <= Z.of_N gas ->
  trapping_ok handler calldata s (mutate_trapping decode encode calldata gas handler s).
Proof using HL.
  intros Hg Hst Hgas. unfold mutate_trapping, decode_call, trapping_ok.
  set (s0 := sp_reset_counters s). change (abs s) with (abs s0). change (vw s) with (vw s0).
  destruct (decode calldata) as [call|e] eqn:Ed; [|done]. cbn [map_err].
  destruct (sp_checkpoint s0) as [cp s1] eqn:Ecp.
  assert (Hs1 : s1 = (sp_checkpoint s0).2) by (by rewrite Ecp).
  assert (Hcp : cp = (sp_checkpoint s0).1) by (by rewrite Ecp).
  pose proof (run_frame (handler call) s1) as F.
  destruct (run_refines true _ (Hg call) s1 (abs s0)) as [[E1 S1]|HR].
  { rewrite Hs1. apply sync_checkpoint. }
  { intros _. rewrite Hs1. cbn. unfold evm_checkpoint. by destruct (j_checkpoint _). }
  all: destruct (run (handler call) s1) as [[v|[e| |]] s2]; cbn [fst snd] in *; subst s1 cp; try done;
    try (destruct (checkpoint_revert s0 s2 F) as (?&?&?); done).
  all: pose proof (exec_frame (OCharge gas) s2) as F2;
    destruct (charge_cases gas s2) as [[E ?]|(s3 & E & ? & ? & Ej & ?)];
    rewrite E in F2 |- *; cbn [snd] in F2;
    try (destruct (checkpoint_revert s0 s2 F) as (?&?&?); done).
  all: destruct (checkpoint_commit s0 s3) as (Hv & Hs & _); [by etransitivity|]; cbn [fst snd] in *.
  - exists call, v. rewrite Hv, Ej. destruct S1. rewrite <- E1. auto.
  - destruct HR as [HR|HR]; [unfold low_gas in HR; lia | done].
Qed.

End Evm.
