(* ===== verification/CallSpec.v ===== *)
(** * CallSpec: what a call of a precompile does

    The shape of the statement that a precompile implements its operations on
    the production provider: a call fails or is a view and leaves the storage
    as it was, or has the effect of the operation its calldata requests.  With
    the lemmas that discharge it for [mutate_void], [mutate_trapping] and
    [view]. *)

From stdpp Require Import base list strings.
From Stdlib Require Import ZArith Lia.
From S2P Require Import Prelude Provider World EvmProvider Refinement Dispatch.
From S2P Require Import Rlp Trap.

Local Open Scope Z_scope.
Local Open Scope callnode_scope.

(** ** Programs without errors of the provider *)

Lemma benign_try {E A B} wr (p : prog (result E A)) (f : A -> prog (result E B)) :
  benign wr p -> (forall a, benign wr (f a)) -> benign wr (try_ p f).
Proof. intros Hp Hf. apply benign_bind; [done|]. intros [a|e]; [auto|constructor]. Qed.

Lemma benign_map_err {E E' A} wr (g : E -> E') (p : prog (result E A)) :
  benign wr p -> benign wr (prog_map_err g p).
Proof. intros Hp. apply benign_bind; [done|]. constructor. Qed.

Lemma benign_guarded {E A} wr (p : prog (result E A)) : benign wr p -> guarded wr p.
Proof. intros Hp. induction Hp; constructor; auto. Qed.

(** Follows a program into its definitions. *)
Ltac program_head p := lazymatch p with ?f _ => program_head f | _ => p end.
Tactic Notation "benign_follow" "calling" tactic3(sub) :=
  repeat lazymatch goal with
  | |- benign _ (Ret _) => constructor
  | |- benign _ (load _ _) => apply benign_load
  | |- benign _ (store _ _ _) => apply benign_store
  | |- benign _ block_number => apply benign_block_number
  | |- benign _ (try_ _ _) => apply benign_try; [|intros]
  | |- benign _ (prog_map_err _ _) => apply benign_map_err
  | |- benign _ (prog_bind _ _) => apply benign_bind; [|intros]
  | |- benign _ (if ?b then _ else _) => destruct b
  | |- benign _ (match ?x with _ => _ end) => destruct x
  | |- benign _ ?p => first [sub | let h := program_head p in unfold h; cbv zeta]
  end.

(** ** Calls *)

Section Calls.
Context {J : Type} `{HJ : JournalTr J} `{HL : !JournalLaws J}.
Implicit Types (s : EvmStorageProvider J).

(** The effect of a request, if the calldata requests one. *)
Definition call_effect (request : option (world -> world -> Prop)) s
    (x : res PrecompileOutput * EvmStorageProvider J) : Prop :=
  match x.1 with
  | Err _ => vw x.2 = vw s
  | Ok _ =>
      match request with
      | None => vw x.2 = vw s
      | Some R => exists w', R (abs s) w' /\ vw x.2 = w_cur w'
      end
  end.

(** A successful run of a handler. *)
Definition runs_to {E} (p : prog (result E unit)) (w w' : world) : Prop := run p w = (Ok tt, w').

Definition request_of {T} (d : result string T) (R : T -> world -> world -> Prop) :
    option (world -> world -> Prop) :=
  match d with Ok c => Some (R c) | Err _ => None end.

Lemma mutate_effect {T} (dec : list Z -> result string T) (handler : T -> prog (res unit)) (gas : N) calldata s :
  (forall c, guarded true (handler c)) ->
  e_is_static (evm_env s) = false -> COLD_SLOAD_COST <= Z.of_N gas ->
  call_effect (request_of (dec calldata) (fun c => runs_to (handler c))) s
    (mutate_void dec calldata gas handler s).
Proof using HL.
  intros Hh Hst Hg. unfold call_effect, mutate_void, runs_to.
  destruct (mutate_outcome_on dec (fun _ : unit => []) handler calldata gas s) as [_ O]; [auto..|].
  destruct (mutate dec (fun _ : unit => []) calldata gas _ s) as [[o|e] s']; cbn [fst snd] in *; [|done].
  destruct O as (c & [] & Ed & Er & Ev' & _). rewrite Ed. cbn [request_of].
  exists (run (handler c) (abs s)).2. split; [|done]. rewrite <- Er. apply surjective_pairing.
Qed.

(** A successful run of a handler with a result. *)
Definition returns {E A} (p : prog (result E A)) (w w' : world) : Prop := exists a, run p w = (Ok a, w').

Lemma mutate_value_effect {T R} (dec : list Z -> result string T) (enc : R -> list Z) (handler : T -> prog (res R))
    (gas : N) calldata s :
  (forall c, guarded true (handler c)) ->
  e_is_static (evm_env s) = false -> COLD_SLOAD_COST <= Z.of_N gas ->
  call_effect (request_of (dec calldata) (fun c => returns (handler c))) s (mutate dec enc calldata gas handler s).
Proof using HL.
  intros Hh Hst Hg. unfold call_effect, returns.
  destruct (mutate_outcome_on dec enc handler calldata gas s) as [_ O]; [auto..|].
  destruct (mutate dec enc calldata gas _ s) as [[o|e] s']; cbn [fst snd] in *; [|done].
  destruct O as (c & a & Ed & Er & Ev' & _). rewrite Ed. cbn [request_of].
  exists (run (handler c) (abs s)).2. split; [|done]. exists a. rewrite <- Er. apply surjective_pairing.
Qed.

Lemma trapping_effect {T} (dec : list Z -> result string T)
    (handler : T -> prog (result (trap precompile_error) unit)) (gas : N) calldata s :
  (forall c, guarded true (handler c)) ->
  e_is_static (evm_env s) = false -> COLD_SLOAD_COST <= Z.of_N gas ->
  match mutate_trapping dec (fun _ : unit => []) calldata gas handler s with
  | Done x => call_effect (request_of (dec calldata) (fun c => runs_to (handler c))) s x
  | _ => True
  end.
Proof using HL.
  intros Hh Hst Hg. unfold call_effect, runs_to.
  pose proof (mutate_trapping_outcome dec (fun _ : unit => []) handler calldata gas s Hh Hst Hg) as O.
  destruct (mutate_trapping dec _ calldata gas handler s) as [[[o|e] s']| | |]; cbn [fst snd trapping_ok] in *; try done.
  destruct O as (c & [] & Ed & Er & Ev' & _). rewrite Ed. cbn [request_of].
  exists (run (handler c) (abs s)).2. split; [|done]. rewrite <- Er. apply surjective_pairing.
Qed.

Lemma view_effect {T R} (dec : list Z -> result string T) (enc : R -> list Z) (handler : T -> prog (res R))
    (gas : N) calldata s :
  (forall c, readonly (handler c)) -> call_effect None s (view dec enc calldata gas handler s).
Proof using HL.
  intros Hh. unfold call_effect. pose proof (view_readonly dec enc calldata gas handler s Hh) as E.
  by destruct (view dec enc calldata gas handler s) as [[] s'].
Qed.

End Calls.
