(* ===== verification/FeeMarket.v ===== *)
(** * FeeMarket: the base fee of a block

    Models [crates/protocol/src/gas.rs]: the fee parameters and
    [update_base_fee], which [update_base_fee_after_block] of
    [crates/consensus/src/block.rs] calls once per block.  The arithmetic is
    on [i128]: casts wrap, the plain product wraps (release builds do not
    check it), the [saturating_*] methods clamp, and dividing by a zero
    denominator panics, which is [None]. *)

From stdpp Require Import base list.
From Stdlib Require Import ZArith Lia.
From S2P Require Import Prelude.

Local Open Scope Z_scope.

Definition MIN_PRIORITY_FEE_PER_GAS : Z := 1.

Record FeeParams : Type := mkFee {
  base_fee : Z;
  target_gas_per_block : Z;
  max_gas_per_block : Z;
  adjustment_coefficient : Z;
  min_base_fee : Z;
  max_base_fee : Z;
  initial_base_fee : Z;
  oracle_fee_share_bps : Z;
  validator_fee_share_bps : Z
}.

(** [FeeParams::default]. *)
Definition fee_default : FeeParams :=
  mkFee 10 10000000 20000000 1 1 1000000000 10 100 0.

Definition with_base_fee (b : Z) (p : FeeParams) : FeeParams :=
  mkFee b (target_gas_per_block p) (max_gas_per_block p) (adjustment_coefficient p)
    (min_base_fee p) (max_base_fee p) (initial_base_fee p) (oracle_fee_share_bps p)
    (validator_fee_share_bps p).

(** ** [i128] *)

Definition I128_MAX : Z := 170141183460469231731687303715884105727.
Definition I128_MIN : Z := -170141183460469231731687303715884105728.

Definition wrap_i128 (z : Z) : Z := (z - I128_MIN) mod (U128_MAX + 1) + I128_MIN.
Definition sat_i128 (z : Z) : Z := Z.max I128_MIN (Z.min I128_MAX z).
Definition as_u128 (z : Z) : Z := z mod (U128_MAX + 1).

(** [saturating_div]: truncated division; a zero divisor panics. *)
Definition saturating_div_i128 (a b : Z) : option Z :=
  if b =? 0 then None else Some (sat_i128 (Z.quot a b)).

Definition update_base_fee (params : FeeParams) (gas_used : Z) : option FeeParams :=
  let target := target_gas_per_block params in
  let diff := gas_used - target in
  let base := wrap_i128 (base_fee params) in
  let coeff := wrap_i128 (adjustment_coefficient params) in
  if 0 <? diff then
    let numerator := wrap_i128 (diff * coeff) in
    let denominator := target * 8 in
    increase ← saturating_div_i128 (sat_i128 (base * numerator)) denominator;
    Some (with_base_fee
      (as_u128 (Z.max (Z.min (sat_i128 (base + increase)) (wrap_i128 (max_base_fee params)))
                  (wrap_i128 (min_base_fee params)))) params)
  else if diff <? 0 then
    let numerator := wrap_i128 (- diff * coeff) in
    let denominator := target * 8 in
    decrease ← saturating_div_i128 (sat_i128 (base * numerator)) denominator;
    Some (with_base_fee
      (as_u128 (Z.max (sat_i128 (base - decrease)) (wrap_i128 (min_base_fee params)))) params)
  else Some params.

(** One update per block. *)
Fixpoint update_base_fees (params : FeeParams) (used : list Z) : option FeeParams :=
  match used with
  | [] => Some params
  | g :: rest => p ← update_base_fee params g; update_base_fees p rest
  end.

(** ** Sound parameters *)

(** The bounds under which no cast, product or sum leaves [i128]. *)
Record fee_ok (p : FeeParams) : Prop := {
  fee_target : 0 < target_gas_per_block p <= U64_MAX;
  fee_min : 0 <= min_base_fee p <= base_fee p;
  fee_max : base_fee p <= max_base_fee p <= I128_MAX / 2;
  fee_coeff : 0 <= adjustment_coefficient p /\ adjustment_coefficient p * U64_MAX <= I128_MAX / 2;
  fee_product : max_base_fee p * (adjustment_coefficient p * U64_MAX) <= I128_MAX / 2
}.

(** The adjustment on unbounded integers. *)
Definition fee_step (p : FeeParams) (gas_used : Z) : Z :=
  base_fee p * (Z.abs (gas_used - target_gas_per_block p) * adjustment_coefficient p)
    / (target_gas_per_block p * 8).

Definition next_base_fee (p : FeeParams) (gas_used : Z) : Z :=
  if target_gas_per_block p <? gas_used
  then Z.min (max_base_fee p) (base_fee p + fee_step p gas_used)
  else Z.max (min_base_fee p) (base_fee p - fee_step p gas_used).

Lemma wrap_i128_id z : I128_MIN <= z <= I128_MAX -> wrap_i128 z = z.
Proof. intros. unfold wrap_i128. rewrite Z.mod_small; unfold I128_MIN, I128_MAX, U128_MAX in *; lia. Qed.

Lemma sat_i128_id z : I128_MIN <= z <= I128_MAX -> sat_i128 z = z.
Proof. unfold sat_i128. lia. Qed.

Lemma as_u128_id z : 0 <= z <= I128_MAX -> as_u128 z = z.
Proof. intros. unfold as_u128. apply Z.mod_small. unfold I128_MAX, U128_MAX in *. lia. Qed.

(** The factors of the adjustment stay within [i128]. *)
Lemma fee_bounds p g :
  fee_ok p -> fits U64_MAX g ->
  let d := Z.abs (g - target_gas_per_block p) in
  0 <= d * adjustment_coefficient p <= I128_MAX / 2 /\
  0 <= base_fee p * (d * adjustment_coefficient p) <= I128_MAX / 2 /\
  0 <= fee_step p g <= I128_MAX / 2.
Proof.
  intros [Ht Hmin Hmax [Hc Hc'] Hp] Hg d. unfold fits in Hg.
  assert (Hd : 0 <= d <= U64_MAX) by lia.
  assert (H1 : 0 <= d * adjustment_coefficient p) by (apply Z.mul_nonneg_nonneg; lia).
  assert (H2 : d * adjustment_coefficient p <= adjustment_coefficient p * U64_MAX).
  { rewrite Z.mul_comm. apply Z.mul_le_mono_nonneg_l; lia. }
  assert (H3 : 0 <= base_fee p * (d * adjustment_coefficient p)) by (apply Z.mul_nonneg_nonneg; lia).
  assert (H4 : base_fee p * (d * adjustment_coefficient p) <= I128_MAX / 2).
  { etransitivity; [|exact Hp]. apply Z.mul_le_mono_nonneg; lia. }
  unfold fee_step. fold d. split_and!; try lia.
  - apply Z.div_pos; lia.
  - etransitivity; [|exact H4]. apply Z.div_le_upper_bound; [lia|].
    rewrite <- (Z.mul_1_l (base_fee p * _)) at 1. apply Z.mul_le_mono_nonneg_r; lia.
Qed.

Lemma fee_step_target p g : g = target_gas_per_block p -> fee_step p g = 0.
Proof.
  intros ->. unfold fee_step. rewrite Z.sub_diag. cbn [Z.abs].
  by rewrite Z.mul_0_l, Z.mul_0_r, Zdiv_0_l.
Qed.

Lemma update_base_fee_exact p g :
  fee_ok p -> fits U64_MAX g ->
  update_base_fee p g = Some (with_base_fee (next_base_fee p g) p).
Proof.
  intros Hp Hg. pose proof (fee_bounds p g Hp Hg) as (B1 & B2 & B3).
  destruct Hp as [Ht Hmin Hmax [Hc Hc'] _].
  assert (HM : I128_MAX / 2 <= I128_MAX) by (vm_compute; discriminate).
  assert (HM2 : I128_MAX / 2 + I128_MAX / 2 <= I128_MAX) by (vm_compute; discriminate).
  assert (Hm : I128_MIN <= 0) by (vm_compute; discriminate).
  assert (HmM : I128_MIN <= - (I128_MAX / 2)) by (vm_compute; discriminate).
  assert (C : adjustment_coefficient p <= I128_MAX).
  { transitivity (adjustment_coefficient p * U64_MAX); [|lia].
    rewrite <- (Z.mul_1_r (adjustment_coefficient p)) at 1.
    apply Z.mul_le_mono_nonneg_l; [lia | vm_compute; discriminate]. }
  unfold update_base_fee, next_base_fee, saturating_div_i128.
  rewrite (wrap_i128_id (base_fee p)), (wrap_i128_id (adjustment_coefficient p)),
    (wrap_i128_id (max_base_fee p)), (wrap_i128_id (min_base_fee p)) by lia.
  destruct (Z.eqb_spec (target_gas_per_block p * 8) 0); [lia|].
  destruct (Z.ltb_spec 0 (g - target_gas_per_block p)),
    (Z.ltb_spec (target_gas_per_block p) g); try lia;
    [|destruct (Z.ltb_spec (g - target_gas_per_block p) 0)].
  - unfold fee_step in *. rewrite (Z.abs_eq (g - _)) in * by lia.
    rewrite wrap_i128_id by lia. rewrite (sat_i128_id (base_fee p * _)) by lia.
    rewrite Z.quot_div_nonneg by lia. set (q := base_fee p * _ / _) in *. rewrite (sat_i128_id q) by lia.
    cbn [mbind option_bind]. rewrite sat_i128_id, as_u128_id by lia. do 2 f_equal. lia.
  - unfold fee_step in *. rewrite (Z.abs_neq (g - _)) in * by lia.
    rewrite wrap_i128_id by lia. rewrite (sat_i128_id (base_fee p * _)) by lia.
    rewrite Z.quot_div_nonneg by lia. set (q := base_fee p * _ / _) in *. rewrite (sat_i128_id q) by lia.
    cbn [mbind option_bind]. rewrite sat_i128_id, as_u128_id by lia. do 2 f_equal. lia.
  - rewrite fee_step_target by lia. rewrite Z.sub_0_r, Z.max_r by lia. by destruct p.
Qed.

Lemma with_base_fee_ok p b :
  fee_ok p -> min_base_fee p <= b <= max_base_fee p -> fee_ok (with_base_fee b p).
Proof. intros [] Hb. split; cbn; try done; lia. Qed.

Lemma next_base_fee_range p g :
  fee_ok p -> fits U64_MAX g -> min_base_fee p <= next_base_fee p g <= max_base_fee p.
Proof.
  intros Hp Hg. pose proof (fee_bounds p g Hp Hg) as (_ & _ & B).
  destruct Hp. unfold next_base_fee. destruct (_ <? _); lia.
Qed.

(** Within twice the target and with the coefficient 1 of the default
    parameters an adjustment is at most one eighth. *)
Lemma fee_step_eighth p g :
  fee_ok p -> adjustment_coefficient p = 1 -> 0 <= g <= 2 * target_gas_per_block p ->
  fee_step p g <= base_fee p / 8.
Proof.
  intros [Ht Hmin Hmax _ _] Hc Hg. unfold fee_step. rewrite Hc, Z.mul_1_r.
  rewrite <- Z.div_div by lia. apply Z.div_le_mono; [lia|].
  apply Z.div_le_upper_bound; [lia|]. rewrite (Z.mul_comm (target_gas_per_block p)).
  apply Z.mul_le_mono_nonneg_l; lia.
Qed.

Lemma fee_default_ok b : 1 <= b <= 1000000000 -> fee_ok (with_base_fee b fee_default).
Proof.
  intros Hb. assert (Hh : I128_MAX / 2 = 85070591730234615865843651857942052863) by (by vm_compute).
  split; unfold with_base_fee, fee_default; rewrite ?Hh;
    cbn [base_fee target_gas_per_block adjustment_coefficient min_base_fee max_base_fee];
    unfold U64_MAX; lia.
Qed.

(** ** The low end of the fee range

    Below 8 the adjustment of a block within the gas limit rounds to zero. *)
Lemma fee_stuck_step b g :
  1 <= b <= 7 -> fits (max_gas_per_block fee_default) g ->
  update_base_fee (with_base_fee b fee_default) g = Some (with_base_fee b fee_default).
Proof.
  intros Hb Hg. change (max_gas_per_block fee_default) with 20000000 in Hg. rewrite update_base_fee_exact; [|by apply fee_default_ok; lia|].
  2: { unfold fits, U64_MAX in *; lia. }
  assert (S : fee_step (with_base_fee b fee_default) g = 0).
  { unfold fee_step, with_base_fee, fee_default.
    cbn [base_fee target_gas_per_block adjustment_coefficient].
    apply Z.div_small. unfold fits in Hg. nia. }
  unfold next_base_fee. rewrite S. unfold with_base_fee, fee_default.
  cbn [base_fee target_gas_per_block max_base_fee min_base_fee]. destruct (_ <? _); do 3 f_equal; lia.
Qed.

Lemma fee_stuck b used :
  1 <= b <= 7 -> Forall (fits (max_gas_per_block fee_default)) used ->
  update_base_fees (with_base_fee b fee_default) used = Some (with_base_fee b fee_default).
Proof.
  intros Hb. induction 1 as [|g used Hg _ IH]; [done|].
  cbn [update_base_fees]. by rewrite fee_stuck_step.
Qed.

(** ** Properties *)

(** C39: [update_base_fee] computes the published adjustment exactly and
    never panics on sound parameters: the fee moves by
    [base * |used - target| * coeff / (8 * target)], up above the target and
    down below it, clamped to the minimum and the maximum; no cast or product
    leaves [i128]; the parameters stay sound. *)
Theorem base_fee_update_exact p g :
  fee_ok p -> fits U64_MAX g ->
  update_base_fee p g = Some (with_base_fee (next_base_fee p g) p) /\
  fee_ok (with_base_fee (next_base_fee p g) p).
Proof.
  intros Hp Hg. split; [by apply update_base_fee_exact|].
  apply with_base_fee_ok; [done | by apply next_base_fee_range].
Qed.

(** The fee moves in the right direction and by at most one eighth per
    block, for blocks of at most twice the target. *)
Theorem base_fee_change_bounded p g p' :
  fee_ok p -> adjustment_coefficient p = 1 -> 0 <= g <= 2 * target_gas_per_block p ->
  g <= U64_MAX -> update_base_fee p g = Some p' ->
  Z.abs (base_fee p' - base_fee p) <= base_fee p / 8 /\
  (target_gas_per_block p <= g -> base_fee p <= base_fee p') /\
  (g <= target_gas_per_block p -> base_fee p' <= base_fee p).
Proof.
  intros Hp Hc Hg Hu. pose proof (fee_step_eighth p g Hp Hc Hg).
  pose proof (fee_step_target p g).
  pose proof (fee_bounds p g Hp ltac:(fit)) as (_ & _ & B).
  rewrite update_base_fee_exact by (first [exact Hp | fit]). intros [= <-]. destruct Hp.
  unfold next_base_fee, with_base_fee. cbn [base_fee].
  destruct (Z.ltb_spec (target_gas_per_block p) g); lia.
Qed.

(** The default fee market freezes.  Three empty blocks bring the initial
    fee of 10 down to 7, and from then on no sequence of blocks, full ones
    included, ever changes it, because the adjustment rounds to zero. *)
Theorem base_fee_freezes used :
  Forall (fits (max_gas_per_block fee_default)) used ->
  update_base_fees fee_default ([0; 0; 0] ++ used) = Some (with_base_fee 7 fee_default).
Proof.
  intros Hu. cbn [app]. 
  assert (S : forall b, 8 <= b <= 10 ->
    update_base_fee (with_base_fee b fee_default) 0 = Some (with_base_fee (b - 1) fee_default)).
  { intros b Hb. assert (b = 8 \/ b = 9 \/ b = 10) as [->|[->| ->]] by lia; reflexivity. }
  change fee_default with (with_base_fee 10 fee_default) at 1.
  cbn [update_base_fees]. rewrite S by lia. cbn [mbind option_bind]. rewrite S by lia.
  cbn [mbind option_bind]. rewrite S by lia. cbn [mbind option_bind].
  by apply fee_stuck.
Qed.

Lemma base_fee_update_exact_witness :
  update_base_fee (with_base_fee 80 fee_default) 15000000 =
    Some (with_base_fee 85 (with_base_fee 80 fee_default)) /\
  fee_ok (with_base_fee 85 (with_base_fee 80 fee_default)).
Proof.
  refine (base_fee_update_exact (with_base_fee 80 fee_default) 15000000 _ _).
  - apply fee_default_ok. lia.
  - vm_compute. split; discriminate.
Defined.

Lemma base_fee_change_bounded_witness :
  Z.abs (90 - 80) <= 80 / 8 /\ (10000000 <= 20000000 -> 80 <= 90) /\
  (20000000 <= 10000000 -> 90 <= 80).
Proof.
  refine (base_fee_change_bounded (with_base_fee 80 fee_default) 20000000
    (with_base_fee 90 fee_default) _ _ _ _ _).
  - apply fee_default_ok. lia.
  - reflexivity.
  - cbn. lia.
  - vm_compute. discriminate.
  - vm_compute. reflexivity.
Defined.

Lemma base_fee_freezes_witness :
  update_base_fees fee_default ([0; 0; 0] ++ [20000000; 20000000]) =
    Some (with_base_fee 7 fee_default).
Proof.
  apply (base_fee_freezes [20000000; 20000000]).
  repeat constructor; vm_compute; discriminate.
Defined.
