(* ===== verification/Mempool.v ===== *)
(** * Mempool: the transaction pool

    Models [crates/mempool/src/priority.rs] ([PriorityPool]: entries ordered
    by score and arrival) and [crates/mempool/src/pool.rs] ([Mempool]:
    admission, selection, expiry, confirmation).

    The [BTreeMap] of the pool is an association list kept sorted by key, which
    is the order its iterators use.  serde's serialisation of a transaction is
    a parameter, keccak256 is the class of [Utils], and the arrival time, which
    no operation reads, is an argument of insertion. *)

From stdpp Require Import base gmap list strings sorting.
From Stdlib Require Import ZArith Lia.
From S2P Require Import Prelude Utils.

Local Open Scope Z_scope.

(** [EvmTransaction] of [crates/evm/src/executor.rs]. *)
Record EvmTransaction : Type := mkTx {
  tx_caller : Z;
  tx_nonce : Z;
  tx_gas_limit : Z;
  tx_gas_price : Z;
  tx_max_priority_fee : option Z;
  tx_type : Z;
  tx_to : option Z;
  tx_value : Z;
  tx_data : list Z;
  tx_chain_id : Z
}.

(** ** priority.rs *)

Inductive PoolKind : Type := Evm.

Record PoolLimits : Type := mkLimits {
  max_evm_txs : Z;
  max_per_address : Z;
  lifetime_blocks : Z
}.

Definition limits_default : PoolLimits := mkLimits 100000 2000 72.

Record MempoolEntry : Type := mkEntry {
  e_hash : Z;
  e_score : Z;
  e_sender : Z;
  e_nonce : Z;
  e_kind : PoolKind;
  e_data : list Z;
  e_entered_at : Z;
  e_entered_at_block : Z
}.

Definition is_expired (e : MempoolEntry) (current_block lifetime : Z) : bool :=
  lifetime <=? Z.max 0 (current_block - e_entered_at_block e).

(** A key is (score, arrival order). *)
Abbreviation pkey := (Z * Z)%type.
Abbreviation pitem := (pkey * MempoolEntry)%type.

Definition key_ltb (a b : pkey) : bool :=
  (a.1 <? b.1) || ((a.1 =? b.1) && (a.2 <? b.2)).
Definition key_eqb (a b : pkey) : bool := (a.1 =? b.1) && (a.2 =? b.2).

Record PriorityPool : Type := mkPool {
  entries : list pitem;
  next_order : Z
}.

Definition pool_new : PriorityPool := mkPool [] 0.
Definition pool_len (p : PriorityPool) : Z := Z.of_nat (length (entries p)).
Definition pool_is_empty (p : PriorityPool) : bool := bool_decide (entries p = []).

(** [BTreeMap::insert] and [BTreeMap::remove]. *)
Fixpoint btree_insert (k : pkey) (e : MempoolEntry) (l : list pitem) : list pitem :=
  match l with
  | [] => [(k, e)]
  | (k', e') :: rest =>
      if key_ltb k k' then (k, e) :: l
      else if key_eqb k k' then (k, e) :: rest
      else (k', e') :: btree_insert k e rest
  end.

Definition btree_remove (k : pkey) (l : list pitem) : list pitem :=
  List.filter (fun x => negb (key_eqb k x.1)) l.

Definition values (p : PriorityPool) : list MempoolEntry := map snd (entries p).

(** [Iterator::max] over the nonces. *)
Definition max_of (l : list Z) : option Z :=
  match l with [] => None | x :: rest => Some (foldr Z.max x rest) end.

Definition saturating_inc_u64 (n : Z) : Z := Z.min U64_MAX (n + 1).

Definition sender_entries (addr : Z) (p : PriorityPool) : list MempoolEntry :=
  List.filter (fun e => e_sender e =? addr) (values p).

Definition get_address_nonce (addr : Z) (p : PriorityPool) : Z :=
  default 0 (saturating_inc_u64 <$> max_of (map e_nonce (sender_entries addr p))).

Definition pool_insert (e : MempoolEntry) (p : PriorityPool) : Z * PriorityPool :=
  let order := next_order p in
  (order, mkPool (btree_insert (e_score e, order) e (entries p))
            ((next_order p + 1) mod (U64_MAX + 1))).

Definition pool_remove (hash : Z) (p : PriorityPool) : option MempoolEntry * PriorityPool :=
  match List.find (fun x => e_hash x.2 =? hash) (entries p) with
  | Some (k, e) => (Some e, mkPool (btree_remove k (entries p)) (next_order p))
  | None => (None, p)
  end.

Definition pool_contains (hash : Z) (p : PriorityPool) : bool :=
  existsb (fun e => e_hash e =? hash) (values p).

(** [sort_by(|a, b| b.score.cmp(&a.score))]: a stable sort; equal scores keep
    their order. *)
Section Sort.
Context {A : Type} (score : A -> Z).

Fixpoint sort_insert (x : A) (l : list A) : list A :=
  match l with
  | [] => [x]
  | y :: rest => if score y <=? score x then x :: l else y :: sort_insert x rest
  end.

Fixpoint sort_desc (l : list A) : list A :=
  match l with [] => [] | x :: rest => sort_insert x (sort_desc rest) end.

End Sort.

Definition drain_sorted (p : PriorityPool) : list MempoolEntry :=
  sort_desc e_score (values p).

Definition pool_clear (p : PriorityPool) : PriorityPool := mkPool [] (next_order p).

Definition lowest_score_entry (p : PriorityPool) : option MempoolEntry :=
  snd <$> head (entries p).

Definition evict_lowest (p : PriorityPool) : option MempoolEntry * PriorityPool :=
  match entries p with
  | [] => (None, p)
  | (k, e) :: _ => (Some e, mkPool (btree_remove k (entries p)) (next_order p))
  end.

Definition remove_expired (current_block lifetime : Z) (p : PriorityPool) : Z * PriorityPool :=
  let expired := map fst (List.filter (fun x => is_expired x.2 current_block lifetime) (entries p)) in
  (Z.of_nat (length expired),
   mkPool (foldl (fun l k => btree_remove k l) (entries p) expired) (next_order p)).

Definition count_per_address (addr : Z) (p : PriorityPool) : Z :=
  Z.of_nat (length (sender_entries addr p)).

Definition pool_iter (p : PriorityPool) : list MempoolEntry := map snd (rev (entries p)).

(** ** pool.rs *)

Record MempoolConfig : Type := mkConfig {
  min_fee : Z;
  min_gas_price : Z;
  max_gas_limit : Z
}.

Definition config_default : MempoolConfig := mkConfig 1000 1 10000000.

Inductive MempoolError : Type :=
| Duplicate (h : Z)
| PoolFull (pool : string) (count max : Z)
| AddressLimitReached (address : Z) (count max : Z)
| FeeTooLow (fee min : Z)
| GasLimitExceeded (gas max : Z)
| InvalidNonce (expected got : Z)
| MempoolInsufficientBalance (required got : Z)
| NotFound (h : Z)
| Generic (m : string).

Record Mempool : Type := mkMempool {
  evm_pool : PriorityPool;
  known_txs : gset Z;
  limits : PoolLimits;
  config : MempoolConfig;
  current_block : Z;
  mp_base_fee : Z;
  expected_nonces : gmap Z Z
}.

Definition mempool_new : Mempool :=
  mkMempool pool_new ∅ limits_default config_default 0 1 ∅.

Definition mp_set_pool (p : PriorityPool) (m : Mempool) : Mempool :=
  mkMempool p (known_txs m) (limits m) (config m) (current_block m) (mp_base_fee m)
    (expected_nonces m).
Definition mp_set_known (k : gset Z) (m : Mempool) : Mempool :=
  mkMempool (evm_pool m) k (limits m) (config m) (current_block m) (mp_base_fee m)
    (expected_nonces m).
Definition mp_set_nonces (n : gmap Z Z) (m : Mempool) : Mempool :=
  mkMempool (evm_pool m) (known_txs m) (limits m) (config m) (current_block m) (mp_base_fee m) n.

Definition set_current_block (b : Z) (m : Mempool) : Mempool :=
  mkMempool (evm_pool m) (known_txs m) (limits m) (config m) b (mp_base_fee m)
    (expected_nonces m).
Definition set_base_fee (f : Z) (m : Mempool) : Mempool :=
  mkMempool (evm_pool m) (known_txs m) (limits m) (config m) (current_block m) f
    (expected_nonces m).

Section Mempool.
Context `{Keccak}.
(** [serde_json::to_vec]. *)
Variable to_vec : EvmTransaction -> result string (list Z).

Definition insert_evm_tx (now : Z) (tx : EvmTransaction) (m : Mempool) :
    result MempoolError Z * Mempool :=
  match to_vec tx with
  | Err e => (Err (Generic ("serialize: " ++ e)), m)
  | Ok data =>
    let hash := keccak256 data in
    if bool_decide (hash ∈ known_txs m) then (Err (Duplicate hash), m) else
    let min_price := Z.max (min_gas_price (config m)) (mp_base_fee m) in
    if tx_gas_price tx <? min_price then (Err (FeeTooLow (tx_gas_price tx) min_price), m) else
    let addr_count := count_per_address (tx_caller tx) (evm_pool m) in
    if max_per_address (limits m) <=? addr_count
    then (Err (AddressLimitReached (tx_caller tx) addr_count (max_per_address (limits m))), m) else
    if max_evm_txs (limits m) <=? pool_len (evm_pool m)
    then (Err (PoolFull "evm" (pool_len (evm_pool m)) (max_evm_txs (limits m))), m) else
    let entry := mkEntry hash (tx_gas_price tx) (tx_caller tx) (tx_nonce tx) Evm data now
                   (current_block m) in
    (Ok hash, mp_set_known ({[hash]} ∪ known_txs m)
                (mp_set_pool (pool_insert entry (evm_pool m)).2 m))
  end.

Definition get_expected_evm_nonce (sender committed_nonce : Z) (m : Mempool) : Z :=
  Z.max committed_nonce (get_address_nonce sender (evm_pool m)).

Definition insert_evm_tx_with_state (now : Z) (tx : EvmTransaction) (committed_nonce balance : Z)
    (m : Mempool) : result MempoolError Z * Mempool :=
  let expected := get_expected_evm_nonce (tx_caller tx) committed_nonce m in
  if negb (tx_nonce tx =? expected) then (Err (InvalidNonce expected (tx_nonce tx)), m) else
  let max_gas_cost := Z.min U128_MAX (tx_gas_price tx * tx_gas_limit tx) in
  if balance <? max_gas_cost then (Err (MempoolInsufficientBalance max_gas_cost balance), m) else
  insert_evm_tx now tx m.

Definition select_transactions (m : Mempool) : list MempoolEntry := drain_sorted (evm_pool m).

Definition prune_expired (m : Mempool) : Z * Mempool :=
  let '(n, p) := remove_expired (current_block m) (lifetime_blocks (limits m)) (evm_pool m) in
  (n, mp_set_pool p m).

Fixpoint confirm_transactions (hashes : list Z) (m : Mempool) : Mempool :=
  match hashes with
  | [] => m
  | h :: rest =>
      let m := match pool_remove h (evm_pool m) with
               | (Some e, p) =>
                   mp_set_nonces (<[e_sender e := saturating_inc_u64 (e_nonce e)]>
                                    (expected_nonces m)) (mp_set_pool p m)
               | (None, _) => m
               end in
      confirm_transactions rest (mp_set_known (known_txs m ∖ {[h]}) m)
  end.

Definition increment_nonce (sender : Z) (m : Mempool) : Mempool :=
  mp_set_nonces (<[sender := saturating_inc_u64 (default 0 (expected_nonces m !! sender))]>
                   (expected_nonces m)) m.

Definition total_pending (m : Mempool) : Z := pool_len (evm_pool m).

(** [PoolStats]. *)
Definition pool_stats (m : Mempool) : Z * Z :=
  (pool_len (evm_pool m), Z.of_nat (size (known_txs m))).

End Mempool.
