(* ===== verification/MempoolSpec.v ===== *)
(** * MempoolSpec: correctness of the transaction pool

    The pool is always sorted, free of duplicates and within its limits;
    selection is by score and then by arrival; confirmation removes exactly
    the confirmed transactions; admission with state enforces nonces; expiry
    forgets to release the hash of an expired transaction. *)

From stdpp Require Import base gmap list strings sorting.
From Stdlib Require Import ZArith Lia Sorted.
From S2P Require Import Prelude Utils Mempool.

Local Open Scope Z_scope.

(** ** Keys *)

Definition key_lt (a b : pkey) : Prop := a.1 < b.1 \/ (a.1 = b.1 /\ a.2 < b.2).

Lemma key_ltb_spec a b : reflect (key_lt a b) (key_ltb a b).
Proof.
  unfold key_ltb, key_lt. apply iff_reflect. rewrite orb_true_iff, andb_true_iff.
  rewrite !Z.ltb_lt, Z.eqb_eq. done.
Qed.

Lemma key_eqb_spec a b : reflect (a = b) (key_eqb a b).
Proof.
  unfold key_eqb. apply iff_reflect. rewrite andb_true_iff, !Z.eqb_eq.
  destruct a, b; cbn. intuition congruence.
Qed.

#[global] Instance key_lt_trans : Transitive key_lt.
Proof. intros a b c; unfold key_lt; lia. Qed.

Lemma key_lt_irrefl a : ~ key_lt a a.
Proof. unfold key_lt; lia. Qed.

Lemma key_lt_total a b : ~ key_lt a b -> a <> b -> key_lt b a.
Proof.
  unfold key_lt. destruct a as [x1 y1], b as [x2 y2]; cbn. intros H1 H2.
  destruct (Z.eq_dec x1 x2); [|lia]. destruct (Z.eq_dec y1 y2); [congruence | lia].
Qed.

Abbreviation sorted l := (StronglySorted (fun a b : pitem => key_lt a.1 b.1) l).

(** ** Sorted association lists *)

Lemma btree_insert_perm k e l :
  k ∉ l.*1 -> btree_insert k e l ≡ₚ (k, e) :: l.
Proof.
  induction l as [|[k' e'] l IH]; cbn; [done|]. intros Hk.
  destruct (key_ltb k k'); [done|].
  destruct (key_eqb_spec k k') as [->|]; [set_solver|].
  rewrite IH by set_solver. constructor.
Qed.

Lemma btree_insert_sorted k e l : sorted l -> sorted (btree_insert k e l).
Proof.
  induction 1 as [|[k' e'] l Hs IH Hf]; cbn; [repeat constructor|].
  destruct (key_ltb_spec k k') as [Hlt|Hge].
  - constructor; [by constructor|]. constructor; [done|].
    eapply Forall_impl; [exact Hf|]. intros x Hx. cbn in *. by transitivity k'.
  - destruct (key_eqb_spec k k') as [->|Hne]; [by constructor|].
    constructor; [done|]. assert (P : Forall (fun x : pitem => key_lt k' x.1) ((k, e) :: l)).
    { constructor; [by apply key_lt_total | done]. }
    clear -P Hf Hge Hne. revert P. induction l as [|[k2 e2] l IH]; cbn; [done|]. intros P.
    apply Forall_cons in P as [P1 P]. apply Forall_cons in P as [P2 P]. cbn in *.
    destruct (key_ltb k k2); [by rewrite !Forall_cons|].
    destruct (key_eqb k k2); [by rewrite Forall_cons|]. rewrite Forall_cons. split; [done|].
    apply IH; [by apply Forall_cons in Hf as [_ ?]|]. by rewrite Forall_cons.
Qed.

Lemma filter_sorted f l : sorted l -> sorted (List.filter f l).
Proof.
  induction 1 as [|x l Hs IH Hf]; cbn; [constructor|].
  destruct (f x); [|done]. constructor; [done|].
  rewrite Forall_forall in *. intros y Hy. apply Hf.
  rewrite list_elem_of_In in *. by apply filter_In in Hy as [? _].
Qed.

Lemma sorted_keys l : sorted l -> NoDup l.*1.
Proof.
  induction 1 as [|[k e] l Hs IH Hf]; cbn; constructor; [|done].
  intros ([k' e'] & -> & Hin)%list_elem_of_fmap. rewrite Forall_forall in Hf.
  specialize (Hf _ Hin). by apply key_lt_irrefl in Hf.
Qed.

(** Removing the key of a member of a list with distinct keys removes that
    member. *)
Lemma btree_remove_perm k e l :
  NoDup l.*1 -> (k, e) ∈ l -> l ≡ₚ (k, e) :: btree_remove k l.
Proof.
  unfold btree_remove. induction l as [|[k' e'] l IH]; cbn; [set_solver|].
  intros [Hn Hd]%NoDup_cons [Heq|Hin]%elem_of_cons.
  - injection Heq as -> ->. destruct (key_eqb_spec k' k'); [|done]. cbn. f_equiv.
    clear -Hn. induction l as [|[k2 e2] l IH]; cbn; [done|].
    destruct (key_eqb_spec k' k2); [subst; set_solver|]. cbn. f_equiv. apply IH. set_solver.
  - destruct (key_eqb_spec k k') as [->|]; cbn.
    + exfalso. apply Hn. by apply (list_elem_of_fmap_2 fst _ (k', e)).
    + rewrite (IH Hd Hin) at 1. constructor.
Qed.

(** ** Stable sorting by score *)

Section SortSpec.
Context {A : Type} (score : A -> Z).

Lemma sort_insert_perm x l : sort_insert score x l ≡ₚ x :: l.
Proof.
  induction l as [|y l IH]; cbn; [done|]. destruct (score y <=? score x); [done|].
  rewrite IH. constructor.
Qed.

Lemma sort_desc_perm l : sort_desc score l ≡ₚ l.
Proof. induction l as [|x l IH]; cbn; [done|]. by rewrite sort_insert_perm, IH. Qed.

Lemma sort_desc_map {B} (f : B -> A) l :
  sort_desc score (map f l) = map f (sort_desc (fun b => score (f b)) l).
Proof.
  induction l as [|x l IH]; cbn; [done|]. rewrite IH. clear IH.
  induction (sort_desc _ l) as [|y r IH]; cbn; [done|].
  destruct (score (f y) <=? score (f x)); cbn; [done|]. by rewrite IH.
Qed.

End SortSpec.

(** Selection order: higher score first, earlier arrival first among equals. *)
Definition before (a b : pitem) : Prop :=
  e_score b.2 < e_score a.2 \/ (e_score a.2 = e_score b.2 /\ a.1.2 < b.1.2).

Definition keyed (x : pitem) : Prop := x.1.1 = e_score x.2.

Lemma sort_insert_before x l :
  Forall (fun y : pitem => key_lt x.1 y.1) l -> keyed x -> Forall keyed l ->
  StronglySorted before l ->
  StronglySorted before (sort_insert (fun y : pitem => e_score y.2) x l).
Proof.
  intros Hlt Hx Hl. induction 1 as [|y l Hs IH Hf]; cbn; [repeat constructor|].
  apply Forall_cons in Hlt as [Hy Hlt], Hl as [Ky Hl]. unfold keyed, key_lt in *.
  destruct (Z.leb_spec (e_score y.2) (e_score x.2)).
  - constructor; [by constructor|]. rewrite Forall_cons. split; [unfold before; lia|].
    eapply Forall_impl; [exact Hf|]. unfold before. intros z Hz; cbn in Hz. lia.
  - constructor; [by apply IH|]. rewrite Forall_forall in Hf |- *. intros z Hz.
    rewrite sort_insert_perm, elem_of_cons in Hz. destruct Hz as [->|Hz]; [|by apply Hf].
    unfold before. lia.
Qed.

Lemma sort_desc_before l :
  sorted l -> Forall keyed l ->
  StronglySorted before (sort_desc (fun y : pitem => e_score y.2) l).
Proof.
  induction 1 as [|x l Hs IH Hf]; cbn; [constructor|]. intros [Hx Hl]%Forall_cons.
  apply sort_insert_before; [|done| |by apply IH].
  - by rewrite sort_desc_perm.
  - by rewrite sort_desc_perm.
Qed.

(** ** The pool invariant *)

Record pool_wf (p : PriorityPool) : Prop := {
  wf_sorted : sorted (entries p);
  wf_keyed : Forall keyed (entries p);
  wf_order : Forall (fun x : pitem => x.1.2 < next_order p) (entries p);
  wf_hashes : NoDup (map e_hash (values p))
}.

Lemma values_perm l l' n n' : l ≡ₚ l' -> values (mkPool l n) ≡ₚ values (mkPool l' n').
Proof. intros E. unfold values. cbn. by rewrite E. Qed.

Lemma pool_insert_perm e p :
  pool_wf p -> entries (pool_insert e p).2 ≡ₚ ((e_score e, next_order p), e) :: entries p.
Proof.
  intros [_ _ Ho _]. apply btree_insert_perm.
  intros ([k e'] & Ek & Hin)%list_elem_of_fmap. cbn in Ek. subst k.
  rewrite Forall_forall in Ho. specialize (Ho _ Hin). cbn in Ho. lia.
Qed.

Lemma pool_insert_wf e p :
  pool_wf p -> e_hash e ∉ map e_hash (values p) -> 0 <= next_order p < U64_MAX ->
  pool_wf (pool_insert e p).2.
Proof.
  intros W Hh Hn. pose proof (pool_insert_perm e p W) as Hp. destruct W as [Hs Hk Ho Hd].
  assert (En : next_order (pool_insert e p).2 = next_order p + 1).
  { cbn. apply Z.mod_small. lia. }
  split.
  - by apply btree_insert_sorted.
  - rewrite Hp. by constructor.
  - rewrite Hp, En. constructor; [cbn; lia|]. eapply Forall_impl; [exact Ho|]. cbn. lia.
  - assert (E : values (pool_insert e p).2 ≡ₚ e :: values p) by (unfold values; by rewrite Hp).
    rewrite E. by constructor.
Qed.

(** Keeping part of the entries keeps the invariant. *)
Lemma pool_filter_wf f p :
  pool_wf p -> pool_wf (mkPool (List.filter f (entries p)) (next_order p)).
Proof.
  intros [Hs Hk Ho Hd].
  assert (Sub : forall P : pitem -> Prop, Forall P (entries p) ->
    Forall P (List.filter f (entries p))).
  { intros P HP. rewrite Forall_forall in *. intros x Hx. apply HP.
    rewrite list_elem_of_In in *. by apply filter_In in Hx as [? _]. }
  split; cbn; [by apply filter_sorted | by apply Sub | by apply Sub |].
  revert Hd. unfold values. cbn. clear. induction (entries p) as [|x l IH]; cbn; [done|].
  intros [Hn Hd]%NoDup_cons. destruct (f x); cbn; [|by apply IH]. constructor; [|by apply IH].
  rewrite !map_map, !list_elem_of_In, !in_map_iff in *. intros (y & Ey & Hy). apply Hn.
  exists y. split; [done|]. by apply filter_In in Hy as [? _].
Qed.

(** Removing several keys is one filter. *)
Lemma foldl_remove ks l :
  foldl (fun l k => btree_remove k l) l ks =
  List.filter (fun x : pitem => negb (existsb (fun k => key_eqb k x.1) ks)) l.
Proof.
  revert l. induction ks as [|k ks IH]; intros l; cbn.
  - induction l as [|x l IHl]; cbn; [done|]. by f_equal.
  - rewrite IH. unfold btree_remove. induction l as [|x l IHl]; cbn; [done|].
    destruct (key_eqb k x.1); cbn; [done|]. destruct (existsb _ ks); cbn; [done|]. by f_equal.
Qed.

(** Removing the expired keys keeps exactly the entries that are not
    expired. *)
Lemma remove_expired_entries b life p :
  pool_wf p ->
  entries (remove_expired b life p).2 =
    List.filter (fun x : pitem => negb (is_expired x.2 b life)) (entries p).
Proof.
  intros W. unfold remove_expired. cbn. rewrite foldl_remove. apply filter_ext_in.
  intros [k e] Hin. f_equal. apply eq_true_iff_eq. rewrite existsb_exists. cbn. split.
  - intros (k' & Hk' & ->%(reflect_iff _ _ (key_eqb_spec k' k))).
    apply in_map_iff in Hk' as ([k2 e2] & Ek & Hf). cbn in Ek. subst k2.
    apply filter_In in Hf as [Hf He]. cbn in He.
    assert (e2 = e) as ->; [|done].
    pose proof (sorted_keys _ (wf_sorted _ W)) as Hd. rewrite <- list_elem_of_In in *.
    assert (E : (k, e2) = (k, e)) by (by apply (NoDup_map_inj fst (entries p))).
    congruence.
  - intros He. exists k. split.
    + apply in_map_iff. exists (k, e). split; [done|]. by apply filter_In.
    + by destruct (key_eqb_spec k k).
Qed.

Lemma pool_remove_entries h p :
  pool_wf p ->
  entries (pool_remove h p).2 =
    List.filter (fun x : pitem => negb (e_hash x.2 =? h)) (entries p) /\
  next_order (pool_remove h p).2 = next_order p.
Proof.
  intros W. unfold pool_remove. destruct (List.find _ (entries p)) as [[k e]|] eqn:F; cbn.
  - apply find_some in F as [Hin Hh]. cbn in Hh. apply Z.eqb_eq in Hh. split; [|done].
    unfold btree_remove. apply filter_ext_in. intros [k' e'] Hin'. f_equal.
    apply eq_true_iff_eq. rewrite <- (reflect_iff _ _ (key_eqb_spec _ _)), Z.eqb_eq. cbn.
    rewrite <- list_elem_of_In in Hin, Hin'. split.
    + intros <-. pose proof (sorted_keys _ (wf_sorted _ W)) as Hd.
      assert (E : (k, e) = (k, e')) by (by apply (NoDup_map_inj fst (entries p))). congruence.
    + intros He. pose proof (wf_hashes _ W) as Hd. unfold values in Hd. rewrite map_map in Hd.
      assert (E : (k, e) = (k', e'))
        by (apply (NoDup_map_inj (fun x => e_hash x.2) (entries p)); cbn; congruence). congruence.
  - split; [|done]. symmetry. apply forallb_filter_id, forallb_forall.
    intros x Hx. by rewrite (find_none _ _ F x Hx).
Qed.

(** Entries of the pool are entries of the unfiltered pool. *)
Lemma values_filter_incl f l n n' e :
  e ∈ values (mkPool (List.filter f l) n) -> e ∈ values (mkPool l n').
Proof.
  unfold values. cbn. rewrite !list_elem_of_In, !in_map_iff.
  intros (x & Ex & Hx). exists x. split; [done|]. by apply filter_In in Hx as [? _].
Qed.

Lemma count_filter_le f l n n' a :
  count_per_address a (mkPool (List.filter f l) n) <= count_per_address a (mkPool l n').
Proof.
  unfold count_per_address, sender_entries, values. cbn.
  induction l as [|x l IH]; cbn; [done|].
  destruct (f x); cbn; destruct (e_sender x.2 =? a); cbn; lia.
Qed.

Lemma filter_length_le {A} (f : A -> bool) l : (length (List.filter f l) <= length l)%nat.
Proof. induction l as [|x l IH]; cbn; [done|]. destruct (f x); cbn; lia. Qed.

(** ** The mempool invariant *)

Record mempool_wf (m : Mempool) : Prop := {
  mwf_pool : pool_wf (evm_pool m);
  mwf_known : forall e, e ∈ values (evm_pool m) -> e_hash e ∈ known_txs m;
  mwf_len : pool_len (evm_pool m) <= max_evm_txs (limits m);
  mwf_count : forall a, count_per_address a (evm_pool m) <= max_per_address (limits m);
  mwf_next : 0 <= next_order (evm_pool m) <= U64_MAX
}.

Lemma mempool_new_wf : mempool_wf mempool_new.
Proof.
  split; try set_solver; try done.
  split; repeat constructor.
Qed.

(** Dropping entries and forgetting the hashes of dropped entries only. *)
Lemma mempool_filter_wf f m known :
  mempool_wf m ->
  (forall x, In x (entries (evm_pool m)) -> f x = true -> e_hash x.2 ∈ known) ->
  mempool_wf (mp_set_known known
    (mp_set_pool (mkPool (List.filter f (entries (evm_pool m))) (next_order (evm_pool m))) m)).
Proof.
  intros [Wp Wk Wl Wc Wn] Hk. split; cbn; [by apply pool_filter_wf|..|done].
  - intros e He. unfold values in He. cbn in He.
    rewrite list_elem_of_In, in_map_iff in He. destruct He as (x & <- & Hx).
    apply filter_In in Hx as [Hx Hf]. by apply Hk.
  - unfold pool_len in *. cbn. pose proof (filter_length_le f (entries (evm_pool m))). lia.
  - intros a. etransitivity; [apply (count_filter_le f (entries (evm_pool m))
      (next_order (evm_pool m)) (next_order (evm_pool m)) a)|].
    specialize (Wc a). by destruct (evm_pool m).
Qed.

Section Steps.
Context `{Keccak} (to_vec : EvmTransaction -> result string (list Z)).

Lemma insert_evm_tx_ok now tx m h m' :
  insert_evm_tx to_vec now tx m = (Ok h, m') ->
  exists data, to_vec tx = Ok data /\ h = keccak256 data /\ h ∉ known_txs m /\
    Z.max (min_gas_price (config m)) (mp_base_fee m) <= tx_gas_price tx /\
    count_per_address (tx_caller tx) (evm_pool m) < max_per_address (limits m) /\
    pool_len (evm_pool m) < max_evm_txs (limits m) /\
    m' = mp_set_known ({[h]} ∪ known_txs m)
           (mp_set_pool (pool_insert (mkEntry h (tx_gas_price tx) (tx_caller tx) (tx_nonce tx) Evm
              data now (current_block m)) (evm_pool m)).2 m).
Proof.
  unfold insert_evm_tx. destruct (to_vec tx) as [data|]; [|done].
  case_bool_decide; [done|]. destruct (Z.ltb_spec (tx_gas_price tx)
    (Z.max (min_gas_price (config m)) (mp_base_fee m))); [done|].
  destruct (Z.leb_spec (max_per_address (limits m))
    (count_per_address (tx_caller tx) (evm_pool m))); [done|].
  destruct (Z.leb_spec (max_evm_txs (limits m)) (pool_len (evm_pool m))); [done|].
  intros [= <- <-]. exists data. auto 10.
Qed.

Lemma insert_evm_tx_err now tx m e m' : insert_evm_tx to_vec now tx m = (Err e, m') -> m' = m.
Proof. unfold insert_evm_tx. repeat case_match; congruence. Qed.

Lemma insert_evm_tx_wf now tx m :
  mempool_wf m -> next_order (evm_pool m) < U64_MAX ->
  mempool_wf (insert_evm_tx to_vec now tx m).2.
Proof.
  intros W Hn. destruct (insert_evm_tx to_vec now tx m) as [[h|e] m'] eqn:E; cbn.
  2: { by apply insert_evm_tx_err in E as ->. }
  apply insert_evm_tx_ok in E as (data & _ & _ & Hh & _ & Hc & Hl & ->).
  set (e := mkEntry _ _ _ _ _ _ _ _). destruct W as [Wp Wk Wl Wc Wn].
  pose proof (pool_insert_perm e _ Wp) as Hp.
  assert (Hv : values (pool_insert e (evm_pool m)).2 ≡ₚ e :: values (evm_pool m))
    by (unfold values; by rewrite Hp).
  split.
  - apply pool_insert_wf; [done| |lia]. cbn. intros (x & Ex & Hx)%list_elem_of_fmap.
    apply Hh. rewrite Ex. by apply Wk.
  - cbn [evm_pool mp_set_known mp_set_pool known_txs]. intros x. rewrite Hv, elem_of_cons.
    intros [->|Hx]; [cbn; set_solver|]. specialize (Wk x Hx). set_solver.
  - unfold pool_len in *. cbn [evm_pool mp_set_known mp_set_pool limits]. rewrite Hp. cbn. lia.
  - intros a. unfold count_per_address, sender_entries in *. cbn [evm_pool mp_set_known mp_set_pool limits].
    assert (P : List.filter (fun x => e_sender x =? a) (values (pool_insert e (evm_pool m)).2) ≡ₚ
      List.filter (fun x => e_sender x =? a) (e :: values (evm_pool m))).
    { clear -Hv. revert Hv. generalize (values (pool_insert e (evm_pool m)).2). intros l.
      generalize (e :: values (evm_pool m)). intros l'. induction 1; cbn; try done.
      - by destruct (e_sender x =? a); [f_equiv|].
      - destruct (e_sender x =? a), (e_sender y =? a); try done. constructor.
      - by etransitivity. }
    rewrite P. cbn. destruct (Z.eqb_spec (tx_caller tx) a) as [<-|]; cbn; [lia | apply Wc].
  - cbn. pose proof (Z.mod_pos_bound (next_order (evm_pool m) + 1) (U64_MAX + 1) ltac:(done)). lia.
Qed.

Lemma prune_expired_wf m : mempool_wf m -> mempool_wf (prune_expired m).2.
Proof.
  intros W. unfold prune_expired. pose proof (remove_expired_entries (current_block m)
    (lifetime_blocks (limits m)) _ (mwf_pool _ W)) as E.
  assert (En : next_order (remove_expired (current_block m) (lifetime_blocks (limits m))
    (evm_pool m)).2 = next_order (evm_pool m)) by done.
  destruct (remove_expired _ _ _) as [n [es no]]; cbn in E, En |- *. subst es no.
  refine (mempool_filter_wf (fun x => negb (is_expired x.2 _ _)) m (known_txs m) W _).
  intros x Hx _. apply (mwf_known _ W). apply list_elem_of_In. unfold values. by apply in_map.
Qed.

(** One confirmed hash. *)
Definition confirm_one (h : Z) (m : Mempool) : Mempool := confirm_transactions [h] m.

Lemma confirm_cons h hs m :
  confirm_transactions (h :: hs) m = confirm_transactions hs (confirm_one h m).
Proof. done. Qed.

Lemma confirm_one_fields h m :
  mempool_wf m ->
  entries (evm_pool (confirm_one h m)) =
    List.filter (fun x : pitem => negb (e_hash x.2 =? h)) (entries (evm_pool m)) /\
  next_order (evm_pool (confirm_one h m)) = next_order (evm_pool m) /\
  known_txs (confirm_one h m) = known_txs m ∖ {[h]} /\ limits (confirm_one h m) = limits m.
Proof.
  intros W. unfold confirm_one. cbn [confirm_transactions].
  destruct (pool_remove_entries h _ (mwf_pool _ W)) as [E1 E2].
  destruct (pool_remove h (evm_pool m)) as [[e|] p] eqn:Er; cbn in E1, E2 |- *; [auto|].
  unfold pool_remove in Er. destruct (List.find _ _) as [[]|]; [done|].
  injection Er as <-. auto.
Qed.

Lemma confirm_one_wf h m : mempool_wf m -> mempool_wf (confirm_one h m).
Proof.
  intros W. destruct (confirm_one_fields h m W) as (E1 & E2 & E3 & E4).
  pose proof (mempool_filter_wf (fun x => negb (e_hash x.2 =? h)) m (known_txs m ∖ {[h]}) W) as P.
  destruct (confirm_one h m) as [[es no] kn lm cf cb bf en]; cbn in *. subst.
  destruct P as [P1 P2 P3 P4 P5]; [|by split].
  intros x Hx Hne. pose proof (mwf_known _ W x.2) as K.
  assert (x.2 ∈ values (evm_pool m)) by (apply list_elem_of_In; unfold values; by apply in_map).
  specialize (K H0). destruct (Z.eqb_spec (e_hash x.2) h); [done|]. set_solver.
Qed.

Lemma confirm_transactions_wf hs m : mempool_wf m -> mempool_wf (confirm_transactions hs m).
Proof.
  revert m. induction hs as [|h hs IH]; intros m W; [done|].
  rewrite confirm_cons. by apply IH, confirm_one_wf.
Qed.

(** ** Reachable mempools *)

(** Every operation that changes the mempool.  The arrival counter is a [u64];
    fewer than [2^64 - 1] insertions are assumed. *)
Inductive mempool_step : Mempool -> Mempool -> Prop :=
| step_insert now tx m :
    next_order (evm_pool m) < U64_MAX -> mempool_step m (insert_evm_tx to_vec now tx m).2
| step_insert_with_state now tx committed balance m :
    next_order (evm_pool m) < U64_MAX ->
    mempool_step m (insert_evm_tx_with_state to_vec now tx committed balance m).2
| step_prune m : mempool_step m (prune_expired m).2
| step_confirm hs m : mempool_step m (confirm_transactions hs m)
| step_increment_nonce a m : mempool_step m (increment_nonce a m)
| step_block b m : mempool_step m (set_current_block b m)
| step_base_fee f m : mempool_step m (set_base_fee f m).

Lemma insert_with_state_cases now tx c b m :
  insert_evm_tx_with_state to_vec now tx c b m = insert_evm_tx to_vec now tx m \/
  (exists e, insert_evm_tx_with_state to_vec now tx c b m = (Err e, m)).
Proof. unfold insert_evm_tx_with_state. repeat case_match; eauto. Qed.

Lemma mempool_step_wf m m' : mempool_step m m' -> mempool_wf m -> mempool_wf m'.
Proof.
  destruct 1 as [| now tx c b m Hn | | | | |]; intros W.
  - by apply insert_evm_tx_wf.
  - destruct (insert_with_state_cases now tx c b m) as [->|[e ->]]; [|done].
    by apply insert_evm_tx_wf.
  - by apply prune_expired_wf.
  - by apply confirm_transactions_wf.
  - by destruct W.
  - by destruct W.
  - by destruct W.
Qed.

Lemma max_of_ge l n : n ∈ l -> exists x, max_of l = Some x /\ n <= x.
Proof.
  destruct l as [|y l]; [set_solver|]. intros Hn. eexists; split; [reflexivity|].
  apply elem_of_cons in Hn as [->|Hn]; [|revert Hn]; induction l as [|z l IH]; cbn.
  - lia.
  - lia.
  - set_solver.
  - intros [->|Hn]%elem_of_cons; [lia|]. specialize (IH Hn). lia.
Qed.

Lemma get_address_nonce_bound a p e :
  e ∈ values p -> e_sender e = a ->
  saturating_inc_u64 (e_nonce e) <= get_address_nonce a p.
Proof.
  intros He Ha. unfold get_address_nonce.
  destruct (max_of_ge (map e_nonce (sender_entries a p)) (e_nonce e)) as (x & -> & Hx).
  - apply list_elem_of_fmap_2. unfold sender_entries. rewrite list_elem_of_In, filter_In.
    rewrite <- list_elem_of_In. by rewrite Z.eqb_eq.
  - cbn. unfold saturating_inc_u64. lia.
Qed.

Lemma confirm_entries hs m :
  mempool_wf m ->
  entries (evm_pool (confirm_transactions hs m)) =
    List.filter (fun x : pitem => negb (bool_decide (e_hash x.2 ∈ hs))) (entries (evm_pool m)) /\
  (forall h, h ∈ known_txs (confirm_transactions hs m) <-> h ∈ known_txs m /\ h ∉ hs).
Proof.
  revert m. induction hs as [|h hs IH]; intros m W.
  - cbn. split; [|set_solver]. symmetry. apply forallb_filter_id, forallb_forall. done.
  - rewrite confirm_cons. destruct (IH _ (confirm_one_wf h m W)) as [-> K].
    destruct (confirm_one_fields h m W) as (-> & _ & Ek & _). split.
    + generalize (entries (evm_pool m)). intros l. induction l as [|x l IHl]; cbn; [done|].
      destruct (Z.eqb_spec (e_hash x.2) h) as [E|E]; cbn.
      * rewrite IHl, bool_decide_eq_true_2 by set_solver. done.
      * rewrite IHl. rewrite (bool_decide_ext (e_hash x.2 ∈ hs) (e_hash x.2 ∈ h :: hs)) by set_solver.
        done.
    + intros h'. rewrite K, Ek. set_solver.
Qed.

(** ** Properties *)

(** C34: every mempool reachable from the empty one is well formed: the pool
    is sorted by (score, arrival), no two entries have the same hash, every
    pooled hash is known, and the pool and per-address limits hold. *)
Theorem mempool_reachable_wf m : rtc mempool_step mempool_new m -> mempool_wf m.
Proof.
  intros R. pose proof mempool_new_wf as W. induction R as [|m1 m2 m3 S _ IH]; [done|].
  apply IH. by eapply mempool_step_wf.
Qed.


(** Admission with state enforces nonces and funding: an admitted
    transaction's nonce is at least the committed nonce and above every
    pending nonce of its sender (short of the u64 maximum), its sender can pay
    the maximum gas cost, its price covers the base fee, and it was not known
    before. *)
Theorem admission_enforces_nonce_and_balance now tx committed balance m h m' :
  insert_evm_tx_with_state to_vec now tx committed balance m = (Ok h, m') ->
  committed <= tx_nonce tx /\
  (forall e, e ∈ values (evm_pool m) -> e_sender e = tx_caller tx ->
     e_nonce e < tx_nonce tx \/ U64_MAX <= tx_nonce tx) /\
  Z.min U128_MAX (tx_gas_price tx * tx_gas_limit tx) <= balance /\
  mp_base_fee m <= tx_gas_price tx /\ h ∉ known_txs m.
Proof.
  unfold insert_evm_tx_with_state, get_expected_evm_nonce.
  destruct (Z.eqb_spec (tx_nonce tx)
    (Z.max committed (get_address_nonce (tx_caller tx) (evm_pool m)))); [|done]. cbn [negb].
  destruct (Z.ltb_spec balance (Z.min U128_MAX (tx_gas_price tx * tx_gas_limit tx))); [done|].
  intros (data & _ & _ & Hh & Hp & _)%insert_evm_tx_ok. split_and!; [lia| |done|lia|done].
  intros x Hx Hs. pose proof (get_address_nonce_bound _ _ x Hx Hs) as B.
  unfold saturating_inc_u64 in B. lia.
Qed.

(** Confirming a block removes exactly the confirmed transactions: the
    other entries stay in order, and the confirmed hashes are no longer
    known. *)
Theorem confirmation_removes_exactly hs m :
  mempool_wf m ->
  entries (evm_pool (confirm_transactions hs m)) =
    List.filter (fun x : pitem => negb (bool_decide (e_hash x.2 ∈ hs))) (entries (evm_pool m)) /\
  (forall h, h ∈ known_txs (confirm_transactions hs m) <-> h ∈ known_txs m /\ h ∉ hs).
Proof. apply confirm_entries. Qed.

(** An expired transaction can never be submitted again.  Pruning drops
    exactly the entries older than the lifetime but keeps their hashes in
    [known_txs], so resubmitting a pruned transaction is refused as a
    duplicate although the pool no longer holds it. *)
Theorem expired_transaction_stays_known now tx data m :
  mempool_wf m -> to_vec tx = Ok data ->
  (exists e, e ∈ values (evm_pool m) /\ e_hash e = keccak256 data /\
     is_expired e (current_block m) (lifetime_blocks (limits m)) = true) ->
  let m' := (prune_expired m).2 in
  pool_contains (keccak256 data) (evm_pool m') = false /\
  insert_evm_tx to_vec now tx m' = (Err (Duplicate (keccak256 data)), m').
Proof.
  intros W Et (e & He & Hh & Hx) m'.
  assert (Em : entries (evm_pool m') = List.filter (fun x : pitem =>
    negb (is_expired x.2 (current_block m) (lifetime_blocks (limits m)))) (entries (evm_pool m))).
  { rewrite <- (remove_expired_entries _ _ _ (mwf_pool _ W)). done. }
  split.
  - apply not_true_iff_false. unfold pool_contains. rewrite existsb_exists.
    intros (e' & He' & Eh%Z.eqb_eq). unfold values in He'. rewrite Em in He'.
    apply in_map_iff in He' as (x & <- & Hf). apply filter_In in Hf as [Hf Hn].
    assert (E : x.2 = e); [|rewrite E, Hx in Hn; done].
    apply (NoDup_map_inj e_hash (values (evm_pool m))); [apply (wf_hashes _ (mwf_pool _ W))| |done|congruence].
    apply list_elem_of_In. unfold values. by apply in_map.
  - assert (K : keccak256 data ∈ known_txs m') by (rewrite <- Hh; by apply (mwf_known _ W)).
    unfold insert_evm_tx. rewrite Et. by rewrite bool_decide_eq_true_2.
Qed.

End Steps.

(** ** The properties at concrete inputs *)

Module MempoolDemo.

#[local] Instance demo_keccak : Keccak := fun bs => from_be (1 :: bs).

Definition ser (tx : EvmTransaction) : result string (list Z) :=
  Ok (be_bytes 20 (tx_caller tx) ++ be_bytes 8 (tx_nonce tx) ++ be_bytes 16 (tx_gas_price tx)).

Definition tx1 : EvmTransaction := mkTx 7 0 21000 5 None 0 (Some 9) 0 [] 1.
Definition tx2 : EvmTransaction := mkTx 8 0 21000 9 None 0 (Some 9) 0 [] 1.
Definition tx3 : EvmTransaction := mkTx 7 1 21000 5 None 0 (Some 9) 0 [] 1.

Definition m1 : Mempool := (insert_evm_tx ser 0 tx1 mempool_new).2.
Definition m2 : Mempool := (insert_evm_tx ser 1 tx2 m1).2.
Definition m2_late : Mempool := set_current_block 72 m2.

Definition hash_of (tx : EvmTransaction) : Z :=
  match ser tx with Ok d => keccak256 d | Err _ => 0 end.

Lemma m2_reachable : rtc (mempool_step ser) mempool_new m2.
Proof.
  eapply rtc_l; [|eapply rtc_l; [|apply rtc_refl]].
  - apply (step_insert ser 0 tx1). vm_compute. done.
  - apply (step_insert ser 1 tx2). vm_compute. done.
Qed.

Lemma m2_late_wf : mempool_wf m2_late.
Proof.
  assert (S : rtc (mempool_step ser) mempool_new m2_late)
    by (eapply rtc_r; [apply m2_reachable | apply step_block]).
  pose proof mempool_new_wf as W. induction S as [|a b c Sab _ IH]; [done|].
  apply IH. by eapply mempool_step_wf.
Qed.

Lemma mempool_reachable_wf_witness : mempool_wf m2.
Proof. exact (mempool_reachable_wf ser m2 m2_reachable). Defined.


Lemma admission_enforces_nonce_and_balance_witness :
  0 <= tx_nonce tx3 /\
  (forall e, e ∈ values (evm_pool m2) -> e_sender e = tx_caller tx3 ->
     e_nonce e < tx_nonce tx3 \/ U64_MAX <= tx_nonce tx3) /\
  Z.min U128_MAX (tx_gas_price tx3 * tx_gas_limit tx3) <= 105000 /\
  mp_base_fee m2 <= tx_gas_price tx3 /\ hash_of tx3 ∉ known_txs m2.
Proof.
  refine (admission_enforces_nonce_and_balance ser 2 tx3 0 105000 m2 (hash_of tx3)
    (insert_evm_tx_with_state ser 2 tx3 0 105000 m2).2 _).
  vm_compute. reflexivity.
Defined.

Lemma confirmation_removes_exactly_witness :
  entries (evm_pool (confirm_transactions [hash_of tx1] m2_late)) =
    List.filter (fun x : pitem => negb (bool_decide (e_hash x.2 ∈ [hash_of tx1])))
      (entries (evm_pool m2_late)) /\
  (forall h, h ∈ known_txs (confirm_transactions [hash_of tx1] m2_late) <->
     h ∈ known_txs m2_late /\ h ∉ [hash_of tx1]).
Proof. exact (confirmation_removes_exactly [hash_of tx1] m2_late m2_late_wf). Defined.

Lemma expired_transaction_stays_known_witness :
  let m' := (prune_expired m2_late).2 in
  pool_contains (hash_of tx1) (evm_pool m') = false /\
  insert_evm_tx ser 3 tx1 m' = (Err (Duplicate (hash_of tx1)), m').
Proof.
  refine (expired_transaction_stays_known ser 3 tx1 _ m2_late m2_late_wf eq_refl _).
  eexists. split; [|split].
  - apply list_elem_of_In. vm_compute. left. reflexivity.
  - vm_compute. reflexivity.
  - vm_compute. reflexivity.
Defined.

End MempoolDemo.
