(* ===== verification/Security.v ===== *)
(** * Security: admission control against floods and replays

    Models [crates/protocol/src/security.rs]: the per-address rate limiter,
    the bounded set of seen hashes, the mempool defense that combines them with
    a per-address quota, and the P2P message defense.

    Rust's [HashSet] iterates in an unspecified order; the order in which the
    replay protector evicts is the parameter [iter], any enumeration of the
    set. *)

From stdpp Require Import base gmap list strings.
From Stdlib Require Import ZArith Lia.
From S2P Require Import Prelude.

Local Open Scope Z_scope.

Inductive SecurityError : Type :=
| RateLimited
| ReplayDetected
| AddressSaturation
| MessageTooLarge (size max : Z)
| PeerRateLimited.

#[global] Instance SecurityError_eq_dec : EqDecision SecurityError.
Proof. solve_decision. Defined.

(** [u64] addition of release builds. *)
Definition wrapping_add_u64 (a b : Z) : Z := (a + b) mod (U64_MAX + 1).

(** ** Fixed windows

    Both limiters keep a request count and the start of the window. *)

Record RateLimiter : Type := mkRate {
  max_requests : Z;
  window_ms : Z;
  counters : gmap Z (Z * Z)
}.

Definition rate_new (max window : Z) : RateLimiter := mkRate max window ∅.

Definition allow (address current_time_ms : Z) (r : RateLimiter) : bool * RateLimiter :=
  let '(count, window_start) := default (0, current_time_ms) (counters r !! address) in
  let set e := mkRate (max_requests r) (window_ms r) (<[address := e]> (counters r)) in
  if wrapping_add_u64 window_start (window_ms r) <=? current_time_ms
  then (true, set (1, current_time_ms))
  else if count <? max_requests r then (true, set (count + 1, window_start))
  else (false, set (count, window_start)).

Definition rate_cleanup (current_time_ms : Z) (r : RateLimiter) : RateLimiter :=
  mkRate (max_requests r) (window_ms r)
    (filter (fun kv => current_time_ms < wrapping_add_u64 kv.2.2 (window_ms r)) (counters r)).

(** ** Replay protection *)

Record ReplayProtector : Type := mkReplay {
  seen_hashes : gset Z;
  max_seen : Z
}.

Definition replay_new (max : Z) : ReplayProtector := mkReplay ∅ max.

Section Replay.
(** The set's iteration order. *)
Variable iter : gset Z -> list Z.

Definition check_and_record (hash : Z) (p : ReplayProtector) : bool * ReplayProtector :=
  let first_seen := bool_decide (hash ∉ seen_hashes p) in
  let seen := {[hash]} ∪ seen_hashes p in
  if max_seen p <? Z.of_nat (size seen) then
    let to_remove := take (Z.to_nat (max_seen p / 4))
                       (List.filter (fun h => negb (h =? hash)) (iter seen)) in
    (first_seen, mkReplay (seen ∖ list_to_set to_remove) (max_seen p))
  else (first_seen, mkReplay seen (max_seen p)).

Definition remove_hash (hash : Z) (p : ReplayProtector) : ReplayProtector :=
  mkReplay (seen_hashes p ∖ {[hash]}) (max_seen p).

(** ** Mempool defense *)

Record MempoolDefense : Type := mkDefense {
  rate_limiter : RateLimiter;
  replay_protector : ReplayProtector;
  tx_counts : gmap Z Z;
  max_txs_per_address : Z
}.

Definition defense_new (rate_limit rate_window max_seen_hashes max_txs : Z) : MempoolDefense :=
  mkDefense (rate_new rate_limit rate_window) (replay_new max_seen_hashes) ∅ max_txs.

Definition validate_tx_submission (sender hash current_time_ms : Z) (d : MempoolDefense) :
    result SecurityError unit * MempoolDefense :=
  let '(ok, rl) := allow sender current_time_ms (rate_limiter d) in
  let d := mkDefense rl (replay_protector d) (tx_counts d) (max_txs_per_address d) in
  if negb ok then (Err RateLimited, d) else
  let '(first, rp) := check_and_record hash (replay_protector d) in
  let d := mkDefense (rate_limiter d) rp (tx_counts d) (max_txs_per_address d) in
  if negb first then (Err ReplayDetected, d) else
  let count := default 0 (tx_counts d !! sender) in
  let set c := mkDefense (rate_limiter d) (replay_protector d) (<[sender := c]> (tx_counts d))
                 (max_txs_per_address d) in
  if max_txs_per_address d <=? count then (Err AddressSaturation, set count)
  else (Ok tt, set (count + 1)).

Definition decrement (sender : Z) (counts : gmap Z Z) : gmap Z Z :=
  match counts !! sender with
  | Some c => <[sender := Z.max 0 (c - 1)]> counts
  | None => counts
  end.

Definition on_tx_confirmed (sender : Z) (d : MempoolDefense) : MempoolDefense :=
  mkDefense (rate_limiter d) (replay_protector d) (decrement sender (tx_counts d))
    (max_txs_per_address d).

Definition rollback_submission (sender hash : Z) (d : MempoolDefense) : MempoolDefense :=
  mkDefense (rate_limiter d) (remove_hash hash (replay_protector d))
    (decrement sender (tx_counts d)) (max_txs_per_address d).

Definition defense_cleanup (current_time_ms : Z) (d : MempoolDefense) : MempoolDefense :=
  mkDefense (rate_cleanup current_time_ms (rate_limiter d)) (replay_protector d) (tx_counts d)
    (max_txs_per_address d).

End Replay.

(** ** P2P defense *)

Record P2PDefense : Type := mkP2P {
  peer_rates : gmap string (Z * Z);
  max_msgs_per_window : Z;
  p2p_window_ms : Z;
  max_message_size : Z
}.

Definition p2p_new (max_msgs window max_size : Z) : P2PDefense := mkP2P ∅ max_msgs window max_size.

Definition validate_message (peer_id : string) (message_size current_time_ms : Z) (d : P2PDefense) :
    result SecurityError unit * P2PDefense :=
  if max_message_size d <? message_size
  then (Err (MessageTooLarge message_size (max_message_size d)), d) else
  let '(count, window_start) := default (0, current_time_ms) (peer_rates d !! peer_id) in
  let set e := mkP2P (<[peer_id := e]> (peer_rates d)) (max_msgs_per_window d) (p2p_window_ms d)
                 (max_message_size d) in
  if wrapping_add_u64 window_start (p2p_window_ms d) <=? current_time_ms
  then (Ok tt, set (1, current_time_ms))
  else if max_msgs_per_window d <=? count then (Err PeerRateLimited, set (count, window_start))
  else (Ok tt, set (count + 1, window_start)).

Definition p2p_cleanup (current_time_ms : Z) (d : P2PDefense) : P2PDefense :=
  mkP2P (filter (fun kv => current_time_ms < wrapping_add_u64 kv.2.2 (p2p_window_ms d))
           (peer_rates d))
    (max_msgs_per_window d) (p2p_window_ms d) (max_message_size d).

(** ** Correctness of the rate limiter *)

(** The answers to a sequence of requests of one address. *)
Fixpoint allow_all (address : Z) (times : list Z) (r : RateLimiter) : list bool * RateLimiter :=
  match times with
  | [] => ([], r)
  | t :: rest =>
      let '(b, r1) := allow address t r in
      let '(bs, r2) := allow_all address rest r1 in
      (b :: bs, r2)
  end.

Definition allowed (bs : list bool) : Z := Z.of_nat (length (List.filter (fun b => b) bs)).

Lemma allow_in_window a t r c ws :
  counters r !! a = Some (c, ws) -> t < wrapping_add_u64 ws (window_ms r) ->
  exists c', allow a t r = (c <? max_requests r,
    mkRate (max_requests r) (window_ms r) (<[a := (c', ws)]> (counters r))) /\
    c' = if c <? max_requests r then c + 1 else c.
Proof.
  intros E Ht. unfold allow. rewrite E. cbn.
  destruct (Z.leb_spec (wrapping_add_u64 ws (window_ms r)) t); [lia|].
  destruct (c <? max_requests r); eauto.
Qed.

Lemma allow_all_in_window a times : forall r c ws,
  counters r !! a = Some (c, ws) -> c <= max_requests r ->
  Forall (fun t => t < wrapping_add_u64 ws (window_ms r)) times ->
  allowed (allow_all a times r).1 = Z.min (Z.of_nat (length times)) (max_requests r - c).
Proof.
  induction times as [|t times IH]; intros r c ws E Hc Ht; cbn [allow_all].
  - unfold allowed. cbn. lia.
  - apply Forall_cons in Ht as [Ht Hts].
    destruct (allow_in_window a t r c ws E Ht) as (c' & -> & Ec).
    set (r1 := mkRate _ _ _). specialize (IH r1 c' ws).
    destruct (allow_all a times r1) as [bs r2]. cbn [fst] in *.
    assert (E1 : counters r1 !! a = Some (c', ws)) by (cbn; by rewrite lookup_insert_eq).
    assert (Hc' : c' <= max_requests r1) by (cbn; subst; destruct (Z.ltb_spec c (max_requests r)); lia).
    specialize (IH E1 Hc' Hts). cbn in IH. unfold allowed in *. cbn [List.filter].
    destruct (Z.ltb_spec c (max_requests r)); cbn [length]; subst c'; lia.
Qed.

(** ** The replay set *)

Section ReplaySpec.
Context (iter : gset Z -> list Z) (iter_perm : forall s, iter s ≡ₚ elements s).

Lemma check_and_record_answer h p :
  (check_and_record iter h p).1 = bool_decide (h ∉ seen_hashes p).
Proof. unfold check_and_record. by destruct (_ <? _). Qed.

Lemma check_and_record_max h p : max_seen (check_and_record iter h p).2 = max_seen p.
Proof. unfold check_and_record. by destruct (_ <? _). Qed.

(** The hashes chosen for eviction. *)
Definition victims (h : Z) (seen : gset Z) (n : nat) : list Z :=
  take n (List.filter (fun h' => negb (h' =? h)) (iter seen)).

Lemma victims_spec h seen n :
  h ∉ victims h seen n /\ NoDup (victims h seen n) /\
  (forall x, x ∈ victims h seen n -> x ∈ seen) /\
  length (victims h seen n) = Nat.min n (size (seen ∖ {[h]})).
Proof.
  set (l := List.filter (fun h' => negb (h' =? h)) (iter seen)).
  assert (El : forall x, x ∈ l <-> x ∈ seen /\ x <> h).
  { intros x. unfold l. rewrite list_elem_of_In, filter_In, <- list_elem_of_In, iter_perm,
      elem_of_elements. destruct (Z.eqb_spec x h); cbn; intuition congruence. }
  assert (Nl : NoDup l).
  { unfold l. apply NoDup_ListNoDup, List.NoDup_filter, NoDup_ListNoDup. rewrite iter_perm.
    apply NoDup_elements. }
  assert (Ll : length l = size (seen ∖ {[h]})).
  { rewrite <- (size_list_to_set (C := gset Z) l Nl). f_equal. set_solver. }
  unfold victims. fold l. split_and!.
  - intros Hin%elem_of_take. destruct Hin as (i & Hi & _).
    apply list_elem_of_lookup_2, El in Hi as [_ ?]. done.
  - eapply sublist_NoDup; [done | apply sublist_take].
  - intros x (i & Hi & _)%elem_of_take. by apply list_elem_of_lookup_2, El in Hi as [? _].
  - rewrite length_take. lia.
Qed.

Lemma check_and_record_seen h p :
  h ∈ seen_hashes (check_and_record iter h p).2 /\
  seen_hashes (check_and_record iter h p).2 ⊆ {[h]} ∪ seen_hashes p.
Proof.
  unfold check_and_record. destruct (_ <? _); cbn; [|set_solver].
  destruct (victims_spec h ({[h]} ∪ seen_hashes p) (Z.to_nat (max_seen p / 4))) as (Hv & _).
  fold (victims h ({[h]} ∪ seen_hashes p) (Z.to_nat (max_seen p / 4))).
  rewrite elem_of_difference, elem_of_list_to_set. set_solver.
Qed.

(** Below capacity nothing is evicted. *)
Lemma check_and_record_room h p :
  Z.of_nat (size ({[h]} ∪ seen_hashes p)) <= max_seen p ->
  seen_hashes (check_and_record iter h p).2 = {[h]} ∪ seen_hashes p.
Proof. intros Hs. unfold check_and_record. destruct (Z.ltb_spec (max_seen p)
  (Z.of_nat (size ({[h]} ∪ seen_hashes p)))); [lia | done]. Qed.

Lemma size_insert_le h (s : gset Z) : (size ({[h]} ∪ s) <= size s + 1)%nat.
Proof. rewrite size_union_alt, size_singleton.
  pose proof (subseteq_size (s ∖ {[h]}) s ltac:(set_solver)). lia. Qed.

Lemma check_and_record_size h p :
  4 <= max_seen p -> Z.of_nat (size (seen_hashes p)) <= max_seen p ->
  Z.of_nat (size (seen_hashes (check_and_record iter h p).2)) <= max_seen p.
Proof.
  intros H4 Hs. unfold check_and_record. set (seen := {[h]} ∪ seen_hashes p).
  pose proof (size_insert_le h (seen_hashes p)) as Hi. fold seen in Hi.
  destruct (Z.ltb_spec (max_seen p) (Z.of_nat (size seen))); cbn; [|done].
  set (n := Z.to_nat (max_seen p / 4)). fold (victims h seen n).
  destruct (victims_spec h seen n) as (_ & Hn & Hsub & Hl).
  assert (Hh : size (seen ∖ {[h]}) = (size seen - 1)%nat).
  { rewrite size_difference by (unfold seen; set_solver). by rewrite size_singleton. }
  rewrite size_difference, size_list_to_set by (done || (intros x; rewrite elem_of_list_to_set; apply Hsub)).
  assert (1 <= max_seen p / 4) by (apply Z.div_le_lower_bound; lia). lia.
Qed.

(** The answers to a sequence of submissions. *)
Fixpoint record_all (hs : list Z) (p : ReplayProtector) : list bool * ReplayProtector :=
  match hs with
  | [] => ([], p)
  | h :: rest =>
      let '(b, p1) := check_and_record iter h p in
      let '(bs, p2) := record_all rest p1 in
      (b :: bs, p2)
  end.

(** Reference: the first occurrence of every hash is accepted. *)
Fixpoint first_occurrences (seen : gset Z) (hs : list Z) : list bool :=
  match hs with
  | [] => []
  | h :: rest => bool_decide (h ∉ seen) :: first_occurrences ({[h]} ∪ seen) rest
  end.

Lemma record_all_spec hs : forall p,
  Z.of_nat (size (seen_hashes p ∪ list_to_set hs)) <= max_seen p ->
  (record_all hs p).1 = first_occurrences (seen_hashes p) hs.
Proof using Type.
  clear iter_perm. induction hs as [|h hs IH]; intros p Hs; [done|]. cbn [record_all first_occurrences].
  pose proof (check_and_record_answer h p) as Ha. pose proof (check_and_record_max h p) as Hm.
  assert (Hseen : seen_hashes (check_and_record iter h p).2 = {[h]} ∪ seen_hashes p).
  { apply check_and_record_room. etransitivity; [|exact Hs]. apply inj_le, subseteq_size. set_solver. }
  destruct (check_and_record iter h p) as [b p1]; cbn [fst snd] in *.
  specialize (IH p1). rewrite Hseen, Hm in IH.
  destruct (record_all hs p1) as [bs p2]; cbn [fst] in *. rewrite Ha, IH; [done|].
  etransitivity; [|exact Hs]. apply inj_le, subseteq_size. set_solver.
Qed.

(** ** The defense *)

Record defense_wf (d : MempoolDefense) : Prop := {
  dwf_seen : Z.of_nat (size (seen_hashes (replay_protector d))) <= max_seen (replay_protector d);
  dwf_max_seen : 4 <= max_seen (replay_protector d);
  dwf_counts : forall a c, tx_counts d !! a = Some c -> 0 <= c <= max_txs_per_address d;
  dwf_quota : 0 <= max_txs_per_address d
}.

(** Everything the node does with the defense. *)
Inductive defense_step : MempoolDefense -> MempoolDefense -> Prop :=
| ds_validate sender h t d : defense_step d (validate_tx_submission iter sender h t d).2
| ds_confirmed sender d : defense_step d (on_tx_confirmed sender d)
| ds_rollback sender h d : defense_step d (rollback_submission sender h d)
| ds_cleanup t d : defense_step d (defense_cleanup t d).

Lemma decrement_bounds a c max counts sender :
  (forall a c, counts !! a = Some c -> 0 <= c <= max) ->
  decrement sender counts !! a = Some c -> 0 <= c <= max.
Proof.
  intros Hc. unfold decrement. destruct (counts !! sender) as [c0|] eqn:E; [|apply Hc].
  intros [[<- <-]|[? Ha]]%lookup_insert_Some; [|by eapply Hc].
  specialize (Hc _ _ E). lia.
Qed.

Lemma validate_wf sender h t d :
  defense_wf d -> defense_wf (validate_tx_submission iter sender h t d).2.
Proof.
  intros [W1 W2 W3 W4]. unfold validate_tx_submission.
  destruct (allow sender t (rate_limiter d)) as [[] rl]; cbn; [|by split].
  pose proof (check_and_record_size h (replay_protector d) W2 W1) as Hs.
  pose proof (check_and_record_max h (replay_protector d)) as Hm.
  destruct (check_and_record iter h (replay_protector d)) as [[] rp]; cbn in *;
    [|split; cbn; (lia || done)].
  pose proof (fun c => W3 sender c) as W3s.
  destruct (Z.leb_spec (max_txs_per_address d) (default 0 (tx_counts d !! sender))); cbn;
    (split; cbn; [lia|lia| |done]); intros a c [[<- <-]|[? Ha]]%lookup_insert_Some;
    try (by eapply W3); destruct (tx_counts d !! sender) as [c0|] eqn:E; cbn in *;
    try (specialize (W3s _ eq_refl)); lia.
Qed.

Lemma defense_step_wf d d' : defense_step d d' -> defense_wf d -> defense_wf d'.
Proof.
  destruct 1; intros W; [by apply validate_wf|..]; destruct W as [W1 W2 W3 W4].
  - split; cbn; try done. intros. by eapply decrement_bounds.
  - split; cbn; try done.
    + pose proof (subseteq_size (seen_hashes (replay_protector d) ∖ {[h]})
        (seen_hashes (replay_protector d)) ltac:(set_solver)). lia.
    + intros. by eapply decrement_bounds.
  - by split.
Qed.

(** What a submission leaves in the replay set. *)
Lemma validate_saturated sender h t d d' :
  validate_tx_submission iter sender h t d = (Err AddressSaturation, d') ->
  h ∈ seen_hashes (replay_protector d').
Proof.
  unfold validate_tx_submission. destruct (allow sender t (rate_limiter d)) as [[] rl]; cbn; [|done].
  pose proof (check_and_record_seen h (replay_protector d)) as [Hs _].
  destruct (check_and_record iter h (replay_protector d)) as [[] rp]; cbn in *; [|done].
  destruct (_ <=? _); [|done]. intros [= <-]. done.
Qed.

Lemma validate_seen sender h t d :
  h ∈ seen_hashes (replay_protector d) ->
  (validate_tx_submission iter sender h t d).1 = Err RateLimited \/
  (validate_tx_submission iter sender h t d).1 = Err ReplayDetected.
Proof.
  intros Hs. unfold validate_tx_submission.
  destruct (allow sender t (rate_limiter d)) as [[] rl]; cbn; [|by left].
  pose proof (check_and_record_answer h (replay_protector d)) as Ha.
  destruct (check_and_record iter h (replay_protector d)) as [b rp]; cbn in *.
  rewrite bool_decide_eq_false_2 in Ha by set_solver. subst b. by right.
Qed.

End ReplaySpec.

(** ** Properties *)

(** The rate limiter grants exactly its budget per window: of the requests
    a new address makes before its window ends, the first [max_requests] are
    allowed and the rest refused. *)
Theorem rate_limiter_budget a t0 times r :
  counters r !! a = None -> 0 <= t0 -> 0 <= window_ms r -> t0 + window_ms r <= U64_MAX ->
  0 <= max_requests r ->
  Forall (fun t => t < t0 + window_ms r) (t0 :: times) ->
  allowed (allow_all a (t0 :: times) r).1 =
    Z.min (Z.of_nat (length (t0 :: times))) (max_requests r).
Proof.
  intros E H0 Hw Hov Hm [Ht0 Hts]%Forall_cons. cbn [allow_all].
  assert (Ew : wrapping_add_u64 t0 (window_ms r) = t0 + window_ms r)
    by (unfold wrapping_add_u64; apply Z.mod_small; lia).
  assert (Ea : allow a t0 r = (0 <? max_requests r, mkRate (max_requests r) (window_ms r)
    (<[a := (if 0 <? max_requests r then 1 else 0, t0)]> (counters r)))).
  { unfold allow. rewrite E. cbn. rewrite Ew.
    destruct (Z.leb_spec (t0 + window_ms r) t0); [lia|]. by destruct (0 <? max_requests r). }
  rewrite Ea. set (r1 := mkRate _ _ _).
  pose proof (allow_all_in_window a times r1 (if 0 <? max_requests r then 1 else 0) t0) as P.
  destruct (allow_all a times r1) as [bs r2]. cbn [fst] in *.
  specialize (P ltac:(apply lookup_insert_eq)). cbn in P. rewrite Ew in P.
  unfold allowed in *. cbn [List.filter].
  destruct (Z.ltb_spec 0 (max_requests r)); cbn [length];
    specialize (P ltac:(lia) Hts); lia.
Qed.

Section Properties.
Context (iter : gset Z -> list Z).

(** Replays are detected.  While the distinct hashes fit the protector's
    capacity, a sequence of submissions is answered as the reference says:
    the first occurrence of a hash is accepted and every later one refused. *)
Theorem replays_detected hs p :
  Z.of_nat (size (seen_hashes p ∪ list_to_set hs)) <= max_seen p ->
  (record_all iter hs p).1 = first_occurrences (seen_hashes p) hs.
Proof. apply record_all_spec. Qed.

(** Memory stays bounded.  From a fresh defense, whatever is submitted,
    confirmed, rolled back or cleaned up, the replay set never exceeds its
    capacity and no address exceeds its quota of pending transactions,
    whatever order the set iterates in. *)
Theorem defense_stays_bounded rate window cap quota d :
  (forall s, iter s ≡ₚ elements s) -> 4 <= cap -> 0 <= quota ->
  rtc (defense_step iter) (defense_new rate window cap quota) d -> defense_wf d.
Proof.
  intros Hi Hc Hq R.
  assert (W : defense_wf (defense_new rate window cap quota)).
  { split; cbn; try lia; try done. rewrite size_empty. lia. }
  induction R as [|d1 d2 d3 S _ IH]; [done|]. apply IH. by eapply defense_step_wf.
Qed.

(** A transaction refused for saturation is burned.  The replay set
    records its hash before the quota is checked, so submitting the same
    transaction again, even after a confirmation freed the quota, is refused
    as a replay (or rate limited). *)
Theorem saturated_submission_is_burned sender h t t' d d' :
  (forall s, iter s ≡ₚ elements s) ->
  validate_tx_submission iter sender h t d = (Err AddressSaturation, d') ->
  let r := (validate_tx_submission iter sender h t' (on_tx_confirmed sender d')).1 in
  r = Err RateLimited \/ r = Err ReplayDetected.
Proof.
  intros Hi E. pose proof (validate_saturated iter Hi sender h t d d' E) as Hs.
  by apply validate_seen.
Qed.

End Properties.

(** ** The properties at concrete inputs *)

Module SecurityDemo.

Definition enum : gset Z -> list Z := elements.

Lemma rate_limiter_budget_witness :
  allowed (allow_all 7 [100; 101; 102] (rate_new 2 1000)).1 = 2.
Proof.
  refine (rate_limiter_budget 7 100 [101; 102] (rate_new 2 1000) _ _ _ _ _ _);
    first [reflexivity | cbn; lia | vm_compute; discriminate | repeat constructor; reflexivity].
Defined.

Lemma replays_detected_witness :
  (record_all enum [5; 6; 5] (replay_new 10)).1 = [true; true; false].
Proof.
  refine (replays_detected enum [5; 6; 5] (replay_new 10) _).
  vm_compute. discriminate.
Defined.

Lemma defense_stays_bounded_witness :
  defense_wf (validate_tx_submission enum 7 5 100 (defense_new 10 1000 100 5)).2.
Proof.
  refine (defense_stays_bounded enum 10 1000 100 5 _ _ _ _ _).
  - intros s. reflexivity.
  - lia.
  - lia.
  - apply rtc_once, ds_validate.
Defined.

(** A quota of one, spent by the first transaction. *)
Definition full : MempoolDefense :=
  (validate_tx_submission enum 7 5 100 (defense_new 10 1000 100 1)).2.

Lemma saturated_submission_is_burned_witness :
  let r := (validate_tx_submission enum 7 6 102
              (on_tx_confirmed 7 (validate_tx_submission enum 7 6 101 full).2)).1 in
  r = Err RateLimited \/ r = Err ReplayDetected.
Proof.
  refine (saturated_submission_is_burned enum 7 6 101 102 full _ _ _).
  - intros s. reflexivity.
  - vm_compute. reflexivity.
Defined.

End SecurityDemo.
