(* ===== verification/Compliance.v ===== *)
(** * Compliance: the compliance registry at 0x205

    Models [ComplianceStorage] of [crates/compliance/src/lib.rs] and the
    precompile of [crates/compliance/src/precompile.rs], including the selector
    dispatch.  The generated ABI codecs and selectors are the class
    [ComplianceAbi]. *)

From stdpp Require Import base gmap list strings.
From Stdlib Require Import ZArith Lia.
From S2P Require Import Prelude Provider World EvmProvider Refinement Dispatch Utils.
From S2P Require Import Asset AssetSpec AssetPrecompile AssetPrecompileSpec SimpleJournal.
From S2P Require Import ProviderProps.

Local Open Scope Z_scope.
Local Open Scope callnode_scope.

Inductive ComplianceError : Type := NotGovernance | InvalidStatus.

Definition compliance_error_to_string (e : ComplianceError) : string :=
  match e with
  | NotGovernance => "not governance"
  | InvalidStatus => "invalid compliance status value"
  end.

Section Storage.
Context `{Keccak}.

Definition slot_compliance_admin : Z := storage_slot [b_ "admin"].

Definition read_status (addr : Z) : prog Z :=
  v <- load COMPLIANCE_ADDRESS (slot_compliance addr);
  Ret (u256_to_u8 v).

Definition read_admin : prog Z :=
  v <- load COMPLIANCE_ADDRESS slot_compliance_admin;
  Ret (u256_to_address v).

Definition store_check_compliance (target : Z) : prog bool :=
  status <- read_status target;
  Ret (status =? 0).

Definition update_compliance (target status_u8 caller : Z) : prog (result ComplianceError unit) :=
  if negb (caller =? GOVERNANCE_ADDRESS) then Ret (Err NotGovernance) else
  do store COMPLIANCE_ADDRESS (slot_compliance target) (u8_to_u256 status_u8);
  Ret (Ok tt).

Definition set_admin (new_admin caller : Z) : prog (result ComplianceError unit) :=
  current_admin <- read_admin;
  let expected := if current_admin =? 0 then GOVERNANCE_ADDRESS else current_admin in
  if negb (caller =? expected) then Ret (Err NotGovernance) else
  do store COMPLIANCE_ADDRESS slot_compliance_admin (address_to_u256 new_admin);
  Ret (Ok tt).

End Storage.

(** ** Precompile *)

Record updateComplianceCall := { uc_target : Z; uc_status : Z }.
Record checkComplianceCall := { cc_target : Z }.
Record setComplianceAdminCall := { sa_newAdmin : Z }.

Class ComplianceAbi : Type := {
  dec_updateCompliance : list Z -> result string updateComplianceCall;
  dec_checkCompliance : list Z -> result string checkComplianceCall;
  dec_setComplianceAdmin : list Z -> result string setComplianceAdminCall;
  enc_bool : bool -> list Z;
  sel_updateCompliance : list Z;
  sel_checkCompliance : list Z;
  sel_setComplianceAdmin : list Z
}.

Section Precompile.
Context `{Keccak, ComplianceAbi} {S : Type} `{!StorageProvider S}.

Definition compliance {A} (p : prog (result ComplianceError A)) : prog (res A) :=
  prog_map_err (fun e => Other (compliance_error_to_string e)) p.

Definition update_compliance_handler (msg_sender : Z) (call : updateComplianceCall) :
    prog (res unit) :=
  caller <-? Ret (require_caller msg_sender);
  do? compliance (update_compliance (uc_target call) (uc_status call) caller);
  Ret (Ok tt).

Definition check_compliance_handler (call : checkComplianceCall) : prog (res bool) :=
  b <- store_check_compliance (cc_target call);
  Ret (Ok b).

Definition set_compliance_admin_handler (msg_sender : Z) (call : setComplianceAdminCall) :
    prog (res unit) :=
  caller <-? Ret (require_caller msg_sender);
  do? compliance (set_admin (sa_newAdmin call) caller);
  Ret (Ok tt).

Definition precompile_update_compliance (calldata : list Z) (msg_sender : Z) (s : S) :=
  mutate_void dec_updateCompliance calldata 6000 (update_compliance_handler msg_sender) s.
Definition precompile_check_compliance (calldata : list Z) (s : S) :=
  view dec_checkCompliance enc_bool calldata 1000 check_compliance_handler s.
Definition precompile_set_compliance_admin (calldata : list Z) (msg_sender : Z) (s : S) :=
  mutate_void dec_setComplianceAdmin calldata 4000 (set_compliance_admin_handler msg_sender) s.

(** [StatefulPrecompile::call]: dispatch on the selector. *)
Definition compliance_call (calldata : list Z) (msg_sender : Z) (s : S) :
    res PrecompileOutput * S :=
  if (length calldata <? 4)%nat then (Err (Other "invalid input"), s) else
  let selector := take 4 calldata in
  if bool_decide (selector = sel_updateCompliance)
  then precompile_update_compliance calldata msg_sender s
  else if bool_decide (selector = sel_checkCompliance)
  then precompile_check_compliance calldata s
  else if bool_decide (selector = sel_setComplianceAdmin)
  then precompile_set_compliance_admin calldata msg_sender s
  else (Err (Other "unknown selector"), s).

End Precompile.

(** ** Correctness *)

Section Spec.
Context `{Keccak, ComplianceAbi}.
Context {J : Type} `{HJ : JournalTr J} `{HL : !JournalLaws J}.
Implicit Types (s : EvmStorageProvider J) (w : world).

Lemma guarded_update_handler m c : guarded true (update_compliance_handler m c).
Proof. unfold update_compliance_handler, compliance, update_compliance. guard_prog. Qed.

Lemma guarded_set_admin_handler m c : guarded true (set_compliance_admin_handler m c).
Proof. unfold set_compliance_admin_handler, compliance, set_admin, read_admin. guard_prog. Qed.

Lemma readonly_check_handler c : readonly (check_compliance_handler c).
Proof. unfold check_compliance_handler, store_check_compliance, read_status. readonly_prog. Qed.

Lemma update_handler_ok m c w w' :
  run (update_compliance_handler m c) w = (Ok tt, w') ->
  m = GOVERNANCE_ADDRESS /\
  w' = w_upd (put_slot COMPLIANCE_ADDRESS (slot_compliance (uc_target c))
                (u8_to_u256 (uc_status c))) w.
Proof.
  unfold update_compliance_handler. intros E.
  apply run_try_ok in E as (a & w1 & E1 & E). apply run_require_caller in E1 as (-> & _ & ->).
  apply run_try_ok in E as ([] & w2 & E2 & E). apply run_map_err_ok in E2.
  unfold update_compliance in E2. destruct (Z.eqb_spec m GOVERNANCE_ADDRESS) as [->|]; [|done].
  cbn [negb] in E2. rewrite run_bind, w_run_store in E2. injection E2 as <-. injection E as <-. done.
Qed.

Lemma set_admin_handler_ok m c w w' :
  run (set_compliance_admin_handler m c) w = (Ok tt, w') ->
  exists v, w' = w_upd (put_slot COMPLIANCE_ADDRESS slot_compliance_admin v) w.
Proof.
  unfold set_compliance_admin_handler. intros E.
  apply run_try_ok in E as (a & w1 & E1 & E). apply run_require_caller in E1 as (-> & _ & ->).
  apply run_try_ok in E as ([] & w2 & E2 & E). apply run_map_err_ok in E2.
  unfold set_admin, read_admin in E2. rewrite !run_bind in E2. cbv beta iota zeta in E2.
  rewrite w_run_load in E2. cbn [run] in E2.
  destruct (negb _); [done|]. rewrite run_bind, w_run_store in E2.
  injection E2 as <-. injection E as <-. eauto.
Qed.

Lemma u8_word_roundtrip v : 0 <= v <= U8_MAX -> u256_to_u8 (u8_to_u256 v) = v.
Proof.
  intros Hv. unfold u8_to_u256, U8_MAX in *. rewrite u256_to_u8_mod, from_be_zeros.
  cbn [from_be length]. rewrite Z.mul_1_r, Z.add_0_r. apply Z.mod_small. lia.
Qed.

(** ** Properties *)

(** Only governance restricts accounts.  No call to the compliance
    precompile by anyone but the governance precompile, the configured
    compliance admin included, changes the status of any account. *)
Theorem only_governance_changes_status calldata m s target :
  m <> GOVERNANCE_ADDRESS -> slot_compliance target <> slot_compliance_admin ->
  slot (vw (compliance_call calldata m s).2) COMPLIANCE_ADDRESS (slot_compliance target) =
  slot (vw s) COMPLIANCE_ADDRESS (slot_compliance target).
Proof.
  intros Hm Hne. unfold compliance_call. destruct (_ <? _)%nat; [done|].
  repeat case_bool_decide; [| | |done].
  - destruct (mutate_void_effect dec_updateCompliance 6000 (update_compliance_handler m) calldata s
      ltac:(done) (fun c _ => guarded_update_handler m c)) as [E|(_ & c & w' & _ & E & _)].
    + by apply same_accounts_slot.
    + by apply update_handler_ok in E as [? _].
  - unfold precompile_check_compliance. rewrite view_readonly; [done|]. apply readonly_check_handler.
  - destruct (mutate_void_effect dec_setComplianceAdmin 4000 (set_compliance_admin_handler m)
      calldata s ltac:(done) (fun c _ => guarded_set_admin_handler m c)) as [E|(_ & c & w' & _ & E & Ev)].
    + by apply same_accounts_slot.
    + apply set_admin_handler_ok in E as (v & ->). unfold precompile_set_compliance_admin.
      rewrite Ev. cbn. apply slot_put_ne. congruence.
Qed.

(** A status set by governance takes effect: after a successful
    [updateCompliance] outside a static call, the target is compliant for
    every precompile exactly when the status is zero, and no other account's
    status changed. *)
Theorem status_update_takes_effect calldata m s c :
  e_is_static (evm_env s) = false ->
  dec_updateCompliance calldata = Ok c -> 0 <= uc_status c <= U8_MAX ->
  let x := precompile_update_compliance calldata m s in
  is_ok x.1 = true ->
  (compliant (vw x.2) (uc_target c) <-> uc_status c = 0) /\
  (forall a, slot_compliance a <> slot_compliance (uc_target c) ->
     compliant (vw x.2) a <-> compliant (vw s) a).
Proof.
  intros Hst Ed Hc x Hok. unfold x, precompile_update_compliance, mutate_void in *.
  destruct (mutate_outcome dec_updateCompliance (fun _ : unit => []) (update_compliance_handler m)
    calldata 6000 s (guarded_update_handler m) Hst ltac:(done)) as [_ O].
  destruct (mutate dec_updateCompliance _ calldata 6000 _ s) as [[o|e'] s']; [|done].
  cbn [fst snd] in *. destruct O as (c' & [] & Ed' & Er & Ev & _).
  rewrite Ed in Ed'. injection Ed' as <-.
  destruct (run (update_compliance_handler m c) (abs s)) as [r w'] eqn:E; cbn [fst snd] in *.
  subst r. apply update_handler_ok in E as [_ ->]. rewrite Ev. unfold compliant. cbn. split.
  - rewrite slot_put_same, u8_word_roundtrip by done. done.
  - intros a Ha. rewrite slot_put_ne by congruence. done.
Qed.

End Spec.

(** ** The properties at concrete inputs *)

Module ComplianceDemo.
Import Demo.

#[global] Instance compliance_abi : ComplianceAbi := {|
  dec_updateCompliance := fun d => need (
    t ← decode_address d 4; v ← decode_u8 d 36; Some {| uc_target := t; uc_status := v |});
  dec_checkCompliance := fun d => need (t ← decode_address d 4; Some {| cc_target := t |});
  dec_setComplianceAdmin := fun d => need (t ← decode_address d 4; Some {| sa_newAdmin := t |});
  enc_bool := encode_bool;
  sel_updateCompliance := [1; 1; 1; 1];
  sel_checkCompliance := [2; 2; 2; 2];
  sel_setComplianceAdmin := [3; 3; 3; 3]
|}.

(** [updateCompliance(bob, 1)]. *)
Definition restrict_bob : list Z :=
  [1; 1; 1; 1] ++ (replicate 12 0 ++ addr_bytes bob) ++ encode_u8 1.

(** [alice] is the compliance admin. *)
Definition w_admin : wstate := put_slot COMPLIANCE_ADDRESS slot_compliance_admin alice bank.

(** The admin's attempt fails and changes nothing. *)
Lemma only_governance_changes_status_witness :
  let x := compliance_call restrict_bob alice (provider w_admin 100000 false) in
  x.1 = Err (Other "not governance") /\
  slot (vw x.2) COMPLIANCE_ADDRESS (slot_compliance bob) =
  slot w_admin COMPLIANCE_ADDRESS (slot_compliance bob).
Proof.
  split; [vm_compute; reflexivity|].
  refine (only_governance_changes_status restrict_bob alice (provider w_admin 100000 false) bob _ _);
    vm_compute; discriminate.
Defined.

Lemma status_update_takes_effect_witness :
  let x := precompile_update_compliance restrict_bob GOVERNANCE_ADDRESS
             (provider bank 100000 false) in
  (compliant (vw x.2) bob <-> 1 = 0) /\
  (forall a, slot_compliance a <> slot_compliance bob ->
     compliant (vw x.2) a <-> compliant bank a).
Proof.
  refine (status_update_takes_effect restrict_bob GOVERNANCE_ADDRESS (provider bank 100000 false)
    {| uc_target := bob; uc_status := 1 |} _ _ _ _).
  - reflexivity.
  - vm_compute. reflexivity.
  - vm_compute. split; discriminate.
  - vm_compute. reflexivity.
Defined.

End ComplianceDemo.
