(* ===== verification/Validator.v ===== *)
(** * Validator: staking

    Models [ValidatorStorage] of [crates/validator/src/lib.rs] (staking,
    unbonding queue, claims, slashing) over the asset ledger of [Asset], and
    the precompile of [crates/validator/src/precompile.rs] at 0x204.  The
    generated ABI codecs are the class [ValidatorAbi]. *)

From stdpp Require Import base gmap list strings.
From Stdlib Require Import ZArith Lia.
From S2P Require Import Prelude Provider World EvmProvider Refinement Dispatch Utils.
From S2P Require Import Asset AssetSpec.

Local Open Scope Z_scope.
Local Open Scope callnode_scope.

Inductive ValidatorError : Type :=
| VInsufficientBalance
| VBalanceOverflow
| EscrowOverflow
| EscrowUnderflow
| BelowMinimumStake
| AlreadyStaked
| NotAValidator
| IdMismatch
| AlreadyUnbonding
| NotUnbonding
| UnbondingPeriodNotElapsed
| NoUnbondingRequest
| BelowSafetyFloor
| InvalidPubkey
| ValidatorCountOverflow.

#[global] Instance ValidatorError_eq_dec : EqDecision ValidatorError.
Proof. solve_decision. Defined.

Definition validator_error_to_string (e : ValidatorError) : string :=
  match e with
  | VInsufficientBalance => "insufficient balance"
  | VBalanceOverflow => "balance overflow"
  | EscrowOverflow => "escrow overflow"
  | EscrowUnderflow => "escrow underflow"
  | BelowMinimumStake => "below minimum self-stake"
  | AlreadyStaked => "already staked"
  | NotAValidator => "not a validator"
  | IdMismatch => "validator id mismatch"
  | AlreadyUnbonding => "already unbonding"
  | NotUnbonding => "not unbonding"
  | UnbondingPeriodNotElapsed => "unbonding period not elapsed"
  | NoUnbondingRequest => "no unbonding request found"
  | BelowSafetyFloor => "below safety floor"
  | InvalidPubkey => "invalid pubkey"
  | ValidatorCountOverflow => "validator count overflow"
  end.

Abbreviation vres A := (result ValidatorError A).

Definition MIN_SELF_STAKE : Z := 1000000.
Definition UNBONDING_PERIOD_BLOCKS : Z := 120960.
Definition STAKING_ESCROW : Z := 0xACE.

Section Validator.
Context `{Keccak}.

(** ** Storage slots *)

(** [U256] addition wraps. *)
Definition u256_add (a b : Z) : Z := (a + b) mod (U256_MAX + 1).

Definition slot_validator_count : Z := 0.
Definition slot_validator_addr (index : Z) : Z := u256_add (storage_slot [b_ "validators"]) index.
Definition slot_validator_stake (addr : Z) : Z := storage_slot [addr_bytes addr; b_ "stake"].
Definition slot_validator_pubkey (addr : Z) : Z := storage_slot [addr_bytes addr; b_ "pubkey"].
Definition slot_validator_status (addr : Z) : Z := storage_slot [addr_bytes addr; b_ "status"].
Definition slot_validator_unbond_height (addr : Z) : Z :=
  storage_slot [addr_bytes addr; b_ "unbond_at"].
Definition slot_unbonding_count : Z := 1.
Definition slot_unbonding (index : Z) : Z := u256_add (storage_slot [b_ "unbonding"]) index.
Definition slot_active_validator_count : Z := 2.
Definition slot_safety_floor : Z := 3.
Definition slot_unbonding_period_blocks : Z := 4.

Definition vload (k : Z) : prog Z := load VALIDATOR_ADDRESS k.
Definition vstore (k v : Z) : prog unit := store VALIDATOR_ADDRESS k v.

(** ** Reads *)

Definition read_validator_count : prog Z :=
  v <- vload slot_validator_count; Ret (u256_to_u64 v).
Definition read_validator_id (addr : Z) : prog Z :=
  v <- vload (slot_validator_by_addr addr); Ret (u256_to_u64 v).
Definition read_validator_by_index (index : Z) : prog Z :=
  v <- vload (slot_validator_addr index); Ret (u256_to_address v).
Definition read_stake (addr : Z) : prog Z :=
  v <- vload (slot_validator_stake addr); Ret (u256_to_u128 v).
Definition read_val_status (addr : Z) : prog Z :=
  v <- vload (slot_validator_status addr); Ret (u256_to_u8 v).
Definition read_pubkey (addr : Z) : prog (list Z) :=
  v <- vload (slot_validator_pubkey addr); Ret (be_bytes 32 v).
Definition read_unbond_height (addr : Z) : prog Z :=
  v <- vload (slot_validator_unbond_height addr); Ret (u256_to_u64 v).
Definition read_unbonding_count : prog Z :=
  v <- vload slot_unbonding_count; Ret (u256_to_u64 v).
Definition read_active_validator_count : prog Z :=
  v <- vload slot_active_validator_count; Ret (u256_to_u64 v).
Definition read_safety_floor : prog Z :=
  v <- vload slot_safety_floor; Ret (u256_to_u64 v).
Definition read_unbonding_period_blocks : prog Z :=
  v <- vload slot_unbonding_period_blocks;
  let raw := u256_to_u64 v in
  Ret (if raw =? 0 then 120960 else raw).

(** [map_err(|_| e)] on a ledger operation. *)
Definition ledger {A} (e : ValidatorError) (p : prog (ares A)) : prog (vres A) :=
  prog_map_err (fun _ => e) p.

(** ** Staking *)

Definition stake (pubkey : list Z) (amount caller : Z) : prog (vres unit) :=
  if amount <? MIN_SELF_STAKE then Ret (Err BelowMinimumStake) else
  if bool_decide (pubkey = replicate 32 0) then Ret (Err InvalidPubkey) else
  existing_id <- read_validator_id caller;
  if negb (existing_id =? 0) then Ret (Err AlreadyStaked) else
  do? ledger VInsufficientBalance (deduct_balance CALL_ASSET_ID caller amount);
  do? ledger EscrowOverflow (add_balance CALL_ASSET_ID STAKING_ESCROW amount);
  count <- read_validator_count;
  validator_id <-? Ret (ok_or ValidatorCountOverflow (checked_add U64_MAX count 1));
  do vstore slot_validator_count (u64_to_u256 validator_id);
  do vstore (slot_validator_by_addr caller) (u64_to_u256 validator_id);
  do vstore (slot_validator_addr validator_id) (address_to_u256 caller);
  do vstore (slot_validator_stake caller) (u128_to_u256 amount);
  do vstore (slot_validator_pubkey caller) (from_be pubkey);
  do vstore (slot_validator_status caller) 1;
  active <- read_active_validator_count;
  new_active <-? Ret (ok_or ValidatorCountOverflow (checked_add U64_MAX active 1));
  do vstore slot_active_validator_count (u64_to_u256 new_active);
  Ret (Ok tt).

(** A queue entry: the id in bytes 8..16 and the stake in bytes 16..32. *)
Definition pack_unbonding (id stake : Z) : Z :=
  from_be (replicate 8 0 ++ u64_bytes id ++ be_bytes 16 stake).
Definition packed_id (word : Z) : Z := from_be (slice (be_bytes 32 word) 8 8).
Definition packed_stake (word : Z) : Z := from_be (slice (be_bytes 32 word) 16 16).

Definition unstake (validator_id caller current_block : Z) : prog (vres unit) :=
  stored_id <- read_validator_id caller;
  if stored_id =? 0 then Ret (Err NotAValidator) else
  if negb (stored_id =? validator_id) then Ret (Err IdMismatch) else
  status <- read_val_status caller;
  if negb (status =? 1) then Ret (Err AlreadyUnbonding) else
  active_count <- read_active_validator_count;
  safety_floor <- read_safety_floor;
  if (0 <? active_count) && (active_count - 1 <? safety_floor)
  then Ret (Err BelowSafetyFloor) else
  stake <- read_stake caller;
  do vstore slot_active_validator_count (u64_to_u256 (Z.max 0 (active_count - 1)));
  do vstore (slot_validator_status caller) 2;
  do vstore (slot_validator_unbond_height caller) (u64_to_u256 current_block);
  unbonding_count <- read_unbonding_count;
  do vstore (slot_unbonding unbonding_count) (pack_unbonding stored_id stake);
  new_unbonding_count <-? Ret (ok_or ValidatorCountOverflow (checked_add U64_MAX unbonding_count 1));
  do vstore slot_unbonding_count (u64_to_u256 new_unbonding_count);
  Ret (Ok tt).

(** The search loop [for i in 0..unbonding_count], [n] iterations from [i]. *)
Fixpoint find_unbonding (n : nat) (i validator_id : Z) : prog (option (Z * Z)) :=
  match n with
  | O => Ret None
  | S n =>
      packed <- vload (slot_unbonding i);
      if packed_id packed =? validator_id then Ret (Some (i, packed_stake packed))
      else find_unbonding n (i + 1) validator_id
  end.

Definition remove_from_unbonding_queue (validator_id : Z) : prog (vres Z) :=
  unbonding_count <- read_unbonding_count;
  found <- find_unbonding (Z.to_nat unbonding_count) 0 validator_id;
  match found with
  | None => Ret (Err NoUnbondingRequest)
  | Some (found_idx, amount) =>
      do (if (1 <? unbonding_count) && negb (found_idx =? unbonding_count - 1) then
            last <- vload (slot_unbonding (unbonding_count - 1));
            vstore (slot_unbonding found_idx) last
          else Ret tt);
      do vstore (slot_unbonding (unbonding_count - 1)) 0;
      do vstore slot_unbonding_count (u64_to_u256 (unbonding_count - 1));
      Ret (Ok amount)
  end.

Definition clear_validator_state (addr validator_id : Z) : prog unit :=
  do vstore (slot_validator_by_addr addr) 0;
  do vstore (slot_validator_stake addr) 0;
  do vstore (slot_validator_status addr) 0;
  do vstore (slot_validator_pubkey addr) 0;
  do vstore (slot_validator_unbond_height addr) 0;
  vstore (slot_validator_addr validator_id) 0.

Definition claim_unbonded (validator_id caller current_block : Z) : prog (vres Z) :=
  stored_id <- read_validator_id caller;
  if stored_id =? 0 then Ret (Err NotAValidator) else
  if negb (stored_id =? validator_id) then Ret (Err IdMismatch) else
  status <- read_val_status caller;
  if negb (status =? 2) then Ret (Err NotUnbonding) else
  unbond_height <- read_unbond_height caller;
  unbonding_period <- read_unbonding_period_blocks;
  unlock_block <-? Ret (ok_or UnbondingPeriodNotElapsed
                          (checked_add U64_MAX unbond_height unbonding_period));
  if current_block <? unlock_block then Ret (Err UnbondingPeriodNotElapsed) else
  amount <-? remove_from_unbonding_queue stored_id;
  do? ledger EscrowUnderflow (deduct_balance CALL_ASSET_ID STAKING_ESCROW amount);
  do? ledger VBalanceOverflow (add_balance CALL_ASSET_ID caller amount);
  do clear_validator_state caller stored_id;
  Ret (Ok amount).

Definition slash_stake (validator : Z) : prog (vres Z) :=
  validator_id <- read_validator_id validator;
  if validator_id =? 0 then Ret (Ok 0) else
  stake <- read_stake validator;
  do? (if 0 <? stake then
         ledger EscrowUnderflow (deduct_balance CALL_ASSET_ID STAKING_ESCROW stake)
       else Ret (Ok tt));
  status <- read_val_status validator;
  do? (if status =? 2 then
         do? remove_from_unbonding_queue validator_id; Ret (Ok tt)
       else Ret (Ok tt));
  do clear_validator_state validator validator_id;
  do (if status =? 1 then
        active <- read_active_validator_count;
        vstore slot_active_validator_count (u64_to_u256 (Z.max 0 (active - 1)))
      else Ret tt);
  Ret (Ok stake).

End Validator.

(** ** Precompile *)

Record stakeCall := { sk_pubkey : list Z; sk_amount : Z }.
Record unstakeCall := { us_validatorId : Z }.
Record claimUnbondedCall := { cu_validatorId : Z }.
Record validatorCall := { vc_validator : Z }.
Record indexCall := { ix_index : Z }.

Class ValidatorAbi : Type := {
  dec_stake : list Z -> result string stakeCall;
  dec_unstake : list Z -> result string unstakeCall;
  dec_claimUnbonded : list Z -> result string claimUnbondedCall;
  dec_getValidatorStake : list Z -> result string validatorCall;
  dec_getValidatorStatus : list Z -> result string validatorCall;
  dec_getValidatorPubkey : list Z -> result string validatorCall;
  dec_getUnbondHeight : list Z -> result string validatorCall;
  dec_getValidatorByIndex : list Z -> result string indexCall;
  dec_getValidatorCount : list Z -> result string unit;
  dec_getActiveValidatorCount : list Z -> result string unit;
  venc_u128 : Z -> list Z;
  venc_u64 : Z -> list Z;
  venc_u256 : Z -> list Z;
  venc_bytes32 : list Z -> list Z;
  venc_address : Z -> list Z;
  sel_stake : list Z;
  sel_unstake : list Z;
  sel_claimUnbonded : list Z;
  sel_getValidatorStake : list Z;
  sel_getValidatorStatus : list Z;
  sel_getValidatorPubkey : list Z;
  sel_getUnbondHeight : list Z;
  sel_getValidatorByIndex : list Z;
  sel_getValidatorCount : list Z;
  sel_getActiveValidatorCount : list Z
}.

Section Precompile.
Context `{Keccak, ValidatorAbi} {S : Type} `{!StorageProvider S}.

Definition validator {A} (p : prog (vres A)) : prog (res A) :=
  prog_map_err (fun e => Other (validator_error_to_string e)) p.

Definition STAKED_TOPIC : Z := keccak256 (b_ "Staked(address,uint64,bytes32,uint128)").
Definition UNSTAKED_TOPIC : Z := keccak256 (b_ "Unstaked(address,uint64,uint128,uint64)").
Definition CLAIMED_TOPIC : Z := keccak256 (b_ "Claimed(address,uint64,uint128)").

Definition stake_log (caller id : Z) (pubkey : list Z) (amount : Z) : LogData :=
  mkLog [STAKED_TOPIC; address_to_u256 caller]
    (be_bytes 32 (u64_to_u256 id) ++ pubkey ++ be_bytes 32 (u128_to_u256 amount)).
Definition unstake_log (caller id stake height : Z) : LogData :=
  mkLog [UNSTAKED_TOPIC; address_to_u256 caller]
    (be_bytes 32 (u64_to_u256 id) ++ be_bytes 32 (u128_to_u256 stake) ++
     be_bytes 32 (u64_to_u256 height)).
Definition claim_log (caller id amount : Z) : LogData :=
  mkLog [CLAIMED_TOPIC; address_to_u256 caller]
    (be_bytes 32 (u64_to_u256 id) ++ be_bytes 32 (u128_to_u256 amount)).

Definition stake_handler (msg_sender : Z) (call : stakeCall) : prog (res unit) :=
  caller <-? Ret (require_caller msg_sender);
  do? check_compliance caller;
  do? validator (stake (sk_pubkey call) (sk_amount call) caller);
  validator_id <- read_validator_id caller;
  do emit_event VALIDATOR_ADDRESS
       (stake_log caller validator_id (sk_pubkey call) (sk_amount call));
  Ret (Ok tt).

Definition unstake_handler (msg_sender : Z) (call : unstakeCall) : prog (res unit) :=
  caller <-? Ret (require_caller msg_sender);
  stake <- read_stake caller;
  height <- block_number;
  do? validator (unstake (us_validatorId call) caller height);
  do emit_event VALIDATOR_ADDRESS (unstake_log caller (us_validatorId call) stake height);
  Ret (Ok tt).

Definition claim_unbonded_handler (msg_sender : Z) (call : claimUnbondedCall) : prog (res unit) :=
  caller <-? Ret (require_caller msg_sender);
  do? check_compliance caller;
  height <- block_number;
  amount <-? validator (claim_unbonded (cu_validatorId call) caller height);
  do emit_event VALIDATOR_ADDRESS (claim_log caller (cu_validatorId call) amount);
  Ret (Ok tt).

(** A view of one storage read. *)
Definition ok_read {A} (p : prog A) : prog (res A) := v <- p; Ret (Ok v).

Definition get_validator_by_index_handler (call : indexCall) : prog (res Z) :=
  count <- read_validator_count;
  if (ix_index call =? 0) || (count <? ix_index call)
  then Ret (Err (Other "validator: index out of range")) else
  ok_read (read_validator_by_index (ix_index call)).

Definition precompile_stake (calldata : list Z) (msg_sender : Z) (s : S) :=
  mutate_void dec_stake calldata 20000 (stake_handler msg_sender) s.
Definition precompile_unstake (calldata : list Z) (msg_sender : Z) (s : S) :=
  mutate_void dec_unstake calldata 20000 (unstake_handler msg_sender) s.
Definition precompile_claim_unbonded (calldata : list Z) (msg_sender : Z) (s : S) :=
  mutate_void dec_claimUnbonded calldata 15000 (claim_unbonded_handler msg_sender) s.
Definition precompile_get_validator_stake (calldata : list Z) (s : S) :=
  view dec_getValidatorStake venc_u128 calldata 1000
    (fun c => ok_read (read_stake (vc_validator c))) s.
Definition precompile_get_validator_status (calldata : list Z) (s : S) :=
  view dec_getValidatorStatus venc_u256 calldata 1000
    (fun c => ok_read (read_val_status (vc_validator c))) s.
Definition precompile_get_validator_pubkey (calldata : list Z) (s : S) :=
  view dec_getValidatorPubkey venc_bytes32 calldata 1000
    (fun c => ok_read (read_pubkey (vc_validator c))) s.
Definition precompile_get_unbond_height (calldata : list Z) (s : S) :=
  view dec_getUnbondHeight venc_u64 calldata 1000
    (fun c => ok_read (read_unbond_height (vc_validator c))) s.
Definition precompile_get_validator_by_index (calldata : list Z) (s : S) :=
  view dec_getValidatorByIndex venc_address calldata 1000 get_validator_by_index_handler s.
Definition precompile_get_validator_count (calldata : list Z) (s : S) :=
  view dec_getValidatorCount venc_u256 calldata 500
    (fun _ => ok_read (v <- read_validator_count; Ret (u64_to_u256 v))) s.
Definition precompile_get_active_validator_count (calldata : list Z) (s : S) :=
  view dec_getActiveValidatorCount venc_u256 calldata 500
    (fun _ => ok_read (v <- read_active_validator_count; Ret (u64_to_u256 v))) s.

(** [StatefulPrecompile::call]: dispatch on the selector. *)
Definition validator_call (calldata : list Z) (msg_sender : Z) (s : S) :
    res PrecompileOutput * S :=
  if (length calldata <? 4)%nat then (Err (Other "invalid input"), s) else
  let selector := take 4 calldata in
  if bool_decide (selector = sel_stake) then precompile_stake calldata msg_sender s
  else if bool_decide (selector = sel_unstake) then precompile_unstake calldata msg_sender s
  else if bool_decide (selector = sel_claimUnbonded)
  then precompile_claim_unbonded calldata msg_sender s
  else if bool_decide (selector = sel_getValidatorStake)
  then precompile_get_validator_stake calldata s
  else if bool_decide (selector = sel_getValidatorStatus)
  then precompile_get_validator_status calldata s
  else if bool_decide (selector = sel_getValidatorPubkey)
  then precompile_get_validator_pubkey calldata s
  else if bool_decide (selector = sel_getUnbondHeight)
  then precompile_get_unbond_height calldata s
  else if bool_decide (selector = sel_getValidatorByIndex)
  then precompile_get_validator_by_index calldata s
  else if bool_decide (selector = sel_getValidatorCount)
  then precompile_get_validator_count calldata s
  else if bool_decide (selector = sel_getActiveValidatorCount)
  then precompile_get_active_validator_count calldata s
  else (Err (Other "unknown selector"), s).

End Precompile.
