(* ===== verification/ValidatorSpec.v ===== *)
(** * ValidatorSpec: correctness of staking

    An abstract registry of validators with an unbonding queue, the relation
    that says when the storage represents it, and the proof that staking,
    unbonding, claiming and slashing implement the registry's transitions.
    The relation includes solvency: the escrow holds at least every recorded
    stake. *)

From stdpp Require Import base gmap list strings.
From Stdlib Require Import ZArith Lia.
From S2P Require Import Prelude Provider World EvmProvider Refinement Dispatch Utils.
From S2P Require Import Asset AssetSpec Validator.

Local Open Scope Z_scope.

(** ** Keys of the validator storage *)

Inductive vkey : Type :=
| VCount | VUCount | VActive | VFloor | VPeriod
| VId (a : Z) | VStake (a : Z) | VPubkey (a : Z) | VStatus (a : Z) | VUnbond (a : Z)
| VAddr (i : Z) | VQueue (i : Z).

#[global] Instance vkey_eq_dec : EqDecision vkey.
Proof. solve_decision. Defined.

(** ** The abstract registry *)

(** A validator; [vi_unbond] is the height at which it started unbonding. *)
Record vinfo : Type := mkV {
  vi_id : Z;
  vi_stake : Z;
  vi_pubkey : list Z;
  vi_unbond : option Z
}.

Record staking : Type := mkStaking {
  st_vals : gmap Z vinfo;
  st_queue : list (Z * Z);
  st_count : Z
}.

Definition st_active (A : staking) : Z :=
  Z.of_nat (size (filter (fun kv : Z * vinfo => vi_unbond kv.2 = None) (st_vals A))).

Definition st_total (A : staking) : Z := map_fold (fun _ v acc => vi_stake v + acc) 0 (st_vals A).

Definition vi_status (v : vinfo) : Z := match vi_unbond v with None => 1 | Some _ => 2 end.

(** Transitions. *)
Definition st_stake (c : Z) (pk : list Z) (amount : Z) (A : staking) : staking :=
  mkStaking (<[c := mkV (st_count A + 1) amount pk None]> (st_vals A)) (st_queue A)
    (st_count A + 1).

Definition st_unstake (c h : Z) (v : vinfo) (A : staking) : staking :=
  mkStaking (<[c := mkV (vi_id v) (vi_stake v) (vi_pubkey v) (Some h)]> (st_vals A))
    (st_queue A ++ [(vi_id v, vi_stake v)]) (st_count A).

(** Swap-and-pop at index [i]. *)
Definition swap_remove (i : nat) (q : list (Z * Z)) : list (Z * Z) :=
  match last q with
  | Some x => take (length q - 1) (<[i := x]> q)
  | None => []
  end.

Definition st_remove (c : Z) (q : list (Z * Z)) (A : staking) : staking :=
  mkStaking (delete c (st_vals A)) q (st_count A).

(** ** Facts about the abstract registry *)

Lemma total_insert c v A q n :
  st_vals A !! c = None ->
  st_total (mkStaking (<[c := v]> (st_vals A)) q n) = vi_stake v + st_total A.
Proof.
  intros Hc. unfold st_total. cbn.
  rewrite (map_fold_insert_L (fun _ (v : vinfo) acc => vi_stake v + acc)); [done| |done].
  intros; lia.
Qed.

Lemma total_delete c v A q n :
  st_vals A !! c = Some v ->
  st_total A = vi_stake v + st_total (mkStaking (delete c (st_vals A)) q n).
Proof.
  intros Hc. unfold st_total. cbn.
  rewrite <- (insert_delete_id (st_vals A) c v Hc) at 1.
  rewrite (map_fold_insert_L (fun _ (v : vinfo) acc => vi_stake v + acc)); [done| |].
  - intros; lia.
  - apply lookup_delete_eq.
Qed.

Lemma total_update c v v' A q n :
  st_vals A !! c = Some v -> vi_stake v' = vi_stake v ->
  st_total (mkStaking (<[c := v']> (st_vals A)) q n) = st_total A.
Proof.
  intros Hc E. rewrite (total_delete c v' (mkStaking (<[c := v']> (st_vals A)) q n) q n).
  - cbn. rewrite delete_insert_eq, E. by rewrite (total_delete c v A q n Hc).
  - apply lookup_insert_eq.
Qed.

Lemma total_nonneg A :
  (forall a v, st_vals A !! a = Some v -> 0 <= vi_stake v) -> 0 <= st_total A.
Proof.
  unfold st_total. destruct A as [m q n]; cbn. clear q n.
  induction m as [|a v m Ha IH] using map_ind; intros Hs.
  - by rewrite map_fold_empty.
  - rewrite (map_fold_insert_L (fun _ (v : vinfo) acc => vi_stake v + acc)) by (intros; lia || done).
    assert (0 <= vi_stake v) by (apply (Hs a); apply lookup_insert_eq).
    assert (0 <= map_fold (fun _ (v : vinfo) acc => vi_stake v + acc) 0 m); [|lia].
    apply IH. intros b u Hb. apply (Hs b).
    rewrite lookup_insert_ne; [done | by intros ->; rewrite Ha in Hb].
Qed.

Lemma active_insert c v A q n :
  st_vals A !! c = None -> vi_unbond v = None ->
  st_active (mkStaking (<[c := v]> (st_vals A)) q n) = st_active A + 1.
Proof.
  intros Hc Hv. unfold st_active. cbn. rewrite map_filter_insert_True by done.
  rewrite map_size_insert_None; [lia|]. apply map_lookup_filter_None. auto.
Qed.

Lemma active_member c v A :
  st_vals A !! c = Some v -> vi_unbond v = None ->
  size (filter (fun kv : Z * vinfo => vi_unbond kv.2 = None) (st_vals A)) <> 0%nat.
Proof.
  intros Hc Hv E%map_size_empty_inv.
  assert (F : filter (fun kv : Z * vinfo => vi_unbond kv.2 = None) (st_vals A) !! c = Some v)
    by (by apply map_lookup_filter_Some). by rewrite E in F.
Qed.

Lemma active_delete c v A q n :
  st_vals A !! c = Some v ->
  st_active (mkStaking (delete c (st_vals A)) q n) =
    st_active A - (if decide (vi_unbond v = None) then 1 else 0).
Proof.
  intros Hc. unfold st_active. cbn. rewrite map_filter_delete. case_decide as Hv.
  - rewrite map_size_delete_Some; [|exists v; by apply map_lookup_filter_Some].
    pose proof (active_member c v A Hc Hv). lia.
  - rewrite delete_id; [lia|]. apply map_lookup_filter_None. right.
    intros v' Hv'. rewrite Hc in Hv'. by injection Hv' as <-.
Qed.

Lemma active_update c v v' A q n :
  st_vals A !! c = Some v -> vi_unbond v = None -> vi_unbond v' <> None ->
  st_active (mkStaking (<[c := v']> (st_vals A)) q n) = st_active A - 1.
Proof.
  intros Hc Hv Hv'. unfold st_active. cbn. rewrite map_filter_insert_False by done.
  rewrite map_filter_delete, map_size_delete_Some; [|exists v; by apply map_lookup_filter_Some].
  pose proof (active_member c v A Hc Hv). lia.
Qed.

Lemma swap_remove_perm i q x : q !! i = Some x -> q ≡ₚ x :: swap_remove i q.
Proof.
  intros Hi. unfold swap_remove. destruct (last q) as [y|] eqn:El.
  2: { apply last_None in El. by subst. }
  apply last_Some in El as [q' ->]. rewrite length_app. cbn [length].
  replace (length q' + 1 - 1)%nat with (length q') by lia.
  destruct (decide (i = length q')) as [->|Hne].
  - rewrite list_lookup_middle in Hi by done. injection Hi as ->.
    rewrite insert_app_r_alt, Nat.sub_diag by lia. cbn. rewrite take_app_length.
    symmetry. apply Permutation_cons_append.
  - assert (i < length q')%nat by (apply lookup_lt_Some in Hi; rewrite length_app in Hi; cbn in Hi; lia).
    rewrite lookup_app_l in Hi by done. rewrite insert_app_l by done.
    rewrite <- (length_insert q' i y), take_app_length.
    rewrite insert_take_drop by done. rewrite <- (take_drop_middle q' i x Hi) at 1.
    rewrite <- (Permutation_cons_append _ y), <- (Permutation_middle _ _ x),
      <- (Permutation_middle _ _ y). constructor.
Qed.

(** ** Packed queue entries *)

Lemma pack_roundtrip id s :
  fits U64_MAX id -> fits U128_MAX s ->
  packed_id (pack_unbonding id s) = id /\ packed_stake (pack_unbonding id s) = s.
Proof.
  intros Hi Hs. unfold pack_unbonding, packed_id, packed_stake, u64_bytes, slice.
  set (bs := replicate 8 0 ++ be_bytes 8 id ++ be_bytes 16 s).
  assert (El : length bs = 32%nat)
    by (unfold bs; rewrite !length_app, length_replicate, !length_be_bytes; done).
  assert (Eb : be_bytes 32 (from_be bs) = bs).
  { rewrite <- El at 1. apply be_bytes_from_be. unfold bs. apply Forall_app. split.
    - apply Forall_replicate. unfold is_byte. lia.
    - apply Forall_app. split; apply be_bytes_is_byte. }
  rewrite !Eb. unfold bs. split.
  - rewrite drop_app_length' by (by rewrite length_replicate).
    rewrite take_app_length' by (by rewrite length_be_bytes).
    rewrite from_be_be_bytes. apply Z.mod_small. unfold fits, U64_MAX in Hi.
    change (256 ^ Z.of_nat 8) with (U64_MAX + 1). unfold U64_MAX. lia.
  - rewrite app_assoc. rewrite drop_app_length'
      by (by rewrite length_app, length_replicate, length_be_bytes).
    rewrite take_ge by (by rewrite length_be_bytes).
    rewrite from_be_be_bytes. apply Z.mod_small. unfold fits, U128_MAX in Hs.
    change (256 ^ Z.of_nat 16) with (U128_MAX + 1). unfold U128_MAX. lia.
Qed.

(** ** Representation in storage *)

Section Spec.
Context `{Keccak}.
Implicit Types (w : world) (A : staking).

Definition vslot (k : vkey) : Z :=
  match k with
  | VCount => slot_validator_count
  | VUCount => slot_unbonding_count
  | VActive => slot_active_validator_count
  | VFloor => slot_safety_floor
  | VPeriod => slot_unbonding_period_blocks
  | VId a => slot_validator_by_addr a
  | VStake a => slot_validator_stake a
  | VPubkey a => slot_validator_pubkey a
  | VStatus a => slot_validator_status a
  | VUnbond a => slot_validator_unbond_height a
  | VAddr i => slot_validator_addr i
  | VQueue i => slot_unbonding i
  end.

Definition rd w (k : vkey) : Z := wslot w VALIDATOR_ADDRESS (vslot k).
Definition wr (k : vkey) (v : Z) w : world := w_upd (put_slot VALIDATOR_ADDRESS (vslot k) v) w.
Definition call_bal w (a : Z) : Z := bal w CALL_ASSET_ID a.

Lemma rd_put k v w k' : rd (put k v w) k' = rd w k'.
Proof. unfold rd, put. cbn. by rewrite slot_put_ne. Qed.

Lemma call_bal_wr k v w a : call_bal (wr k v w) a = call_bal w a.
Proof. unfold call_bal, bal, wr. cbn. by rewrite slot_put_ne. Qed.

(** The accounts considered, the bound on ids and queue positions, and the
    assumption that the storage slots in use are distinct. *)
Variables (vs : list Z) (n : Z).

Definition live (k : vkey) : Prop :=
  match k with
  | VId a | VStake a | VPubkey a | VStatus a | VUnbond a => a ∈ vs
  | VAddr i | VQueue i => 0 <= i <= n
  | _ => True
  end.

Record layout_ok : Prop := {
  lay_slots : forall k1 k2, live k1 -> live k2 -> vslot k1 = vslot k2 -> k1 = k2;
  lay_balances : NoDup (map (slot_balance CALL_ASSET_ID) (STAKING_ESCROW :: vs));
  lay_bound : Z.of_nat (length vs) <= n < U64_MAX
}.

Hypothesis layout : layout_ok.

Lemma rd_wr k v w k' : live k -> live k' -> rd (wr k v w) k' = if decide (k = k') then v else rd w k'.
Proof.
  intros Hk Hk'. unfold rd, wr. cbn. rewrite slot_put. destruct (decide (k = k')) as [->|Hne].
  - by rewrite decide_True.
  - rewrite decide_False; [done|]. intros E. injection E as E.
    by apply Hne, (lay_slots layout).
Qed.

Definition accounts : list Z := STAKING_ESCROW :: vs.

Lemma call_bal_put a v w b : a ∈ accounts -> b ∈ accounts ->
  call_bal (put (slot_balance CALL_ASSET_ID a) v w) b = if decide (a = b) then v else call_bal w b.
Proof.
  intros Ha Hb. unfold call_bal, bal. rewrite wslot_put. repeat case_decide; subst; try done.
  exfalso. match goal with Hne : a <> b |- _ => apply Hne end.
  by apply (NoDup_map_inj (slot_balance CALL_ASSET_ID) accounts); [apply (lay_balances layout)|..].
Qed.

(** Consistency of the registry. *)
Record st_wf A : Prop := {
  wf_dom : forall a v, st_vals A !! a = Some v -> a ∈ vs;
  wf_val : forall a v, st_vals A !! a = Some v ->
    0 < vi_id v <= st_count A /\ fits U128_MAX (vi_stake v) /\
    (forall h, vi_unbond v = Some h -> fits U64_MAX h);
  wf_ids : forall a b va vb, st_vals A !! a = Some va -> st_vals A !! b = Some vb ->
    vi_id va = vi_id vb -> a = b;
  wf_queue : forall x, x ∈ st_queue A <->
    exists a v h, st_vals A !! a = Some v /\ vi_unbond v = Some h /\ x = (vi_id v, vi_stake v);
  wf_qids : NoDup (st_queue A).*1;
  wf_count : 0 <= st_count A <= n;
  wf_qlen : Z.of_nat (length (st_queue A)) <= n
}.

Definition rep_val w (a : Z) (o : option vinfo) : Prop :=
  match o with
  | None => rd w (VId a) = 0
  | Some v => rd w (VId a) = vi_id v /\ rd w (VStake a) = vi_stake v /\
      rd w (VStatus a) = vi_status v /\ rd w (VPubkey a) = from_be (vi_pubkey v) /\
      match vi_unbond v with Some h => rd w (VUnbond a) = h | None => True end
  end.

(** The storage represents the registry. *)
Record srep w A : Prop := {
  rep_wf : st_wf A;
  rep_vals : forall a, a ∈ vs -> rep_val w a (st_vals A !! a);
  rep_count : rd w VCount = st_count A;
  rep_ucount : rd w VUCount = Z.of_nat (length (st_queue A));
  rep_active : rd w VActive = st_active A;
  rep_queue : forall i x, st_queue A !! i = Some x ->
    rd w (VQueue (Z.of_nat i)) = pack_unbonding x.1 x.2;
  rep_bals : forall a, a ∈ accounts -> fits U128_MAX (call_bal w a)
}.

(** It does, and the escrow covers the stakes. *)
Record rep w A : Prop := {
  rep_srep :> srep w A;
  rep_solvent : st_total A <= call_bal w STAKING_ESCROW
}.

Lemma escrow_account : STAKING_ESCROW ∈ accounts.
Proof. constructor. Qed.
Lemma vs_account a : a ∈ vs -> a ∈ accounts.
Proof. intros. by constructor. Qed.

Lemma vs_NoDup : NoDup vs.
Proof.
  pose proof (lay_balances layout) as N. apply NoDup_cons in N as [_ N].
  by apply NoDup_fmap_1 in N.
Qed.

(** The number of active validators fits [u64]. *)
Lemma active_bound A : st_wf A -> 0 <= st_active A <= n.
Proof.
  intros W. unfold st_active.
  assert (size (filter (fun kv : Z * vinfo => vi_unbond kv.2 = None) (st_vals A)) <=
          length vs)%nat; [|pose proof (lay_bound layout); lia].
  rewrite <- (size_dom (D := gset Z)), <- (size_list_to_set (C := gset Z) vs vs_NoDup).
  apply subseteq_size. intros a (v & Ha)%elem_of_dom. apply map_lookup_filter_Some in Ha as [Ha _].
  apply elem_of_list_to_set. by eapply wf_dom.
Qed.

(** ** Searching the queue *)

Lemma find_unbonding_spec q id w : forall i,
  Forall (fun x => fits U64_MAX x.1 /\ fits U128_MAX x.2) q ->
  (forall j x, q !! j = Some x -> rd w (VQueue (i + Z.of_nat j)) = pack_unbonding x.1 x.2) ->
  run (find_unbonding (length q) i id) w =
    (match list_find (fun x => x.1 = id) q with
     | Some (j, x) => Some (i + Z.of_nat j, x.2)
     | None => None
     end, w).
Proof.
  induction q as [|x q IH]; intros i Hf Hq; [done|]. apply Forall_cons in Hf as [[F1 F2] Hf].
  cbn [length find_unbonding]. rewrite run_bind. unfold vload. rewrite w_run_load.
  change (wslot w VALIDATOR_ADDRESS (slot_unbonding i)) with (rd w (VQueue i)).
  pose proof (Hq O x eq_refl) as H0. rewrite Z.add_0_r in H0. rewrite H0.
  destruct (pack_roundtrip x.1 x.2 F1 F2) as [-> ->]. cbn [list_find].
  destruct (Z.eqb_spec x.1 id) as [E|E].
  - rewrite decide_True by done. cbn. by rewrite Z.add_0_r.
  - rewrite decide_False by done. rewrite (IH (i + 1)); [|done|].
    + destruct (list_find _ q) as [[j y]|]; cbn; [|done]. do 3 f_equal. lia.
    + intros j y Hj. replace (i + 1 + Z.of_nat j) with (i + Z.of_nat (S j)) by lia. by apply Hq.
Qed.

Lemma queue_fits w A : srep w A -> Forall (fun x => fits U64_MAX x.1 /\ fits U128_MAX x.2) (st_queue A).
Proof.
  intros R. apply Forall_forall. intros x Hx.
  apply (wf_queue _ (rep_wf _ _ R)) in Hx as (a & v & h & Ha & _ & ->). cbn.
  destruct (wf_val _ (rep_wf _ _ R) a v Ha) as (Hid & Hs & _).
  pose proof (wf_count _ (rep_wf _ _ R)). pose proof (lay_bound layout). split; [fit | done].
Qed.

(** The queue of a registry after the entry of [v] is taken out. *)
Lemma queue_position w A a v h :
  srep w A -> st_vals A !! a = Some v -> vi_unbond v = Some h ->
  exists j, list_find (fun x => x.1 = vi_id v) (st_queue A) = Some (j, (vi_id v, vi_stake v)) /\
    st_queue A !! j = Some (vi_id v, vi_stake v).
Proof.
  intros R Ha Hv. pose proof (rep_wf _ _ R) as W.
  assert (Hin : (vi_id v, vi_stake v) ∈ st_queue A) by (apply (wf_queue _ W); eauto 10).
  apply list_elem_of_lookup in Hin as [j Hj]. exists j. split; [|done].
  apply list_find_Some. split; [done|]. split; [done|]. intros k y Hk Hlt Ey.
  assert (E : k = j); [|lia].
  apply (NoDup_lookup (st_queue A).*1 k j (vi_id v)); [apply (wf_qids _ W)|..];
    rewrite list_lookup_fmap; [rewrite Hk | rewrite Hj]; cbn; by rewrite ?Ey.
Qed.

(** The writes of swap-and-pop at position [j]. *)
Definition pop_writes (j len : Z) w : world :=
  wr VUCount (len - 1) (wr (VQueue (len - 1)) 0
    (if (1 <? len) && negb (j =? len - 1) then wr (VQueue j) (rd w (VQueue (len - 1))) w else w)).

Lemma run_remove_from_queue w A a v h :
  srep w A -> st_vals A !! a = Some v -> vi_unbond v = Some h ->
  exists j, st_queue A !! j = Some (vi_id v, vi_stake v) /\
    run (remove_from_unbonding_queue (vi_id v)) w =
      (Ok (vi_stake v), pop_writes (Z.of_nat j) (Z.of_nat (length (st_queue A))) w).
Proof.
  intros R Ha Hv. destruct (queue_position w A a v h R Ha Hv) as (j & Hf & Hj).
  exists j. split; [done|]. unfold remove_from_unbonding_queue, read_unbonding_count, vload.
  pose proof (wf_qlen _ (rep_wf _ _ R)) as Hl. pose proof (lay_bound layout) as Hb.
  rewrite !run_bind, w_run_load. cbn [run].
  change (wslot w VALIDATOR_ADDRESS slot_unbonding_count) with (rd w VUCount).
  rewrite (rep_ucount _ _ R), u256_to_u64_id by fit. rewrite Nat2Z.id.
  rewrite run_bind, (find_unbonding_spec (st_queue A)); [|by eapply queue_fits|].
  2: { intros i x Hi. cbn. by apply (rep_queue _ _ R). }
  rewrite Hf. cbv beta iota zeta. cbn [snd]. rewrite Z.add_0_l.
  assert (0 < Z.of_nat (length (st_queue A))) by (apply lookup_lt_Some in Hj; lia).
  rewrite run_bind. unfold pop_writes.
  destruct (_ && _); cbn [run]; rewrite ?run_bind; cbn [run]; unfold vload, vstore;
    rewrite ?w_run_load, ?w_run_store; cbv beta iota zeta;
    rewrite !run_bind, ?w_run_store; cbv beta iota zeta; rewrite u64_to_u256_id by fit; done.
Qed.

(** Reading after swap-and-pop. *)
Lemma rd_pop_other j len w k :
  0 <= j < len -> len <= n -> live k ->
  (forall i, k <> VQueue i) -> k <> VUCount -> rd (pop_writes j len w) k = rd w k.
Proof.
  intros Hj Hn Hk Hq Hu. unfold pop_writes. rewrite !rd_wr by (done || (cbn; lia)).
  rewrite !decide_False by (congruence || (intros E; symmetry in E; by eapply Hq)).
  destruct (_ && _); [|done]. rewrite rd_wr by (done || (cbn; lia)).
  rewrite decide_False; [done|]. intros E. symmetry in E. by eapply Hq.
Qed.

Lemma rd_pop_count j len w : 0 <= j < len -> len <= n -> rd (pop_writes j len w) VUCount = len - 1.
Proof. intros. unfold pop_writes. rewrite rd_wr by done. by rewrite decide_True. Qed.

Lemma rd_pop_queue j len w i :
  0 <= j < len -> len <= n -> 0 <= i < len - 1 ->
  rd (pop_writes j len w) (VQueue i) =
    if decide (i = j) then rd w (VQueue (len - 1)) else rd w (VQueue i).
Proof.
  intros Hj Hn Hi. unfold pop_writes.
  assert (L : forall i, 0 <= i < len -> live (VQueue i)) by (cbn; lia).
  rewrite rd_wr by (done || (apply L; lia)). rewrite decide_False by done.
  rewrite rd_wr by (apply L; lia). rewrite decide_False by (intros [= E]; lia).
  destruct (Z.ltb_spec 1 len); [|lia]. destruct (Z.eqb_spec j (len - 1)); cbn [andb negb].
  - rewrite decide_False by lia. done.
  - rewrite rd_wr by (apply L; lia). repeat case_decide; congruence.
Qed.

Lemma call_bal_pop j len w a : call_bal (pop_writes j len w) a = call_bal w a.
Proof. unfold pop_writes. destruct (_ && _); by rewrite !call_bal_wr. Qed.

Lemma swap_remove_length j q : (j < length q)%nat -> length (swap_remove j q) = (length q - 1)%nat.
Proof.
  intros Hj. unfold swap_remove. destruct (last q) eqn:E.
  - rewrite length_take, length_insert. lia.
  - apply last_None in E. by subst.
Qed.

Lemma swap_remove_lookup j q i x :
  swap_remove j q !! i = Some x ->
  (i < length q - 1)%nat /\ (if decide (i = j) then q !! (length q - 1)%nat = Some x
                             else q !! i = Some x).
Proof.
  unfold swap_remove. destruct (last q) as [y|] eqn:El; [|done].
  intros Hx. pose proof (lookup_lt_Some _ _ _ Hx) as Hlt. rewrite length_take, length_insert in Hlt.
  rewrite lookup_take_lt in Hx by lia. split; [lia|]. case_decide as E.
  - subst i. rewrite list_lookup_insert_eq in Hx by lia. injection Hx as ->.
    rewrite last_lookup in El. by rewrite Nat.sub_1_r.
  - by rewrite list_lookup_insert_ne in Hx.
Qed.

(** The queue part of the representation after swap-and-pop. *)
Lemma rep_queue_pop w A j i x :
  srep w A -> (j < length (st_queue A))%nat -> swap_remove j (st_queue A) !! i = Some x ->
  rd (pop_writes (Z.of_nat j) (Z.of_nat (length (st_queue A))) w) (VQueue (Z.of_nat i)) =
    pack_unbonding x.1 x.2.
Proof.
  intros R Hj Hx. apply swap_remove_lookup in Hx as [Hlt Hx].
  pose proof (wf_qlen _ (rep_wf _ _ R)). rewrite rd_pop_queue by lia.
  destruct (decide (i = j)) as [->|Hne].
  - rewrite decide_True by done. rewrite <- (rep_queue _ _ R _ _ Hx). do 2 f_equal. lia.
  - rewrite decide_False by lia. by apply (rep_queue _ _ R).
Qed.

(** Consistency after a validator leaves. *)
Lemma st_wf_remove A a v q :
  st_wf A -> st_vals A !! a = Some v ->
  match vi_unbond v with
  | Some _ => st_queue A ≡ₚ (vi_id v, vi_stake v) :: q
  | None => q = st_queue A
  end ->
  st_wf (st_remove a q A).
Proof.
  intros W Ha Hq.
  assert (Hsub : forall x, x ∈ q -> x ∈ st_queue A)
    by (intros x Hx; destruct (vi_unbond v); [rewrite Hq; set_solver | by subst]).
  split; cbn.
  - intros b u [_ Hb]%lookup_delete_Some. by eapply wf_dom.
  - intros b u [_ Hb]%lookup_delete_Some. by eapply wf_val.
  - intros b c u1 u2 [_ Hb]%lookup_delete_Some [_ Hc]%lookup_delete_Some. by eapply wf_ids.
  - intros x. split.
    + intros Hx. pose proof (proj1 (wf_queue _ W x) (Hsub x Hx)) as (b & u & h & Hb & Hu & ->).
      exists b, u, h. split_and!; try done. apply lookup_delete_Some. split; [|done].
      intros <-. rewrite Ha in Hb. injection Hb as <-. rewrite Hu in Hq.
      pose proof (wf_qids _ W) as N. rewrite Hq in N. cbn in N. apply NoDup_cons in N as [N _].
      apply N. by apply (list_elem_of_fmap_2 fst _ _ Hx).
    + intros (b & u & h & [Hne Hb]%lookup_delete_Some & Hu & ->).
      assert (Hin : (vi_id u, vi_stake u) ∈ st_queue A) by (apply (wf_queue _ W); eauto 10).
      destruct (vi_unbond v) as [h'|]; [|by subst]. rewrite Hq, elem_of_cons in Hin.
      destruct Hin as [E|]; [|done]. exfalso. apply Hne. symmetry.
      apply (wf_ids _ W b a u v); congruence.
  - pose proof (wf_qids _ W) as N. destruct (vi_unbond v); [|by subst].
    rewrite Hq in N. cbn in N. by apply NoDup_cons in N as [_ ?].
  - apply (wf_count _ W).
  - pose proof (wf_qlen _ W) as L. destruct (vi_unbond v); [|by subst].
    rewrite Hq in L. cbn in L. lia.
Qed.

(** ** Clearing a validator *)

Definition clear_writes (a id : Z) w : world :=
  wr (VAddr id) 0 (wr (VUnbond a) 0 (wr (VPubkey a) 0 (wr (VStatus a) 0
    (wr (VStake a) 0 (wr (VId a) 0 w))))).

Lemma run_clear a id w : run (clear_validator_state a id) w = (tt, clear_writes a id w).
Proof. done. Qed.

(** The keys of one validator. *)
Definition keys_of (a : Z) (k : vkey) : Prop :=
  k = VId a \/ k = VStake a \/ k = VStatus a \/ k = VPubkey a \/ k = VUnbond a.

Lemma keys_live a k : a ∈ vs -> keys_of a k -> live k.
Proof. intros Ha [->|[->|[->|[->| ->]]]]; done. Qed.

(** A key that belongs to no cleared slot. *)
Definition spared (a : Z) (k : vkey) : Prop := ~ keys_of a k /\ forall i, k <> VAddr i.

Lemma rd_clear_other a id w k :
  a ∈ vs -> 0 <= id <= n -> live k -> spared a k -> rd (clear_writes a id w) k = rd w k.
Proof.
  intros Ha Hid Hk [Hn Hi]. unfold clear_writes, keys_of in *.
  rewrite !rd_wr by (done || (cbn; done)). rewrite !decide_False; try done; intros <-; try tauto.
Qed.

Lemma rd_clear_id a id w : a ∈ vs -> 0 <= id <= n -> rd (clear_writes a id w) (VId a) = 0.
Proof.
  intros Ha Hid. unfold clear_writes. rewrite !rd_wr by (done || (cbn; done)).
  rewrite !decide_False by done. by rewrite decide_True.
Qed.

Lemma call_bal_clear a id w b : call_bal (clear_writes a id w) b = call_bal w b.
Proof. unfold clear_writes. by rewrite !call_bal_wr. Qed.

Lemma spared_other a b k : keys_of b k -> a <> b -> spared a k.
Proof.
  unfold spared, keys_of. intros Hk Hne. split; [|intros i ->; by destruct_or! Hk].
  intros Ha. destruct_or! Hk; destruct_or! Ha; congruence.
Qed.

Lemma rep_val_ext w w' b o : (forall k, keys_of b k -> rd w' k = rd w k) -> rep_val w b o -> rep_val w' b o.
Proof.
  intros E. unfold rep_val, keys_of in *.
  assert (E1 := E (VId b) ltac:(tauto)). assert (E2 := E (VStake b) ltac:(tauto)).
  assert (E3 := E (VStatus b) ltac:(tauto)). assert (E4 := E (VPubkey b) ltac:(tauto)).
  assert (E5 := E (VUnbond b) ltac:(tauto)).
  destruct o as [v|]; [|by rewrite E1]. rewrite E1, E2, E3, E4. destruct (vi_unbond v); by rewrite ?E5.
Qed.

(** What the storage must show after validator [a] left with queue [q]. *)
Lemma rep_remove w A a v q w' :
  rep w A -> st_vals A !! a = Some v ->
  match vi_unbond v with
  | Some _ => st_queue A ≡ₚ (vi_id v, vi_stake v) :: q
  | None => q = st_queue A
  end ->
  (forall b k, b ∈ vs -> a <> b -> keys_of b k -> rd w' k = rd w k) ->
  rd w' (VId a) = 0 -> rd w' VCount = rd w VCount -> rd w' VUCount = Z.of_nat (length q) ->
  rd w' VActive = st_active A - (if decide (vi_unbond v = None) then 1 else 0) ->
  (forall i x, q !! i = Some x -> rd w' (VQueue (Z.of_nat i)) = pack_unbonding x.1 x.2) ->
  (forall b, b ∈ accounts -> fits U128_MAX (call_bal w' b)) ->
  call_bal w STAKING_ESCROW - vi_stake v <= call_bal w' STAKING_ESCROW ->
  rep w' (st_remove a q A).
Proof.
  intros R Ha Hq Hk Hid Hc Hu Hact Hqs Hb Hs. split; [split; cbn; try done|].
  - by eapply st_wf_remove; [apply (rep_wf _ _ R)|..].
  - intros b Hbv. destruct (decide (a = b)) as [<-|Hne].
    + rewrite lookup_delete_eq. done.
    + rewrite lookup_delete_ne by done. eapply rep_val_ext; [|by apply (rep_vals _ _ R)]. eauto.
  - rewrite Hc. apply (rep_count _ _ R).
  - rewrite Hact. unfold st_remove. by rewrite (active_delete a v A).
  - pose proof (rep_solvent _ _ R) as Sv. rewrite (total_delete a v A q (st_count A) Ha) in Sv.
    unfold st_remove. lia.
Qed.

(** The escrow covers the stake of every validator. *)
Lemma escrow_covers w A a v :
  rep w A -> st_vals A !! a = Some v -> 0 <= vi_stake v <= call_bal w STAKING_ESCROW.
Proof.
  intros R Ha. pose proof (rep_wf _ _ R) as W. destruct (wf_val _ W a v Ha) as (_ & [Hs _] & _).
  split; [done|]. pose proof (rep_solvent _ _ R) as Sv.
  rewrite (total_delete a v A [] 0 Ha) in Sv.
  assert (0 <= st_total (mkStaking (delete a (st_vals A)) [] 0)); [|lia].
  apply total_nonneg. cbn. intros b u [_ Hb]%lookup_delete_Some.
  by destruct (wf_val _ W b u Hb) as (_ & [? _] & _).
Qed.

(** ** Reads of a represented registry *)

Lemma run_read_id w A a :
  srep w A -> a ∈ vs ->
  run (read_validator_id a) w = (match st_vals A !! a with Some v => vi_id v | None => 0 end, w).
Proof.
  intros R Ha. unfold read_validator_id, vload. rewrite run_bind, w_run_load. cbn [run].
  change (wslot w VALIDATOR_ADDRESS (slot_validator_by_addr a)) with (rd w (VId a)).
  pose proof (rep_vals _ _ R a Ha) as V. destruct (st_vals A !! a) as [v|] eqn:E; cbn in V.
  - destruct V as (-> & _). destruct (wf_val _ (rep_wf _ _ R) a v E) as (Hid & _).
    pose proof (wf_count _ (rep_wf _ _ R)). pose proof (lay_bound layout).
    by rewrite u256_to_u64_id by fit.
  - by rewrite V.
Qed.

Lemma run_read_status w A a v :
  srep w A -> a ∈ vs -> st_vals A !! a = Some v -> run (read_val_status a) w = (vi_status v, w).
Proof.
  intros R Ha E. unfold read_val_status, vload. rewrite run_bind, w_run_load. cbn [run].
  change (wslot w VALIDATOR_ADDRESS (slot_validator_status a)) with (rd w (VStatus a)).
  pose proof (rep_vals _ _ R a Ha) as V. rewrite E in V. destruct V as (_ & _ & -> & _).
  rewrite u256_to_u8_mod. unfold vi_status. by destruct (vi_unbond v).
Qed.

Lemma run_read_stake w A a v :
  srep w A -> a ∈ vs -> st_vals A !! a = Some v -> run (read_stake a) w = (vi_stake v, w).
Proof.
  intros R Ha E. unfold read_stake, vload. rewrite run_bind, w_run_load. cbn [run].
  change (wslot w VALIDATOR_ADDRESS (slot_validator_stake a)) with (rd w (VStake a)).
  pose proof (rep_vals _ _ R a Ha) as V. rewrite E in V. destruct V as (_ & -> & _).
  destruct (wf_val _ (rep_wf _ _ R) a v E) as (_ & Hs & _). by rewrite u256_to_u128_id.
Qed.

Lemma run_read_unbond w A a v h :
  srep w A -> a ∈ vs -> st_vals A !! a = Some v -> vi_unbond v = Some h ->
  run (read_unbond_height a) w = (h, w).
Proof.
  intros R Ha E Hu. unfold read_unbond_height, vload. rewrite run_bind, w_run_load. cbn [run].
  change (wslot w VALIDATOR_ADDRESS (slot_validator_unbond_height a)) with (rd w (VUnbond a)).
  pose proof (rep_vals _ _ R a Ha) as V. rewrite E in V. destruct V as (_ & _ & _ & _ & V).
  rewrite Hu in V. rewrite V. destruct (wf_val _ (rep_wf _ _ R) a v E) as (_ & _ & Hf).
  by rewrite u256_to_u64_id by auto.
Qed.

Lemma run_read_active w A : srep w A -> run read_active_validator_count w = (st_active A, w).
Proof.
  intros R. unfold read_active_validator_count, vload. rewrite run_bind, w_run_load. cbn [run].
  change (wslot w VALIDATOR_ADDRESS slot_active_validator_count) with (rd w VActive).
  rewrite (rep_active _ _ R). pose proof (active_bound A (rep_wf _ _ R)).
  pose proof (lay_bound layout). by rewrite u256_to_u64_id by fit.
Qed.

(** The unbonding period in force. *)
Definition period_of w : Z :=
  let raw := u256_to_u64 (rd w VPeriod) in if raw =? 0 then 120960 else raw.

Definition floor_of w : Z := u256_to_u64 (rd w VFloor).

(** ** Claiming *)

Lemma not_escrow a : a ∈ vs -> a <> STAKING_ESCROW.
Proof.
  intros Ha ->. pose proof (lay_balances layout) as N. apply NoDup_fmap_1 in N.
  by apply NoDup_cons in N as [N _].
Qed.

(** Moving stake [s] out of the escrow to [a]. *)
Definition pay_writes (a s : Z) w : world :=
  put (slot_balance CALL_ASSET_ID a) (call_bal w a + s)
    (put (slot_balance CALL_ASSET_ID STAKING_ESCROW) (call_bal w STAKING_ESCROW - s) w).

Lemma run_pay_deduct w s :
  fits U128_MAX (call_bal w STAKING_ESCROW) -> 0 <= s <= call_bal w STAKING_ESCROW ->
  run (ledger EscrowUnderflow (deduct_balance CALL_ASSET_ID STAKING_ESCROW s)) w =
    (Ok tt, put (slot_balance CALL_ASSET_ID STAKING_ESCROW) (call_bal w STAKING_ESCROW - s) w).
Proof.
  intros Hf Hs. unfold ledger. rewrite run_map_err, run_deduct_balance by (done || lia).
  unfold call_bal in *. destruct (Z.ltb_spec (bal w CALL_ASSET_ID STAKING_ESCROW) s); [lia | done].
Qed.

Lemma run_pay_add w a s :
  a ∈ vs -> fits U128_MAX (call_bal w a) -> 0 <= s -> call_bal w a + s <= U128_MAX ->
  run (ledger VBalanceOverflow (add_balance CALL_ASSET_ID a s))
    (put (slot_balance CALL_ASSET_ID STAKING_ESCROW) (call_bal w STAKING_ESCROW - s) w) =
    (Ok tt, pay_writes a s w).
Proof.
  intros Ha Hf Hs Hb.
  assert (E : bal (put (slot_balance CALL_ASSET_ID STAKING_ESCROW)
    (call_bal w STAKING_ESCROW - s) w) CALL_ASSET_ID a = call_bal w a).
  { change (call_bal (put (slot_balance CALL_ASSET_ID STAKING_ESCROW)
      (call_bal w STAKING_ESCROW - s) w) a = call_bal w a).
    rewrite call_bal_put by auto using escrow_account, vs_account.
    rewrite decide_False; [done|]. intros E. symmetry in E. by apply (not_escrow a Ha). }
  unfold ledger. rewrite run_map_err, run_add_balance; [|by rewrite E|done].
  rewrite E. destruct (Z.ltb_spec U128_MAX (call_bal w a + s)); [lia | done].
Qed.

Lemma rd_pay a s w k : rd (pay_writes a s w) k = rd w k.
Proof. unfold pay_writes. by rewrite !rd_put. Qed.

Lemma call_bal_pay a s w b :
  a ∈ vs -> b ∈ accounts ->
  call_bal (pay_writes a s w) b =
    if decide (b = a) then call_bal w a + s
    else if decide (b = STAKING_ESCROW) then call_bal w b - s else call_bal w b.
Proof.
  intros Ha Hb. unfold pay_writes. rewrite !call_bal_put by auto using escrow_account, vs_account.
  repeat case_decide; subst; congruence.
Qed.

(** After the queue entry of [a] is popped, its slots cleared and the balances
    changed, the storage represents the registry without [a]. *)
Lemma rep_leave_unbonding w A a v h j w2 :
  rep w A -> st_vals A !! a = Some v -> vi_unbond v = Some h ->
  st_queue A !! j = Some (vi_id v, vi_stake v) ->
  (forall k, rd w2 k = rd (pop_writes (Z.of_nat j) (Z.of_nat (length (st_queue A))) w) k) ->
  (forall b, b ∈ accounts -> fits U128_MAX (call_bal w2 b)) ->
  call_bal w STAKING_ESCROW - vi_stake v <= call_bal w2 STAKING_ESCROW ->
  rep (clear_writes a (vi_id v) w2) (st_remove a (swap_remove j (st_queue A)) A).
Proof.
  intros R Ha Hu Hj Hw2 Hb Hs. pose proof (rep_wf _ _ R) as W. pose proof (wf_dom _ W a v Ha) as Hv.
  destruct (wf_val _ W a v Ha) as (Hid & _). pose proof (wf_count _ W) as Hcnt.
  pose proof (wf_qlen _ W) as Hql.
  assert (Hlt : (j < length (st_queue A))%nat) by (by eapply lookup_lt_Some).
  assert (Cl : forall k, live k -> spared a k -> rd (clear_writes a (vi_id v) w2) k =
    rd (pop_writes (Z.of_nat j) (Z.of_nat (length (st_queue A))) w) k)
    by (intros; rewrite rd_clear_other by (done || lia); apply Hw2).
  assert (Sp : forall k, (forall b, ~ keys_of b k) -> (forall i, k <> VAddr i) -> spared a k)
    by (intros; split; auto).
  apply (rep_remove w A a v); rewrite ?Hu; try done.
  - by apply swap_remove_perm.
  - intros b k Hbv Hne Hk. rewrite Cl; [|by eapply keys_live | by eapply spared_other].
    apply rd_pop_other; try lia; [by eapply keys_live|..]; unfold keys_of in Hk; intros;
      destruct_or! Hk; by subst.
  - apply rd_clear_id; [done | lia].
  - rewrite Cl by (done || (apply Sp; unfold keys_of; naive_solver)). by apply rd_pop_other; try lia.
  - rewrite Cl by (done || (apply Sp; unfold keys_of; naive_solver)).
    rewrite rd_pop_count, swap_remove_length by (done || lia). lia.
  - rewrite decide_False by done. rewrite Z.sub_0_r, <- (rep_active _ _ R).
    rewrite Cl by (done || (apply Sp; unfold keys_of; naive_solver)). by apply rd_pop_other; try lia.
  - intros i x Hx. pose proof (lookup_lt_Some _ _ _ Hx) as Hi. rewrite swap_remove_length in Hi by done.
    rewrite Cl; [by apply (rep_queue_pop w A j i x R) | cbn; lia | apply Sp; unfold keys_of; naive_solver].
  - intros b Hb'. rewrite call_bal_clear. by apply Hb.
  - by rewrite call_bal_clear.
Qed.

(** The checks of a claim pass. *)
Lemma run_claim_eq w A a v h block j :
  rep w A -> st_vals A !! a = Some v -> vi_unbond v = Some h ->
  h + period_of w <= block <= U64_MAX -> call_bal w a + vi_stake v <= U128_MAX ->
  let w1 := pop_writes j (Z.of_nat (length (st_queue A))) w in
  run (remove_from_unbonding_queue (vi_id v)) w = (Ok (vi_stake v), w1) ->
  run (claim_unbonded (vi_id v) a block) w =
    (Ok (vi_stake v), clear_writes a (vi_id v) (pay_writes a (vi_stake v) w1)).
Proof.
  intros R Ha Hu Hb Hov w1 Er. pose proof (rep_wf _ _ R) as W.
  pose proof (wf_dom _ W a v Ha) as Hv. destruct (wf_val _ W a v Ha) as (Hid & Hst & _).
  pose proof (escrow_covers w A a v R Ha) as Hcov.
  assert (B1 : forall b, call_bal w1 b = call_bal w b) by (intros; apply call_bal_pop).
  unfold claim_unbonded. rewrite run_bind, (run_read_id w A a R Hv), Ha. cbv beta iota zeta.
  destruct (Z.eqb_spec (vi_id v) 0); [lia|]. destruct (Z.eqb_spec (vi_id v) (vi_id v)); [|done].
  cbn [negb]. rewrite run_bind, (run_read_status w A a v R Hv Ha). unfold vi_status. rewrite Hu.
  cbv beta iota zeta. cbn [Z.eqb Pos.eqb negb].
  rewrite run_bind, (run_read_unbond w A a v h R Hv Ha Hu). cbv beta iota zeta.
  rewrite run_bind. change (run read_unbonding_period_blocks w) with (period_of w, w).
  cbv beta iota zeta. rewrite run_try. unfold checked_add.
  destruct (Z.leb_spec (h + period_of w) U64_MAX); [|lia]. cbn [ok_or run].
  destruct (Z.ltb_spec block (h + period_of w)); [lia|].
  rewrite run_try, Er, run_try, run_pay_deduct.
  2: { rewrite B1. apply (rep_bals _ _ R), escrow_account. }
  2: { by rewrite B1. }
  rewrite run_try, run_pay_add; [|done| | |].
  - by rewrite run_bind, run_clear.
  - rewrite B1. by apply (rep_bals _ _ R), vs_account.
  - lia.
  - by rewrite B1.
Qed.

(** An unbonding validator past its period is paid exactly its stake. *)
Lemma run_claim w A a v h block :
  rep w A -> st_vals A !! a = Some v -> vi_unbond v = Some h ->
  h + period_of w <= block <= U64_MAX -> call_bal w a + vi_stake v <= U128_MAX ->
  exists w' q, run (claim_unbonded (vi_id v) a block) w = (Ok (vi_stake v), w') /\
    st_queue A ≡ₚ (vi_id v, vi_stake v) :: q /\ rep w' (st_remove a q A) /\
    call_bal w' a = call_bal w a + vi_stake v /\
    call_bal w' STAKING_ESCROW = call_bal w STAKING_ESCROW - vi_stake v.
Proof.
  intros R Ha Hu Hb Hov. pose proof (wf_dom _ (rep_wf _ _ R) a v Ha) as Hv.
  destruct (run_remove_from_queue w A a v h R Ha Hu) as (j & Hj & Er).
  pose proof (run_claim_eq w A a v h block _ R Ha Hu Hb Hov Er) as Run.
  set (w1 := pop_writes _ _ w) in *. set (w2 := pay_writes a (vi_stake v) w1) in *.
  pose proof (escrow_covers w A a v R Ha) as Hcov.
  assert (Bal : forall b, b ∈ accounts -> call_bal w2 b = if decide (b = a) then call_bal w a + vi_stake v
    else if decide (b = STAKING_ESCROW) then call_bal w b - vi_stake v else call_bal w b).
  { intros b Hb'. unfold w2. rewrite call_bal_pay by done. unfold w1. by rewrite !call_bal_pop. }
  assert (Esc : call_bal w2 STAKING_ESCROW = call_bal w STAKING_ESCROW - vi_stake v).
  { rewrite Bal by apply escrow_account. rewrite decide_False, decide_True;
      [lia | done | intros E; symmetry in E; by apply (not_escrow a)]. }
  exists (clear_writes a (vi_id v) w2), (swap_remove j (st_queue A)).
  split_and!; [done | by apply swap_remove_perm | | |].
  - apply (rep_leave_unbonding w A a v h); try done.
    + intros k. unfold w2. by rewrite rd_pay.
    + intros b Hb'. rewrite Bal by done. pose proof (rep_bals _ _ R b Hb') as F.
      repeat case_decide; subst; fit.
    + by rewrite Esc.
  - rewrite call_bal_clear, Bal by (by apply vs_account). by rewrite decide_True.
  - by rewrite call_bal_clear.
Qed.

(** ** Slashing *)

Lemma rd_wr_ext w1 w2 k v :
  (forall k', rd w1 k' = rd w2 k') -> forall k', rd (wr k v w1) k' = rd (wr k v w2) k'.
Proof.
  intros E k'. specialize (E k'). unfold rd, wr in *. cbn. rewrite !slot_put. by case_decide.
Qed.

Lemma rd_pop_ext w1 w2 j len :
  (forall k, rd w1 k = rd w2 k) -> forall k, rd (pop_writes j len w1) k = rd (pop_writes j len w2) k.
Proof.
  intros E. unfold pop_writes. rewrite (E (VQueue (len - 1))).
  apply rd_wr_ext, rd_wr_ext. destruct (_ && _); [by apply rd_wr_ext | done].
Qed.

Lemma srep_ext w w' A :
  (forall k, rd w' k = rd w k) -> (forall a, a ∈ accounts -> fits U128_MAX (call_bal w' a)) ->
  srep w A -> srep w' A.
Proof.
  intros E Hb [W V C U Ac Q B]. split; rewrite ?E; try done.
  - intros a Ha. eapply rep_val_ext; [|by apply V]. intros; apply E.
  - intros i x Hx. rewrite E. by apply Q.
Qed.

(** The escrow after a slash. *)
Definition burn_writes (s : Z) w : world :=
  if 0 <? s then put (slot_balance CALL_ASSET_ID STAKING_ESCROW) (call_bal w STAKING_ESCROW - s) w
  else w.

Lemma rd_burn s w k : rd (burn_writes s w) k = rd w k.
Proof. unfold burn_writes. destruct (0 <? s); [apply rd_put | done]. Qed.

Lemma call_bal_burn s w b :
  0 <= s -> b ∈ accounts ->
  call_bal (burn_writes s w) b = if decide (b = STAKING_ESCROW) then call_bal w b - s else call_bal w b.
Proof.
  intros Hs Hb. unfold burn_writes. destruct (Z.ltb_spec 0 s).
  - rewrite call_bal_put by auto using escrow_account. repeat case_decide; subst; congruence.
  - replace s with 0 by lia. case_decide; lia.
Qed.

Lemma burn_fits w A a v b :
  rep w A -> st_vals A !! a = Some v -> b ∈ accounts ->
  fits U128_MAX (call_bal (burn_writes (vi_stake v) w) b).
Proof.
  intros R Ha Hb. pose proof (escrow_covers w A a v R Ha). rewrite call_bal_burn by (done || lia).
  pose proof (rep_bals _ _ R b Hb). case_decide; subst; fit.
Qed.

(** The slash up to the removal of the queue entry. *)
Lemma run_slash_burn w A a v :
  rep w A -> st_vals A !! a = Some v ->
  run (if 0 <? vi_stake v then
         ledger EscrowUnderflow (deduct_balance CALL_ASSET_ID STAKING_ESCROW (vi_stake v))
       else Ret (Ok tt)) w = (Ok tt, burn_writes (vi_stake v) w).
Proof.
  intros R Ha. unfold burn_writes. destruct (0 <? vi_stake v); [|done].
  apply run_pay_deduct; [apply (rep_bals _ _ R), escrow_account|].
  by eapply escrow_covers.
Qed.

Lemma slash_active_eq w A a v :
  rep w A -> st_vals A !! a = Some v -> vi_unbond v = None ->
  run (slash_stake a) w =
    (Ok (vi_stake v), wr VActive (st_active A - 1) (clear_writes a (vi_id v)
       (burn_writes (vi_stake v) w))).
Proof.
  intros R Ha Hu. pose proof (rep_wf _ _ R) as W. pose proof (wf_dom _ W a v Ha) as Hv.
  destruct (wf_val _ W a v Ha) as (Hid & _). pose proof (wf_count _ W).
  assert (R1 : srep (burn_writes (vi_stake v) w) A).
  { eapply srep_ext; [apply rd_burn | intros; by eapply burn_fits | apply R]. }
  unfold slash_stake. rewrite run_bind, (run_read_id w A a R Hv), Ha. cbv beta iota zeta.
  destruct (Z.eqb_spec (vi_id v) 0); [lia|].
  rewrite run_bind, (run_read_stake w A a v R Hv Ha). cbv beta iota zeta.
  rewrite run_try, (run_slash_burn w A a v R Ha).
  rewrite run_bind, (run_read_status _ A a v R1 Hv Ha). unfold vi_status. rewrite Hu.
  cbv beta iota zeta. cbn [Z.eqb Pos.eqb]. rewrite run_try. cbn [run].
  rewrite run_bind, run_clear. cbv beta iota zeta. rewrite run_bind.
  set (w2 := clear_writes a (vi_id v) (burn_writes (vi_stake v) w)).
  assert (Ea : run read_active_validator_count w2 = (st_active A, w2)).
  { unfold read_active_validator_count, vload. rewrite run_bind, w_run_load. cbn [run].
    change (wslot w2 VALIDATOR_ADDRESS slot_active_validator_count) with (rd w2 VActive).
    unfold w2. rewrite rd_clear_other, rd_burn, (rep_active _ _ R);
      [|done|lia|done|split; [unfold keys_of|]; naive_solver].
    pose proof (active_bound A W). pose proof (lay_bound layout). by rewrite u256_to_u64_id by fit. }
  rewrite run_bind, Ea. cbv beta iota zeta. unfold vstore. rewrite w_run_store. cbv beta iota zeta.
  pose proof (active_bound A W). pose proof (lay_bound layout).
  assert (0 < st_active A) by (pose proof (active_member a v A Ha Hu); unfold st_active in *; lia).
  rewrite Z.max_r, u64_to_u256_id by fit. done.
Qed.

Lemma slash_unbonding_eq w A a v h :
  rep w A -> st_vals A !! a = Some v -> vi_unbond v = Some h ->
  exists j, st_queue A !! j = Some (vi_id v, vi_stake v) /\
  run (slash_stake a) w =
    (Ok (vi_stake v), clear_writes a (vi_id v)
       (pop_writes (Z.of_nat j) (Z.of_nat (length (st_queue A))) (burn_writes (vi_stake v) w))).
Proof.
  intros R Ha Hu. pose proof (rep_wf _ _ R) as W. pose proof (wf_dom _ W a v Ha) as Hv.
  destruct (wf_val _ W a v Ha) as (Hid & _).
  assert (R1 : srep (burn_writes (vi_stake v) w) A).
  { eapply srep_ext; [apply rd_burn | intros; by eapply burn_fits | apply R]. }
  destruct (run_remove_from_queue _ A a v h R1 Ha Hu) as (j & Hj & Er). exists j. split; [done|].
  unfold slash_stake. rewrite run_bind, (run_read_id w A a R Hv), Ha. cbv beta iota zeta.
  destruct (Z.eqb_spec (vi_id v) 0); [lia|].
  rewrite run_bind, (run_read_stake w A a v R Hv Ha). cbv beta iota zeta.
  rewrite run_try, (run_slash_burn w A a v R Ha).
  rewrite run_bind, (run_read_status _ A a v R1 Hv Ha). unfold vi_status. rewrite Hu.
  cbv beta iota zeta. cbn [Z.eqb Pos.eqb]. rewrite run_try, run_try, Er. cbn [run].
  rewrite run_bind, run_clear. by rewrite run_bind.
Qed.

(** A slash burns exactly the stake and removes the validator. *)
Lemma run_slash w A a v :
  rep w A -> st_vals A !! a = Some v ->
  exists w' q, run (slash_stake a) w = (Ok (vi_stake v), w') /\
    rep w' (st_remove a q A) /\
    (forall b, b ∈ accounts -> call_bal w' b =
       if decide (b = STAKING_ESCROW) then call_bal w b - vi_stake v else call_bal w b).
Proof.
  intros R Ha. pose proof (rep_wf _ _ R) as W. pose proof (wf_dom _ W a v Ha) as Hv.
  destruct (wf_val _ W a v Ha) as (Hid & [Hs _] & _). pose proof (wf_count _ W).
  destruct (vi_unbond v) as [h|] eqn:Hu.
  - destruct (slash_unbonding_eq w A a v h R Ha Hu) as (j & Hj & E).
    set (w2 := pop_writes _ _ _) in E. exists (clear_writes a (vi_id v) w2), (swap_remove j (st_queue A)).
    assert (Bal : forall b, b ∈ accounts -> call_bal w2 b =
      if decide (b = STAKING_ESCROW) then call_bal w b - vi_stake v else call_bal w b).
    { intros b Hb. unfold w2. rewrite call_bal_pop. by apply call_bal_burn. }
    split_and!; [done| |intros; rewrite call_bal_clear; by apply Bal].
    apply (rep_leave_unbonding w A a v h); try done.
    + apply rd_pop_ext, rd_burn.
    + intros b Hb. unfold w2. rewrite call_bal_pop. by eapply burn_fits.
    + rewrite Bal by apply escrow_account. by rewrite decide_True.
  - pose proof (slash_active_eq w A a v R Ha Hu) as E.
    set (w2 := clear_writes _ _ _) in E. exists (wr VActive (st_active A - 1) w2), (st_queue A).
    assert (Bal : forall b, b ∈ accounts -> call_bal w2 b =
      if decide (b = STAKING_ESCROW) then call_bal w b - vi_stake v else call_bal w b).
    { intros b Hb. unfold w2. rewrite call_bal_clear. by apply call_bal_burn. }
    assert (Rd : forall k, live k -> spared a k -> k <> VActive ->
      rd (wr VActive (st_active A - 1) w2) k = rd w k).
    { intros k Hk Hsp Hne. rewrite rd_wr, decide_False by done. unfold w2.
      rewrite rd_clear_other, rd_burn by (done || lia). done. }
    assert (Sp : forall k, (forall b, ~ keys_of b k) -> (forall i, k <> VAddr i) -> spared a k)
      by (intros; split; auto).
    split_and!; [done| |intros; rewrite call_bal_wr; by apply Bal].
    apply (rep_remove w A a v); rewrite ?Hu; try done.
    + intros b k Hbv Hne Hk. apply Rd; [by eapply keys_live | by eapply spared_other|].
      unfold keys_of in Hk. destruct_or! Hk; by subst.
    + rewrite rd_wr, decide_False by done. apply rd_clear_id; [done | lia].
    + apply Rd; [done | apply Sp; unfold keys_of; naive_solver | done].
    + rewrite Rd, (rep_ucount _ _ R); [done|done|apply Sp; unfold keys_of; naive_solver|done].
    + rewrite rd_wr, !decide_True by done. done.
    + intros i x Hx. rewrite Rd; [by apply (rep_queue _ _ R)| |apply Sp; unfold keys_of; naive_solver|done].
      pose proof (wf_qlen _ W). apply lookup_lt_Some in Hx. cbn. lia.
    + intros b Hb. rewrite call_bal_wr. unfold w2. rewrite call_bal_clear. by eapply burn_fits.
    + rewrite call_bal_wr, Bal by apply escrow_account. by rewrite decide_True.
Qed.

(** ** Staking *)

Definition deposit_writes (a s : Z) w : world :=
  put (slot_balance CALL_ASSET_ID STAKING_ESCROW) (call_bal w STAKING_ESCROW + s)
    (put (slot_balance CALL_ASSET_ID a) (call_bal w a - s) w).

Definition stake_writes (a id : Z) (pk : list Z) (s active : Z) w : world :=
  wr VActive (active + 1) (wr (VStatus a) 1 (wr (VPubkey a) (from_be pk) (wr (VStake a) s
    (wr (VAddr id) (address_to_u256 a) (wr (VId a) id (wr VCount id w)))))).

Lemma rd_deposit a s w k : rd (deposit_writes a s w) k = rd w k.
Proof. unfold deposit_writes. by rewrite !rd_put. Qed.

Lemma call_bal_deposit a s w b :
  a ∈ vs -> b ∈ accounts ->
  call_bal (deposit_writes a s w) b =
    if decide (b = STAKING_ESCROW) then call_bal w b + s
    else if decide (b = a) then call_bal w b - s else call_bal w b.
Proof.
  intros Ha Hb. unfold deposit_writes.
  rewrite !call_bal_put by auto using escrow_account, vs_account.
  repeat case_decide; subst; congruence.
Qed.

Lemma call_bal_stake a id pk s act w b : call_bal (stake_writes a id pk s act w) b = call_bal w b.
Proof. unfold stake_writes. by rewrite !call_bal_wr. Qed.

Lemma run_deposit w a s :
  a ∈ vs -> fits U128_MAX (call_bal w a) -> fits U128_MAX (call_bal w STAKING_ESCROW) ->
  0 <= s <= call_bal w a -> call_bal w STAKING_ESCROW + s <= U128_MAX ->
  let w1 := put (slot_balance CALL_ASSET_ID a) (call_bal w a - s) w in
  run (ledger VInsufficientBalance (deduct_balance CALL_ASSET_ID a s)) w = (Ok tt, w1) /\
  run (ledger EscrowOverflow (add_balance CALL_ASSET_ID STAKING_ESCROW s)) w1 =
    (Ok tt, deposit_writes a s w).
Proof.
  intros Ha Hf Hfe Hs Hb w1.
  assert (E : call_bal w1 STAKING_ESCROW = call_bal w STAKING_ESCROW).
  { unfold w1. rewrite call_bal_put by auto using escrow_account, vs_account.
    rewrite decide_False; [done | by apply not_escrow]. }
  unfold call_bal in E. unfold ledger. rewrite !run_map_err. split.
  - rewrite run_deduct_balance by (done || lia). unfold call_bal in *.
    destruct (Z.ltb_spec (bal w CALL_ASSET_ID a) s); [lia | done].
  - rewrite run_add_balance; [|by rewrite E|lia]. rewrite E. unfold call_bal in *.
    destruct (Z.ltb_spec U128_MAX (bal w CALL_ASSET_ID STAKING_ESCROW + s)); [lia | done].
Qed.

Lemma run_stake_eq w A a pk s :
  rep w A -> a ∈ vs -> st_vals A !! a = None -> st_count A < n ->
  MIN_SELF_STAKE <= s <= call_bal w a -> pk <> replicate 32 0 ->
  call_bal w STAKING_ESCROW + s <= U128_MAX ->
  run (stake pk s a) w =
    (Ok tt, stake_writes a (st_count A + 1) pk s (st_active A) (deposit_writes a s w)).
Proof.
  intros R Ha Hn Hc Hs Hpk Hb. pose proof (rep_wf _ _ R) as W. pose proof (lay_bound layout) as Hlb.
  pose proof (wf_count _ W) as Hcnt. pose proof (active_bound A W) as Hact.
  pose proof (rep_bals _ _ R a (vs_account a Ha)) as Fa. pose proof Fa as [_ Fa2].
  assert (0 <= s) by (unfold MIN_SELF_STAKE in Hs; lia).
  destruct (run_deposit w a s Ha Fa (rep_bals _ _ R _ escrow_account) ltac:(lia) Hb) as [D1 D2].
  unfold stake. destruct (Z.ltb_spec s MIN_SELF_STAKE); [lia|].
  rewrite bool_decide_eq_false_2 by done.
  rewrite run_bind, (run_read_id w A a R Ha), Hn. cbv beta iota zeta. cbn [Z.eqb negb].
  rewrite run_try, D1, run_try, D2. clear D1 D2. set (wd := deposit_writes a s w).
  assert (Ec : run read_validator_count wd = (st_count A, wd)).
  { unfold read_validator_count, vload. rewrite run_bind, w_run_load. cbn [run].
    change (wslot wd VALIDATOR_ADDRESS slot_validator_count) with (rd wd VCount).
    unfold wd. rewrite rd_deposit, (rep_count _ _ R), u256_to_u64_id by fit. done. }
  rewrite run_bind, Ec. cbv beta iota zeta. rewrite run_try. unfold checked_add.
  destruct (Z.leb_spec (st_count A + 1) U64_MAX); [|lia]. cbn [ok_or run].
  rewrite !u64_to_u256_id, u128_to_u256_id by fit. unfold vstore.
  do 6 (rewrite run_bind, w_run_store; cbv beta iota zeta).
  match goal with |- context [run (prog_bind read_active_validator_count _) ?x] => set (w6 := x) end.
  assert (E6 : rd w6 VActive = st_active A).
  { change w6 with (wr (VStatus a) 1 (wr (VPubkey a) (from_be pk) (wr (VStake a) s
      (wr (VAddr (st_count A + 1)) (address_to_u256 a) (wr (VId a) (st_count A + 1)
      (wr VCount (st_count A + 1) wd)))))).
    rewrite !rd_wr by (done || (cbn; lia)). rewrite !decide_False by done.
    unfold wd. by rewrite rd_deposit, (rep_active _ _ R). }
  assert (Ea : run read_active_validator_count w6 = (st_active A, w6)).
  { unfold read_active_validator_count, vload. rewrite run_bind, w_run_load. cbn [run].
    change (wslot w6 VALIDATOR_ADDRESS slot_active_validator_count) with (rd w6 VActive).
    by rewrite E6, u256_to_u64_id by fit. }
  rewrite run_bind, Ea. cbv beta iota zeta. rewrite run_try.
  destruct (Z.leb_spec (st_active A + 1) U64_MAX); [|lia]. cbn [ok_or run].
  rewrite run_bind, w_run_store. by rewrite u64_to_u256_id by fit.
Qed.

Lemma st_wf_stake A a pk s :
  st_wf A -> a ∈ vs -> st_vals A !! a = None -> st_count A < n -> fits U128_MAX s ->
  st_wf (st_stake a pk s A).
Proof.
  intros W Ha Hn Hc Hs. pose proof (wf_count _ W) as Hcnt. split; cbn.
  - intros b v [[<- _]|[_ Hb]]%lookup_insert_Some; [done | by eapply wf_dom].
  - intros b v [[<- <-]|[_ Hb]]%lookup_insert_Some; cbn.
    + split_and!; [lia | lia | done | done].
    + destruct (wf_val _ W b v Hb) as (? & ? & ?). split_and!; try done; lia.
  - intros b c vb vc [[<- <-]|[Hne1 Hb]]%lookup_insert_Some [[<- <-]|[Hne2 Hc']]%lookup_insert_Some;
      cbn; intros E; try done.
    + destruct (wf_val _ W c vc Hc') as (? & _). lia.
    + destruct (wf_val _ W b vb Hb) as (? & _). lia.
    + by eapply (wf_ids _ W).
  - intros x. rewrite (wf_queue _ W). split; intros (b & v & h & Hb & Hv & ->).
    + exists b, v, h. split_and!; try done. rewrite lookup_insert_ne; [done|]. congruence.
    + apply lookup_insert_Some in Hb as [[<- <-]|[_ Hb]]; [done|]. eauto 10.
  - apply (wf_qids _ W).
  - lia.
  - apply (wf_qlen _ W).
Qed.

(** Staking registers the caller with the next id and escrows the stake. *)
Lemma run_stake w A a pk s :
  rep w A -> a ∈ vs -> st_vals A !! a = None -> st_count A < n ->
  MIN_SELF_STAKE <= s <= call_bal w a -> pk <> replicate 32 0 ->
  call_bal w STAKING_ESCROW + s <= U128_MAX ->
  exists w', run (stake pk s a) w = (Ok tt, w') /\ rep w' (st_stake a pk s A) /\
    call_bal w' a = call_bal w a - s /\
    call_bal w' STAKING_ESCROW = call_bal w STAKING_ESCROW + s.
Proof.
  intros R Ha Hn Hc Hs Hpk Hb. rewrite (run_stake_eq w A a pk s) by done.
  pose proof (rep_wf _ _ R) as W. pose proof (wf_count _ W) as Hcnt. pose proof (wf_qlen _ W) as Hql.
  pose proof (rep_bals _ _ R a (vs_account a Ha)) as Fa.
  assert (Hs0 : 0 <= s) by (unfold MIN_SELF_STAKE in Hs; lia).
  set (wd := deposit_writes a s w). set (w' := stake_writes _ _ _ _ _ wd). exists w'.
  assert (Bal : forall b, b ∈ accounts -> call_bal w' b =
    if decide (b = STAKING_ESCROW) then call_bal w b + s
    else if decide (b = a) then call_bal w b - s else call_bal w b).
  { intros b Hb'. unfold w'. rewrite call_bal_stake. by apply call_bal_deposit. }
  assert (Rd : forall k, live k -> ~ keys_of a k -> (forall i, k <> VAddr i) -> k <> VCount ->
    k <> VActive -> rd w' k = rd w k).
  { intros k Hk Hna Hi H1 H2. unfold w', stake_writes, keys_of in *.
    rewrite !rd_wr by (done || (cbn; lia)).
    rewrite !decide_False by first [congruence | intros <-; tauto | intros E; symmetry in E; by eapply Hi].
    apply rd_deposit. }
  assert (Esc : call_bal w' STAKING_ESCROW = call_bal w STAKING_ESCROW + s).
  { rewrite Bal by apply escrow_account. by rewrite decide_True. }
  split_and!; [done| | |done].
  2: { rewrite Bal by (by apply vs_account). rewrite decide_False by (by apply not_escrow).
       by rewrite decide_True. }
  split; [split|].
  - apply st_wf_stake; try done. fit.
  - intros b Hbv. cbn. destruct (decide (a = b)) as [<-|Hne].
    + rewrite lookup_insert_eq. cbn. unfold w', stake_writes. rewrite !rd_wr by (done || (cbn; lia)).
      repeat first [rewrite decide_True by done | rewrite decide_False by done]. done.
    + rewrite lookup_insert_ne by done. eapply rep_val_ext; [|by apply (rep_vals _ _ R)].
      intros k Hk. apply Rd; [by eapply keys_live|..]; unfold keys_of in *; intros;
        destruct_or! Hk; subst; try done; naive_solver.
  - cbn. unfold w', stake_writes. rewrite !rd_wr by (done || (cbn; lia)).
    repeat first [rewrite decide_True by done | rewrite decide_False by done]. done.
  - cbn. rewrite Rd by (done || (unfold keys_of; naive_solver)). apply (rep_ucount _ _ R).
  - unfold st_stake. rewrite active_insert by done. unfold w', stake_writes.
    rewrite rd_wr, decide_True by done. done.
  - cbn. intros i x Hx. pose proof (lookup_lt_Some _ _ _ Hx).
    rewrite Rd by (done || (cbn; lia) || (unfold keys_of; naive_solver)). by apply (rep_queue _ _ R).
  - intros b Hb'. rewrite Bal by done. pose proof (rep_bals _ _ R b Hb').
    repeat case_decide; subst; fit.
  - unfold st_stake. rewrite total_insert by done. cbn. rewrite Esc.
    pose proof (rep_solvent _ _ R). lia.
Qed.

(** ** Unbonding *)

Definition unstake_writes (a id s active height len : Z) w : world :=
  wr VUCount (len + 1) (wr (VQueue len) (pack_unbonding id s) (wr (VUnbond a) height
    (wr (VStatus a) 2 (wr VActive (active - 1) w)))).

Lemma run_unstake_eq w A a v height :
  rep w A -> st_vals A !! a = Some v -> vi_unbond v = None -> fits U64_MAX height ->
  floor_of w <= st_active A - 1 -> Z.of_nat (length (st_queue A)) < n ->
  run (unstake (vi_id v) a height) w =
    (Ok tt, unstake_writes a (vi_id v) (vi_stake v) (st_active A) height
              (Z.of_nat (length (st_queue A))) w).
Proof.
  intros R Ha Hu Hh Hfl Hlen. pose proof (rep_wf _ _ R) as W. pose proof (lay_bound layout) as Hlb.
  pose proof (wf_dom _ W a v Ha) as Hv. destruct (wf_val _ W a v Ha) as (Hid & _).
  pose proof (active_bound A W) as Hact.
  assert (Hpos : 0 < st_active A) by (pose proof (active_member a v A Ha Hu); unfold st_active in *; lia).
  unfold unstake. rewrite run_bind, (run_read_id w A a R Hv), Ha. cbv beta iota zeta.
  destruct (Z.eqb_spec (vi_id v) 0); [lia|]. destruct (Z.eqb_spec (vi_id v) (vi_id v)); [|done].
  cbn [negb]. rewrite run_bind, (run_read_status w A a v R Hv Ha). unfold vi_status. rewrite Hu.
  cbv beta iota zeta. cbn [Z.eqb Pos.eqb negb].
  rewrite run_bind, (run_read_active w A R). cbv beta iota zeta.
  rewrite run_bind. change (run read_safety_floor w) with (floor_of w, w). cbv beta iota zeta.
  destruct (Z.ltb_spec (st_active A - 1) (floor_of w)); [lia|]. rewrite andb_false_r.
  rewrite run_bind, (run_read_stake w A a v R Hv Ha). cbv beta iota zeta. unfold vstore.
  do 3 (rewrite run_bind, w_run_store; cbv beta iota zeta).
  rewrite Z.max_r, !u64_to_u256_id by fit.
  match goal with |- context [run (prog_bind read_unbonding_count _) ?x] => set (w3 := x) end.
  assert (E3 : rd w3 VUCount = Z.of_nat (length (st_queue A))).
  { change w3 with (wr (VUnbond a) height (wr (VStatus a) 2 (wr VActive (st_active A - 1) w))).
    rewrite !rd_wr by done. rewrite !decide_False by done. apply (rep_ucount _ _ R). }
  assert (Eu : run read_unbonding_count w3 = (Z.of_nat (length (st_queue A)), w3)).
  { unfold read_unbonding_count, vload. rewrite run_bind, w_run_load. cbn [run].
    change (wslot w3 VALIDATOR_ADDRESS slot_unbonding_count) with (rd w3 VUCount).
    by rewrite E3, u256_to_u64_id by fit. }
  rewrite run_bind, Eu. cbv beta iota zeta. rewrite run_bind, w_run_store. cbv beta iota zeta.
  rewrite run_try. unfold checked_add.
  destruct (Z.leb_spec (Z.of_nat (length (st_queue A)) + 1) U64_MAX); [|lia]. cbn [ok_or run].
  rewrite run_bind, w_run_store. by rewrite u64_to_u256_id by fit.
Qed.

Lemma st_wf_unstake A a v h :
  st_wf A -> st_vals A !! a = Some v -> vi_unbond v = None -> fits U64_MAX h ->
  Z.of_nat (length (st_queue A)) < n -> st_wf (st_unstake a h v A).
Proof.
  intros W Ha Hu Hh Hlen.
  assert (Hnew : vi_id v ∉ (st_queue A).*1).
  { intros ([i s] & E & Hin)%list_elem_of_fmap. cbn in E. subst i.
    apply (wf_queue _ W) in Hin as (b & u & h' & Hb & Hub & [= E _]).
    assert (a = b) as <- by (by eapply (wf_ids _ W)). congruence. }
  split; cbn.
  - intros b u [[<- _]|[_ Hb]]%lookup_insert_Some; by eapply wf_dom.
  - intros b u [[<- <-]|[_ Hb]]%lookup_insert_Some; [|by eapply wf_val].
    destruct (wf_val _ W a v Ha) as (? & ? & _). cbn. split_and!; try done; try lia.
    intros ? [= <-]. done.
  - intros b c vb vc [[<- <-]|[_ Hb]]%lookup_insert_Some [[<- <-]|[_ Hc]]%lookup_insert_Some;
      cbn; intros E; try done; by eapply (wf_ids _ W).
  - intros x. rewrite elem_of_app, list_elem_of_singleton, (wf_queue _ W). split.
    + intros [(b & u & h' & Hb & Hub & ->)| ->].
      * exists b, u, h'. split_and!; try done. rewrite lookup_insert_ne; [done|]. congruence.
      * eexists a, _, h. rewrite lookup_insert_eq. split_and!; done.
    + intros (b & u & h' & [[<- <-]|[Hne Hb]]%lookup_insert_Some & Hub & ->); [by right|].
      left. eauto 10.
  - rewrite fmap_app. apply NoDup_app. split_and!; [apply (wf_qids _ W)| |apply NoDup_singleton].
    intros x Hx ->%list_elem_of_singleton. done.
  - apply (wf_count _ W).
  - rewrite length_app. cbn. lia.
Qed.

(** Unbonding queues the stake and leaves the safety floor intact. *)
Lemma run_unstake w A a v height :
  rep w A -> st_vals A !! a = Some v -> vi_unbond v = None -> fits U64_MAX height ->
  floor_of w <= st_active A - 1 -> Z.of_nat (length (st_queue A)) < n ->
  exists w', run (unstake (vi_id v) a height) w = (Ok tt, w') /\
    rep w' (st_unstake a height v A) /\ (forall b, call_bal w' b = call_bal w b).
Proof.
  intros R Ha Hu Hh Hfl Hlen. rewrite (run_unstake_eq w A a v height) by done.
  pose proof (rep_wf _ _ R) as W. pose proof (wf_dom _ W a v Ha) as Hv.
  set (len := Z.of_nat (length (st_queue A))) in *. set (w' := unstake_writes _ _ _ _ _ _ w).
  assert (Bal : forall b, call_bal w' b = call_bal w b)
    by (intros; unfold w', unstake_writes; by rewrite !call_bal_wr).
  assert (Rd : forall k, live k -> k <> VStatus a -> k <> VUnbond a -> k <> VUCount -> k <> VActive ->
    k <> VQueue len -> rd w' k = rd w k).
  { intros k Hk H1 H2 H3 H4 H5. unfold w', unstake_writes. rewrite !rd_wr by (done || (cbn; lia)).
    by rewrite !decide_False by congruence. }
  exists w'. split_and!; [done| |done]. split; [split|].
  - by apply st_wf_unstake.
  - intros b Hbv. cbn. destruct (decide (a = b)) as [<-|Hne].
    + rewrite lookup_insert_eq. pose proof (rep_vals _ _ R a Hv) as V. rewrite Ha in V.
      destruct V as (V1 & V2 & _ & V4 & _). cbn. rewrite !(Rd (VId a)), (Rd (VStake a)), (Rd (VPubkey a)) by done.
      split_and!; try done; unfold w', unstake_writes; rewrite !rd_wr by (done || (cbn; lia));
        repeat first [rewrite decide_True by done | rewrite decide_False by done]; done.
    + rewrite lookup_insert_ne by done. eapply rep_val_ext; [|by apply (rep_vals _ _ R)].
      intros k Hk. apply Rd; [by eapply keys_live|..]; unfold keys_of in Hk; destruct_or! Hk; subst;
        congruence.
  - cbn. rewrite Rd by done. apply (rep_count _ _ R).
  - cbn. unfold w', unstake_writes. rewrite rd_wr, decide_True by done.
    rewrite length_app. cbn. lia.
  - unfold st_unstake. rewrite (active_update a v) by done. unfold w', unstake_writes.
    rewrite !rd_wr by (done || (cbn; lia)).
    repeat first [rewrite decide_True by done | rewrite decide_False by done]. done.
  - cbn. intros i x Hx. destruct (decide (i = length (st_queue A))) as [->|Hne].
    + rewrite lookup_app_r, Nat.sub_diag in Hx by done. injection Hx as <-. fold len.
      unfold w', unstake_writes. rewrite !rd_wr by (done || (cbn; lia)).
      rewrite decide_False, decide_True by done. done.
    + assert (i < length (st_queue A))%nat.
      { apply lookup_lt_Some in Hx. rewrite length_app in Hx. cbn in Hx. lia. }
      rewrite lookup_app_l in Hx by done. rewrite Rd; try done; [|cbn; lia|intros [= E]; lia].
      by apply (rep_queue _ _ R).
  - intros b Hb. rewrite Bal. by apply (rep_bals _ _ R).
  - unfold st_unstake. rewrite (total_update a v) by done. rewrite Bal. apply (rep_solvent _ _ R).
Qed.

End Spec.
