(* ===== verification/ValidatorProps.v ===== *)
(** * ValidatorProps: properties of the validator precompile

    What every staking operation answers on every branch, the solvency of the
    escrow along any sequence of operations, the full cycle of a stake, the
    entry points on the production provider, and what a slash does to the
    total supply. *)

From stdpp Require Import base gmap list strings.
From Stdlib Require Import ZArith Lia.
From S2P Require Import Prelude Provider World EvmProvider Refinement Dispatch Utils.
From S2P Require Import Asset AssetSpec AssetPrecompile AssetPrecompileSpec SimpleJournal.
From S2P Require Import ProviderProps Validator ValidatorSpec.

Local Open Scope Z_scope.
Local Open Scope callnode_scope.

(** ** Operations and their answers *)

Inductive vop : Type :=
| DoStake (a : Z) (pk : list Z) (s : Z)
| DoUnstake (a id h : Z)
| DoClaim (a id h : Z)
| DoSlash (a : Z).

(** The account an operation is about. *)
Definition vop_account (o : vop) : Z :=
  match o with DoStake a _ _ | DoUnstake a _ _ | DoClaim a _ _ | DoSlash a => a end.

(** Block heights are 64-bit. *)
Definition vop_fits (o : vop) : Prop :=
  match o with DoUnstake _ _ h | DoClaim _ _ h => fits U64_MAX h | _ => True end.

Section Spec.
Context `{Keccak}.
Implicit Types (w : world) (A : staking) (o : vop).

Definition no_amount (p : prog (vres unit)) : prog (vres Z) := do? p; Ret (Ok 0).

Definition vop_prog o : prog (vres Z) :=
  match o with
  | DoStake a pk s => no_amount (stake pk s a)
  | DoUnstake a id h => no_amount (unstake id a h)
  | DoClaim a id h => claim_unbonded id a h
  | DoSlash a => slash_stake a
  end.

(** The answer the registry prescribes, errors in order of the checks. *)
Definition verdict o w A : vres Z :=
  match o with
  | DoStake a pk s =>
      if s <? MIN_SELF_STAKE then Err BelowMinimumStake else
      if bool_decide (pk = replicate 32 0) then Err InvalidPubkey else
      match st_vals A !! a with
      | Some _ => Err AlreadyStaked
      | None =>
          if call_bal w a <? s then Err VInsufficientBalance else
          if U128_MAX <? call_bal w STAKING_ESCROW + s then Err EscrowOverflow else Ok 0
      end
  | DoUnstake a id _ =>
      match st_vals A !! a with
      | None => Err NotAValidator
      | Some v =>
          if negb (vi_id v =? id) then Err IdMismatch else
          if bool_decide (vi_unbond v = None)
          then if st_active A - 1 <? floor_of w then Err BelowSafetyFloor else Ok 0
          else Err AlreadyUnbonding
      end
  | DoClaim a id block =>
      match st_vals A !! a with
      | None => Err NotAValidator
      | Some v =>
          if negb (vi_id v =? id) then Err IdMismatch else
          match vi_unbond v with
          | None => Err NotUnbonding
          | Some h =>
              if block <? h + period_of w then Err UnbondingPeriodNotElapsed else
              if U128_MAX <? call_bal w a + vi_stake v then Err VBalanceOverflow else
              Ok (vi_stake v)
          end
      end
  | DoSlash a => Ok (match st_vals A !! a with Some v => vi_stake v | None => 0 end)
  end.

(** The registry after a successful operation; the order of the unbonding
    queue is not prescribed when an entry leaves it. *)
Definition next o A A' : Prop :=
  match o with
  | DoStake a pk s => A' = st_stake a pk s A
  | DoUnstake a _ h => exists v, st_vals A !! a = Some v /\ A' = st_unstake a h v A
  | DoClaim a _ _ => exists q, A' = st_remove a q A
  | DoSlash a => match st_vals A !! a with
                 | Some _ => exists q, A' = st_remove a q A
                 | None => A' = A
                 end
  end.

(** What the escrow holds beyond the recorded stakes. *)
Definition surplus w A : Z := call_bal w STAKING_ESCROW - st_total A.

Variables (vs : list Z) (n : Z).
Hypothesis layout : layout_ok vs n.

(** An unbonding queue always has room for an active validator. *)
Lemma queue_room A a v :
  st_wf vs n A -> st_vals A !! a = Some v -> vi_unbond v = None ->
  Z.of_nat (length (st_queue A)) < n.
Proof.
  intros W Ha Hu.
  assert (Hin : (st_queue A).*1 ⊆ vi_id <$> (map_to_list (delete a (st_vals A))).*2).
  { intros i (x & -> & Hx)%list_elem_of_fmap. apply (wf_queue _ _ _ W) in Hx as (b & u & h & Hb & Hub & ->).
    apply list_elem_of_fmap. exists u. split; [done|]. apply list_elem_of_fmap. exists (b, u).
    split; [done|]. apply elem_of_map_to_list. rewrite lookup_delete_ne; [done|]. congruence. }
  apply (NoDup_submseteq _ _ (wf_qids _ _ _ W)) in Hin. apply submseteq_length in Hin.
  rewrite !length_fmap in Hin.
  rewrite length_map_to_list, map_size_delete_Some in Hin by eauto.
  assert (size (st_vals A) <= length vs)%nat.
  { rewrite <- (size_dom (D := gset Z)), <- (size_list_to_set (C := gset Z) vs (vs_NoDup _ _ layout)).
    apply subseteq_size. intros b (u & Hb)%elem_of_dom. apply elem_of_list_to_set. by eapply wf_dom. }
  assert (size (st_vals A) <> 0%nat).
  { intros E%map_size_empty_inv. by rewrite E in Ha. }
  pose proof (lay_bound _ _ layout). lia.
Qed.

Lemma no_amount_ok p w w' : run p w = (Ok tt, w') -> run (no_amount p) w = (Ok 0, w').
Proof. intros E. unfold no_amount. by rewrite run_try, E. Qed.

Lemma no_amount_err p w e : (run p w).1 = Err e -> (run (no_amount p) w).1 = Err e.
Proof. unfold no_amount. rewrite run_try. by destruct (run p w) as [[] ?]; intros [= <-]. Qed.

(** An operation answers the verdict; if it succeeds the registry makes the
    transition and the escrow's surplus is unchanged. *)
Definition conforms o w A : Prop :=
  match verdict o w A with
  | Err e => (run (vop_prog o) w).1 = Err e
  | Ok r => exists w' A', run (vop_prog o) w = (Ok r, w') /\ next o A A' /\
      rep vs n w' A' /\ surplus w' A' = surplus w A
  end.

Lemma stake_conforms w A a pk s :
  rep vs n w A -> a ∈ vs -> st_count A < n -> conforms (DoStake a pk s) w A.
Proof.
  intros R Ha Hc. unfold conforms. cbn [verdict vop_prog].
  pose proof (rep_bals _ _ _ _ R a (vs_account vs a Ha)) as Fa.
  pose proof (rep_bals _ _ _ _ R _ (escrow_account vs)) as Fe.
  destruct (s <? MIN_SELF_STAKE) eqn:Hmin.
  { apply no_amount_err. unfold stake. by rewrite Hmin. }
  destruct (bool_decide (pk = replicate 32 0)) eqn:Hpk.
  { apply no_amount_err. unfold stake. by rewrite Hmin, Hpk. }
  assert (Hs : 0 <= s) by (unfold MIN_SELF_STAKE in Hmin; lia).
  destruct (st_vals A !! a) as [v|] eqn:Hv.
  { apply no_amount_err. unfold stake. rewrite Hmin, Hpk, run_bind, (run_read_id _ _ layout w A a R Ha), Hv.
    destruct (wf_val _ _ _ (rep_wf _ _ _ _ R) a v Hv) as (Hid & _).
    cbv beta iota zeta. by destruct (Z.eqb_spec (vi_id v) 0); [lia|]. }
  destruct (call_bal w a <? s) eqn:Hb.
  { apply no_amount_err. unfold stake. rewrite Hmin, Hpk, run_bind, (run_read_id _ _ layout w A a R Ha), Hv.
    cbv beta iota zeta. cbn [Z.eqb negb]. unfold ledger. rewrite run_try, run_map_err.
    rewrite run_deduct_balance by (done || lia). unfold call_bal in Hb. by rewrite Hb. }
  destruct (U128_MAX <? call_bal w STAKING_ESCROW + s) eqn:Ho.
  { apply no_amount_err. unfold stake. rewrite Hmin, Hpk, run_bind, (run_read_id _ _ layout w A a R Ha), Hv.
    cbv beta iota zeta. cbn [Z.eqb negb]. unfold ledger. rewrite run_try, run_map_err.
    rewrite run_deduct_balance by (done || lia). unfold call_bal in Hb. rewrite Hb.
    cbn [fst snd map_err]. rewrite run_try, run_map_err.
    assert (E : forall x, bal (put (slot_balance CALL_ASSET_ID a) x w) CALL_ASSET_ID STAKING_ESCROW =
                bal w CALL_ASSET_ID STAKING_ESCROW).
    { intros x. pose proof (call_bal_put vs n layout a x w STAKING_ESCROW (vs_account vs a Ha)
        (escrow_account vs)) as E. rewrite decide_False in E by (by apply (not_escrow vs n)). exact E. }
    rewrite run_add_balance; [|by rewrite E|done]. rewrite E. unfold call_bal in Ho. by rewrite Ho. }
  destruct (run_stake vs n layout w A a pk s R Ha Hv Hc ltac:(lia)
    ltac:(by eapply bool_decide_eq_false_1) ltac:(lia)) as (w' & E & R' & _ & Be).
  exists w', (st_stake a pk s A). split_and!; [by apply no_amount_ok | done | done |].
  unfold surplus, st_stake. rewrite total_insert, Be by done. cbn. lia.
Qed.

Lemma unstake_conforms w A a id h :
  rep vs n w A -> a ∈ vs -> fits U64_MAX h -> conforms (DoUnstake a id h) w A.
Proof.
  intros R Ha Hh. unfold conforms. cbn [verdict vop_prog].
  pose proof (run_read_id _ _ layout w A a R Ha) as Eid.
  destruct (st_vals A !! a) as [v|] eqn:Hv.
  2: { apply no_amount_err. unfold unstake. by rewrite run_bind, Eid. }
  destruct (wf_val _ _ _ (rep_wf _ _ _ _ R) a v Hv) as (Hid & _).
  pose proof (run_read_status vs n w A a v R Ha Hv) as Est. unfold vi_status in Est.
  destruct (negb (vi_id v =? id)) eqn:Hi.
  { apply no_amount_err. unfold unstake. rewrite run_bind, Eid. cbv beta iota zeta.
    destruct (Z.eqb_spec (vi_id v) 0); [lia|]. by rewrite Hi. }
  apply negb_false_iff, Z.eqb_eq in Hi. subst id.
  destruct (vi_unbond v) as [h'|] eqn:Hu; cbn [bool_decide decide decide_rel].
  { rewrite bool_decide_eq_false_2 by done.
    apply no_amount_err. unfold unstake. rewrite run_bind, Eid. cbv beta iota zeta.
    destruct (Z.eqb_spec (vi_id v) 0); [lia|]. rewrite Z.eqb_refl. cbn [negb].
    by rewrite run_bind, Est. }
  rewrite bool_decide_eq_true_2 by done.
  destruct (Z.ltb_spec (st_active A - 1) (floor_of w)) as [Hf|Hf].
  { apply no_amount_err. unfold unstake. rewrite run_bind, Eid. cbv beta iota zeta.
    destruct (Z.eqb_spec (vi_id v) 0); [lia|]. rewrite Z.eqb_refl. cbn [negb].
    rewrite run_bind, Est. cbv beta iota zeta. cbn [Z.eqb Pos.eqb negb].
    rewrite run_bind, (run_read_active _ _ layout w A R). cbv beta iota zeta.
    rewrite run_bind. change (run read_safety_floor w) with (floor_of w, w). cbv beta iota zeta.
    pose proof (active_member a v A Hv Hu). unfold st_active in *.
    destruct (Z.ltb_spec 0 (Z.of_nat (size (filter (fun kv : Z * vinfo => vi_unbond kv.2 = None)
      (st_vals A))))); [|lia].
    by rewrite (proj2 (Z.ltb_lt _ _) Hf). }
  destruct (run_unstake vs n layout w A a v h R Hv Hu Hh Hf (queue_room A a v (rep_wf _ _ _ _ R) Hv Hu))
    as (w' & E & R' & B).
  exists w', (st_unstake a h v A). split_and!; [by apply no_amount_ok | cbn; eauto | done |].
  unfold surplus, st_unstake. by rewrite (total_update a v), B.
Qed.

(** A claim past the queue's removal, up to the payment. *)
Lemma claim_overflow w A a v h block :
  rep vs n w A -> st_vals A !! a = Some v -> vi_unbond v = Some h ->
  h + period_of w <= block <= U64_MAX -> U128_MAX < call_bal w a + vi_stake v ->
  (run (claim_unbonded (vi_id v) a block) w).1 = Err VBalanceOverflow.
Proof.
  intros R Hv Hu Hb Hov. pose proof (wf_dom _ _ _ (rep_wf _ _ _ _ R) a v Hv) as Ha.
  destruct (wf_val _ _ _ (rep_wf _ _ _ _ R) a v Hv) as (Hid & Hst & _).
  pose proof (escrow_covers vs n w A a v R Hv) as Hcov.
  destruct (run_remove_from_queue vs n layout w A a v h R Hv Hu) as (j & _ & Er).
  unfold claim_unbonded. rewrite run_bind, (run_read_id _ _ layout w A a R Ha), Hv. cbv beta iota zeta.
  destruct (Z.eqb_spec (vi_id v) 0); [lia|]. rewrite Z.eqb_refl. cbn [negb].
  rewrite run_bind, (run_read_status vs n w A a v R Ha Hv). unfold vi_status. rewrite Hu.
  cbv beta iota zeta. cbn [Z.eqb Pos.eqb negb].
  rewrite run_bind, (run_read_unbond vs n w A a v h R Ha Hv Hu). cbv beta iota zeta.
  rewrite run_bind. change (run read_unbonding_period_blocks w) with (period_of w, w).
  cbv beta iota zeta. rewrite run_try. unfold checked_add.
  destruct (Z.leb_spec (h + period_of w) U64_MAX); [|lia]. cbn [ok_or run].
  destruct (Z.ltb_spec block (h + period_of w)); [lia|].
  rewrite run_try, Er, run_try, run_pay_deduct; rewrite ?call_bal_pop;
    [|apply (rep_bals _ _ _ _ R), escrow_account | done].
  unfold ledger. rewrite run_try, run_map_err.
  match goal with |- context [run (add_balance _ _ _) ?x] => set (w1 := x) end.
  assert (E : bal w1 CALL_ASSET_ID a = call_bal w a).
  { change (call_bal w1 a = call_bal w a). unfold w1.
    rewrite (call_bal_put vs n) by auto using escrow_account, vs_account.
    rewrite decide_False by (intros E; symmetry in E; by apply (not_escrow vs n layout a)).
    by rewrite call_bal_pop. }
  rewrite run_add_balance; [|rewrite E; by apply (rep_bals _ _ _ _ R), vs_account | lia]. rewrite E.
  by rewrite (proj2 (Z.ltb_lt _ _) Hov).
Qed.

Lemma claim_conforms w A a id block :
  rep vs n w A -> a ∈ vs -> fits U64_MAX block -> conforms (DoClaim a id block) w A.
Proof.
  intros R Ha Hb. unfold conforms. cbn [verdict vop_prog].
  pose proof (run_read_id _ _ layout w A a R Ha) as Eid.
  destruct (st_vals A !! a) as [v|] eqn:Hv.
  2: { unfold claim_unbonded. by rewrite run_bind, Eid. }
  destruct (wf_val _ _ _ (rep_wf _ _ _ _ R) a v Hv) as (Hid & _).
  pose proof (run_read_status vs n w A a v R Ha Hv) as Est. unfold vi_status in Est.
  destruct (negb (vi_id v =? id)) eqn:Hi.
  { unfold claim_unbonded. rewrite run_bind, Eid. cbv beta iota zeta.
    destruct (Z.eqb_spec (vi_id v) 0); [lia|]. by rewrite Hi. }
  apply negb_false_iff, Z.eqb_eq in Hi. subst id.
  destruct (vi_unbond v) as [h|] eqn:Hu.
  2: { unfold claim_unbonded. rewrite run_bind, Eid. cbv beta iota zeta.
    destruct (Z.eqb_spec (vi_id v) 0); [lia|]. rewrite Z.eqb_refl. cbn [negb].
    by rewrite run_bind, Est. }
  destruct (Z.ltb_spec block (h + period_of w)) as [Hp|Hp].
  { unfold claim_unbonded. rewrite run_bind, Eid. cbv beta iota zeta.
    destruct (Z.eqb_spec (vi_id v) 0); [lia|]. rewrite Z.eqb_refl. cbn [negb].
    rewrite run_bind, Est. cbv beta iota zeta. cbn [Z.eqb Pos.eqb negb].
    rewrite run_bind, (run_read_unbond vs n w A a v h R Ha Hv Hu). cbv beta iota zeta.
    rewrite run_bind. change (run read_unbonding_period_blocks w) with (period_of w, w).
    cbv beta iota zeta. rewrite run_try. unfold checked_add.
    destruct (Z.leb_spec (h + period_of w) U64_MAX); cbn [ok_or run fst]; [|done].
    by rewrite (proj2 (Z.ltb_lt _ _) Hp). }
  assert (Hb' : h + period_of w <= block <= U64_MAX) by fit.
  destruct (Z.ltb_spec U128_MAX (call_bal w a + vi_stake v)) as [Ho|Ho].
  { by eapply claim_overflow. }
  destruct (run_claim vs n layout w A a v h block R Hv Hu Hb' Ho) as (w' & q & E & _ & R' & _ & Be).
  exists w', (st_remove a q A). split_and!; [done | cbn; eauto | done |].
  unfold surplus, st_remove. rewrite Be, (total_delete a v A q (st_count A) Hv). lia.
Qed.

Lemma slash_conforms w A a : rep vs n w A -> a ∈ vs -> conforms (DoSlash a) w A.
Proof.
  intros R Ha. unfold conforms. cbn [verdict vop_prog next].
  destruct (st_vals A !! a) as [v|] eqn:Hv.
  - destruct (run_slash vs n layout w A a v R Hv) as (w' & q & E & R' & B).
    exists w', (st_remove a q A). split_and!; [done | eauto | done |].
    unfold surplus, st_remove. rewrite (B _ (escrow_account vs)), decide_True by done.
    rewrite (total_delete a v A q (st_count A) Hv). lia.
  - exists w, A. split_and!; try done. unfold slash_stake.
    by rewrite run_bind, (run_read_id _ _ layout w A a R Ha), Hv.
Qed.

Lemma op_conforms o w A :
  rep vs n w A -> vop_account o ∈ vs -> vop_fits o -> st_count A < n -> conforms o w A.
Proof.
  destruct o; intros; [by apply stake_conforms | by apply unstake_conforms
    | by apply claim_conforms | by apply slash_conforms].
Qed.

(** ** Sequences of operations *)

(** A failed operation is rolled back by the call that made it. *)
Definition apply_vop o w : world :=
  match run (vop_prog o) w with (Ok _, w') => w' | (Err _, _) => w end.

Definition run_vops (os : list vop) w : world := foldl (fun w o => apply_vop o w) w os.

Lemma next_count o A A' : next o A A' -> st_count A' <= st_count A + 1.
Proof using Type.
  destruct o; cbn; [intros ->; cbn; lia | intros (v & _ & ->); cbn; lia
    | intros (q & ->); cbn; lia |].
  destruct (_ !! _); [intros (q & ->); cbn; lia | intros ->; lia].
Qed.

Lemma run_vops_rep os : forall w A,
  rep vs n w A -> Forall (fun o => vop_account o ∈ vs /\ vop_fits o) os ->
  st_count A + Z.of_nat (length os) <= n ->
  exists A', rep vs n (run_vops os w) A' /\ surplus (run_vops os w) A' = surplus w A.
Proof.
  induction os as [|o os IH]; intros w A R Hos Hn; [by exists A|].
  apply Forall_cons in Hos as [[Ha Hf] Hos]. cbn [length] in Hn.
  pose proof (op_conforms o w A R Ha Hf ltac:(lia)) as C. unfold conforms in C.
  cbn [run_vops foldl]. fold (run_vops os (apply_vop o w)). unfold apply_vop.
  destruct (verdict o w A) as [r|e].
  - destruct C as (w' & A' & E & Nx & R' & Su). rewrite E. pose proof (next_count o A A' Nx).
    destruct (IH w' A' R' Hos ltac:(lia)) as (A2 & R2 & S2). exists A2. by rewrite S2.
  - destruct (run (vop_prog o) w) as [r w']; cbn in C; subst r. apply (IH w A); [done|done|lia].
Qed.

(** The parameters governance sets survive staking and unbonding. *)
Lemma stake_writes_params a id pk s act w k :
  a ∈ vs -> 0 <= id <= n -> k = VFloor \/ k = VPeriod ->
  rd (stake_writes a id pk s act (deposit_writes a s w)) k = rd w k.
Proof.
  intros Ha Hid Hk. unfold stake_writes. destruct Hk as [-> | ->];
    rewrite !(rd_wr vs n) by done; rewrite !decide_False by done; apply rd_deposit.
Qed.

Lemma unstake_writes_params a id s act h len w k :
  a ∈ vs -> 0 <= len <= n -> k = VFloor \/ k = VPeriod ->
  rd (unstake_writes a id s act h len w) k = rd w k.
Proof.
  intros Ha Hl Hk. unfold unstake_writes. destruct Hk as [-> | ->];
    rewrite !(rd_wr vs n) by done; by rewrite !decide_False by done.
Qed.

(** The ledger words a slash changes. *)
Lemma slash_ledger w A a v k :
  rep vs n w A -> st_vals A !! a = Some v ->
  wslot (apply_vop (DoSlash a) w) ASSET_ADDRESS k = wslot (burn_writes (vi_stake v) w) ASSET_ADDRESS k.
Proof.
  intros R Hv. assert (F : forall k' x u, wslot (wr k' x u) ASSET_ADDRESS k = wslot u ASSET_ADDRESS k).
  { intros. unfold wr. cbn. by rewrite slot_put_ne. }
  unfold apply_vop. cbn [vop_prog]. destruct (vi_unbond v) as [h|] eqn:Hu.
  - destruct (slash_unbonding_eq vs n layout w A a v h R Hv Hu) as (j & _ & ->).
    unfold clear_writes, pop_writes. rewrite !F. destruct (_ && _); by rewrite ?F.
  - rewrite (slash_active_eq vs n layout w A a v R Hv Hu). unfold clear_writes. by rewrite !F.
Qed.

(** Staking then unbonding, from any registry that admits the stake. *)
Lemma stake_then_unstake w A a pk s h :
  rep vs n w A -> a ∈ vs -> st_count A < n -> verdict (DoStake a pk s) w A = Ok 0 ->
  floor_of w <= st_active A -> fits U64_MAX h ->
  let w2 := run_vops [DoStake a pk s; DoUnstake a (st_count A + 1) h] w in
  let v := mkV (st_count A + 1) s pk None in
  rep vs n w2 (st_unstake a h v (st_stake a pk s A)) /\ period_of w2 = period_of w /\
  call_bal w2 a = call_bal w a - s /\ call_bal w2 STAKING_ESCROW = call_bal w STAKING_ESCROW + s /\
  MIN_SELF_STAKE <= s.
Proof.
  intros R Ha Hc Vd Hf Hh w2 v. cbn [verdict] in Vd.
  destruct (Z.ltb_spec s MIN_SELF_STAKE); [done|].
  destruct (bool_decide_reflect (pk = replicate 32 0)); [done|].
  destruct (st_vals A !! a) eqn:Hv; [done|]. destruct (Z.ltb_spec (call_bal w a) s); [done|].
  destruct (Z.ltb_spec U128_MAX (call_bal w STAKING_ESCROW + s)); [done|]. clear Vd.
  pose proof (wf_count _ _ _ (rep_wf _ _ _ _ R)).
  destruct (run_stake vs n layout w A a pk s R Ha Hv Hc ltac:(lia) ltac:(done) ltac:(lia))
    as (w1 & E1 & R1 & Ba & Be).
  pose proof (run_stake_eq vs n layout w A a pk s R Ha Hv Hc ltac:(lia) ltac:(done) ltac:(lia)) as E1'.
  assert (P : forall k, k = VFloor \/ k = VPeriod -> rd w1 k = rd w k).
  { intros k Hk. rewrite E1 in E1'. injection E1' as ->. apply stake_writes_params; [done|lia|done]. }
  clear E1'. set (A1 := st_stake a pk s A) in *.
  assert (Hv1 : st_vals A1 !! a = Some v) by apply lookup_insert_eq.
  assert (Hf1 : floor_of w1 <= st_active A1 - 1).
  { unfold floor_of. rewrite P by auto. unfold A1, st_stake. rewrite active_insert by done.
    fold (floor_of w). lia. }
  pose proof (queue_room A1 a v (rep_wf _ _ _ _ R1) Hv1 eq_refl) as Hq.
  destruct (run_unstake vs n layout w1 A1 a v h R1 Hv1 eq_refl Hh Hf1 Hq) as (w2' & E2 & R2 & B2).
  pose proof (run_unstake_eq vs n layout w1 A1 a v h R1 Hv1 eq_refl Hh Hf1 Hq) as E2'.
  assert (Ew : w2 = w2').
  { unfold w2. cbn [run_vops foldl]. unfold apply_vop. cbn [vop_prog].
    rewrite (no_amount_ok _ _ _ E1). cbn [vi_id v] in E2.
    by rewrite (no_amount_ok _ _ _ E2). }
  rewrite Ew, !B2. split_and!; try done. rewrite E2 in E2'.
  assert (Ew2 : forall k, k = VFloor \/ k = VPeriod -> rd w2' k = rd w1 k).
  { assert (Z.of_nat (length (st_queue A)) < n) by exact Hq.
    intros k Hk. injection E2' as ->. apply unstake_writes_params; [done | lia | done]. }
  unfold period_of. by rewrite Ew2, P by auto.
Qed.

(** ** Properties *)

(** C30: every staking operation answers what the validator registry
    prescribes.  On any storage that represents a registry, [stake],
    [unstake], [claim_unbonded] and [slash_stake] return the first error whose
    condition holds, in the order of the checks, and otherwise succeed with the
    registry's transition; the storage then represents the new registry and
    the escrow holds exactly as much more or less as the recorded stakes. *)
Theorem staking_operation_conforms o w A :
  rep vs n w A -> vop_account o ∈ vs -> vop_fits o -> st_count A < n ->
  match verdict o w A with
  | Err e => (run (vop_prog o) w).1 = Err e
  | Ok r => exists w' A', run (vop_prog o) w = (Ok r, w') /\ next o A A' /\
      rep vs n w' A' /\ surplus w' A' = surplus w A
  end.
Proof. apply op_conforms. Qed.

(** C31: the staking escrow stays solvent.  After any sequence of staking,
    unbonding, claiming and slashing, failed calls rolled back, the escrow
    still covers every recorded stake, by the same margin as at the start. *)
Theorem escrow_always_solvent os w A :
  rep vs n w A -> Forall (fun o => vop_account o ∈ vs /\ vop_fits o) os ->
  st_count A + Z.of_nat (length os) <= n ->
  exists A', rep vs n (run_vops os w) A' /\
    st_total A' <= call_bal (run_vops os w) STAKING_ESCROW /\
    call_bal (run_vops os w) STAKING_ESCROW - st_total A' =
    call_bal w STAKING_ESCROW - st_total A.
Proof.
  intros R Hos Hn. destruct (run_vops_rep os w A R Hos Hn) as (A' & R' & Su).
  exists A'. split_and!; [done | apply (rep_solvent _ _ _ _ R') | exact Su].
Qed.

(** A stake comes back whole.  An account that may stake and then
    unbonds can claim once the unbonding period has passed; the claim pays
    exactly what was staked, the account and the escrow end with the balances
    they started with, and the registry has the same validators as before. *)
Theorem stake_cycle_returns_stake w A a pk s h block :
  rep vs n w A -> a ∈ vs -> st_count A < n -> verdict (DoStake a pk s) w A = Ok 0 ->
  floor_of w <= st_active A -> fits U64_MAX h -> h + period_of w <= block <= U64_MAX ->
  let id := st_count A + 1 in
  exists w3 A3,
    run (claim_unbonded id a block) (run_vops [DoStake a pk s; DoUnstake a id h] w) = (Ok s, w3) /\
    rep vs n w3 A3 /\ st_vals A3 = st_vals A /\
    call_bal w3 a = call_bal w a /\ call_bal w3 STAKING_ESCROW = call_bal w STAKING_ESCROW.
Proof.
  intros R Ha Hc Vd Hf Hh Hb id.
  destruct (stake_then_unstake w A a pk s h R Ha Hc Vd Hf Hh) as (R2 & P2 & Ba & Be & Hs).
  fold id in R2, P2, Ba, Be. set (w2 := run_vops _ w) in *. rewrite <- P2 in Hb.
  set (A2 := st_unstake _ _ _ _) in R2.
  assert (Hv2 : st_vals A2 !! a = Some (mkV id s pk (Some h))) by apply lookup_insert_eq.
  pose proof (rep_bals _ _ _ _ R a (vs_account vs a Ha)) as [_ Fa].
  destruct (run_claim vs n layout w2 A2 a (mkV id s pk (Some h)) h block R2 Hv2 eq_refl Hb
    ltac:(cbn [vi_stake]; lia))
    as (w3 & q & E3 & _ & R3 & Ba3 & Be3).
  assert (Hv : st_vals A !! a = None).
  { cbn [verdict] in Vd. destruct (s <? _); [done|].
    destruct (bool_decide (pk = _)); [done|]. by destruct (st_vals A !! a). }
  exists w3, (st_remove a q A2). cbn in *. split_and!; [done | done | | lia | lia].
  by rewrite insert_insert_eq, delete_insert_id.
Qed.

(** Slashing breaks the books of CALL.  The stake leaves the escrow's
    balance and no account receives it, while the recorded total supply keeps
    its value: wherever the balances added up to the supply before, they fall
    short of it by the slashed stake afterwards. *)
Theorem slash_breaks_supply w A a v :
  rep vs n w A -> st_vals A !! a = Some v -> 0 < vi_stake v ->
  slot_balance CALL_ASSET_ID STAKING_ESCROW <> supply_slot CALL_ASSET_ID ->
  supply_inv CALL_ASSET_ID (accounts vs) w ->
  let w' := apply_vop (DoSlash a) w in
  supply_of w' CALL_ASSET_ID = supply_of w CALL_ASSET_ID /\
  sum_of (bal w' CALL_ASSET_ID) (accounts vs) = supply_of w' CALL_ASSET_ID - vi_stake v /\
  ~ supply_inv CALL_ASSET_ID (accounts vs) w'.
Proof.
  intros R Hv Hs Hne I w'.
  assert (Es : supply_of w' CALL_ASSET_ID = supply_of w CALL_ASSET_ID).
  { unfold supply_of, meta_word. unfold w'. rewrite (slash_ledger w A a v) by done.
    unfold burn_writes. destruct (0 <? vi_stake v); [|done]. by rewrite wslot_put, decide_False. }
  assert (Eb : sum_of (bal w' CALL_ASSET_ID) (accounts vs) = supply_of w' CALL_ASSET_ID - vi_stake v).
  { assert (B : forall b, b ∈ accounts vs -> bal w' CALL_ASSET_ID b =
      if decide (b = STAKING_ESCROW) then call_bal w b - vi_stake v else call_bal w b).
    { intros b Hb. unfold bal at 1, w'. rewrite (slash_ledger w A a v) by done.
      rewrite <- (call_bal_burn vs n layout) by (done || lia). done. }
    rewrite Es, <- (inv_sum _ _ _ I).
    rewrite (sum_of_update (bal w CALL_ASSET_ID) _ (accounts vs) STAKING_ESCROW).
    - rewrite B, decide_True by (done || apply escrow_account). unfold call_bal. lia.
    - pose proof (lay_balances _ _ layout) as N. by apply NoDup_fmap_1 in N.
    - apply escrow_account.
    - intros b Hb Hne'. rewrite B, decide_False; done. }
  split_and!; [done | done |]. intros I'. pose proof (inv_sum _ _ _ I'). lia.
Qed.

End Spec.

(** ** The entry points on the production provider *)

(** [bytes32] arguments decode to 32 bytes. *)
Class ValidatorAbiLaws `{ValidatorAbi} : Prop := {
  dec_stake_pubkey : forall d c, dec_stake d = Ok c -> length (sk_pubkey c) = 32%nat
}.

Section Entry.
Context `{Keccak, HA : ValidatorAbi, HB : !ValidatorAbiLaws}.
Context {J : Type} `{HJ : JournalTr J} `{HL : !JournalLaws J}.
Implicit Types (s : EvmStorageProvider J) (w : world) (A : staking).

Lemma benign_vload wr k : benign wr (vload k).
Proof. unfold vload. guard_prog. Qed.

Lemma benign_vstore k v : benign true (vstore k v).
Proof. unfold vstore. guard_prog. Qed.

#[local] Hint Resolve benign_vload benign_vstore guarded_deduct_balance guarded_add_balance
  guarded_check_compliance : callnode.

Lemma benign_find_unbonding wr k : forall i id, benign wr (find_unbonding k i id).
Proof. induction k; intros; cbn [find_unbonding]; guard_prog. Qed.

#[local] Hint Resolve benign_find_unbonding : callnode.

Lemma guarded_remove_from_queue id : guarded true (remove_from_unbonding_queue id).
Proof. unfold remove_from_unbonding_queue, read_unbonding_count. guard_prog. Qed.

#[local] Hint Resolve guarded_remove_from_queue : callnode.

Lemma guarded_stake pk v a : guarded true (stake pk v a).
Proof.
  unfold stake, ledger, read_validator_id, read_validator_count, read_active_validator_count.
  guard_prog.
Qed.

Lemma guarded_unstake id a h : guarded true (unstake id a h).
Proof.
  unfold unstake, read_validator_id, read_val_status, read_active_validator_count,
    read_safety_floor, read_stake, read_unbonding_count. guard_prog.
Qed.

Lemma guarded_claim id a h : guarded true (claim_unbonded id a h).
Proof.
  unfold claim_unbonded, ledger, clear_validator_state, read_validator_id, read_val_status,
    read_unbond_height, read_unbonding_period_blocks. guard_prog.
Qed.

#[local] Hint Resolve guarded_stake guarded_unstake guarded_claim : callnode.

(** An event whose failure is ignored, cheap enough not to matter. *)
Lemma guarded_emit_ignored wr a ev (r : res unit) :
  log_gas ev <= COLD_SLOAD_COST -> guarded wr (do emit_event a ev; Ret r).
Proof. intros Hl. apply g_emit_dropped; [done | constructor]. Qed.

Lemma log_gas_words t1 t2 d :
  (length d <= 96)%nat -> log_gas (mkLog [t1; t2] d) <= COLD_SLOAD_COST.
Proof. intros Hd. unfold log_gas, LOG, LOGTOPIC, LOGDATA, COLD_SLOAD_COST. cbn [log_topics log_data length]. lia. Qed.

Lemma guarded_stake_handler m c : length (sk_pubkey c) = 32%nat -> guarded true (stake_handler m c).
Proof.
  intros Hl. unfold stake_handler, validator, read_validator_id.
  apply guarded_try; [guard_prog | intros]. apply guarded_try; [guard_prog | intros].
  apply guarded_try; [guard_prog | intros]. apply guarded_benign_bind; [guard_prog | intros].
  apply guarded_emit_ignored, log_gas_words. rewrite !length_app, !length_be_bytes. lia.
Qed.

Lemma guarded_unstake_handler m c : guarded true (unstake_handler m c).
Proof.
  unfold unstake_handler, validator, read_stake.
  apply guarded_try; [guard_prog | intros]. do 2 (apply guarded_benign_bind; [guard_prog | intros]).
  apply guarded_try; [guard_prog | intros].
  apply guarded_emit_ignored, log_gas_words. rewrite !length_app, !length_be_bytes. lia.
Qed.

Lemma guarded_claim_handler m c : guarded true (claim_unbonded_handler m c).
Proof.
  unfold claim_unbonded_handler, validator.
  do 2 (apply guarded_try; [guard_prog | intros]). apply guarded_benign_bind; [guard_prog | intros].
  apply guarded_try; [guard_prog | intros].
  apply guarded_emit_ignored, log_gas_words. rewrite !length_app, !length_be_bytes. lia.
Qed.

(** ** The handlers on the abstract storage *)

Definition same_storage w1 w2 : Prop := w_persistent (w_cur w1) = w_persistent (w_cur w2).

Lemma run_check_compliance a w w' :
  run (check_compliance a) w = (Ok tt, w') -> w' = w /\ compliant (w_cur w) a.
Proof using Type.
  unfold check_compliance. rewrite run_bind, w_run_sload. cbn [run unwrap_or]. unfold compliant.
  destruct (Z.eqb_spec (u256_to_u8 (wslot w COMPLIANCE_ADDRESS (slot_compliance a))) 0);
    [|congruence]. intros [= <-]. done.
Qed.

Lemma stake_handler_ok m c w w' :
  run (stake_handler m c) w = (Ok tt, w') ->
  compliant (w_cur w) m /\ exists w1,
    run (stake (sk_pubkey c) (sk_amount c) m) w = (Ok tt, w1) /\ same_storage w1 w'.
Proof using Type.
  unfold stake_handler. intros E.
  apply run_try_ok in E as (a & w1 & E1 & E). apply run_require_caller in E1 as (-> & _ & ->).
  apply run_try_ok in E as ([] & w2 & E2 & E). apply run_check_compliance in E2 as [-> Hc].
  apply run_try_ok in E as ([] & w3 & E3 & E). apply run_map_err_ok in E3.
  split; [done|]. exists w3. split; [done|]. unfold read_validator_id, vload in E.
  rewrite !run_bind, w_run_load in E. cbn [run] in E. by injection E as <-.
Qed.

Lemma unstake_handler_ok m c w w' :
  run (unstake_handler m c) w = (Ok tt, w') -> exists w1,
    run (unstake (us_validatorId c) m (e_block_number (w_env w))) w = (Ok tt, w1) /\
    same_storage w1 w'.
Proof using Type.
  unfold unstake_handler. intros E.
  apply run_try_ok in E as (a & w1 & E1 & E). apply run_require_caller in E1 as (-> & _ & ->).
  unfold read_stake, vload in E. rewrite !run_bind, w_run_load in E. cbn [run] in E.
  rewrite run_bind in E. change (run block_number w) with (e_block_number (w_env w), w) in E.
  cbv beta iota zeta in E. apply run_try_ok in E as ([] & w3 & E3 & E). apply run_map_err_ok in E3.
  exists w3. split; [done|]. rewrite run_bind in E. cbn [run] in E. by injection E as <-.
Qed.

Lemma claim_handler_ok m c w w' :
  run (claim_unbonded_handler m c) w = (Ok tt, w') ->
  compliant (w_cur w) m /\ exists amount w1,
    run (claim_unbonded (cu_validatorId c) m (e_block_number (w_env w))) w = (Ok amount, w1) /\
    same_storage w1 w'.
Proof using Type.
  unfold claim_unbonded_handler. intros E.
  apply run_try_ok in E as (a & w1 & E1 & E). apply run_require_caller in E1 as (-> & _ & ->).
  apply run_try_ok in E as ([] & w2 & E2 & E). apply run_check_compliance in E2 as [-> Hc].
  rewrite run_bind in E. change (run block_number w) with (e_block_number (w_env w), w) in E.
  cbv beta iota zeta in E. apply run_try_ok in E as (v & w3 & E3 & E). apply run_map_err_ok in E3.
  split; [done|]. exists v, w3. split; [done|].
  rewrite run_bind in E. cbn [run] in E. by injection E as <-.
Qed.

(** The operation a call requests, from its selector and arguments. *)
Definition requested (calldata : list Z) (m height : Z) : option vop :=
  let selector := take 4 calldata in
  if bool_decide (selector = sel_stake) then
    c ← ok_option (dec_stake calldata); Some (DoStake m (sk_pubkey c) (sk_amount c))
  else if bool_decide (selector = sel_unstake) then
    c ← ok_option (dec_unstake calldata); Some (DoUnstake m (us_validatorId c) height)
  else if bool_decide (selector = sel_claimUnbonded) then
    c ← ok_option (dec_claimUnbonded calldata); Some (DoClaim m (cu_validatorId c) height)
  else None.

(** [unstake] is open to restricted accounts; staking and claiming are not. *)
Definition needs_compliance (o : vop) : Prop :=
  match o with DoStake _ _ _ | DoClaim _ _ _ => True | _ => False end.

Lemma readonly_vload k : readonly (vload k).
Proof using Type. unfold vload. readonly_prog. Qed.

#[local] Hint Resolve readonly_vload : callnode.

(** The views leave the storage alone. *)
Lemma validator_views_readonly calldata s (x : res PrecompileOutput * EvmStorageProvider J) :
  x ∈ [precompile_get_validator_stake calldata s; precompile_get_validator_status calldata s;
       precompile_get_validator_pubkey calldata s; precompile_get_unbond_height calldata s;
       precompile_get_validator_by_index calldata s; precompile_get_validator_count calldata s;
       precompile_get_active_validator_count calldata s] -> vw x.2 = vw s.
Proof.
  intros Hx. repeat (apply elem_of_cons in Hx as [->|Hx]; [apply view_readonly; intros c;
    unfold get_validator_by_index_handler, ok_read, read_stake, read_val_status, read_pubkey,
      read_unbond_height, read_validator_by_index, read_validator_count,
      read_active_validator_count; readonly_prog|]).
  by apply not_elem_of_nil in Hx.
Qed.

Variables (vs : list Z) (n : Z).
Hypothesis layout : layout_ok vs n.

Lemma rep_same_storage w1 w2 A : same_storage w1 w2 -> rep vs n w1 A -> rep vs n w2 A.
Proof.
  intros E [R Sv].
  assert (Es : forall a k, wslot w2 a k = wslot w1 a k) by (intros; unfold slot; by rewrite E).
  assert (Eb : forall a, call_bal w2 a = call_bal w1 a) by (intros; apply Es).
  split; [|by rewrite Eb]. apply (srep_ext vs n w1 w2 A); [intros; apply Es | | done].
  intros a Ha. rewrite Eb. by apply (rep_bals _ _ _ _ R).
Qed.

(** A successful operation took the registry's transition. *)
Lemma op_success o w w' A r :
  rep vs n w A -> vop_account o ∈ vs -> vop_fits o -> st_count A < n ->
  run (vop_prog o) w = (Ok r, w') ->
  verdict o w A = Ok r /\ exists A', next o A A' /\ rep vs n w' A' /\ surplus w' A' = surplus w A.
Proof using layout.
  intros R Ha Hf Hc E. pose proof (op_conforms vs n layout o w A R Ha Hf Hc) as C.
  unfold conforms in C. destruct (verdict o w A) as [r'|e].
  - destruct C as (w1 & A' & E' & Nx & R' & Su). rewrite E in E'. injection E' as <- <-. eauto.
  - by rewrite E in C.
Qed.

(** What a successful call did. *)
Definition took_step (calldata : list Z) (m : Z) s A s' : Prop :=
  exists o r A', requested calldata m (e_block_number (evm_env s)) = Some o /\
    (needs_compliance o -> compliant (vw s) m) /\
    verdict o (abs s) A = Ok r /\ next o A A' /\ rep vs n (abs s') A' /\
    surplus (abs s') A' = surplus (abs s) A.

Lemma took_step_intro calldata m s A s' o r w1 w' :
  rep vs n (abs s) A -> m ∈ vs -> st_count A < n -> fits U64_MAX (e_block_number (evm_env s)) ->
  requested calldata m (e_block_number (evm_env s)) = Some o ->
  vop_account o = m -> vop_fits o -> (needs_compliance o -> compliant (vw s) m) ->
  run (vop_prog o) (abs s) = (Ok r, w1) -> same_storage w1 w' -> vw s' = w_cur w' ->
  took_step calldata m s A s'.
Proof using layout.
  intros R Hm Hc Hb Hreq Ho Hf Hcm E Es Ev.
  destruct (op_success o (abs s) w1 A r R ltac:(by rewrite Ho) Hf Hc E) as (V & A' & Nx & R' & Su).
  assert (Es' : same_storage w1 (abs s')) by (unfold same_storage; cbn; by rewrite Ev).
  exists o, r, A'. split_and!; try done; [by eapply rep_same_storage|].
  rewrite <- Su. unfold surplus, call_bal, bal, slot. by rewrite Es'.
Qed.

(** The outcome a call must have. *)
Definition call_ok (calldata : list Z) (m : Z) s A (x : res PrecompileOutput * EvmStorageProvider J) : Prop :=
  match x.1 with
  | Err _ => vw x.2 = vw s
  | Ok _ => (requested calldata m (e_block_number (evm_env s)) = None /\ vw x.2 = vw s) \/
            took_step calldata m s A x.2
  end.

Lemma mutate_void_ok_step {T} (dec : list Z -> result string T) (gas : N) h calldata m s A :
  e_is_static (evm_env s) = false -> COLD_SLOAD_COST <= Z.of_N gas ->
  (forall c, dec calldata = Ok c -> guarded true (h c)) ->
  (forall c w' s', dec calldata = Ok c -> run (h c) (abs s) = (Ok tt, w') -> vw s' = w_cur w' ->
     took_step calldata m s A s') ->
  call_ok calldata m s A (mutate_void dec calldata gas h s).
Proof using Type*.
  intros Hst Hg Hgd K. unfold call_ok, mutate_void.
  destruct (mutate_outcome_on dec (fun _ : unit => []) h calldata gas s Hgd Hst Hg) as [_ O].
  destruct (mutate dec (fun _ : unit => []) calldata gas h s) as [[o|e] s']; cbn [fst snd] in *; [|done].
  destruct O as (c & [] & Ed & Er & Ev & _). right. apply (K c (run (h c) (abs s)).2); try done.
  by destruct (run (h c) (abs s)); cbn in *; subst.
Qed.

(** C32: the validator precompile refines the registry.  On the production
    provider, outside a static call, any call either fails and leaves the
    storage as it was, or is a view and leaves it as it was, or performs the
    one operation its calldata requests for its caller at the current height:
    the registry's verdict on it was positive, the caller was compliant if it
    staked or claimed, and the storage represents the registry after the
    transition, the escrow still covering all stakes. *)
Theorem validator_call_refines_registry calldata m s A :
  e_is_static (evm_env s) = false -> rep vs n (abs s) A -> m ∈ vs -> st_count A < n ->
  fits U64_MAX (e_block_number (evm_env s)) ->
  call_ok calldata m s A (validator_call calldata m s).
Proof using layout HB HL.
  intros Hst R Hm Hc Hb. unfold validator_call. destruct (length calldata <? 4)%nat; [done|].
  destruct (decide (take 4 calldata = sel_stake)) as [E1|N1].
  { rewrite bool_decide_eq_true_2 by done. apply mutate_void_ok_step; try done.
    - intros c Ed. apply guarded_stake_handler. by eapply dec_stake_pubkey.
    - intros c w' s' Ed [Hcm (w1 & E & Es)]%stake_handler_ok Ev.
      eapply (took_step_intro calldata m s A s' (DoStake m _ _)); try done.
      + unfold requested. rewrite bool_decide_eq_true_2 by done. by rewrite Ed.
      + by apply no_amount_ok. }
  rewrite (bool_decide_eq_false_2 _ N1).
  destruct (decide (take 4 calldata = sel_unstake)) as [E2|N2].
  { rewrite bool_decide_eq_true_2 by done. apply mutate_void_ok_step; try done.
    - intros c _. apply guarded_unstake_handler.
    - intros c w' s' Ed (w1 & E & Es)%unstake_handler_ok Ev.
      eapply (took_step_intro calldata m s A s' (DoUnstake m _ _)); try done.
      + unfold requested. rewrite (bool_decide_eq_false_2 _ N1), bool_decide_eq_true_2 by done.
        by rewrite Ed.
      + by apply no_amount_ok. }
  rewrite (bool_decide_eq_false_2 _ N2).
  destruct (decide (take 4 calldata = sel_claimUnbonded)) as [E3|N3].
  { rewrite bool_decide_eq_true_2 by done. apply mutate_void_ok_step; try done.
    - intros c _. apply guarded_claim_handler.
    - intros c w' s' Ed [Hcm (r & w1 & E & Es)]%claim_handler_ok Ev.
      eapply (took_step_intro calldata m s A s' (DoClaim m _ _)); try done.
      unfold requested.
      rewrite (bool_decide_eq_false_2 _ N1), (bool_decide_eq_false_2 _ N2), bool_decide_eq_true_2 by done.
      by rewrite Ed. }
  rewrite (bool_decide_eq_false_2 _ N3).
  assert (V : forall x, vw x.2 = vw s -> call_ok calldata m s A x).
  { intros x Hx. unfold call_ok. destruct x.1; [|done]. left. split; [|done]. unfold requested.
    by rewrite (bool_decide_eq_false_2 _ N1), (bool_decide_eq_false_2 _ N2), (bool_decide_eq_false_2 _ N3). }
  apply V. repeat case_bool_decide; try done; apply (validator_views_readonly calldata); set_solver.
Qed.

End Entry.

(** ** The properties at concrete inputs *)

Module ValidatorDemo.
Import Demo.

#[global] Instance validator_abi : ValidatorAbi := {|
  dec_stake := fun d =>
    if bool_decide (length (slice d 4 32) = 32%nat) then
      need (v ← decode_u128 d 36; Some {| sk_pubkey := slice d 4 32; sk_amount := v |})
    else Err "short calldata"%string;
  dec_unstake := fun d => need (i ← decode_u64 d 4; Some {| us_validatorId := i |});
  dec_claimUnbonded := fun d => need (i ← decode_u64 d 4; Some {| cu_validatorId := i |});
  dec_getValidatorStake := fun d => need (a ← decode_address d 4; Some {| vc_validator := a |});
  dec_getValidatorStatus := fun d => need (a ← decode_address d 4; Some {| vc_validator := a |});
  dec_getValidatorPubkey := fun d => need (a ← decode_address d 4; Some {| vc_validator := a |});
  dec_getUnbondHeight := fun d => need (a ← decode_address d 4; Some {| vc_validator := a |});
  dec_getValidatorByIndex := fun d => need (i ← decode_u64 d 4; Some {| ix_index := i |});
  dec_getValidatorCount := fun _ => Ok tt;
  dec_getActiveValidatorCount := fun _ => Ok tt;
  venc_u128 := encode_u128;
  venc_u64 := encode_u64;
  venc_u256 := be_bytes 32;
  venc_bytes32 := id;
  venc_address := fun a => replicate 12 0 ++ addr_bytes a;
  sel_stake := [0; 0; 0; 1];
  sel_unstake := [0; 0; 0; 2];
  sel_claimUnbonded := [0; 0; 0; 3];
  sel_getValidatorStake := [0; 0; 0; 4];
  sel_getValidatorStatus := [0; 0; 0; 5];
  sel_getValidatorPubkey := [0; 0; 0; 6];
  sel_getUnbondHeight := [0; 0; 0; 7];
  sel_getValidatorByIndex := [0; 0; 0; 8];
  sel_getValidatorCount := [0; 0; 0; 9];
  sel_getActiveValidatorCount := [0; 0; 0; 10]
|}.

#[global] Instance validator_abi_laws : ValidatorAbiLaws.
Proof.
  split. intros d c. cbn. case_bool_decide as E; [|done].
  destruct (decode_u128 d 36); cbn; [|done]. by intros [= <-].
Qed.

Definition parties : list Z := [alice; bob].
Definition room : Z := 4.

(** Every key in use. *)
Definition all_keys : list vkey :=
  [VCount; VUCount; VActive; VFloor; VPeriod] ++
  (a ← parties; [VId a; VStake a; VPubkey a; VStatus a; VUnbond a]) ++
  (i ← [0; 1; 2; 3; 4]; [VAddr i; VQueue i]).

Lemma all_keys_live k : live parties room k -> k ∈ all_keys.
Proof.
  unfold parties, room. destruct k as [| | | | |a|a|a|a|a|i|i]; cbn [live]; intros Hk;
    try (repeat (apply elem_of_cons in Hk as [->|Hk]); [..|by apply not_elem_of_nil in Hk]);
    try (assert (i = 0 \/ i = 1 \/ i = 2 \/ i = 3 \/ i = 4) as Hi by lia; clear Hk;
         destruct_or! Hi; subst i);
    apply (bool_decide_eq_true_1 _); vm_compute; reflexivity.
Qed.

Lemma staking_layout : layout_ok parties room.
Proof.
  split.
  - intros k1 k2 H1%all_keys_live H2%all_keys_live.
    apply (NoDup_map_inj vslot all_keys); [|done|done].
    apply (bool_decide_eq_true_1 _). vm_compute. reflexivity.
  - apply (bool_decide_eq_true_1 _). vm_compute. reflexivity.
  - vm_compute. split; [discriminate | reflexivity].
Qed.

(** [alice] holds all of CALL; no validators yet. *)
Definition capital : Z := 3 * MIN_SELF_STAKE.
Definition w_start : wstate :=
  put_slot ASSET_ADDRESS (slot_balance 1 alice) capital
  (put_meta "supply" capital (put_meta "max_supply" capital w0)).
Definition start : world := mkWorld w_start (env0 1000000 false) [].
Definition no_validators : staking := mkStaking ∅ [] 0.

Lemma start_rep_of w : w_cur w = w_start -> rep parties room w no_validators.
Proof.
  intros Hw. assert (Rd : forall k, k ∈ all_keys -> rd w k = 0).
  { intros k Hk. unfold rd. rewrite Hw. revert k Hk. apply Forall_forall.
    apply (bool_decide_eq_true_1 _). vm_compute. reflexivity. }
  split; [split|].
  - split; cbn; try done.
    + intros x. split; [by intros ?%not_elem_of_nil|]. by intros (a & v & h & Ha & _).
    + constructor.
  - intros a Ha. cbn. apply Rd, all_keys_live. done.
  - apply Rd, all_keys_live. done.
  - apply Rd, all_keys_live. done.
  - apply Rd, all_keys_live. done.
  - done.
  - intros a Ha. unfold call_bal, bal. rewrite Hw. revert a Ha. apply Forall_forall.
    apply (bool_decide_eq_true_1 _). vm_compute. reflexivity.
  - unfold call_bal, bal. rewrite Hw. vm_compute. discriminate.
Qed.

Definition some_key : list Z := replicate 32 7.
Definition stake_alice : vop := DoStake alice some_key MIN_SELF_STAKE.
Definition one_validator : staking := st_stake alice some_key MIN_SELF_STAKE no_validators.
Definition staked : world := apply_vop stake_alice start.

Lemma alice_party : alice ∈ parties.
Proof. constructor. Qed.

Lemma staked_rep : rep parties room staked one_validator.
Proof.
  destruct (run_stake parties room staking_layout start no_validators alice some_key MIN_SELF_STAKE)
    as (w' & E & R & _).
  - by apply start_rep_of.
  - exact alice_party.
  - reflexivity.
  - reflexivity.
  - vm_compute. split; discriminate.
  - intros E. apply (bool_decide_eq_false_1 (some_key = replicate 32 0)); [vm_compute; reflexivity | exact E].
  - vm_compute. discriminate.
  - unfold staked, apply_vop, stake_alice. cbn [vop_prog]. by rewrite (no_amount_ok _ _ _ E).
Qed.

Lemma staking_operation_conforms_witness :
  exists w' A', run (vop_prog stake_alice) start = (Ok 0, w') /\
    next stake_alice no_validators A' /\ rep parties room w' A' /\
    surplus w' A' = surplus start no_validators.
Proof.
  pose proof (staking_operation_conforms parties room staking_layout stake_alice start no_validators
    (start_rep_of start eq_refl) alice_party I eq_refl) as P.
  assert (V : verdict stake_alice start no_validators = Ok 0) by (vm_compute; reflexivity).
  rewrite V in P. exact P.
Defined.

Lemma escrow_always_solvent_witness :
  exists A', rep parties room (run_vops [stake_alice; DoUnstake alice 1 5; DoSlash alice] start) A' /\
    st_total A' <= call_bal (run_vops [stake_alice; DoUnstake alice 1 5; DoSlash alice] start) STAKING_ESCROW /\
    call_bal (run_vops [stake_alice; DoUnstake alice 1 5; DoSlash alice] start) STAKING_ESCROW - st_total A' =
    call_bal start STAKING_ESCROW - st_total no_validators.
Proof.
  apply (escrow_always_solvent parties room staking_layout [stake_alice; DoUnstake alice 1 5; DoSlash alice]
    start no_validators (start_rep_of start eq_refl)).
  - repeat constructor; vm_compute; discriminate.
  - vm_compute. discriminate.
Defined.

Lemma stake_cycle_returns_stake_witness :
  exists w3 A3,
    run (claim_unbonded 1 alice 130000) (run_vops [stake_alice; DoUnstake alice 1 5] start) =
      (Ok MIN_SELF_STAKE, w3) /\
    rep parties room w3 A3 /\ st_vals A3 = st_vals no_validators /\
    call_bal w3 alice = call_bal start alice /\
    call_bal w3 STAKING_ESCROW = call_bal start STAKING_ESCROW.
Proof.
  apply (stake_cycle_returns_stake parties room staking_layout start no_validators alice some_key
    MIN_SELF_STAKE 5 130000 (start_rep_of start eq_refl) alice_party eq_refl).
  - vm_compute. reflexivity.
  - vm_compute. discriminate.
  - vm_compute. split; discriminate.
  - vm_compute. split; discriminate.
Defined.

Lemma slash_breaks_supply_witness :
  let w' := apply_vop (DoSlash alice) staked in
  supply_of w' CALL_ASSET_ID = supply_of staked CALL_ASSET_ID /\
  sum_of (bal w' CALL_ASSET_ID) (accounts parties) = supply_of w' CALL_ASSET_ID - MIN_SELF_STAKE /\
  ~ supply_inv CALL_ASSET_ID (accounts parties) w'.
Proof.
  refine (slash_breaks_supply parties room staking_layout staked one_validator alice
    (mkV 1 MIN_SELF_STAKE some_key None) staked_rep _ _ _ _).
  - reflexivity.
  - reflexivity.
  - vm_compute. discriminate.
  - split.
    + apply Forall_forall, (bool_decide_eq_true_1 _). vm_compute. reflexivity.
    + intros o sp Ho Hs. apply (proj1 (Forall_forall (fun p => fits U128_MAX (allow staked CALL_ASSET_ID p.1 p.2))
        (list_prod (accounts parties) (accounts parties)))) with (x := (o, sp)).
      * apply (bool_decide_eq_true_1 _). vm_compute. reflexivity.
      * by apply list_elem_of_In, in_prod; apply list_elem_of_In.
    + vm_compute. split; discriminate.
    + vm_compute. reflexivity.
    + intros _. vm_compute. discriminate.
Defined.

(** Calldata of [stake(some_key, MIN_SELF_STAKE)]. *)
Definition stake_calldata : list Z := [0; 0; 0; 1] ++ some_key ++ encode_u128 MIN_SELF_STAKE.

Lemma validator_call_refines_registry_witness :
  let s := provider w_start 1000000 false in
  is_ok (validator_call stake_calldata alice s).1 = true /\
  requested stake_calldata alice 7 = Some stake_alice /\
  call_ok parties room stake_calldata alice s no_validators (validator_call stake_calldata alice s).
Proof.
  split; [vm_compute; reflexivity|]. split; [vm_compute; reflexivity|].
  apply (validator_call_refines_registry parties room staking_layout stake_calldata alice
    (provider w_start 1000000 false) no_validators).
  - reflexivity.
  - apply start_rep_of. reflexivity.
  - exact alice_party.
  - reflexivity.
  - vm_compute. split; discriminate.
Defined.

End ValidatorDemo.
