(* ===== verification/Fork.v ===== *)
(** * Fork: protocol upgrades and emergency rollback

    Models [crates/consensus/src/fork.rs]: version-gated features, the upgrade
    schedule with its governance timelock, block version validation, the
    collection of rollback signatures and the readiness signals, with
    [ProtocolVersion] of [crates/primitives/src/lib.rs].

    [HashMap]s are finite maps, [HashSet]s finite sets.  Plain [+] and [*] on
    machine integers wrap, as in release builds.  Ed25519 verification is a
    library function: it is the parameter [ed25519_verify]. *)

From stdpp Require Import base gmap list strings sorting.
From Stdlib Require Import ZArith Lia.
From S2P Require Import Prelude Utils.

Local Open Scope Z_scope.

(** ** Versions *)

Record ProtocolVersion : Type := mkVersion { major : Z; minor : Z; patch : Z }.

#[global] Instance ProtocolVersion_eq_dec : EqDecision ProtocolVersion.
Proof. solve_decision. Defined.

#[global] Instance ProtocolVersion_countable : Countable ProtocolVersion.
Proof.
  refine (inj_countable' (fun v => (major v, minor v, patch v))
    (fun '(a, b, c) => mkVersion a b c) _). by intros [].
Defined.

Inductive ProtocolFeature : Type :=
| ShieldedPool | AgentPrecompiles | BridgeOperations | SmartAccounts | ComplianceEngine
| OracleIntegration | BlsAggregateSignatures | OnChainGovernance | GasSponsorship.

Definition min_version (f : ProtocolFeature) : ProtocolVersion :=
  match f with
  | BridgeOperations => mkVersion 1 0 0
  | ShieldedPool | AgentPrecompiles | ComplianceEngine | GasSponsorship => mkVersion 1 1 0
  | SmartAccounts | OracleIntegration | BlsAggregateSignatures | OnChainGovernance =>
      mkVersion 1 2 0
  end.

Definition is_feature_enabled (f : ProtocolFeature) (v : ProtocolVersion) : bool :=
  let m := min_version f in
  (major m <? major v)
  || ((major v =? major m) && (minor m <? minor v))
  || ((major v =? major m) && (minor v =? minor m) && (patch m <=? patch v)).

(** ** Constants *)

Definition rollback_quorum (total_validators : Z) : Z := div_ceil (wrap_u32 (2 * total_validators)) 3.

Definition DEFAULT_TIMELOCK_BLOCKS : Z := 10000.
Definition MIN_TIMELOCK_BLOCKS : Z := 100.

(** ** State *)

Record UpgradeEntry : Type := mkUpgrade {
  u_version : ProtocolVersion;
  activation_height : Z;
  applied : bool;
  proposal_id : option Z;
  approved_at_height : option Z
}.

Record EmergencyRollback : Type := mkRollback {
  er_target_height : Z;
  er_target_version : ProtocolVersion;
  er_signatures : gmap Z (list Z);
  er_total_validators : Z
}.

Record RollbackRecord : Type := mkRecord {
  rr_target_height : Z;
  rr_target_version : ProtocolVersion;
  rr_signature_count : Z;
  rr_total_validators : Z;
  executed_at_height : Z
}.

(** [EmergencyRollbackResult] and [RollbackPlan] have the same fields. *)
Record RollbackPlan : Type := mkPlan {
  rp_target_height : Z;
  rp_target_version : ProtocolVersion;
  rp_signature_count : Z;
  rp_total_validators : Z
}.
Definition EmergencyRollbackResult : Type := RollbackPlan.

Inductive ForkError : Type :=
| ValidatorNotFound (id : Z)
| InvalidSignature
| VersionMismatch (block_height : Z) (expected actual : ProtocolVersion)
| TimelockViolation (activation minimum : Z)
| DuplicateRollbackSignature
| RollbackTargetMismatch
| NoActiveRollback
| RollbackNonceMismatch (expected got : Z)
| UpgradeNotScheduled (version : ProtocolVersion).

Record ForkManager : Type := mkFork {
  current_version : ProtocolVersion;
  scheduled_upgrades : list UpgradeEntry;
  active_rollback : option EmergencyRollback;
  total_validators : Z;
  validator_keys : gmap Z (list Z);
  timelock_blocks : Z;
  rollback_nonces : gmap Z Z;
  rollback_history : list RollbackRecord;
  validator_readiness : gmap ProtocolVersion (gset Z);
  require_validator_readiness : bool
}.

Definition fork_new (initial_version : ProtocolVersion) (total : Z) : ForkManager :=
  mkFork initial_version [] None total ∅ DEFAULT_TIMELOCK_BLOCKS ∅ [] ∅ false.

(** Field updates. *)
Definition fm_set_upgrades v l f :=
  mkFork v l (active_rollback f) (total_validators f) (validator_keys f)
    (timelock_blocks f) (rollback_nonces f) (rollback_history f) (validator_readiness f)
    (require_validator_readiness f).
Definition fm_set_rollback r ns f :=
  mkFork (current_version f) (scheduled_upgrades f) r (total_validators f) (validator_keys f)
    (timelock_blocks f) ns (rollback_history f) (validator_readiness f)
    (require_validator_readiness f).
Definition fm_set_readiness m f :=
  mkFork (current_version f) (scheduled_upgrades f) (active_rollback f) (total_validators f)
    (validator_keys f) (timelock_blocks f) (rollback_nonces f) (rollback_history f) m
    (require_validator_readiness f).

Definition register_validator (id : Z) (public_key : list Z) (f : ForkManager) : ForkManager :=
  mkFork (current_version f) (scheduled_upgrades f) (active_rollback f) (total_validators f)
    (<[id := public_key]> (validator_keys f)) (timelock_blocks f) (rollback_nonces f)
    (rollback_history f) (validator_readiness f) (require_validator_readiness f).

(** ** The schedule *)

(** Push, then [sort_by_key(|e| e.activation_height)]. *)
Definition schedule_upgrade (e : UpgradeEntry) (f : ForkManager) : ForkManager :=
  fm_set_upgrades (current_version f) (sort_by activation_height (scheduled_upgrades f ++ [e])) f.

Definition schedule_governance_upgrade (version : ProtocolVersion)
    (activation proposal current_height : Z) (f : ForkManager) :
    result ForkError unit * ForkManager :=
  let min_activation := wrap_u64 (current_height + timelock_blocks f) in
  if activation <? min_activation then (Err (TimelockViolation activation min_activation), f) else
  (Ok tt, schedule_upgrade (mkUpgrade version activation false (Some proposal) (Some current_height)) f).

Definition check_upgrade_readiness (version : ProtocolVersion) (f : ForkManager) : Z * Z :=
  (match validator_readiness f !! version with
   | Some s => wrap_u32 (Z.of_nat (size s))
   | None => 0
   end, rollback_quorum (total_validators f)).

Definition is_upgrade_ready (version : ProtocolVersion) (f : ForkManager) : bool :=
  let '(ready, quorum) := check_upgrade_readiness version f in quorum <=? ready.

Definition get_ready_validators (version : ProtocolVersion) (f : ForkManager) : option (gset Z) :=
  validator_readiness f !! version.

Definition clear_upgrade_readiness (version : ProtocolVersion) (f : ForkManager) : ForkManager :=
  fm_set_readiness (delete version (validator_readiness f)) f.

Definition due (height : Z) (e : UpgradeEntry) : bool :=
  negb (applied e) && (activation_height e <=? height).

(** The versions due at [height] without a readiness quorum. *)
Definition skip_versions (height : Z) (f : ForkManager) : gset ProtocolVersion :=
  if require_validator_readiness f then
    list_to_set (map u_version (List.filter (fun e =>
      due height e &&
      (let '(ready, quorum) := check_upgrade_readiness (u_version e) f in ready <? quorum))
      (scheduled_upgrades f)))
  else ∅.

Definition mark_applied (e : UpgradeEntry) : UpgradeEntry :=
  mkUpgrade (u_version e) (activation_height e) true (proposal_id e) (approved_at_height e).

(** The loop over the schedule: entries, current version, last version. *)
Fixpoint apply_due (height : Z) (skip : gset ProtocolVersion) (l : list UpgradeEntry)
    (current : ProtocolVersion) (last : option ProtocolVersion) :
    list UpgradeEntry * ProtocolVersion * option ProtocolVersion :=
  match l with
  | [] => ([], current, last)
  | e :: r =>
      if due height e && negb (bool_decide (u_version e ∈ skip)) then
        let '(r', c', l') := apply_due height skip r (u_version e) (Some (u_version e)) in
        (mark_applied e :: r', c', l')
      else
        let '(r', c', l') := apply_due height skip r current last in (e :: r', c', l')
  end.

Definition check_upgrades_at_height (height : Z) (f : ForkManager) :
    option ProtocolVersion * ForkManager :=
  let '(l, c, last) := apply_due height (skip_versions height f) (scheduled_upgrades f)
                         (current_version f) None in
  let f := fm_set_upgrades c l f in
  (last, match last with Some v => clear_upgrade_readiness v f | None => f end).

Definition version_at_height (height : Z) (f : ForkManager) : ProtocolVersion :=
  foldl (fun v e => if activation_height e <=? height then u_version e else v)
    (current_version f) (scheduled_upgrades f).

Definition validate_block_version (block_height : Z) (block_version : ProtocolVersion)
    (f : ForkManager) : result ForkError unit :=
  let expected := version_at_height block_height f in
  if bool_decide (block_version = expected) then Ok tt
  else Err (VersionMismatch block_height expected block_version).

Definition set_timelock_blocks (blocks : Z) (f : ForkManager) : ForkManager :=
  mkFork (current_version f) (scheduled_upgrades f) (active_rollback f) (total_validators f)
    (validator_keys f) (Z.max blocks MIN_TIMELOCK_BLOCKS) (rollback_nonces f)
    (rollback_history f) (validator_readiness f) (require_validator_readiness f).

Definition next_upgrade (current_height : Z) (f : ForkManager) : option UpgradeEntry :=
  List.find (fun e => negb (applied e) && (current_height <? activation_height e))
    (scheduled_upgrades f).

(** ** Readiness *)

Definition signal_upgrade_readiness (id : Z) (version : ProtocolVersion) (f : ForkManager) :
    result ForkError unit * ForkManager :=
  if bool_decide (validator_keys f !! id = None) then (Err (ValidatorNotFound id), f) else
  if negb (existsb (fun e => bool_decide (u_version e = version)) (scheduled_upgrades f))
  then (Err (UpgradeNotScheduled version), f) else
  let s := default ∅ (validator_readiness f !! version) in
  (Ok tt, fm_set_readiness (<[version := {[id]} ∪ s]> (validator_readiness f)) f).

(** ** Emergency rollback *)

Definition rollback_message_hash (target_height : Z) (v : ProtocolVersion) (nonce : Z) : list Z :=
  b_ "CALL-EMERGENCY-ROLLBACK:" ++ le_bytes 8 target_height ++ le_bytes 2 (major v) ++
  le_bytes 2 (minor v) ++ le_bytes 2 (patch v) ++ le_bytes 8 nonce.

Section Rollback.
Variable ed25519_verify : list Z -> list Z -> list Z -> bool.

Definition submit_rollback_signature (id target_height : Z) (target_version : ProtocolVersion)
    (nonce : Z) (signature : list Z) (f : ForkManager) :
    result ForkError (option EmergencyRollbackResult) * ForkManager :=
  match validator_keys f !! id with
  | None => (Err (ValidatorNotFound id), f)
  | Some public_key =>
    let expected_nonce := default 0 (rollback_nonces f !! id) in
    if negb (nonce =? expected_nonce) then (Err (RollbackNonceMismatch expected_nonce nonce), f) else
    let message := rollback_message_hash target_height target_version nonce in
    if negb (ed25519_verify public_key signature message) then (Err InvalidSignature, f) else
    let rollback := default (mkRollback target_height target_version ∅ (total_validators f))
                      (active_rollback f) in
    let f := fm_set_rollback (Some rollback) (rollback_nonces f) f in
    if negb (er_target_height rollback =? target_height)
       || negb (bool_decide (er_target_version rollback = target_version))
    then (Err RollbackTargetMismatch, f) else
    if negb (bool_decide (er_signatures rollback !! id = None))
    then (Err DuplicateRollbackSignature, f) else
    let rollback := mkRollback (er_target_height rollback) (er_target_version rollback)
                      (<[id := signature]> (er_signatures rollback)) (er_total_validators rollback) in
    let nonces := <[id := wrap_u64 (nonce + 1)]> (rollback_nonces f) in
    let sig_count := wrap_u32 (Z.of_nat (size (er_signatures rollback))) in
    if rollback_quorum (total_validators f) <=? sig_count then
      (Ok (Some (mkPlan (er_target_height rollback) (er_target_version rollback) sig_count
                   (total_validators f))),
       fm_set_rollback None nonces f)
    else (Ok None, fm_set_rollback (Some rollback) nonces f)
  end.

End Rollback.

Definition rollback_progress (f : ForkManager) : option (Z * Z) :=
  match active_rollback f with
  | Some r => Some (wrap_u32 (Z.of_nat (size (er_signatures r))), rollback_quorum (total_validators f))
  | None => None
  end.

Definition execute_rollback (res : EmergencyRollbackResult) (current_height : Z)
    (f : ForkManager) : RollbackPlan * ForkManager :=
  (mkPlan (rp_target_height res) (rp_target_version res) (rp_signature_count res)
     (rp_total_validators res),
   mkFork (rp_target_version res) (scheduled_upgrades f) (active_rollback f) (total_validators f)
     (validator_keys f) (timelock_blocks f) (rollback_nonces f)
     (rollback_history f ++ [mkRecord (rp_target_height res) (rp_target_version res)
        (rp_signature_count res) (rp_total_validators res) current_height])
     (validator_readiness f) (require_validator_readiness f)).

(** ** Block production

    The producer stamps a block with the version the node runs; the upgrades
    of the block's height are applied after it is built. *)
Definition produced_version (f : ForkManager) : ProtocolVersion := current_version f.
