(* ===== verification/ForkProps.v ===== *)
(** * ForkProps: properties of upgrades and emergency rollback

    The version a block must carry is the version the node runs, as long as
    upgrades come from governance and no rollback happened; a rollback needs a
    quorum of distinct validators; one validator can block it; and a rollback
    leaves the version check behind. *)

From stdpp Require Import base gmap list strings sorting.
From Stdlib Require Import ZArith Lia.
From S2P Require Import Prelude Utils Fork.

Local Open Scope Z_scope.

Abbreviation by_height := (by_key activation_height).

(** ** The version in force *)

(** The version of the last entry at or below [h], [v] if there is none. *)
Definition last_version (h : Z) (v : ProtocolVersion) (l : list UpgradeEntry) : ProtocolVersion :=
  foldl (fun v e => if activation_height e <=? h then u_version e else v) v l.

Lemma last_version_app h v l1 l2 : last_version h v (l1 ++ l2) = last_version h (last_version h v l1) l2.
Proof. apply foldl_app. Qed.

Lemma last_version_none h v l :
  Forall (fun e => h < activation_height e) l -> last_version h v l = v.
Proof.
  induction 1 as [|e l He _ IH]; cbn; [done|]. by rewrite (proj2 (Z.leb_gt _ _) He).
Qed.

(** Scheduling an entry above [h] does not change the version at [h]. *)
Lemma last_version_sort_app h v e l :
  StronglySorted by_height l -> h < activation_height e ->
  last_version h v (sort_by activation_height (l ++ [e])) = last_version h v l.
Proof.
  intros Hs He. revert v. induction Hs as [|x l Hs IH Hx]; intros v.
  - cbn. by rewrite (proj2 (Z.leb_gt _ _) He).
  - change (last_version h v (x :: l)) with
      (last_version h (if activation_height x <=? h then u_version x else v) l). rewrite <- IH.
    assert (E : forall v', last_version h v' (insert_by activation_height x (sort_by activation_height (l ++ [e]))) =
      last_version h (if activation_height x <=? h then u_version x else v') (sort_by activation_height (l ++ [e]))).
    { clear v IH. assert (Hall : Forall (fun y => by_height x y \/ h < activation_height y)
        (sort_by activation_height (l ++ [e]))).
      { rewrite sort_by_perm. apply Forall_app. split; [|apply Forall_singleton; by right].
        eapply Forall_impl; [exact Hx|]. by left. }
      revert Hall. generalize (sort_by activation_height (l ++ [e])) as l'.
      induction l' as [|y l' IH]; intros Hall v'; [done|]. cbn.
      apply Forall_cons in Hall as [Hy Hall].
      destruct (Z.leb_spec (activation_height x) (activation_height y)); cbn; [done|].
      destruct Hy as [Hy|Hy]; [unfold by_key in Hy; lia|].
      rewrite (proj2 (Z.leb_gt _ _) Hy). by apply IH. }
    exact (E v).
Qed.


Lemma last_version_const h l :
  (forall v, last_version h v l = v) \/ (exists u, forall v, last_version h v l = u).
Proof.
  induction l as [|e l [IH|[u IH]]]; cbn; [by left| |].
  - destruct (activation_height e <=? h); [right; eexists; intros; apply IH | left; apply IH].
  - right. exists u. intros v. apply IH.
Qed.

(** An entry at or below [h] decides the version. *)
Lemma last_version_hit h e v v' l :
  e ∈ l -> activation_height e <= h -> last_version h v l = last_version h v' l.
Proof.
  intros He Hh. revert v v'. induction He as [e l|e x l _ IH]; intros v v'; cbn; [|by apply IH].
  by rewrite (proj2 (Z.leb_le _ _) Hh).
Qed.

Lemma last_version_idem h v l : last_version h (last_version h v l) l = last_version h v l.
Proof. destruct (last_version_const h l) as [E|[u E]]; by rewrite !E. Qed.

(** The version after the entries between [h] and [h']. *)
Definition mid_version (h h' : Z) (v : ProtocolVersion) (l : list UpgradeEntry) : ProtocolVersion :=
  foldl (fun v e => if negb (activation_height e <=? h) && (activation_height e <=? h')
                    then u_version e else v) v l.

Lemma mid_version_none h h' v l :
  Forall (fun e => h' < activation_height e) l -> mid_version h h' v l = v.
Proof.
  induction 1 as [|e l He _ IH]; cbn; [done|].
  by rewrite (proj2 (Z.leb_gt _ _) He), andb_false_r.
Qed.

Lemma last_version_cons h v e l :
  last_version h v (e :: l) = last_version h (if activation_height e <=? h then u_version e else v) l.
Proof. done. Qed.

Lemma mid_version_cons h h' v e l :
  mid_version h h' v (e :: l) =
  mid_version h h' (if negb (activation_height e <=? h) && (activation_height e <=? h')
                    then u_version e else v) l.
Proof. done. Qed.

Lemma last_version_mid h h' l :
  StronglySorted by_height l -> h <= h' ->
  forall v, last_version h' v l = mid_version h h' (last_version h v l) l.
Proof.
  intros Hs Hh. induction Hs as [|x l Hs IH Hx]; intros v; [done|].
  rewrite !last_version_cons, mid_version_cons.
  assert (Above : forall b, b < activation_height x -> Forall (fun e => b < activation_height e) l).
  { intros b Hb. eapply Forall_impl; [exact Hx|]. unfold by_key. lia. }
  destruct (Z.leb_spec (activation_height x) h) as [H1|H1]; cbn.
  { rewrite (proj2 (Z.leb_le _ _)) by lia. apply IH. }
  destruct (Z.leb_spec (activation_height x) h') as [H2|H2].
  - rewrite IH, !(last_version_none h) by auto. done.
  - rewrite last_version_none, mid_version_none, last_version_none by auto. done.
Qed.

(** ** The node and the version check agree *)

(** At height [h]: what is due has been applied, and the node runs the version
    blocks at [h] must carry. *)
Record in_step (h : Z) (f : ForkManager) : Prop := {
  st_sorted : StronglySorted by_height (scheduled_upgrades f);
  st_applied : Forall (fun e => applied e = (activation_height e <=? h)) (scheduled_upgrades f);
  st_timelock : MIN_TIMELOCK_BLOCKS <= timelock_blocks f;
  st_unforced : require_validator_readiness f = false;
  st_version : current_version f = version_at_height h f
}.

Lemma mark_applied_id e : applied e = true -> mark_applied e = e.
Proof. destruct e; cbn. by intros ->. Qed.

Lemma apply_due_spec h h' l c la :
  Forall (fun e => applied e = (activation_height e <=? h)) l -> h <= h' ->
  exists la', apply_due h' ∅ l c la =
    (map (fun e => if activation_height e <=? h' then mark_applied e else e) l,
     mid_version h h' c l, la').
Proof.
  intros Ha Hh. revert c la. induction Ha as [|e l He _ IH]; intros c la; cbn; [by eexists|].
  rewrite bool_decide_eq_false_2 by set_solver. unfold due. rewrite He. cbn [negb]. rewrite andb_true_r.
  destruct (Z.leb_spec (activation_height e) h) as [H1|H1]; cbn [negb andb].
  - destruct (IH c la) as [la' ->]. exists la'. rewrite (proj2 (Z.leb_le _ _)) by lia.
    by rewrite mark_applied_id.
  - destruct (activation_height e <=? h'); [destruct (IH (u_version e) (Some (u_version e))) as [la' ->]
      | destruct (IH c la) as [la' ->]]; by eexists.
Qed.

Lemma version_at_eq h f : version_at_height h f = last_version h (current_version f) (scheduled_upgrades f).
Proof. done. Qed.

Lemma last_version_map h v (g : UpgradeEntry -> UpgradeEntry) l :
  (forall e, activation_height (g e) = activation_height e /\ u_version (g e) = u_version e) ->
  last_version h v (map g l) = last_version h v l.
Proof.
  intros Hg. revert v. induction l as [|e l IH]; intros v; cbn; [done|].
  destruct (Hg e) as [-> ->]. apply IH.
Qed.

Lemma sorted_map (g : UpgradeEntry -> UpgradeEntry) l :
  (forall e, activation_height (g e) = activation_height e) ->
  StronglySorted by_height l -> StronglySorted by_height (map g l).
Proof.
  intros Hg. induction 1 as [|e l Hs IH He]; cbn; constructor; [done|].
  apply Forall_fmap. eapply Forall_impl; [exact He|]. unfold by_key. cbn. intros x. by rewrite !Hg.
Qed.

(** Processing a block keeps the node in step. *)
Lemma check_upgrades_in_step h h' f :
  in_step h f -> h <= h' -> in_step h' (check_upgrades_at_height h' f).2.
Proof.
  intros [Hs Ha Ht Hr Hv] Hh. unfold check_upgrades_at_height, skip_versions. rewrite Hr.
  destruct (apply_due_spec h h' (scheduled_upgrades f) (current_version f) None Ha Hh) as [la ->].
  set (g := fun e => if activation_height e <=? h' then mark_applied e else e).
  assert (Hg : forall e, activation_height (g e) = activation_height e /\ u_version (g e) = u_version e).
  { intros e. unfold g. by destruct (activation_height e <=? h'). }
  rewrite version_at_eq in Hv.
  assert (E : mid_version h h' (current_version f) (scheduled_upgrades f) =
    last_version h' (current_version f) (scheduled_upgrades f)).
  { rewrite (last_version_mid h h') by done. by rewrite <- Hv. }
  assert (I : in_step h' (fm_set_upgrades (mid_version h h' (current_version f) (scheduled_upgrades f))
    (map g (scheduled_upgrades f)) f)).
  { split; [| |done|done|].
    - cbn. apply sorted_map; [apply Hg | done].
    - cbn. apply Forall_fmap. eapply Forall_impl; [exact Ha|]. intros e He. cbn. unfold g.
      destruct (Z.leb_spec (activation_height e) h'); cbn; [symmetry; by apply Z.leb_le|].
      rewrite He, (proj2 (Z.leb_gt _ _)) by lia. symmetry. by apply Z.leb_gt.
    - rewrite version_at_eq. cbn [current_version scheduled_upgrades fm_set_upgrades].
      rewrite last_version_map by done. rewrite E.
      symmetry. apply last_version_idem. }
  destruct la; [destruct I; by split | done].
Qed.

(** So does a governance upgrade approved at the current height. *)
Lemma governance_in_step h v act pid f :
  in_step h f -> 0 <= h -> h + timelock_blocks f <= U64_MAX ->
  in_step h (schedule_governance_upgrade v act pid h f).2.
Proof.
  intros I Hh Hov. pose proof I as [Hs Ha Ht Hr Hv]. unfold schedule_governance_upgrade, wrap_u64.
  unfold MIN_TIMELOCK_BLOCKS in *.
  rewrite Z.mod_small by lia. destruct (Z.ltb_spec act (h + timelock_blocks f)) as [|Hact]; [done|].
  cbn [snd]. unfold schedule_upgrade. split; [| |done|done|].
  - apply sort_by_sorted.
  - cbn. rewrite sort_by_perm. apply Forall_app. split; [done|]. apply Forall_singleton. cbn.
    symmetry. apply Z.leb_gt. lia.
  - rewrite version_at_eq in *. cbn [current_version scheduled_upgrades fm_set_upgrades].
    rewrite last_version_sort_app; [done|done|cbn; lia].
Qed.

(** ** Histories *)

Inductive fork_cmd : Type :=
| CRegister (id : Z) (pk : list Z)
| CSchedule (e : UpgradeEntry)
| CGovern (v : ProtocolVersion) (activation proposal now : Z)
| CBlock (h : Z)
| CTimelock (blocks : Z)
| CReady (id : Z) (v : ProtocolVersion)
| CSign (id h : Z) (v : ProtocolVersion) (nonce : Z) (sig : list Z)
| CExec (r : EmergencyRollbackResult) (now : Z).

Section Histories.
Variable ed25519_verify : list Z -> list Z -> list Z -> bool.
Let submit := submit_rollback_signature ed25519_verify.
Implicit Types (f : ForkManager) (cs : list fork_cmd).

Definition exec_cmd (c : fork_cmd) f : ForkManager :=
  match c with
  | CRegister id pk => register_validator id pk f
  | CSchedule e => schedule_upgrade e f
  | CGovern v a p now => (schedule_governance_upgrade v a p now f).2
  | CBlock h => (check_upgrades_at_height h f).2
  | CTimelock b => set_timelock_blocks b f
  | CReady id v => (signal_upgrade_readiness id v f).2
  | CSign id h v nonce sig => (submit id h v nonce sig f).2
  | CExec r now => (execute_rollback r now f).2
  end.

Definition run_cmds cs f : ForkManager := foldl (fun f c => exec_cmd c f) f cs.

Lemma run_cmds_app cs1 cs2 f : run_cmds (cs1 ++ cs2) f = run_cmds cs2 (run_cmds cs1 f).
Proof. apply foldl_app. Qed.

(** A rollback with one more signature. *)
Definition signed (id : Z) (sig : list Z) (r : EmergencyRollback) : EmergencyRollback :=
  mkRollback (er_target_height r) (er_target_version r) (<[id := sig]> (er_signatures r))
    (er_total_validators r).

Definition sig_count (r : EmergencyRollback) : Z := wrap_u32 (Z.of_nat (size (er_signatures r))).

(** The rollback a submission joins or opens. *)
Definition joined (h : Z) (v : ProtocolVersion) f : EmergencyRollback :=
  default (mkRollback h v ∅ (total_validators f)) (active_rollback f).

Lemma set_rollback_id r f : active_rollback f = Some r -> fm_set_rollback (Some r) (rollback_nonces f) f = f.
Proof. intros E. unfold fm_set_rollback. rewrite <- E. by destruct f. Qed.

(** A submission is refused and changes nothing, or is counted. *)
Lemma submit_cases id h v nonce sig f :
  (exists e, submit id h v nonce sig f = (Err e, f)) \/
  (exists pk, validator_keys f !! id = Some pk /\
     ed25519_verify pk sig (rollback_message_hash h v nonce) = true /\
     er_target_height (joined h v f) = h /\ er_target_version (joined h v f) = v /\
     er_signatures (joined h v f) !! id = None /\
     let r := signed id sig (joined h v f) in
     let nonces := <[id := wrap_u64 (nonce + 1)]> (rollback_nonces f) in
     submit id h v nonce sig f =
       if rollback_quorum (total_validators f) <=? sig_count r
       then (Ok (Some (mkPlan h v (sig_count r) (total_validators f))), fm_set_rollback None nonces f)
       else (Ok None, fm_set_rollback (Some r) nonces f)).
Proof.
  unfold submit, submit_rollback_signature. destruct (validator_keys f !! id) as [pk|]; [|eauto].
  destruct (negb (nonce =? _)); [eauto|].
  destruct (ed25519_verify pk sig _) eqn:Hv; cbn [negb]; [|eauto]. fold (joined h v f).
  assert (Hf : active_rollback f = None \/ fm_set_rollback (Some (joined h v f)) (rollback_nonces f) f = f).
  { unfold joined. destruct (active_rollback f) eqn:E; [right; by apply set_rollback_id | by left]. }
  destruct (Z.eqb_spec (er_target_height (joined h v f)) h) as [Eh|Nh]; cbn [negb orb].
  2: { left. destruct Hf as [Hf| ->]; [|eauto]. unfold joined in Nh. by rewrite Hf in Nh. }
  destruct (bool_decide_reflect (er_target_version (joined h v f) = v)) as [Ev|Nv]; cbn [negb].
  2: { left. destruct Hf as [Hf| ->]; [|eauto]. unfold joined in Nv. by rewrite Hf in Nv. }
  destruct (bool_decide_reflect (er_signatures (joined h v f) !! id = None)) as [Es|Ns]; cbn [negb].
  2: { left. destruct Hf as [Hf| ->]; [|eauto]. unfold joined in Ns. by rewrite Hf in Ns. }
  right. exists pk. split_and!; try done. cbn [er_signatures er_target_height er_target_version].
  unfold signed, sig_count. cbn [er_signatures]. rewrite Eh, Ev. by destruct (_ <=? _).
Qed.

(** ** Rollbacks need a quorum *)

(** Validator [id] signed the target with a key registered for it. *)
Definition endorsed cs (h : Z) (v : ProtocolVersion) (id : Z) : Prop :=
  exists pk nonce sig, CRegister id pk ∈ cs /\ CSign id h v nonce sig ∈ cs /\
    ed25519_verify pk sig (rollback_message_hash h v nonce) = true.

Record history_ok (n : Z) cs f : Prop := {
  ho_total : total_validators f = n;
  ho_keys : forall id pk, validator_keys f !! id = Some pk -> CRegister id pk ∈ cs;
  ho_active : forall r, active_rollback f = Some r -> forall id, is_Some (er_signatures r !! id) ->
    endorsed cs (er_target_height r) (er_target_version r) id
}.

Lemma endorsed_app cs c h v id : endorsed cs h v id -> endorsed (cs ++ [c]) h v id.
Proof.
  intros (pk & n & sig & H1 & H2 & H3). exists pk, n, sig.
  split_and!; [apply elem_of_app; by left | apply elem_of_app; by left | done].
Qed.

(** The signatures of a counted submission are all endorsed. *)
Lemma signed_endorsed n cs id h v nonce sig f pk :
  history_ok n cs f -> validator_keys f !! id = Some pk ->
  ed25519_verify pk sig (rollback_message_hash h v nonce) = true ->
  er_target_height (joined h v f) = h -> er_target_version (joined h v f) = v ->
  forall i, is_Some (er_signatures (signed id sig (joined h v f)) !! i) ->
  endorsed (cs ++ [CSign id h v nonce sig]) h v i.
Proof.
  intros [_ Hk Ha] Hpk Hv Eh Ev i Hi. cbn in Hi. destruct (decide (i = id)) as [->|Hne].
  - exists pk, nonce, sig. split_and!; [|apply elem_of_app; right; by constructor|done].
    apply elem_of_app. left. by apply Hk.
  - rewrite lookup_insert_ne in Hi by done. apply endorsed_app.
    unfold joined in Hi, Eh, Ev. destruct (active_rollback f) as [r|] eqn:E; cbn in *.
    + rewrite <- Eh, <- Ev. by apply Ha.
    + rewrite lookup_empty in Hi. by destruct Hi.
Qed.

Lemma history_weaken n cs c f f' :
  history_ok n cs f -> total_validators f' = total_validators f ->
  (forall id pk, validator_keys f' !! id = Some pk -> validator_keys f !! id = Some pk \/ c = CRegister id pk) ->
  active_rollback f' = active_rollback f -> history_ok n (cs ++ [c]) f'.
Proof.
  intros [Ht Hk Ha] Et Ek Ea. split; [congruence| |].
  - intros id pk [E| ->]%Ek; apply elem_of_app; [left; by apply Hk | right; by constructor].
  - rewrite Ea. intros r Er id Hi. apply endorsed_app. by apply Ha.
Qed.

Lemma exec_history n cs c f : history_ok n cs f -> history_ok n (cs ++ [c]) (exec_cmd c f).
Proof.
  intros I. destruct c; cbn [exec_cmd].
  - apply (history_weaken n cs _ f); try done. intros i p. cbn.
    intros [[-> ->]|[_ E]]%lookup_insert_Some; auto.
  - apply (history_weaken n cs _ f); auto.
  - unfold schedule_governance_upgrade. destruct (_ <? _); apply (history_weaken n cs _ f); auto.
  - unfold check_upgrades_at_height. destruct (apply_due _ _ _ _ _) as [[l c'] []];
      apply (history_weaken n cs _ f); auto.
  - apply (history_weaken n cs _ f); auto.
  - unfold signal_upgrade_readiness. destruct (bool_decide (_ = None)); [|destruct (negb _)];
      apply (history_weaken n cs _ f); auto.
  - destruct (submit_cases id h v nonce sig f) as [[e ->]|(pk & Hpk & Hv & Eh & Ev & Es & E)];
      [apply (history_weaken n cs _ f); auto|].
    pose proof (signed_endorsed n cs id h v nonce sig f pk I Hpk Hv Eh Ev) as Hend.
    rewrite E. destruct (_ <=? _); cbn [snd].
    + destruct I as [Ht Hk Ha]. split; [done | intros; apply elem_of_app; left; by apply Hk | done].
    + destruct I as [Ht Hk Ha]. split; [done | intros; apply elem_of_app; left; by apply Hk |].
      intros r [= <-] i Hi. cbn [er_target_height er_target_version signed]. rewrite Eh, Ev. by apply Hend.
  - apply (history_weaken n cs _ f); auto.
Qed.

Lemma run_history n v cs : history_ok n cs (run_cmds cs (fork_new v n)).
Proof.
  induction cs as [|c cs IH] using rev_ind.
  - split; cbn; [done | intros ? ?; by rewrite lookup_empty | done].
  - rewrite run_cmds_app. cbn. by apply exec_history.
Qed.

(** Commands that do not sign the target of [r]. *)
Definition other_target (r : EmergencyRollback) (c : fork_cmd) : Prop :=
  match c with
  | CSign _ h v _ _ => (h, v) <> (er_target_height r, er_target_version r)
  | _ => True
  end.

Lemma submit_other_target id h v nonce sig f r :
  active_rollback f = Some r -> (h, v) <> (er_target_height r, er_target_version r) ->
  exists e, submit id h v nonce sig f = (Err e, f).
Proof.
  intros Hr Hne. destruct (submit_cases id h v nonce sig f) as [E|(pk & _ & _ & Eh & Ev & _)]; [done|].
  unfold joined in Eh, Ev. rewrite Hr in Eh, Ev. cbn in Eh, Ev. congruence.
Qed.

Lemma exec_other_target c f r :
  active_rollback f = Some r -> other_target r c -> active_rollback (exec_cmd c f) = Some r.
Proof.
  intros Hr Hc. destruct c; cbn [exec_cmd]; try done.
  - unfold schedule_governance_upgrade. by destruct (_ <? _).
  - unfold check_upgrades_at_height. by destruct (apply_due _ _ _ _ _) as [[l c'] []].
  - unfold signal_upgrade_readiness. destruct (bool_decide (_ = None)); [done|]. by destruct (negb _).
  - by destruct (submit_other_target id h v nonce sig f r Hr Hc) as [e ->].
Qed.

(** ** The chain *)

(** A chain at height [h]: blocks go up, and governance approves upgrades at
    the current height. *)
Inductive chain_step : Z * ForkManager -> Z * ForkManager -> Prop :=
| cs_block h h' f : h <= h' -> chain_step (h, f) (h', exec_cmd (CBlock h') f)
| cs_govern h v a p f :
    h + timelock_blocks f <= U64_MAX -> chain_step (h, f) (h, exec_cmd (CGovern v a p h) f)
| cs_timelock h b f : chain_step (h, f) (h, exec_cmd (CTimelock b) f)
| cs_register h id pk f : chain_step (h, f) (h, exec_cmd (CRegister id pk) f)
| cs_ready h id v f : chain_step (h, f) (h, exec_cmd (CReady id v) f)
| cs_sign h id th v nonce sig f : chain_step (h, f) (h, exec_cmd (CSign id th v nonce sig) f).

(** Every upgrade was approved at least the minimum timelock ahead. *)
Definition timelocked (e : UpgradeEntry) : Prop :=
  exists a, approved_at_height e = Some a /\ a + MIN_TIMELOCK_BLOCKS <= activation_height e.

Definition chain_ok (x : Z * ForkManager) : Prop :=
  0 <= x.1 /\ in_step x.1 x.2 /\ Forall timelocked (scheduled_upgrades x.2).

(** Operations that leave the schedule and the version alone. *)
Lemma in_step_same h f f' :
  in_step h f -> scheduled_upgrades f' = scheduled_upgrades f ->
  current_version f' = current_version f -> MIN_TIMELOCK_BLOCKS <= timelock_blocks f' ->
  require_validator_readiness f' = require_validator_readiness f -> in_step h f'.
Proof.
  intros [Hs Ha Ht Hr Hv] Es Ec Et Er. split; rewrite ?Es, ?Er; try done.
  rewrite version_at_eq in *. by rewrite Es, Ec.
Qed.

Lemma apply_due_timelocked h s l c la :
  Forall timelocked l -> Forall timelocked (apply_due h s l c la).1.1.
Proof.
  intros Hl. revert c la. induction Hl as [|e l He _ IH]; intros c la; cbn; [constructor|].
  destruct (_ && _); [specialize (IH (u_version e) (Some (u_version e))) | specialize (IH c la)];
    destruct (apply_due _ _ l _ _) as [[l' c'] la']; by constructor.
Qed.

Lemma chain_step_ok x y : chain_step x y -> chain_ok x -> chain_ok y.
Proof.
  intros S (Hh & I & Ht). destruct S; cbn [fst snd exec_cmd] in *; (split; [cbn; lia|]).
  - split; [by eapply check_upgrades_in_step|]. cbn. unfold check_upgrades_at_height.
    pose proof (apply_due_timelocked h' (skip_versions h' f) _ (current_version f) None Ht) as T.
    by destruct (apply_due _ _ _ _ _) as [[l c] []].
  - split; [by apply governance_in_step|]. cbn. unfold schedule_governance_upgrade, wrap_u64.
    pose proof (st_timelock _ _ I) as Hl. unfold MIN_TIMELOCK_BLOCKS in Hl.
    rewrite Z.mod_small by lia. destruct (Z.ltb_spec a (h + timelock_blocks f)); [done|].
    cbn. rewrite sort_by_perm. apply Forall_app. split; [done|]. apply Forall_singleton.
    exists h. cbn. unfold MIN_TIMELOCK_BLOCKS. split; [done | lia].
  - split; [|done]. apply (in_step_same h f); try done. cbn. lia.
  - split; [|done]. apply (in_step_same h f); try done. apply (st_timelock _ _ I).
  - cbn. unfold signal_upgrade_readiness. destruct (bool_decide (_ = None)); [done|].
    destruct (negb _); [done|]. split; [|done]. apply (in_step_same h f); try done.
    apply (st_timelock _ _ I).
  - cbn. destruct (submit_cases id th v nonce sig f) as [[e ->]|(pk & _ & _ & _ & _ & _ & ->)]; [done|].
    pose proof (st_timelock _ _ I). destruct (_ <=? _); (split; [|done]); by apply (in_step_same h f).
Qed.

(** ** Properties *)


(** An emergency rollback needs two thirds of the validators.  Whatever
    the history of the fork manager, a signature completes a rollback only if
    a set of distinct validators, at least two thirds of all of them, each
    signed exactly this target height and version with a key registered for
    it. *)
Theorem rollback_needs_quorum v0 n cs id h v nonce sig res f' :
  0 <= n -> 2 * n <= U32_MAX ->
  submit_rollback_signature ed25519_verify id h v nonce sig (run_cmds cs (fork_new v0 n)) =
    (Ok (Some res), f') ->
  rp_target_height res = h /\ rp_target_version res = v /\
  exists signers : gset Z, 2 * n <= 3 * Z.of_nat (size signers) /\
    forall i, i ∈ signers -> endorsed (cs ++ [CSign id h v nonce sig]) h v i.
Proof.
  intros Hn Hov E. set (f := run_cmds cs (fork_new v0 n)) in *.
  pose proof (run_history n v0 cs) as I. fold f in I.
  destruct (submit_cases id h v nonce sig f) as [[e E']|(pk & Hpk & Hv & Eh & Ev & _ & E')];
    unfold submit in E'; rewrite E in E'; [done|].
  set (r := signed id sig (joined h v f)) in *. destruct (Z.leb_spec (rollback_quorum (total_validators f)) (sig_count r)) as [Hq|]; [|done].
  injection E' as -> _. split; [done|]. split; [done|]. exists (dom (er_signatures r)). split.
  - rewrite (ho_total _ _ _ I) in Hq. unfold sig_count, rollback_quorum, div_ceil, wrap_u32 in Hq.
    rewrite (Z.mod_small (2 * n)) in Hq by (unfold U32_MAX in *; lia).
    rewrite size_dom.
    assert (Hm : Z.of_nat (size (er_signatures r)) mod (U32_MAX + 1) <= Z.of_nat (size (er_signatures r)))
      by (apply Z.mod_le; [lia | done]).
    assert (Hd : 2 * n <= 3 * ((2 * n + 3 - 1) / 3)) by (Z.to_euclidean_division_equations; lia).
    generalize dependent (Z.of_nat (size (er_signatures r)) mod (U32_MAX + 1)). clear E Hov.
    generalize dependent ((2 * n + 3 - 1) / 3). intros. lia.
  - intros i Hi%elem_of_dom. by apply (signed_endorsed n cs id h v nonce sig f pk).
Qed.

(** A single validator can block every rollback.  Once one signature has
    opened a rollback, no operation clears it except signatures for the same
    target: however long the history, the pending rollback stays, and any
    signature for another target is refused and changes nothing. *)
Theorem one_validator_blocks_rollback f r cs id h v nonce sig :
  active_rollback f = Some r -> Forall (other_target r) cs ->
  (h, v) <> (er_target_height r, er_target_version r) ->
  let f1 := run_cmds cs f in
  active_rollback f1 = Some r /\
  exists e, submit_rollback_signature ed25519_verify id h v nonce sig f1 = (Err e, f1).
Proof.
  intros Hr Hcs Hne f1. assert (Hr1 : active_rollback f1 = Some r).
  { unfold f1. clear Hne. revert f f1 Hr. induction Hcs as [|c cs Hc _ IH]; intros f f1 Hr; [done|].
    apply IH. by apply exec_other_target. }
  split; [done | by eapply submit_other_target].
Qed.

End Histories.

(** A rollback leaves the version check behind: where an upgrade has already
    activated, blocks of the version rolled back to are refused, although it
    is the version the node runs. *)
Lemma rolled_back_version_rejected h f r now :
  (exists e, e ∈ scheduled_upgrades f /\ activation_height e <= h) ->
  rp_target_version r <> version_at_height h f ->
  let f' := (execute_rollback r now f).2 in
  current_version f' = rp_target_version r /\
  validate_block_version h (current_version f') f' =
    Err (VersionMismatch h (version_at_height h f) (rp_target_version r)).
Proof.
  intros (e & He & Hh) Hne f'. split; [done|].
  assert (E : version_at_height h f' = version_at_height h f).
  { rewrite !version_at_eq. cbn [scheduled_upgrades f' execute_rollback snd].
    by apply last_version_hit with e. }
  unfold validate_block_version. rewrite E. by rewrite bool_decide_eq_false_2.
Qed.

(** ** The properties at concrete inputs *)

Module ForkDemo.

(** A stand-in signature scheme: the key followed by the message. *)
Definition verify (pk sig msg : list Z) : bool := bool_decide (sig = pk ++ msg).
Definition sign (pk : list Z) (h : Z) (v : ProtocolVersion) (nonce : Z) : list Z :=
  pk ++ rollback_message_hash h v nonce.

Definition v100 : ProtocolVersion := mkVersion 1 0 0.
Definition v110 : ProtocolVersion := mkVersion 1 1 0.

(** Three validators. *)
Definition keys : list fork_cmd := [CRegister 1 [11]; CRegister 2 [22]; CRegister 3 [33]].

(** Governance approves version 1.1.0 at height 5; the chain reaches its
    activation height. *)
Definition upgraded : ForkManager :=
  run_cmds verify [CGovern v110 10005 1 5; CBlock 10005] (run_cmds verify [CBlock 5] (fork_new v100 3)).


Lemma rollback_needs_quorum_witness :
  exists signers : gset Z, 2 * 3 <= 3 * Z.of_nat (size signers) /\
    forall i, i ∈ signers -> endorsed verify
      ((keys ++ [CSign 1 50 v100 0 (sign [11] 50 v100 0)]) ++ [CSign 2 50 v100 0 (sign [22] 50 v100 0)])
      50 v100 i.
Proof.
  refine (proj2 (proj2 (rollback_needs_quorum verify v100 3
    (keys ++ [CSign 1 50 v100 0 (sign [11] 50 v100 0)]) 2 50 v100 0 (sign [22] 50 v100 0)
    (mkPlan 50 v100 2 3) _ _ _ _))).
  - lia.
  - vm_compute. discriminate.
  - vm_compute. reflexivity.
Defined.

(** Validator 1 asks for a rollback to height 1; then 2 and 3 cannot agree on
    height 50. *)
Lemma one_validator_blocks_rollback_witness :
  let f := run_cmds verify (keys ++ [CSign 1 1 v100 0 (sign [11] 1 v100 0)]) (fork_new v100 3) in
  let f1 := run_cmds verify [CSign 2 50 v100 0 (sign [22] 50 v100 0)] f in
  active_rollback f1 = active_rollback f /\
  exists e, submit_rollback_signature verify 3 50 v100 0 (sign [33] 50 v100 0) f1 = (Err e, f1).
Proof.
  intros f f1.
  exact (one_validator_blocks_rollback verify f
    (mkRollback 1 v100 {[1 := sign [11] 1 v100 0]} 3) [CSign 2 50 v100 0 (sign [22] 50 v100 0)]
    3 50 v100 0 (sign [33] 50 v100 0) eq_refl
    ltac:(apply Forall_singleton; vm_compute; discriminate) ltac:(vm_compute; discriminate)).
Defined.

(** The block at the activation height is produced before the upgrade is
    applied, carries the old version, and fails the version check. *)
Example activation_block_rejected :
  let f := run_cmds verify [CBlock 5; CGovern v110 10005 1 5; CBlock 10004] (fork_new v100 3) in
  produced_version f = v100 /\
  validate_block_version 10005 (produced_version f) f = Err (VersionMismatch 10005 v110 v100).
Proof. vm_compute. done. Qed.

End ForkDemo.
