(* ===== verification/Proposer.v ===== *)
(** * Proposer: election of block proposers, and the block cache

    Models [crates/consensus/src/proposer.rs] (consensus parameters, the seed,
    the selection of an epoch's subset by sortition score, the rotation of
    proposers), [vrf_sortition_score] of [crates/crypto/src/ed25519.rs] and the
    cache of [crates/consensus/src/block_cache.rs].

    A 32-byte hash is the integer its bytes spell, so the lexicographic order
    of scores is the order of integers. *)

From stdpp Require Import base gmap list strings sorting.
From Stdlib Require Import ZArith Lia.
From S2P Require Import Prelude Utils.

Local Open Scope Z_scope.

Definition EPOCH_LENGTH : Z := 100.

Record ConsensusParams : Type := mkParams {
  max_validators : Z;
  p_subset_size : Z;
  block_time_millis : Z;
  slashing_window : Z;
  oracle_request_delay_ms : Z;
  epoch_length : Z;
  min_self_stake : Z;
  unbonding_period_blocks : Z;
  offline_slash_rate_bps : Z;
  key_rotation_grace_blocks : Z;
  churn_limit_quotient : Z;
  min_churn_limit : Z;
  safety_ratio_num : Z;
  safety_ratio_den : Z;
  unbonding_slash_extend : Z;
  max_unbonding_multiplier : Z
}.

Definition params_new (max_validators subset_size block_time_millis slashing_window
    oracle_request_delay_ms : Z) : ConsensusParams :=
  mkParams max_validators subset_size block_time_millis slashing_window oracle_request_delay_ms
    EPOCH_LENGTH (1000000 * 10 ^ 18) 120960 10 100 16 2 4 3 2 10.

Definition params_default : ConsensusParams :=
  mkParams 216 21 250 10000 200 EPOCH_LENGTH (1000000 * 10 ^ 18) 120960 10 100 16 2 4 3 2 10.

Definition with_epoch_length (n : Z) (p : ConsensusParams) : ConsensusParams :=
  mkParams (max_validators p) (p_subset_size p) (block_time_millis p) (slashing_window p)
    (oracle_request_delay_ms p) n (min_self_stake p) (unbonding_period_blocks p)
    (offline_slash_rate_bps p) (key_rotation_grace_blocks p) (churn_limit_quotient p)
    (min_churn_limit p) (safety_ratio_num p) (safety_ratio_den p) (unbonding_slash_extend p)
    (max_unbonding_multiplier p).

Definition is_valid_validator_count (count : Z) (p : ConsensusParams) : bool :=
  (100 <=? count) && (count <=? max_validators p).

(** [None]: division by zero panics.  A product of two [u32]s fits [u64]. *)
Definition safety_floor (p : ConsensusParams) : option Z :=
  let num := p_subset_size p * safety_ratio_num p in
  if safety_ratio_den p =? 0 then None
  else Some ((num + safety_ratio_den p - 1) / safety_ratio_den p).

Definition churn_limit (qualified_count : Z) (p : ConsensusParams) : option Z :=
  if churn_limit_quotient p =? 0 then None
  else Some (Z.max (min_churn_limit p) (qualified_count / churn_limit_quotient p)).

(** ** Sortition *)

Section Sortition.
Context `{Keccak}.

(** The hash in 32 bytes followed by the round in 8, little endian. *)
Definition derive_vrf_seed (prev_block_hash round : Z) : Z :=
  keccak256 (be_bytes 32 prev_block_hash ++ rev (be_bytes 8 round)).

Definition VRF_DOMAIN : list Z := b_ "CALLCHAIN-PROPOSER-VRF-v1".

Definition vrf_sortition_score (pubkey : list Z) (seed : Z) : Z :=
  keccak256 (VRF_DOMAIN ++ be_bytes 32 seed ++ pubkey).

(** The validators with a known key, with their scores. *)
Definition scored (validators : list Z) (pubkeys : gmap Z (list Z)) (seed : Z) : list (Z * Z) :=
  omap (fun id => pk ← pubkeys !! id; Some (id, vrf_sortition_score pk seed)) validators.

Definition select_proposer_subset (validators : list Z) (pubkeys : gmap Z (list Z))
    (seed subset_size : Z) : list Z :=
  if bool_decide (validators = []) || (subset_size =? 0) then [] else
  sort_by (fun id => id)
    (map fst (take (Z.to_nat subset_size) (sort_by snd (scored validators pubkeys seed)))).

(** [usize] is 64 bits wide, so the cast of the round keeps it. *)
Definition select_proposer (subset : list Z) (round : Z) : option Z :=
  match subset with
  | [] => None
  | _ => subset !! Z.to_nat (round mod Z.of_nat (length subset))
  end.

Definition verify_proposer_in_subset (proposer : Z) (subset : list Z) : bool :=
  existsb (Z.eqb proposer) subset.

(** ** What the subset is *)

Lemma scored_elem validators pubkeys seed id s :
  (id, s) ∈ scored validators pubkeys seed <->
  id ∈ validators /\ exists pk, pubkeys !! id = Some pk /\ s = vrf_sortition_score pk seed.
Proof.
  unfold scored. rewrite list_elem_of_omap. split.
  - intros (x & Hx & E). destruct (pubkeys !! x) as [pk|] eqn:Ep; [|done]. cbn in E.
    injection E as <- <-. eauto.
  - intros (Hx & pk & Ep & ->). exists id. by rewrite Ep.
Qed.

Lemma scored_ids_NoDup validators pubkeys seed :
  NoDup validators -> NoDup (map fst (scored validators pubkeys seed)).
Proof.
  unfold scored. induction 1 as [|id l Hn _ IH]; cbn; [constructor|].
  destruct (pubkeys !! id) as [pk|]; cbn; [|done]. constructor; [|done].
  intros ([i s] & -> & Hs)%list_elem_of_fmap. cbn in Hn.
  by apply (scored_elem l pubkeys seed) in Hs as [Hs _].
Qed.

Lemma sorted_take_drop {A} (R : A -> A -> Prop) n l x y :
  StronglySorted R l -> x ∈ take n l -> y ∈ drop n l -> R x y.
Proof.
  intros Hs Hx Hy. rewrite <- (take_drop n l) in Hs.
  revert Hs Hx Hy. generalize (drop n l) as l2. induction (take n l) as [|z l1 IH]; intros l2 Hs Hx Hy.
  - by apply not_elem_of_nil in Hx.
  - cbn in Hs. inversion Hs as [|? ? Hs' Hz]; subst. apply elem_of_cons in Hx as [->|Hx].
    + apply (proj1 (Forall_forall _ _) Hz). apply elem_of_app. by right.
    + by apply (IH l2).
Qed.

(** The chosen pairs, before the ids are sorted. *)
Definition chosen (validators : list Z) (pubkeys : gmap Z (list Z)) (seed size : Z) : list (Z * Z) :=
  take (Z.to_nat size) (sort_by snd (scored validators pubkeys seed)).

Lemma subset_eq validators pubkeys seed size :
  select_proposer_subset validators pubkeys seed size =
  sort_by (fun id => id) (map fst (chosen validators pubkeys seed size)).
Proof.
  unfold select_proposer_subset, chosen. destruct (bool_decide_reflect (validators = [])) as [->|].
  { cbn. by rewrite take_nil. }
  cbn [orb]. by destruct (Z.eqb_spec size 0) as [->|].
Qed.

Lemma subset_elem validators pubkeys seed size id :
  id ∈ select_proposer_subset validators pubkeys seed size <->
  exists s, (id, s) ∈ chosen validators pubkeys seed size.
Proof.
  rewrite subset_eq, sort_by_perm, list_elem_of_fmap. split.
  - intros ([i s] & -> & Hs). by exists s.
  - intros [s Hs]. by exists (id, s).
Qed.

Lemma chosen_scored validators pubkeys seed size x :
  x ∈ chosen validators pubkeys seed size -> x ∈ scored validators pubkeys seed.
Proof.
  intros Hx. rewrite <- (sort_by_perm snd). unfold chosen in Hx.
  rewrite <- (take_drop (Z.to_nat size)). apply elem_of_app. by left.
Qed.

Lemma subset_NoDup validators pubkeys seed size :
  NoDup validators -> NoDup (select_proposer_subset validators pubkeys seed size).
Proof.
  intros Hn. rewrite subset_eq, sort_by_perm. unfold chosen.
  rewrite <- firstn_map. eapply (sublist_NoDup _ (map fst (sort_by snd (scored validators pubkeys seed)))).
  - rewrite (sort_by_perm snd). by apply scored_ids_NoDup.
  - apply sublist_take.
Qed.

Lemma subset_length validators pubkeys seed size :
  0 <= size ->
  Z.of_nat (length (select_proposer_subset validators pubkeys seed size)) =
  Z.min size (Z.of_nat (length (scored validators pubkeys seed))).
Proof.
  intros Hs. rewrite subset_eq, sort_by_perm, length_map. unfold chosen.
  rewrite length_take, (sort_by_perm snd). lia.
Qed.

(** Whoever is left out scored no better than anyone chosen. *)
Lemma subset_best validators pubkeys seed size id id' pk pk' :
  NoDup validators -> id ∈ select_proposer_subset validators pubkeys seed size ->
  id' ∈ validators -> id' ∉ select_proposer_subset validators pubkeys seed size ->
  pubkeys !! id = Some pk -> pubkeys !! id' = Some pk' ->
  vrf_sortition_score pk seed <= vrf_sortition_score pk' seed.
Proof.
  intros Hn [s Hs]%subset_elem Hv Hout Hpk Hpk'.
  pose proof (chosen_scored _ _ _ _ _ Hs) as (_ & pk1 & E1 & E2)%scored_elem.
  rewrite Hpk in E1. injection E1 as <-. subst s.
  apply (sorted_take_drop (by_key snd) (Z.to_nat size) (sort_by snd (scored validators pubkeys seed))
    (id, vrf_sortition_score pk seed) (id', vrf_sortition_score pk' seed));
    [apply sort_by_sorted | exact Hs |].
  assert (Hin : (id', vrf_sortition_score pk' seed) ∈ sort_by snd (scored validators pubkeys seed)).
  { rewrite sort_by_perm. apply scored_elem. eauto. }
  rewrite <- (take_drop (Z.to_nat size)) in Hin. apply elem_of_app in Hin as [Hin|Hin]; [|done].
  destruct Hout. apply subset_elem. by eexists.
Qed.

(** Distinct scores make the result independent of the order of the input. *)
Lemma subset_perm validators validators' pubkeys seed size :
  validators ≡ₚ validators' -> NoDup (map snd (scored validators pubkeys seed)) ->
  select_proposer_subset validators pubkeys seed size =
  select_proposer_subset validators' pubkeys seed size.
Proof.
  intros P Hd. rewrite !subset_eq. do 2 f_equal. unfold chosen. f_equal.
  assert (Ps : scored validators pubkeys seed ≡ₚ scored validators' pubkeys seed)
    by (unfold scored; by rewrite P).
  apply (sorted_by_unique snd); [apply sort_by_sorted | apply sort_by_sorted | |].
  - by rewrite sort_by_perm.
  - by rewrite !sort_by_perm.
Qed.

(** ** Rotation *)

(** The proposers of [n] consecutive rounds from [r]. *)
Definition proposers (subset : list Z) (r : Z) (n : nat) : list (option Z) :=
  map (fun i => select_proposer subset (r + Z.of_nat i)) (seq 0 n).

Lemma select_proposer_eq subset r :
  subset <> [] -> select_proposer subset r = subset !! Z.to_nat (r mod Z.of_nat (length subset)).
Proof. by destruct subset. Qed.

Lemma rotation subset r :
  0 <= r -> proposers subset r (length subset) =
    map Some (drop (Z.to_nat (r mod Z.of_nat (length subset))) subset ++
              take (Z.to_nat (r mod Z.of_nat (length subset))) subset).
Proof.
  intros Hr. unfold proposers. apply list_eq. intros i.
  destruct (decide (i < length subset)%nat) as [Hi|Hi].
  2: { rewrite !lookup_ge_None_2; [done|..]; rewrite ?length_map, ?length_app, ?length_drop,
         ?length_take, ?length_seq; lia. }
  set (k := length subset) in *. set (q := r mod Z.of_nat k).
  assert (Hq : 0 <= q < Z.of_nat k) by (apply Z.mod_pos_bound; lia).
  rewrite list_lookup_fmap, lookup_seq_lt by done. cbn [fmap option_fmap option_map].
  rewrite select_proposer_eq by (intros ->; cbn in k; lia). fold k. rewrite list_lookup_fmap.
  assert (Em : (r + Z.of_nat i) mod Z.of_nat k = if (q + Z.of_nat i <? Z.of_nat k) then q + Z.of_nat i
    else q + Z.of_nat i - Z.of_nat k).
  { rewrite Z.add_mod by lia. fold q. rewrite (Z.mod_small (Z.of_nat i)) by lia.
    destruct (Z.ltb_spec (q + Z.of_nat i) (Z.of_nat k)); [by rewrite Z.mod_small by lia|].
    rewrite <- (Z.mod_small (q + Z.of_nat i - Z.of_nat k) (Z.of_nat k)) by lia.
    rewrite <- (Z_mod_plus_full (q + Z.of_nat i - Z.of_nat k) 1 (Z.of_nat k)). f_equal. lia. }
  rewrite Nat.add_0_l, Em.
  assert (Hsome : forall j, (j < k)%nat -> exists x, subset !! j = Some x) by (intros j; apply lookup_lt_is_Some_2).
  destruct (Z.ltb_spec (q + Z.of_nat i) (Z.of_nat k)).
  - rewrite lookup_app_l, lookup_drop by (rewrite length_drop; fold k; lia).
    replace (Z.to_nat (q + Z.of_nat i)) with (Z.to_nat q + i)%nat by lia.
    destruct (Hsome (Z.to_nat q + i)%nat) as [x ->]; [lia | done].
  - rewrite lookup_app_r, length_drop by (rewrite length_drop; fold k; lia). fold k.
    rewrite lookup_take_lt by lia.
    replace (Z.to_nat (q + Z.of_nat i - Z.of_nat k)) with (i - (k - Z.to_nat q))%nat by lia.
    destruct (Hsome (i - (k - Z.to_nat q))%nat) as [x ->]; [lia | done].
Qed.

End Sortition.

(** ** The block cache *)

Section BlockCache.
Context {Block : Type}.

Record BlockCache : Type := mkCache {
  blocks : gmap Z Block;
  order : list Z;
  max_size : Z
}.

Definition cache_new (max_size : Z) : BlockCache := mkCache ∅ [] max_size.

Definition cache_insert (digest : Z) (b : Block) (c : BlockCache) : BlockCache :=
  if bool_decide (is_Some (blocks c !! digest)) then c else
  let c := if max_size c <=? Z.of_nat (size (blocks c)) then
             match order c with
             | oldest :: rest => mkCache (delete oldest (blocks c)) rest (max_size c)
             | [] => c
             end
           else c in
  mkCache (<[digest := b]> (blocks c)) (order c ++ [digest]) (max_size c).

Definition cache_get (digest : Z) (c : BlockCache) : option Block := blocks c !! digest.

Definition cache_remove (digest : Z) (c : BlockCache) : option Block * BlockCache :=
  (blocks c !! digest,
   mkCache (delete digest (blocks c)) (List.filter (fun d => negb (d =? digest)) (order c)) (max_size c)).

Definition cache_len (c : BlockCache) : Z := Z.of_nat (size (blocks c)).
Definition cache_is_empty (c : BlockCache) : bool := cache_len c =? 0.
Definition cache_clear (c : BlockCache) : BlockCache := mkCache ∅ [] (max_size c).

(** The order lists exactly the cached digests, within the capacity. *)
Record cache_wf (c : BlockCache) : Prop := {
  cw_nodup : NoDup (order c);
  cw_dom : forall d, d ∈ order c <-> is_Some (blocks c !! d);
  cw_size : cache_len c <= Z.max 1 (max_size c)
}.

Lemma cache_order_size c : NoDup (order c) -> (forall d, d ∈ order c <-> is_Some (blocks c !! d)) ->
  size (blocks c) = length (order c).
Proof.
  intros Hn Hd. rewrite <- (size_dom (D := gset Z)), <- (size_list_to_set (C := gset Z) (order c) Hn).
  f_equal. apply set_eq. intros d. by rewrite elem_of_dom, elem_of_list_to_set, Hd.
Qed.

Lemma cache_wf_intro c :
  NoDup (order c) -> (forall d, d ∈ order c <-> is_Some (blocks c !! d)) ->
  Z.of_nat (length (order c)) <= Z.max 1 (max_size c) -> cache_wf c.
Proof. intros Hn Hd Hl. split; [done|done|]. unfold cache_len. by rewrite cache_order_size. Qed.

Lemma cache_push_wf d b m l k :
  NoDup l -> (forall x, x ∈ l <-> is_Some (m !! x)) -> d ∉ l ->
  Z.of_nat (length l) + 1 <= Z.max 1 k -> cache_wf (mkCache (<[d := b]> m) (l ++ [d]) k).
Proof.
  intros Hn Hd Hnew Hl. apply cache_wf_intro; cbn.
  - apply NoDup_app. split_and!; [done| |apply NoDup_singleton].
    intros x Hx ->%list_elem_of_singleton. done.
  - intros x. rewrite elem_of_app, list_elem_of_singleton, lookup_insert_is_Some, Hd.
    destruct (decide (d = x)); naive_solver.
  - rewrite length_app. cbn. lia.
Qed.

Lemma cache_insert_wf d b c : cache_wf c -> cache_wf (cache_insert d b c).
Proof.
  intros W. pose proof W as [Hn Hd Hs]. unfold cache_insert. case_bool_decide as Hin; [done|].
  assert (Hnew : d ∉ order c) by (by rewrite Hd).
  unfold cache_len in Hs. rewrite cache_order_size in Hs |- * by done.
  destruct (Z.leb_spec (max_size c) (Z.of_nat (length (order c)))); [|by apply cache_push_wf; [..|lia]].
  destruct (order c) as [|o r] eqn:Eo; [rewrite Eo; apply cache_push_wf; try done; cbn; lia|].
  apply NoDup_cons in Hn as [Hno Hn]. cbn in *. apply cache_push_wf; [done| |set_solver|lia].
  intros x. rewrite lookup_delete_is_Some, <- Hd. set_solver.
Qed.

Lemma cache_remove_wf d c : cache_wf c -> cache_wf (cache_remove d c).2.
Proof.
  intros [Hn Hd Hs]. unfold cache_len in Hs. rewrite cache_order_size in Hs by done.
  apply cache_wf_intro; cbn.
  - by apply NoDup_ListNoDup, List.NoDup_filter, NoDup_ListNoDup.
  - intros x. rewrite list_elem_of_In, filter_In, <- list_elem_of_In, Hd, lookup_delete_is_Some.
    destruct (Z.eqb_spec x d); cbn; naive_solver.
  - pose proof (filter_length_le (fun d' => negb (d' =? d)) (order c)). lia.
Qed.

End BlockCache.

(** ** Properties *)

Section Properties.
Context `{Keccak}.

(** C38: the election of proposers is sound and fair.  The subset of an epoch
    has no duplicates, contains only validators with a known key, as many as
    asked for or all of them; no validator left out has a better score than
    one chosen; with distinct scores it does not depend on the order in which
    the validators are listed; and in any run of as many rounds as the subset
    has members every member proposes exactly once. *)
Theorem proposer_election_sound validators pubkeys seed size :
  NoDup validators -> 0 <= size ->
  let S := select_proposer_subset validators pubkeys seed size in
  NoDup S /\
  Z.of_nat (length S) = Z.min size (Z.of_nat (length (scored validators pubkeys seed))) /\
  (forall id, id ∈ S -> id ∈ validators /\ is_Some (pubkeys !! id)) /\
  (forall id id' pk pk', id ∈ S -> id' ∈ validators -> id' ∉ S ->
     pubkeys !! id = Some pk -> pubkeys !! id' = Some pk' ->
     vrf_sortition_score pk seed <= vrf_sortition_score pk' seed) /\
  (forall validators', validators ≡ₚ validators' -> NoDup (map snd (scored validators pubkeys seed)) ->
     select_proposer_subset validators' pubkeys seed size = S) /\
  (forall r, 0 <= r -> proposers S r (length S) ≡ₚ map Some S).
Proof.
  intros Hn Hs S. split_and!.
  - by apply subset_NoDup.
  - by apply subset_length.
  - intros id [s Hid%chosen_scored%scored_elem]%subset_elem. destruct Hid as (? & pk & -> & _). eauto.
  - intros. by eapply subset_best.
  - intros. symmetry. by apply subset_perm.
  - intros r Hr. rewrite rotation by done. rewrite <- (take_drop (Z.to_nat (r mod Z.of_nat (length S))) S) at 5.
    rewrite !map_app. apply Permutation_app_comm.
Qed.

End Properties.

(** ** The properties at concrete inputs *)

Module ProposerDemo.

#[local] Instance toy_keccak : Keccak := fun bs => from_be (1 :: bs).

(** Three keys known, two seats. *)
Definition pubkeys : gmap Z (list Z) := {[ 1 := [9]; 2 := [7]; 3 := [8] ]}.

Lemma proposer_election_sound_witness :
  select_proposer_subset [1; 2; 3; 4] pubkeys 5 2 = [2; 3] /\
  NoDup (select_proposer_subset [1; 2; 3; 4] pubkeys 5 2) /\
  proposers (select_proposer_subset [1; 2; 3; 4] pubkeys 5 2) 7 2 ≡ₚ [Some 2; Some 3].
Proof.
  destruct (proposer_election_sound [1; 2; 3; 4] pubkeys 5 2) as (P1 & _ & _ & _ & _ & P6).
  - apply (bool_decide_eq_true_1 _). vm_compute. reflexivity.
  - lia.
  - assert (E : select_proposer_subset [1; 2; 3; 4] pubkeys 5 2 = [2; 3]) by (vm_compute; reflexivity).
    split; [exact E|]. split; [exact P1|]. specialize (P6 7 ltac:(lia)). rewrite E in P6 |- *. exact P6.
Defined.

End ProposerDemo.
