(* ===== verification/Governance.v ===== *)
(** * Governance: proposals, votes and emergency powers

    Models [crates/governance/src/config.rs] and [precompile.rs]: the
    configuration and its quorums, [GovernanceStorage] (submission, voting,
    queueing, execution of every proposal type, cancellation, the emergency
    multi-signature) and the precompile at 0x203.  The generated ABI codecs
    are the class [GovernanceAbi].  [PrecompileError::Other(e.to_string())] of
    an [Other] is that error, so the handlers pass the errors of the storage on
    unchanged. *)

From stdpp Require Import base gmap list strings pretty.
From Stdlib Require Import ZArith Lia.
From S2P Require Import Prelude Provider World EvmProvider Refinement Dispatch Utils.
From S2P Require Import Asset Validator.
From S2P Require Import Keyed.

Local Open Scope Z_scope.
Local Open Scope callnode_scope.

(** ** Configuration ([config.rs]) *)

Definition TOTAL_SUPPLY : Z := 1000000000000000000000000000.
Definition DEFAULT_PROPOSAL_DEPOSIT : Z := 10000 * 10 ^ 18.
Definition DEFAULT_ASSET_REGISTRATION_FEE : Z := 10000000000000000000.
Definition REVIEW_PERIOD_BLOCKS : Z := 691200.
Definition VOTING_PERIOD_BLOCKS : Z := 2419200.
Definition TIMELOCK_PERIOD_BLOCKS : Z := 2419200.
Definition EXECUTION_TIMEOUT_BLOCKS : Z := 10368000.
Definition MIN_QUORUM_BPS : Z := 1.
Definition MAX_BPS : Z := 10000.
Definition MIN_SIMPLE_MAJORITY_BPS : Z := 5001.
Definition MAX_PERIOD_BLOCKS : Z := U64_MAX / 2.
Definition MAX_PROPOSAL_COOLDOWN : Z := 10368000.

Record GovernanceConfig : Type := mkGovConfig {
  validator_quorum_bps : Z;
  supply_quorum_bps : Z;
  treasury_quorum_bps : Z;
  simple_majority_bps : Z;
  emergency_pause_bps : Z;
  review_period_blocks : Z;
  voting_period_blocks : Z;
  timelock_period_blocks : Z;
  execution_timeout_blocks : Z;
  proposal_deposit : Z;
  asset_registration_fee : Z
}.

Definition gov_config_default : GovernanceConfig :=
  mkGovConfig 6667 2000 2000 5001 6667 REVIEW_PERIOD_BLOCKS VOTING_PERIOD_BLOCKS
    TIMELOCK_PERIOD_BLOCKS EXECUTION_TIMEOUT_BLOCKS DEFAULT_PROPOSAL_DEPOSIT
    DEFAULT_ASSET_REGISTRATION_FEE.

(** Membership of a key in a list of string literals. *)
Definition one_of (key : list Z) (keys : list string) : bool :=
  existsb (fun k => bool_decide (key = b_ k)) keys.

Definition validate_config_param (key : list Z) (value : Z) : option string :=
  if one_of key ["validator_quorum_bps"; "supply_quorum_bps"; "treasury_quorum_bps";
                 "emergency_pause_bps"]%string then
    if value <? MIN_QUORUM_BPS then Some "governance: bps below minimum safe threshold"%string
    else if MAX_BPS <? value then Some "governance: bps exceeds 100%"%string else None
  else if one_of key ["simple_majority_bps"]%string then
    if value <? MIN_SIMPLE_MAJORITY_BPS
    then Some "governance: simple majority must exceed 50%"%string
    else if MAX_BPS <? value then Some "governance: bps exceeds 100%"%string else None
  else if one_of key ["review_period"; "voting_period"; "timelock"; "execution_timeout"]%string then
    if MAX_PERIOD_BLOCKS <? value then Some "governance: period exceeds safe maximum"%string else None
  else if one_of key ["proposal_cooldown"]%string then
    if MAX_PROPOSAL_COOLDOWN <? value
    then Some "governance: cooldown exceeds safe maximum"%string else None
  else if one_of key ["proposal_deposit"; "asset_registration_fee"]%string then None
  else Some "governance: unknown config key for validation"%string.

(** [as u64] truncates. *)
Definition validator_quorum (c : GovernanceConfig) (total_validators : Z) : Z :=
  wrap_u64 (div_ceil (total_validators * validator_quorum_bps c) 10000).
Definition supply_quorum (c : GovernanceConfig) : Z :=
  TOTAL_SUPPLY * supply_quorum_bps c / 10000.
Definition treasury_quorum (c : GovernanceConfig) : Z :=
  TOTAL_SUPPLY * treasury_quorum_bps c / 10000.
Definition simple_majority (c : GovernanceConfig) (total_validators : Z) : Z :=
  wrap_u64 (div_ceil (total_validators * simple_majority_bps c) 10000).
Definition emergency_pause_threshold (c : GovernanceConfig) (total_validators : Z) : Z :=
  wrap_u64 (div_ceil (total_validators * emergency_pause_bps c) 10000).

(** ** Constants of the precompile *)

Definition PROPOSAL_DEPOSIT : Z := DEFAULT_PROPOSAL_DEPOSIT.
Definition TREASURY_ADDRESS : Z := from_be (replicate 20 0xAA).
Definition GOV_TIMELOCK_BLOCKS : Z := 100.
Definition GOV_EXEC_TIMEOUT : Z := 1000.
Definition GOV_PROPOSAL_COOLDOWN : Z := 345600.
Definition MAX_EXECUTION_DATA_LEN : Z := 1024 * 1024.

Definition ALLOWED_GOVERNANCE_PARAMS : list string :=
  ["review_period"; "voting_period"; "timelock"; "execution_timeout"; "proposal_cooldown";
   "validator_quorum_bps"; "supply_quorum_bps"; "treasury_quorum_bps"; "simple_majority_bps";
   "emergency_pause_bps"]%string.

(** ** Storage slots

    The slots of the governance storage; [slot_gov_proposal_review_end],
    [slot_gov_proposal_quorum_required] and [slot_gov_proposal_data_len] hash
    the same bytes as [slot_gov_proposal] with their suffix. *)

Inductive gov_key : Type :=
| slot_gov_proposal_count
| slot_gov_proposal (proposal_id : Z) (suffix : string)
| slot_gov_proposal_data_chunk (proposal_id chunk_idx : Z)
| slot_gov_voter (proposal_id voter : Z)
| slot_gov_voter_vote (proposal_id voter : Z)
| slot_gov_last_submission (addr : Z)
| slot_gov_paused
| slot_gov_pause_reason
| slot_gov_config (suffix : list Z)
| slot_gov_config_initialized
| slot_emergency_pause_epoch
| slot_emergency_pause_sig_epoch (addr : Z)
| slot_emergency_pause_sig_count
| slot_emergency_resume_epoch
| slot_emergency_resume_sig_epoch (addr : Z)
| slot_emergency_resume_sig_count
| slot_protocol_upgrade
| slot_fee_currency (asset_id : Z)
| slot_fee_currency_cap (asset_id : Z)
| slot_key_rotation (id_buf : list Z) (suffix : string)
| slot_prover_rotation (suffix : string).

#[global] Instance gov_key_eq_dec : EqDecision gov_key.
Proof. solve_decision. Defined.

Abbreviation slot_gov_proposal_review_end proposal_id :=
  (slot_gov_proposal proposal_id "review_end").
Abbreviation slot_gov_proposal_quorum_required proposal_id :=
  (slot_gov_proposal proposal_id "quorum_required").
Abbreviation slot_gov_proposal_data_len proposal_id :=
  (slot_gov_proposal proposal_id "data_len").

(** The byte strings a slot hashes. *)
Definition gov_parts (k : gov_key) : list (list Z) :=
  match k with
  | slot_gov_proposal_count => []
  | slot_gov_proposal pid suffix => [b_ "proposal"; u64_bytes pid; b_ suffix]
  | slot_gov_proposal_data_chunk pid idx =>
      [b_ "proposal"; u64_bytes pid; b_ "data_chunk"; u64_bytes idx]
  | slot_gov_voter pid voter => [b_ "vote"; u64_bytes pid; addr_bytes voter]
  | slot_gov_voter_vote pid voter => [b_ "vote_choice"; u64_bytes pid; addr_bytes voter]
  | slot_gov_last_submission addr => [b_ "last_submit"; addr_bytes addr]
  | slot_gov_paused => [b_ "paused"]
  | slot_gov_pause_reason => [b_ "pause_reason"]
  | slot_gov_config suffix => [b_ "gov_config"; suffix]
  | slot_gov_config_initialized => [b_ "gov_config_initialized"]
  | slot_emergency_pause_epoch => [b_ "emergency_pause_epoch"]
  | slot_emergency_pause_sig_epoch addr => [b_ "emergency_pause_sig"; addr_bytes addr]
  | slot_emergency_pause_sig_count => [b_ "emergency_pause_sig_count"]
  | slot_emergency_resume_epoch => [b_ "emergency_resume_epoch"]
  | slot_emergency_resume_sig_epoch addr => [b_ "emergency_resume_sig"; addr_bytes addr]
  | slot_emergency_resume_sig_count => [b_ "emergency_resume_sig_count"]
  | slot_protocol_upgrade => [b_ "protocol_upgrade"]
  | slot_fee_currency asset_id => [b_ "fee_currency"; u64_bytes asset_id]
  | slot_fee_currency_cap asset_id => [b_ "fee_currency_cap"; u64_bytes asset_id]
  | slot_key_rotation id_buf suffix => [b_ "key_rotation"; id_buf; b_ suffix]
  | slot_prover_rotation suffix => [b_ "prover_key_rotation"; b_ suffix]
  end.

Section Storage.
Context `{Keccak}.

Definition gov_slot (k : gov_key) : Z :=
  match k with slot_gov_proposal_count => 0 | _ => storage_slot (gov_parts k) end.

Definition gload (k : gov_key) : prog Z := load GOVERNANCE_ADDRESS (gov_slot k).
Definition gstore (k : gov_key) (v : Z) : prog unit := store GOVERNANCE_ADDRESS (gov_slot k) v.
Definition gerr {A} (msg : string) : prog (res A) := Ret (Err (Other msg)).

(** ** Reads *)

Definition read_proposal_count : prog Z :=
  v <- gload slot_gov_proposal_count; Ret (u256_to_u64 v).
Definition read_proposal_u64 (proposal_id : Z) (suffix : string) : prog Z :=
  v <- gload (slot_gov_proposal proposal_id suffix); Ret (u256_to_u64 v).
Definition read_proposal_u8 (proposal_id : Z) (suffix : string) : prog Z :=
  v <- gload (slot_gov_proposal proposal_id suffix); Ret (u256_to_u8 v).
Definition read_proposal_u128 (proposal_id : Z) (suffix : string) : prog Z :=
  v <- gload (slot_gov_proposal proposal_id suffix); Ret (u256_to_u128 v).
Definition read_proposal_status (proposal_id : Z) : prog Z := read_proposal_u8 proposal_id "status".
Definition read_proposal_proposer (proposal_id : Z) : prog Z :=
  v <- gload (slot_gov_proposal proposal_id "proposer"); Ret (u256_to_address v).
Definition read_proposal_data_len (proposal_id : Z) : prog Z :=
  v <- gload (slot_gov_proposal_data_len proposal_id); Ret (u256_to_u64 v).
Definition read_vote_tally (proposal_id : Z) (suffix : string) : prog Z :=
  read_proposal_u128 proposal_id suffix.
Definition read_voter_power (proposal_id voter : Z) : prog Z :=
  v <- gload (slot_gov_voter proposal_id voter); Ret (u256_to_u128 v).
Definition read_voter_vote (proposal_id voter : Z) : prog Z :=
  v <- gload (slot_gov_voter_vote proposal_id voter); Ret (u256_to_u8 v).

(** [try_into().unwrap_or(u64::MAX)]. *)
Definition read_gov_validator_count : prog Z :=
  v <- load VALIDATOR_ADDRESS slot_validator_count;
  Ret (if v <=? U64_MAX then v else U64_MAX).

(** The loop over the chunks, [n] of them from [chunk_idx]. *)
Fixpoint read_chunks (n : nat) (chunk_idx proposal_id : Z) (data_len : nat) (result : list Z) :
    prog (list Z) :=
  match n with
  | O => Ret result
  | S n =>
      v <- gload (slot_gov_proposal_data_chunk proposal_id chunk_idx);
      let remaining := (data_len - length result)%nat in
      read_chunks n (chunk_idx + 1) proposal_id data_len
        (result ++ take (Nat.min remaining 32) (be_bytes 32 v))
  end.

Definition read_proposal_execution_data (proposal_id : Z) : prog (list Z) :=
  data_len <- read_proposal_data_len proposal_id;
  if data_len =? 0 then Ret [] else
  if MAX_EXECUTION_DATA_LEN <? data_len then Ret [] else
  read_chunks (Z.to_nat ((data_len + 31) / 32)) 0 proposal_id (Z.to_nat data_len) [].

Definition require_proposal_status (proposal_id expected : Z) (err : string) : prog (res unit) :=
  status <- read_proposal_status proposal_id;
  if negb (status =? expected) then gerr err else Ret (Ok tt).

Definition require_valid_proposal_id (proposal_id : Z) : prog (res unit) :=
  if proposal_id =? 0 then gerr "governance: invalid proposal id" else
  count <- read_proposal_count;
  if count <? proposal_id then gerr "governance: invalid proposal id" else Ret (Ok tt).

Definition is_paused : prog bool :=
  v <- gload slot_gov_paused; Ret (negb (u256_to_u8 v =? 0)).

(** ** Configuration storage *)

Definition read_config_u64 (suffix : string) : prog Z :=
  v <- gload (slot_gov_config (b_ suffix)); Ret (u256_to_u64 v).
Definition read_config_u128 (suffix : string) : prog Z :=
  v <- gload (slot_gov_config (b_ suffix)); Ret (u256_to_u128 v).
Definition read_config_u32 (suffix : string) : prog Z :=
  v <- gload (slot_gov_config (b_ suffix)); Ret (wrap_u32 (u256_to_u64 v)).
Definition write_config_u64 (suffix : list Z) (value : Z) : prog unit :=
  gstore (slot_gov_config suffix) (u64_to_u256 value).
Definition write_config_u128 (suffix : list Z) (value : Z) : prog unit :=
  gstore (slot_gov_config suffix) (u128_to_u256 value).
Definition write_config_u32 (suffix : list Z) (value : Z) : prog unit :=
  gstore (slot_gov_config suffix) (u64_to_u256 value).

Definition ensure_config_initialized : prog unit :=
  initialized <- gload slot_gov_config_initialized;
  if negb (initialized =? 0) then Ret tt else
  let cfg := gov_config_default in
  do write_config_u32 (b_ "validator_quorum_bps") (validator_quorum_bps cfg);
  do write_config_u32 (b_ "supply_quorum_bps") (supply_quorum_bps cfg);
  do write_config_u32 (b_ "treasury_quorum_bps") (treasury_quorum_bps cfg);
  do write_config_u32 (b_ "simple_majority_bps") (simple_majority_bps cfg);
  do write_config_u32 (b_ "emergency_pause_bps") (emergency_pause_bps cfg);
  gstore slot_gov_config_initialized 1.

Definition governance_config : prog GovernanceConfig :=
  do ensure_config_initialized;
  vq <- read_config_u32 "validator_quorum_bps";
  sq <- read_config_u32 "supply_quorum_bps";
  tq <- read_config_u32 "treasury_quorum_bps";
  sm <- read_config_u32 "simple_majority_bps";
  ep <- read_config_u32 "emergency_pause_bps";
  rp <- read_config_u64 "review_period";
  vp <- read_config_u64 "voting_period";
  tl <- read_config_u64 "timelock";
  et <- read_config_u64 "execution_timeout";
  pd <- read_config_u128 "proposal_deposit";
  rf <- read_config_u128 "asset_registration_fee";
  Ret (mkGovConfig vq sq tq sm ep rp vp tl et pd rf).

(** The quorum of a proposal type. *)
Definition quorum_for (config : GovernanceConfig) (proposal_type validator_count : Z) : Z :=
  match proposal_type with
  | 2 => treasury_quorum config
  | 4 => supply_quorum config
  | 5 => if validator_count =? 0 then 0 else emergency_pause_threshold config validator_count
  | _ => if validator_count =? 0 then 0 else validator_quorum config validator_count
  end.

Definition compute_and_set_quorum (proposal_id : Z) : prog unit :=
  proposal_type <- read_proposal_u8 proposal_id "proposal_type";
  config <- governance_config;
  validator_count <- read_gov_validator_count;
  gstore (slot_gov_proposal_quorum_required proposal_id)
    (u128_to_u256 (quorum_for config proposal_type validator_count)).

(** [tally + 1] wraps in release builds. *)
Definition increment_tally (proposal_id : Z) (suffix : string) : prog unit :=
  tally <- read_vote_tally proposal_id suffix;
  gstore (slot_gov_proposal proposal_id suffix) (u128_to_u256 (wrap_u128 (tally + 1))).

Definition mark_defeated (proposal_id : Z) : prog unit :=
  proposer <- read_proposal_proposer proposal_id;
  do (if negb (proposer =? 0) then gstore (slot_gov_proposal proposal_id "deposit") 0 else Ret tt);
  gstore (slot_gov_proposal proposal_id "status") 4.

(** [unwrap_or] of a configured value that is zero. *)
Definition or_default (v d : Z) : Z := if v =? 0 then d else v.

(** ** Submission *)

Fixpoint store_chunks (proposal_id chunk_idx : Z) (cs : list (list Z)) : prog unit :=
  match cs with
  | [] => Ret tt
  | chunk :: cs =>
      do gstore (slot_gov_proposal_data_chunk proposal_id chunk_idx)
           (from_be (chunk ++ replicate (32 - length chunk) 0));
      store_chunks proposal_id (chunk_idx + 1) cs
  end.

(** [map_err(|_| Other(msg))] on a ledger operation. *)
Definition gledger {A} (msg : string) (p : prog (ares A)) : prog (res A) :=
  prog_map_err (fun _ => Other msg) p.

(** The type-specific validation of the execution data. *)
Definition validate_execution_data (proposal_type : Z) (execution_data : list Z) : res unit :=
  match proposal_type with
  | 3 =>
      if (length execution_data <? 64)%nat
      then Err (Other "governance: ValidatorSlash execution data too short")
      else if from_be (slice execution_data 48 16) =? 0
      then Err (Other "governance: ValidatorSlash amount must be non-zero")
      else Ok tt
  | _ => Ok tt
  end.

(** The record of a new proposal. *)
Definition store_proposal (proposal_id proposal_type : Z)
    (title description execution_data : list Z)
    (proposer start_block end_block initial_status : Z) : prog unit :=
  do gstore slot_gov_proposal_count (u64_to_u256 proposal_id);
  do gstore (slot_gov_proposal proposal_id "proposer") (address_to_u256 proposer);
  do gstore (slot_gov_proposal proposal_id "title") (keccak256 title);
  do gstore (slot_gov_proposal proposal_id "desc") (keccak256 description);
  do gstore (slot_gov_proposal proposal_id "data") (keccak256 execution_data);
  do gstore (slot_gov_proposal_data_len proposal_id)
       (u64_to_u256 (Z.of_nat (length execution_data)));
  do store_chunks proposal_id 0 (chunks execution_data);
  do gstore (slot_gov_proposal proposal_id "status") initial_status;
  do gstore (slot_gov_proposal proposal_id "votes_for") 0;
  do gstore (slot_gov_proposal proposal_id "votes_against") 0;
  do gstore (slot_gov_proposal proposal_id "votes_abstain") 0;
  do gstore (slot_gov_proposal proposal_id "deposit") (u128_to_u256 PROPOSAL_DEPOSIT);
  do gstore (slot_gov_proposal proposal_id "start_block") (u64_to_u256 start_block);
  do gstore (slot_gov_proposal proposal_id "end_block") (u64_to_u256 end_block);
  do gstore (slot_gov_proposal proposal_id "proposal_type") proposal_type;
  gstore (slot_gov_proposal_review_end proposal_id) (u64_to_u256 start_block).

Definition submit_proposal (proposal_type : Z) (title description execution_data : list Z)
    (proposer current_block : Z) : prog (res Z) :=
  do ensure_config_initialized;
  if 10 <? proposal_type then gerr "governance: unsupported proposal type" else
  cooldown <- read_config_u64 "proposal_cooldown";
  let cooldown := or_default cooldown GOV_PROPOSAL_COOLDOWN in
  last <- gload (slot_gov_last_submission proposer);
  let last_submit := u256_to_u64 last in
  if (0 <? last_submit) && (saturating_sub current_block last_submit <? cooldown)
  then gerr "governance: proposal rate limited" else
  do? Ret (validate_execution_data proposal_type execution_data);
  do? gledger "governance: insufficient balance for proposal deposit"
        (deduct_balance CALL_ASSET_ID proposer PROPOSAL_DEPOSIT);
  count <- read_proposal_count;
  let proposal_id := wrap_u64 (count + 1) in
  review_period <- read_config_u64 "review_period";
  voting_period <- read_config_u64 "voting_period";
  start_block <-? Ret (ok_or (Other "governance: start_block overflow")
                         (checked_add U64_MAX current_block review_period));
  end_block <-? Ret (ok_or (Other "governance: end_block overflow")
                       (checked_add U64_MAX start_block voting_period));
  let initial_status := if review_period =? 0 then 1 else 0 in
  do store_proposal proposal_id proposal_type title description execution_data proposer
       start_block end_block initial_status;
  do (if review_period =? 0 then compute_and_set_quorum proposal_id else Ret tt);
  do (if 0 <? review_period
      then gstore (slot_gov_proposal_quorum_required proposal_id) 0 else Ret tt);
  do gstore (slot_gov_last_submission proposer) (u64_to_u256 current_block);
  Ret (Ok proposal_id).

(** ** Voting *)

(** Pending proposals become active once the review period has passed. *)
Definition auto_advance (proposal_id status start_block current_block : Z) : prog unit :=
  if (status =? 0) && (start_block <=? current_block) then
    do gstore (slot_gov_proposal proposal_id "status") 1;
    compute_and_set_quorum proposal_id
  else Ret tt.

Definition tally_suffix (vote_val : Z) : string :=
  match vote_val with
  | 1 => "votes_for"
  | 2 => "votes_against"
  | _ => "votes_abstain"
  end%string.

Definition vote (proposal_id vote_val voter voting_power current_block : Z) : prog (res unit) :=
  if (vote_val <? 1) || (3 <? vote_val) then gerr "governance: invalid vote value" else
  paused <- is_paused;
  if paused : bool then gerr "governance: chain is paused" else
  do? require_valid_proposal_id proposal_id;
  status <- read_proposal_status proposal_id;
  start_block <- read_proposal_u64 proposal_id "start_block";
  end_block <- read_proposal_u64 proposal_id "end_block";
  do auto_advance proposal_id status start_block current_block;
  status <- read_proposal_status proposal_id;
  if negb (status =? 1) then gerr "governance: proposal not active" else
  if current_block <? start_block then gerr "governance: voting not started" else
  if end_block <=? current_block then gerr "governance: voting period closed" else
  has_voted <- gload (slot_gov_voter proposal_id voter);
  if negb (has_voted =? 0) then gerr "governance: already voted" else
  if voting_power =? 0 then gerr "governance: no voting power" else
  do gstore (slot_gov_voter proposal_id voter) (u128_to_u256 voting_power);
  do gstore (slot_gov_voter_vote proposal_id voter) vote_val;
  tally <- read_vote_tally proposal_id (tally_suffix vote_val);
  do gstore (slot_gov_proposal proposal_id (tally_suffix vote_val))
       (u128_to_u256 (saturating_add U128_MAX tally voting_power));
  Ret (Ok tt).

(** ** Queueing *)

(** The quorum test of [queue]. *)
Definition has_quorum (quorum_required validator_count votes_for votes_against total_votes : Z) :
    bool :=
  if 0 <? quorum_required then quorum_required <=? total_votes
  else
    ((if 0 <? validator_count then validator_count else 1) <=? total_votes)
    && (votes_against <? votes_for).

(** The majority test of [queue]. *)
Definition has_majority (votes_for votes_against majority_bps : Z) : bool :=
  let participation := saturating_add U128_MAX votes_for votes_against in
  if participation =? 0 then false
  else saturating_mul U128_MAX participation majority_bps <? saturating_mul U128_MAX votes_for 10000.

Definition queue (proposal_id current_block : Z) : prog (res unit) :=
  paused <- is_paused;
  if paused : bool then gerr "governance: chain is paused" else
  do? require_valid_proposal_id proposal_id;
  status <- read_proposal_status proposal_id;
  start_block <- read_proposal_u64 proposal_id "start_block";
  do auto_advance proposal_id status start_block current_block;
  do? require_proposal_status proposal_id 1 "governance: proposal not active";
  votes_for <- read_vote_tally proposal_id "votes_for";
  votes_against <- read_vote_tally proposal_id "votes_against";
  votes_abstain <- read_vote_tally proposal_id "votes_abstain";
  let total_votes :=
    saturating_add U128_MAX (saturating_add U128_MAX votes_for votes_against) votes_abstain in
  quorum_required <- read_proposal_u128 proposal_id "quorum_required";
  proposal_type <- read_proposal_u8 proposal_id "proposal_type";
  validator_count <- (if 0 <? quorum_required then Ret 0 else read_gov_validator_count);
  if negb (has_quorum quorum_required validator_count votes_for votes_against total_votes) then
    do mark_defeated proposal_id; gerr "governance: quorum not reached"
  else
  majority_bps <- read_config_u32 "simple_majority_bps";
  let majority_bps := or_default majority_bps (simple_majority_bps gov_config_default) in
  if negb (has_majority votes_for votes_against majority_bps) then
    do mark_defeated proposal_id; gerr "governance: not enough for votes"
  else
  timelock <- read_config_u64 "timelock";
  let timelock := or_default timelock GOV_TIMELOCK_BLOCKS in
  exec_block <-? (if proposal_type =? 5 then Ret (Ok current_block)
                  else Ret (ok_or (Other "governance: timelock block overflow")
                              (checked_add U64_MAX current_block timelock)));
  do gstore (slot_gov_proposal proposal_id "status") 2;
  do gstore (slot_gov_proposal proposal_id "queued_at") (u64_to_u256 current_block);
  do gstore (slot_gov_proposal proposal_id "execution_block") (u64_to_u256 exec_block);
  Ret (Ok tt).

(** ** Execution *)

(** Fields of the execution data: an address, a u128, a u64 and a 32-byte word
    in the last bytes of their ABI words, and the bytes of a word. *)
Definition field_addr (data : list Z) (word : nat) : Z := from_be (slice data (32 * word + 12) 20).
Definition field_u128 (data : list Z) (word : nat) : Z := from_be (slice data (32 * word + 16) 16).
Definition field_u64 (data : list Z) (word : nat) : Z := from_be (slice data (32 * word + 24) 8).
Definition field_u32 (data : list Z) (word : nat) : Z := from_be (slice data (32 * word + 28) 4).
Definition field_word (data : list Z) (word : nat) : list Z := slice data (32 * word) 32.

Definition bytes_to_string (bs : list Z) : string :=
  String.string_of_list_ascii (map (fun b => Ascii.ascii_of_N (Z.to_N b)) bs).

Definition malformed {A} (what : string) : prog (res A) :=
  gerr ("governance: malformed " ++ what ++ " execution data")%string.

(** Proposal type 0: [(string configKey, uint128 newValue)]. *)
Definition execute_parameter_change (data : list Z) : prog (res unit) :=
  let len := Z.of_nat (length data) in
  if len <? 128 then malformed "ParameterChange" else
  let string_offset := u256_to_u64 (from_be (field_word data 0)) in
  let string_end := saturating_add U64_MAX string_offset 32 in
  if len <? string_end then malformed "ParameterChange" else
  let string_len :=
    u256_to_u64 (from_be (slice data (Z.to_nat string_offset) 32)) in
  let data_end :=
    saturating_add U64_MAX (saturating_add U64_MAX string_offset 32) string_len in
  if len <? data_end then malformed "ParameterChange" else
  let key := slice data (Z.to_nat (string_offset + 32)) (Z.to_nat string_len) in
  if negb (utf8_valid key) then gerr "governance: invalid UTF-8 in parameter key" else
  if negb (one_of key ALLOWED_GOVERNANCE_PARAMS)
  then gerr ("governance: disallowed parameter key: " ++ bytes_to_string key)%string else
  let new_value := field_u128 data 1 in
  match validate_config_param key new_value with
  | Some err => gerr err
  | None => do write_config_u128 key new_value; Ret (Ok tt)
  end.

(** Proposal type 2: [(address recipient, uint128 amount, uint64 assetId)]. *)
Definition execute_treasury_spend (data : list Z) : prog (res unit) :=
  if (length data <? 64)%nat then malformed "TreasurySpend" else
  let recipient := field_addr data 0 in
  if recipient =? 0 then gerr "governance: treasury spend recipient cannot be zero address" else
  let amount := field_u128 data 1 in
  if amount =? 0 then gerr "governance: treasury spend amount must be non-zero" else
  let asset_id := if (96 <=? length data)%nat then field_u64 data 2 else CALL_ASSET_ID in
  do? gledger "governance: treasury insufficient balance"
        (deduct_balance asset_id TREASURY_ADDRESS amount);
  do? gledger "governance: treasury spend credit failed"
        (add_balance asset_id recipient amount);
  Ret (Ok tt).

(** Proposal types 6 and 7: [(uint64 assetId)]. *)
Definition execute_fee_currency (what : string) (flag : Z) (data : list Z) : prog (res unit) :=
  if (length data <? 32)%nat then malformed what else
  do gstore (slot_fee_currency (field_u64 data 0)) flag;
  Ret (Ok tt).

Definition zero32 : list Z := replicate 32 0.

(** Proposal type 9: [(uint64 validatorId, bytes32 oldPubkey, bytes32 newPubkey)]. *)
Definition execute_key_rotation (data : list Z) : prog (res unit) :=
  if (length data <? 96)%nat then malformed "ValidatorKeyRotation" else
  let id_buf := slice data 24 8 in
  let old_pubkey := field_word data 1 in
  if bool_decide (old_pubkey = zero32) then gerr "governance: old pubkey must be non-zero" else
  let new_pubkey := field_word data 2 in
  if bool_decide (new_pubkey = zero32) then gerr "governance: new pubkey must be non-zero" else
  do gstore (slot_key_rotation id_buf "old") (from_be old_pubkey);
  do gstore (slot_key_rotation id_buf "new") (from_be new_pubkey);
  Ret (Ok tt).

(** Proposal type 3: [(address validator, uint128 amount)]. *)
Definition execute_validator_slash (data : list Z) : prog (res unit) :=
  if (length data <? 64)%nat then malformed "ValidatorSlash" else
  let validator := field_addr data 0 in
  let amount := field_u128 data 1 in
  word <- load VALIDATOR_ADDRESS (slot_validator_stake validator);
  let new_stake := saturating_sub (u256_to_u128 word) amount in
  do store VALIDATOR_ADDRESS (slot_validator_stake validator) (u128_to_u256 new_stake);
  do (if new_stake =? 0 then store VALIDATOR_ADDRESS (slot_validator_status validator) 0
      else Ret tt);
  Ret (Ok tt).

(** Proposal type 4: [(address target, uint8 status)]. *)
Definition execute_compliance_update (data : list Z) : prog (res unit) :=
  if (length data <? 64)%nat then malformed "ComplianceUpdate" else
  let target := field_addr data 0 in
  let status := default 0 (data !! 63%nat) in
  if 1 <? status then gerr "governance: invalid compliance status (must be 0 or 1)" else
  do store COMPLIANCE_ADDRESS (slot_compliance target) status;
  Ret (Ok tt).

(** Proposal type 10: [(uint32 keyVersion, bytes32 transferVkHash, bytes32
    depositVkHash, bytes32 withdrawVkHash, uint64 sunsetTimestamp)]. *)
Definition execute_prover_rotation (data : list Z) : prog (res unit) :=
  if (length data <? 160)%nat then malformed "ProverKeyRotation" else
  let sunset_timestamp := field_u64 data 4 in
  if sunset_timestamp =? 0 then gerr "governance: sunset timestamp must be non-zero" else
  do gstore (slot_prover_rotation "version") (field_u32 data 0);
  do gstore (slot_prover_rotation "transfer_vk_hash") (from_be (field_word data 1));
  do gstore (slot_prover_rotation "deposit_vk_hash") (from_be (field_word data 2));
  do gstore (slot_prover_rotation "withdraw_vk_hash") (from_be (field_word data 3));
  do gstore (slot_prover_rotation "sunset_timestamp") sunset_timestamp;
  do gstore (slot_prover_rotation "pending") 1;
  Ret (Ok tt).

(** The side effects of a proposal, by type. *)
Definition apply_proposal (proposal_type : Z) (data : list Z) : prog (res unit) :=
  match proposal_type with
  | 0 => execute_parameter_change data
  | 1 =>
      if (length data <? 32)%nat then malformed "ProtocolUpgrade" else
      do gstore slot_protocol_upgrade (from_be (field_word data 0));
      Ret (Ok tt)
  | 2 => execute_treasury_spend data
  | 3 => execute_validator_slash data
  | 4 => execute_compliance_update data
  | 5 => do gstore slot_gov_paused 1; Ret (Ok tt)
  | 6 => execute_fee_currency "FeeCurrencyAdd" 1 data
  | 7 => execute_fee_currency "FeeCurrencyRemove" 0 data
  | 8 =>
      if (length data <? 64)%nat then malformed "FeeCurrencyCap" else
      do gstore (slot_fee_currency_cap (field_u64 data 0)) (u128_to_u256 (field_u128 data 1));
      Ret (Ok tt)
  | 9 => execute_key_rotation data
  | 10 => execute_prover_rotation data
  | _ => gerr ("governance: unsupported proposal type " ++ pretty (Z.to_N proposal_type))%string
  end.

(** The refund of a deposit, if there is one. *)
Definition refund_deposit (msg : string) (proposal_id proposer : Z) : prog (res unit) :=
  deposit <- read_proposal_u128 proposal_id "deposit";
  if (0 <? deposit) && negb (proposer =? 0) then
    do? gledger msg (add_balance CALL_ASSET_ID proposer deposit);
    do gstore (slot_gov_proposal proposal_id "deposit") 0;
    Ret (Ok tt)
  else Ret (Ok tt).

Definition execute (proposal_id current_block : Z) : prog (res unit) :=
  do? require_valid_proposal_id proposal_id;
  proposal_type <- read_proposal_u8 proposal_id "proposal_type";
  paused <- is_paused;
  if paused && negb (proposal_type =? 5) then gerr "governance: chain is paused" else
  do? require_proposal_status proposal_id 2 "governance: proposal not queued";
  queued_at <- read_proposal_u64 proposal_id "queued_at";
  execution_block <- read_proposal_u64 proposal_id "execution_block";
  if current_block <? execution_block then gerr "governance: timelock not elapsed" else
  timeout <- read_config_u64 "execution_timeout";
  let execution_timeout := or_default timeout GOV_EXEC_TIMEOUT in
  proposer <- read_proposal_proposer proposal_id;
  if saturating_add U64_MAX execution_block execution_timeout <? current_block then
    do gstore (slot_gov_proposal proposal_id "status") 6;
    do? refund_deposit "governance: deposit refund failed" proposal_id proposer;
    gerr "governance: execution timeout reached"
  else
  proposal_type <- read_proposal_u8 proposal_id "proposal_type";
  execution_data <- read_proposal_execution_data proposal_id;
  do? apply_proposal proposal_type execution_data;
  do? refund_deposit "governance: refund failed" proposal_id proposer;
  do gstore (slot_gov_proposal proposal_id "status") 3;
  Ret (Ok tt).

(** ** Cancellation *)

Definition cancel_proposal (proposal_id caller : Z) : prog (res unit) :=
  paused <- is_paused;
  if paused : bool then gerr "governance: chain is paused" else
  do? require_valid_proposal_id proposal_id;
  proposer <- read_proposal_proposer proposal_id;
  if negb (caller =? proposer) then gerr "governance: only proposer can cancel" else
  status <- read_proposal_status proposal_id;
  if negb (status =? 0) then gerr "governance: can only cancel during review period" else
  do? refund_deposit "governance: refund failed" proposal_id proposer;
  do gstore (slot_gov_proposal proposal_id "status") 4;
  Ret (Ok tt).

(** ** Emergency pause and resume *)

Definition read_emergency_pause_epoch : prog Z :=
  v <- gload slot_emergency_pause_epoch; Ret (u256_to_u64 v).
Definition write_emergency_pause_epoch (epoch : Z) : prog unit :=
  gstore slot_emergency_pause_epoch (u64_to_u256 epoch).
Definition increment_emergency_pause_epoch : prog unit :=
  epoch <- read_emergency_pause_epoch; write_emergency_pause_epoch (wrap_u64 (epoch + 1)).
Definition read_emergency_pause_sig_epoch (addr : Z) : prog Z :=
  v <- gload (slot_emergency_pause_sig_epoch addr); Ret (u256_to_u64 v).
Definition write_emergency_pause_sig_epoch (addr epoch : Z) : prog unit :=
  gstore (slot_emergency_pause_sig_epoch addr) (u64_to_u256 epoch).
Definition read_emergency_pause_sig_count : prog Z :=
  v <- gload slot_emergency_pause_sig_count; Ret (u256_to_u64 v).
Definition increment_emergency_pause_sig_count : prog Z :=
  count <- read_emergency_pause_sig_count;
  let new_count := wrap_u64 (count + 1) in
  do gstore slot_emergency_pause_sig_count (u64_to_u256 new_count);
  Ret new_count.
Definition reset_emergency_pause_sig_count : prog unit := gstore slot_emergency_pause_sig_count 0.

Definition read_emergency_resume_epoch : prog Z :=
  v <- gload slot_emergency_resume_epoch; Ret (u256_to_u64 v).
Definition write_emergency_resume_epoch (epoch : Z) : prog unit :=
  gstore slot_emergency_resume_epoch (u64_to_u256 epoch).
Definition increment_emergency_resume_epoch : prog unit :=
  epoch <- read_emergency_resume_epoch; write_emergency_resume_epoch (wrap_u64 (epoch + 1)).
Definition read_emergency_resume_sig_epoch (addr : Z) : prog Z :=
  v <- gload (slot_emergency_resume_sig_epoch addr); Ret (u256_to_u64 v).
Definition write_emergency_resume_sig_epoch (addr epoch : Z) : prog unit :=
  gstore (slot_emergency_resume_sig_epoch addr) (u64_to_u256 epoch).
Definition read_emergency_resume_sig_count : prog Z :=
  v <- gload slot_emergency_resume_sig_count; Ret (u256_to_u64 v).
Definition increment_emergency_resume_sig_count : prog Z :=
  count <- read_emergency_resume_sig_count;
  let new_count := wrap_u64 (count + 1) in
  do gstore slot_emergency_resume_sig_count (u64_to_u256 new_count);
  Ret new_count.
Definition reset_emergency_resume_sig_count : prog unit := gstore slot_emergency_resume_sig_count 0.

Definition emergency_pause (reason : list Z) : prog (res unit) :=
  paused <- is_paused;
  if paused : bool then gerr "governance: already paused" else
  do gstore slot_gov_paused 1;
  do gstore slot_gov_pause_reason (from_be reason);
  Ret (Ok tt).

Definition emergency_resume : prog (res unit) :=
  paused <- is_paused;
  if negb paused then gerr "governance: not paused" else
  do gstore slot_gov_paused 0;
  do gstore slot_gov_pause_reason 0;
  Ret (Ok tt).

End Storage.

(** ** Precompile *)

Record submitProposalCall := {
  sp_proposalType : Z;
  sp_title : list Z;
  sp_description : list Z;
  sp_executionData : list Z
}.
Record voteCall := { vo_proposalId : Z; vo_vote : Z }.
Record proposalCall := { pr_proposalId : Z }.
Record emergencyPauseCall := { ep_reason : list Z }.

(** The tuple [getProposal] returns. *)
Record ProposalView := mkProposalView {
  pv_status : Z;
  pv_proposal_type : Z;
  pv_proposer : Z;
  pv_start_block : Z;
  pv_end_block : Z;
  pv_votes_for : Z;
  pv_votes_against : Z;
  pv_votes_abstain : Z;
  pv_quorum_required : Z
}.

Class GovernanceAbi : Type := {
  dec_submitProposal : list Z -> result string submitProposalCall;
  dec_vote : list Z -> result string voteCall;
  dec_queue : list Z -> result string proposalCall;
  dec_execute : list Z -> result string proposalCall;
  dec_cancelProposal : list Z -> result string proposalCall;
  dec_emergencyPause : list Z -> result string emergencyPauseCall;
  dec_emergencyResume : list Z -> result string unit;
  dec_getProposalStatus : list Z -> result string proposalCall;
  dec_getProposalVotes : list Z -> result string proposalCall;
  dec_getProposal : list Z -> result string proposalCall;
  dec_isPaused : list Z -> result string unit;
  dec_getProposalCount : list Z -> result string unit;
  genc_u256 : Z -> list Z;
  genc_u64 : Z -> list Z;
  genc_votes : Z * Z * Z -> list Z;
  genc_proposal : ProposalView -> list Z;
  sel_submitProposal : list Z;
  sel_vote : list Z;
  sel_queue : list Z;
  sel_execute : list Z;
  sel_cancelProposal : list Z;
  sel_emergencyPause : list Z;
  sel_emergencyResume : list Z;
  sel_getProposalStatus : list Z;
  sel_getProposalVotes : list Z;
  sel_getProposal : list Z;
  sel_isPaused : list Z;
  sel_getProposalCount : list Z
}.

Section Handlers.
Context `{Keccak}.

(** [let _ = storage.emit_event(GOVERNANCE_ADDRESS, log)]. *)
Definition gov_event (signature : string) (topics : list Z) (data : list Z) : prog unit :=
  do emit_event GOVERNANCE_ADDRESS (mkLog (keccak256 (b_ signature) :: topics) data); Ret tt.

Definition submit_proposal_handler (msg_sender : Z) (call : submitProposalCall) : prog (res unit) :=
  caller <-? Ret (require_caller msg_sender);
  do? check_compliance caller;
  height <- block_number;
  proposal_id <-? submit_proposal (sp_proposalType call) (sp_title call) (sp_description call)
                    (sp_executionData call) caller height;
  do gov_event "ProposalSubmitted(uint64,address)"
       [u64_to_u256 proposal_id; address_to_u256 caller] [];
  Ret (Ok tt).

(** The power of a vote, by proposal type. *)
Definition voting_power (proposal_type : Z) (is_validator : bool) (call_balance : Z) : Z :=
  match proposal_type with
  | 0 | 1 | 3 => Z.max (if is_validator then 1 else 0) call_balance
  | 2 => call_balance
  | 4 => saturating_add U128_MAX (if is_validator then 1 else 0) call_balance
  | 5 => if is_validator then 1 else 0
  | 6 | 7 | 8 | 9 | 10 => Z.max (if is_validator then 1 else 0) call_balance
  | _ => call_balance
  end.

Definition vote_handler (msg_sender : Z) (call : voteCall) : prog (res unit) :=
  caller <-? Ret (require_caller msg_sender);
  proposal_type <- read_proposal_u8 (vo_proposalId call) "proposal_type";
  validator_id <- read_validator_id caller;
  balance <- read_balance CALL_ASSET_ID caller;
  let power := voting_power proposal_type (negb (validator_id =? 0)) (unwrap_or 0 balance) in
  height <- block_number;
  do? vote (vo_proposalId call) (vo_vote call) caller power height;
  do gov_event "VoteCast(uint64,address,uint8,uint128)"
       [u64_to_u256 (vo_proposalId call); address_to_u256 caller]
       (be_bytes 32 (vo_vote call) ++ be_bytes 32 (u128_to_u256 power));
  Ret (Ok tt).

(** An event for a terminal state, emitted before a failed call returns. *)
Definition terminal_event {A} (r : res A) (proposal_id terminal : Z) (signature : string) :
    prog unit :=
  match r with
  | Ok _ => Ret tt
  | Err _ =>
      status <- read_proposal_status proposal_id;
      if status =? terminal then gov_event signature [u64_to_u256 proposal_id] [] else Ret tt
  end.

Definition queue_handler (msg_sender : Z) (call : proposalCall) : prog (res unit) :=
  caller <-? Ret (require_caller msg_sender);
  let proposal_id := pr_proposalId call in
  proposer <- read_proposal_proposer proposal_id;
  validator_id <- read_validator_id caller;
  if negb (caller =? proposer) && (validator_id =? 0)
  then gerr "governance: unauthorized to queue" else
  height <- block_number;
  queue_result <- queue proposal_id height;
  do terminal_event queue_result proposal_id 4 "ProposalDefeated(uint64)";
  do? Ret queue_result;
  do gov_event "ProposalQueued(uint64,uint64)" [u64_to_u256 proposal_id; u64_to_u256 height] [];
  Ret (Ok tt).

(** The type-specific events of an execution. *)
Definition execution_event (proposal_type : Z) (data : list Z) : prog unit :=
  let fee_event (signature : string) :=
    if (32 <=? length data)%nat
    then gov_event signature [u64_to_u256 (field_u64 data 0)] [] else Ret tt in
  match proposal_type with
  | 3 =>
      if (64 <=? length data)%nat then
        gov_event "ValidatorSlashed(address,uint128)" [address_to_u256 (field_addr data 0)]
          (be_bytes 32 (u128_to_u256 (field_u128 data 1)))
      else Ret tt
  | 4 =>
      if (64 <=? length data)%nat then
        gov_event "ComplianceUpdated(address,uint8)" [address_to_u256 (field_addr data 0)]
          (be_bytes 32 (default 0 (data !! 63%nat)))
      else Ret tt
  | 6 => fee_event "FeeCurrencyAdded(uint64)"%string
  | 7 => fee_event "FeeCurrencyRemoved(uint64)"%string
  | 8 => fee_event "FeeCurrencyCapped(uint64)"%string
  | _ => Ret tt
  end.

Definition execute_handler (msg_sender : Z) (call : proposalCall) : prog (res unit) :=
  caller <-? Ret (require_caller msg_sender);
  let proposal_id := pr_proposalId call in
  height <- block_number;
  exec_result <- execute proposal_id height;
  do terminal_event exec_result proposal_id 6 "ProposalExpired(uint64)";
  do? Ret exec_result;
  do gov_event "ProposalExecuted(uint64)" [u64_to_u256 proposal_id] [];
  proposal_type <- read_proposal_u8 proposal_id "proposal_type";
  execution_data <- read_proposal_execution_data proposal_id;
  do execution_event proposal_type execution_data;
  Ret (Ok tt).

Definition cancel_proposal_handler (msg_sender : Z) (call : proposalCall) : prog (res unit) :=
  caller <-? Ret (require_caller msg_sender);
  cancel_proposal (pr_proposalId call) caller.

Definition emergency_pause_handler (msg_sender : Z) (call : emergencyPauseCall) :
    prog (res unit) :=
  caller <-? Ret (require_caller msg_sender);
  paused <- is_paused;
  if paused : bool then gerr "governance: already paused" else
  validator_id <- read_validator_id caller;
  if validator_id =? 0 then gerr "sender not a registered validator" else
  stored_epoch <- read_emergency_pause_epoch;
  epoch <- (if stored_epoch =? 0 then do write_emergency_pause_epoch 1; Ret 1 else Ret stored_epoch);
  last_signed <- read_emergency_pause_sig_epoch caller;
  if epoch <=? last_signed then gerr "governance: already signed emergency pause" else
  do write_emergency_pause_sig_epoch caller epoch;
  count <- increment_emergency_pause_sig_count;
  validator_count <- read_gov_validator_count;
  config <- governance_config;
  if count <? emergency_pause_threshold config validator_count then Ret (Ok tt) else
  do? emergency_pause (ep_reason call);
  do increment_emergency_pause_epoch;
  do reset_emergency_pause_sig_count;
  do gov_event "EmergencyPaused(address,bytes32)"
       [address_to_u256 caller; from_be (ep_reason call)] [];
  Ret (Ok tt).

Definition emergency_resume_handler (msg_sender : Z) : prog (res unit) :=
  caller <-? Ret (require_caller msg_sender);
  paused <- is_paused;
  if negb paused then gerr "governance: not paused" else
  validator_id <- read_validator_id caller;
  if validator_id =? 0 then gerr "sender not a registered validator" else
  stored_epoch <- read_emergency_resume_epoch;
  epoch <- (if stored_epoch =? 0 then do write_emergency_resume_epoch 1; Ret 1 else Ret stored_epoch);
  last_signed <- read_emergency_resume_sig_epoch caller;
  if epoch <=? last_signed then gerr "governance: already signed emergency resume" else
  do write_emergency_resume_sig_epoch caller epoch;
  count <- increment_emergency_resume_sig_count;
  validator_count <- read_gov_validator_count;
  config <- governance_config;
  if count <? emergency_pause_threshold config validator_count then Ret (Ok tt) else
  do? emergency_resume;
  do increment_emergency_resume_epoch;
  do reset_emergency_resume_sig_count;
  do gov_event "EmergencyResumed(address)" [address_to_u256 caller] [];
  Ret (Ok tt).

Definition get_proposal_handler (call : proposalCall) : prog (res ProposalView) :=
  let proposal_id := pr_proposalId call in
  do? require_valid_proposal_id proposal_id;
  status <- read_proposal_status proposal_id;
  proposal_type <- read_proposal_u8 proposal_id "proposal_type";
  proposer <- read_proposal_proposer proposal_id;
  start_block <- read_proposal_u64 proposal_id "start_block";
  end_block <- read_proposal_u64 proposal_id "end_block";
  votes_for <- read_vote_tally proposal_id "votes_for";
  votes_against <- read_vote_tally proposal_id "votes_against";
  votes_abstain <- read_vote_tally proposal_id "votes_abstain";
  quorum_required <- read_proposal_u128 proposal_id "quorum_required";
  Ret (Ok (mkProposalView status proposal_type proposer start_block end_block
             votes_for votes_against votes_abstain quorum_required)).

Definition get_proposal_status_handler (call : proposalCall) : prog (res Z) :=
  do? require_valid_proposal_id (pr_proposalId call);
  ok_read (read_proposal_status (pr_proposalId call)).

Definition get_proposal_votes_handler (call : proposalCall) : prog (res (Z * Z * Z)) :=
  let proposal_id := pr_proposalId call in
  do? require_valid_proposal_id proposal_id;
  votes_for <- read_vote_tally proposal_id "votes_for";
  votes_against <- read_vote_tally proposal_id "votes_against";
  votes_abstain <- read_vote_tally proposal_id "votes_abstain";
  Ret (Ok (votes_for, votes_against, votes_abstain)).

Definition is_paused_handler : prog (res Z) :=
  paused <- is_paused; Ret (Ok (if paused : bool then 1 else 0)).

End Handlers.

Section Precompile.
Context `{Keccak, GovernanceAbi} {S : Type} `{!StorageProvider S}.

(** 100,000 gas and 5,000 for each 32 bytes of arguments, at most 1,000,000. *)
Definition submit_gas (calldata : list Z) : N :=
  let data_len := saturating_sub (Z.of_nat (length calldata)) 4 in
  Z.to_N (Z.min (100000 + (data_len + 31) / 32 * 5000) 1000000).

Definition precompile_submit_proposal (calldata : list Z) (msg_sender : Z) (s : S) :=
  mutate_void dec_submitProposal calldata (submit_gas calldata)
    (submit_proposal_handler msg_sender) s.
Definition precompile_vote (calldata : list Z) (msg_sender : Z) (s : S) :=
  mutate_void dec_vote calldata 10000 (vote_handler msg_sender) s.
Definition precompile_queue (calldata : list Z) (msg_sender : Z) (s : S) :=
  mutate_void dec_queue calldata 20000 (queue_handler msg_sender) s.

(** 20,000 gas and 500 for each 32 bytes of execution data, at most 100,000;
    the additions and the product wrap. *)
Definition execute_gas (data_len : Z) : N :=
  let num_chunks := wrap_u64 (data_len + 31) / 32 in
  Z.to_N (Z.min (wrap_u64 (20000 + wrap_u64 (num_chunks * 500))) 100000).

(** The length of the execution data is read before the dispatch. *)
Definition precompile_execute (calldata : list Z) (msg_sender : Z) (s : S) :=
  let proposal_id :=
    if (36 <=? length calldata)%nat then from_be (slice calldata 28 8) else 0 in
  let '(data_len, s) := run (read_proposal_data_len proposal_id) s in
  mutate_void dec_execute calldata (execute_gas data_len) (execute_handler msg_sender) s.
Definition precompile_emergency_pause (calldata : list Z) (msg_sender : Z) (s : S) :=
  mutate_void dec_emergencyPause calldata 30000 (emergency_pause_handler msg_sender) s.
Definition precompile_emergency_resume (calldata : list Z) (msg_sender : Z) (s : S) :=
  mutate_void dec_emergencyResume calldata 20000 (fun _ => emergency_resume_handler msg_sender) s.
Definition precompile_cancel_proposal (calldata : list Z) (msg_sender : Z) (s : S) :=
  mutate_void dec_cancelProposal calldata 20000 (cancel_proposal_handler msg_sender) s.
Definition precompile_get_proposal (calldata : list Z) (s : S) :=
  view dec_getProposal genc_proposal calldata 5000 get_proposal_handler s.
Definition precompile_get_proposal_status (calldata : list Z) (s : S) :=
  view dec_getProposalStatus genc_u256 calldata 2000 get_proposal_status_handler s.
Definition precompile_get_proposal_votes (calldata : list Z) (s : S) :=
  view dec_getProposalVotes genc_votes calldata 2000 get_proposal_votes_handler s.
Definition precompile_is_paused (calldata : list Z) (s : S) :=
  view dec_isPaused genc_u256 calldata 1000 (fun _ => is_paused_handler) s.
Definition precompile_get_proposal_count (calldata : list Z) (s : S) :=
  view dec_getProposalCount genc_u64 calldata 1000 (fun _ => ok_read read_proposal_count) s.

(** [StatefulPrecompile::call]: dispatch on the selector. *)
Definition governance_call (calldata : list Z) (msg_sender : Z) (s : S) :
    res PrecompileOutput * S :=
  if (length calldata <? 4)%nat then (Err (Other "too short"), s) else
  let selector := take 4 calldata in
  if bool_decide (selector = sel_submitProposal)
  then precompile_submit_proposal calldata msg_sender s
  else if bool_decide (selector = sel_vote) then precompile_vote calldata msg_sender s
  else if bool_decide (selector = sel_queue) then precompile_queue calldata msg_sender s
  else if bool_decide (selector = sel_execute) then precompile_execute calldata msg_sender s
  else if bool_decide (selector = sel_cancelProposal)
  then precompile_cancel_proposal calldata msg_sender s
  else if bool_decide (selector = sel_emergencyPause)
  then precompile_emergency_pause calldata msg_sender s
  else if bool_decide (selector = sel_emergencyResume)
  then precompile_emergency_resume calldata msg_sender s
  else if bool_decide (selector = sel_getProposalStatus)
  then precompile_get_proposal_status calldata s
  else if bool_decide (selector = sel_getProposalVotes)
  then precompile_get_proposal_votes calldata s
  else if bool_decide (selector = sel_getProposal) then precompile_get_proposal calldata s
  else if bool_decide (selector = sel_isPaused) then precompile_is_paused calldata s
  else if bool_decide (selector = sel_getProposalCount)
  then precompile_get_proposal_count calldata s
  else (Err (Other "unknown selector"), s).

End Precompile.
