(* ===== verification/GovAdvancer.v ===== *)
(** * GovAdvancer: the per-block proposal state machine

    Models [crates/node/src/governance_advancer.rs], which the block producer
    runs after every block, and the state accessors of
    [crates/consensus/src/exec/state_accessors.rs] it calls.  A
    [ProtocolStorage] is storage without gas or failures, so the functions are
    programs that are run on a [world].  The accessors that read or write one
    governance slot are the reads and writes of [Governance], which use the
    same slots and conversions.  A result of [None] is a panic: an index
    outside of the execution data.  The registration of a prover version in
    the process (proposal type 10) has no storage and is left out. *)

From stdpp Require Import base gmap list strings pretty.
From Stdlib Require Import ZArith Lia.
From S2P Require Import Prelude Provider World EvmProvider Refinement Dispatch Utils.
From S2P Require Import Asset Validator Governance.
From S2P Require Import Keyed.

Local Open Scope Z_scope.
Local Open Scope callnode_scope.

(** ** Types ([governance/src/types.rs]) *)

Inductive ProposalState : Type :=
| Pending | Active | Passed | Defeated | Queued | Executed | Expired.

Inductive GovernanceEvent : Type :=
| ProposalAdvanced (id : Z) (from to : ProposalState)
| ProposalExecuted (id : Z) (proposal_type : string)
| ProposalExpired (id : Z)
| ProposalDefeated (id : Z).

Section Accessors.
Context `{Keccak}.

(** ** State accessors *)

(** Errors of the ledger are dropped. *)
Definition add_balance_evm (asset_id addr amount : Z) : prog unit :=
  do add_balance asset_id addr amount; Ret tt.

(** Unlike [GovernanceStorage], without the limit of 1 MB. *)
Definition read_gov_proposal_execution_data (proposal_id : Z) : prog (list Z) :=
  data_len <- read_proposal_data_len proposal_id;
  if data_len =? 0 then Ret [] else
  read_chunks (Z.to_nat ((data_len + 31) / 32)) 0 proposal_id (Z.to_nat data_len) [].

Definition write_gov_proposal_status (proposal_id status : Z) : prog unit :=
  gstore (slot_gov_proposal proposal_id "status") status.

Definition rotate_validator_key_evm (addr : Z) (pubkey : list Z) : prog unit :=
  store VALIDATOR_ADDRESS (slot_validator_pubkey addr) (from_be pubkey).

Definition slash_validator_evm (addr amount : Z) : prog Z :=
  current <- read_stake addr;
  let slashed := Z.min current amount in
  let new_stake := saturating_sub current slashed in
  do store VALIDATOR_ADDRESS (slot_validator_stake addr) (u128_to_u256 new_stake);
  do (if new_stake =? 0 then store VALIDATOR_ADDRESS (slot_validator_status addr) 0 else Ret tt);
  Ret slashed.

Definition seed_gov_config : prog unit :=
  do write_config_u64 (b_ "voting_period") 100;
  do write_config_u64 (b_ "timelock") 100;
  do write_config_u64 (b_ "execution_timeout") 1000;
  do write_config_u128 (b_ "deposit") 10000;
  do write_config_u128 (b_ "quorum_bps") 3333;
  do write_config_u64 (b_ "review_period") 10;
  do write_config_u64 (b_ "validator_quorum_bps") 6667;
  do write_config_u64 (b_ "supply_quorum_bps") 2000;
  do write_config_u64 (b_ "treasury_quorum_bps") 2000;
  do write_config_u64 (b_ "simple_majority_bps") 5001;
  write_config_u64 (b_ "proposal_cooldown") 345600.

(** ** Side effects *)

Definition slot_compliance_policy (addr policy_id : Z) : Z :=
  storage_slot [addr_bytes addr; [policy_id]].

(** [execution_data[start..start + n]], a panic out of range. *)
Definition index_range (data : list Z) (start n : nat) : option (list Z) :=
  if (start + n <=? length data)%nat then Some (slice data start n) else None.

Definition unless_panic {A} (o : option A) (f : A -> prog unit) : prog (option unit) :=
  match o with Some a => do f a; Ret (Some tt) | None => Ret None end.

(** Proposal type 0: the key is the second word of the data. *)
Definition advance_parameter_change (data : list Z) : prog unit :=
  if (48 <=? length data)%nat then
    let new_value := from_be (drop (length data - 16) data) in
    let config_suffix := if (64 <? length data)%nat then slice data 32 32 else b_ "param_change" in
    write_config_u128 config_suffix new_value
  else Ret tt.

(** Proposal type 2: the guard admits 48 bytes, the amount ends at byte 64. *)
Definition advance_treasury_spend (data : list Z) : prog (option unit) :=
  if (48 <=? length data)%nat then
    unless_panic (index_range data 48 16) (fun amount =>
      add_balance_evm CALL_ASSET_ID (field_addr data 0) (from_be amount))
  else Ret (Some tt).

(** Proposal type 9: the new key is the second word of the data. *)
Definition advance_key_rotation (data : list Z) : prog unit :=
  if (64 <=? length data)%nat then
    let validator_id := field_u64 data 0 in
    validator_addr <- read_validator_by_index validator_id;
    do (if negb (validator_addr =? 0)
        then rotate_validator_key_evm validator_addr (slice data 32 32) else Ret tt);
    gstore (slot_key_rotation (slice data 24 8) "") 1
  else Ret tt.

(** Proposal type 4: [(address target, uint8 policyId, uint8 status)]. *)
Definition advance_compliance_update (data : list Z) : prog unit :=
  if (96 <=? length data)%nat then
    store COMPLIANCE_ADDRESS
      (slot_compliance_policy (field_addr data 0) (default 0 (data !! 63%nat)))
      (default 0 (data !! 95%nat))
  else Ret tt.

Definition apply_side_effects (proposal_id proposal_type : Z) : prog (option unit) :=
  data <- read_gov_proposal_execution_data proposal_id;
  let done (p : prog unit) := do p; Ret (Some tt) in
  match proposal_type with
  | 0 => done (advance_parameter_change data)
  | 1 =>
      done (if (32 <=? length data)%nat
            then gstore slot_protocol_upgrade (from_be (field_word data 0)) else Ret tt)
  | 2 => advance_treasury_spend data
  | 3 =>
      done (if (64 <=? length data)%nat then
              do slash_validator_evm (field_addr data 0) (field_u128 data 1); Ret tt
            else Ret tt)
  | 4 => done (advance_compliance_update data)
  | 5 => done (gstore slot_gov_paused 1)
  | 6 =>
      done (if (32 <=? length data)%nat
            then gstore (slot_fee_currency (field_u64 data 0)) 1 else Ret tt)
  | 7 =>
      done (if (32 <=? length data)%nat
            then gstore (slot_fee_currency (field_u64 data 0)) 0 else Ret tt)
  | 8 =>
      done (if (64 <=? length data)%nat
            then gstore (slot_fee_currency_cap (field_u64 data 0)) (u128_to_u256 (field_u128 data 1))
            else Ret tt)
  | 9 => done (advance_key_rotation data)
  | 10 =>
      done (if (160 <=? length data)%nat
            then gstore (slot_prover_rotation "registered") (field_u32 data 0) else Ret tt)
  | _ => Ret (Some tt)
  end.

(** ** Quorum *)

Record quorum_params : Type := mkQuorumParams {
  qp_validators : Z;
  qp_validator_bps : Z;
  qp_supply_bps : Z;
  qp_treasury_bps : Z;
  qp_majority_bps : Z;
  qp_pause_bps : Z
}.

Definition compute_quorum (proposal_type : Z) (q : quorum_params) : Z :=
  let share bps := if qp_validators q =? 0 then 0 else div_ceil (qp_validators q * bps) 10000 in
  match proposal_type with
  | 0 => share (qp_validator_bps q)
  | 1 => Z.max (share (qp_validator_bps q)) (TOTAL_SUPPLY * qp_supply_bps q / 10000)
  | 2 => TOTAL_SUPPLY * qp_treasury_bps q / 10000
  | 3 => share (qp_validator_bps q)
  | 4 => share (qp_majority_bps q)
  | 5 => share (qp_pause_bps q)
  | _ => share (qp_majority_bps q)
  end.

(** ** The state machine *)

(** Pending: activate once the review period has passed. *)
Definition advance_pending (q : quorum_params) (proposal_id current_block : Z) :
    prog (list GovernanceEvent) :=
  review_end <- read_proposal_u64 proposal_id "review_end";
  start_block <- read_proposal_u64 proposal_id "start_block";
  let review_done :=
    if 0 <? review_end then review_end <=? current_block else start_block <=? current_block in
  if review_done then
    do write_gov_proposal_status proposal_id 1;
    proposal_type <- read_proposal_u8 proposal_id "proposal_type";
    do gstore (slot_gov_proposal_quorum_required proposal_id)
         (u128_to_u256 (compute_quorum proposal_type q));
    Ret [ProposalAdvanced proposal_id Pending Active]
  else Ret [].

(** The deposit of a proposal that failed or expired is dropped. *)
Definition confiscate (proposal_id : Z) : prog unit :=
  proposer <- read_proposal_proposer proposal_id;
  if negb (proposer =? 0) then gstore (slot_gov_proposal proposal_id "deposit") 0 else Ret tt.

(** Active: queue or defeat once the voting period is over.  The additions
    wrap. *)
Definition advance_active (timelock proposal_id current_block : Z) : prog (list GovernanceEvent) :=
  end_block <- read_proposal_u64 proposal_id "end_block";
  if end_block <? current_block then
    votes_for <- read_proposal_u128 proposal_id "votes_for";
    votes_against <- read_proposal_u128 proposal_id "votes_against";
    let total_votes := wrap_u128 (votes_for + votes_against) in
    quorum_required <- read_proposal_u128 proposal_id "quorum_required";
    proposal_type <- read_proposal_u8 proposal_id "proposal_type";
    let quorum_met :=
      if 0 <? quorum_required then quorum_required <=? total_votes
      else (0 <? total_votes) && (votes_against <? votes_for) in
    if quorum_met && (votes_against <? votes_for) then
      let exec_block :=
        if proposal_type =? 5 then current_block else wrap_u64 (current_block + timelock) in
      do write_gov_proposal_status proposal_id 2;
      do gstore (slot_gov_proposal proposal_id "queued_at") (u64_to_u256 current_block);
      do gstore (slot_gov_proposal proposal_id "execution_block") (u64_to_u256 exec_block);
      Ret [ProposalAdvanced proposal_id Active Queued]
    else
      do confiscate proposal_id;
      do write_gov_proposal_status proposal_id 4;
      Ret [ProposalDefeated proposal_id]
  else Ret [].

(** Queued: expire or execute. *)
Definition advance_queued (exec_timeout proposal_id current_block : Z) :
    prog (option (list GovernanceEvent)) :=
  exec_block <- read_proposal_u64 proposal_id "execution_block";
  if saturating_add U64_MAX exec_block exec_timeout <? current_block then
    do confiscate proposal_id;
    do write_gov_proposal_status proposal_id 5;
    Ret (Some [ProposalExpired proposal_id])
  else if exec_block <=? current_block then
    proposal_type <- read_proposal_u8 proposal_id "proposal_type";
    applied <- apply_side_effects proposal_id proposal_type;
    match applied with
    | None => Ret None
    | Some _ =>
        proposer <- read_proposal_proposer proposal_id;
        deposit <- read_proposal_u128 proposal_id "deposit";
        do (if (0 <? deposit) && negb (proposer =? 0) then
              do add_balance_evm CALL_ASSET_ID proposer deposit;
              gstore (slot_gov_proposal proposal_id "deposit") 0
            else Ret tt);
        do write_gov_proposal_status proposal_id 3;
        Ret (Some [ProposalExecuted proposal_id (pretty (Z.to_N proposal_type))])
    end
  else Ret (Some []).

Definition advance_proposal (q : quorum_params) (timelock exec_timeout current_block proposal_id : Z) :
    prog (option (list GovernanceEvent)) :=
  status <- read_proposal_status proposal_id;
  match status with
  | 0 => ev <- advance_pending q proposal_id current_block; Ret (Some ev)
  | 1 => ev <- advance_active timelock proposal_id current_block; Ret (Some ev)
  | 2 => advance_queued exec_timeout proposal_id current_block
  | _ => Ret (Some [])
  end.

(** The loop [for proposal_id in 1..=count], [n] iterations from
    [proposal_id]. *)
Fixpoint advance_from (q : quorum_params) (timelock exec_timeout current_block : Z) (n : nat)
    (proposal_id : Z) : prog (option (list GovernanceEvent)) :=
  match n with
  | O => Ret (Some [])
  | S n =>
      r <- advance_proposal q timelock exec_timeout current_block proposal_id;
      match r with
      | None => Ret None
      | Some ev =>
          rest <- advance_from q timelock exec_timeout current_block n (proposal_id + 1);
          Ret (match rest with None => None | Some evs => Some (ev ++ evs) end)
      end
  end.

Definition advance (current_block : Z) : prog (option (list GovernanceEvent)) :=
  count <- read_proposal_count;
  if count =? 0 then Ret (Some []) else
  timelock <- read_config_u64 "timelock";
  exec_timeout <- read_config_u64 "execution_timeout";
  validator_bps <- read_config_u32 "validator_quorum_bps";
  supply_bps <- read_config_u32 "supply_quorum_bps";
  treasury_bps <- read_config_u32 "treasury_quorum_bps";
  majority_bps <- read_config_u32 "simple_majority_bps";
  total_validators <- read_validator_count;
  let q := mkQuorumParams total_validators (or_default validator_bps 6667)
             (or_default supply_bps 2000) (or_default treasury_bps 2000)
             (or_default majority_bps 5001) validator_bps in
  advance_from q (or_default timelock 100) (or_default exec_timeout 1000) current_block
    (Z.to_nat count) 1.

End Accessors.
