(* ===== verification/GovernanceSpec.v ===== *)
(** * GovernanceSpec: governance storage as a record of proposals

    Reads the governance storage through its keys, shows that the keys in use
    have distinct slots under a collision-free hash, gives the frame of every
    operation of [Governance] and [GovAdvancer], and inverts the successful
    runs of the operations. *)

From stdpp Require Import base gmap list strings.
From Stdlib Require Import ZArith Lia.
From S2P Require Import Prelude Provider World EvmProvider Refinement Dispatch Utils.
From S2P Require Import Asset AssetSpec Validator Governance GovAdvancer.
From S2P Require Import Keyed.

Local Open Scope Z_scope.
Local Open Scope callnode_scope.

Definition proposal_suffixes : list string :=
  ["proposer"; "title"; "desc"; "data"; "data_len"; "status"; "votes_for"; "votes_against";
   "votes_abstain"; "deposit"; "start_block"; "end_block"; "proposal_type"; "review_end";
   "quorum_required"; "queued_at"; "execution_block"]%string.

Definition rotation_suffixes : list string := [""; "old"; "new"]%string.

Definition prover_suffixes : list string :=
  ["version"; "transfer_vk_hash"; "deposit_vk_hash"; "withdraw_vk_hash"; "sunset_timestamp";
   "pending"; "registered"]%string.

Create Rewrite HintDb gov_run.
#[global] Arguments gov_slot : simpl never.
#[global] Arguments b_ : simpl never.

Section Spec.
Context `{Keccak}.
Implicit Types (w : world) (k : gov_key).

(** ** Reading and writing by key *)

Definition grd w k : Z := wslot w GOVERNANCE_ADDRESS (gov_slot k).
Definition gwr k (v : Z) w : world := w_upd (put_slot GOVERNANCE_ADDRESS (gov_slot k) v) w.

Lemma run_gload k w : run (gload k) w = (grd w k, w).
Proof. done. Qed.

Lemma run_gstore k v w : run (gstore k v) w = (tt, gwr k v w).
Proof. done. Qed.

Lemma run_ret {A} (a : A) w : run (Ret a) w = (a, w).
Proof. done. Qed.

Definition field w (pid : Z) (suffix : string) : Z := grd w (slot_gov_proposal pid suffix).
Definition status w pid : Z := u256_to_u8 (field w pid "status").
Definition count w : Z := u256_to_u64 (grd w slot_gov_proposal_count).
Definition paused w : bool := negb (u256_to_u8 (grd w slot_gov_paused) =? 0).

(** ** Small runs *)

Lemma run_proposal_count w : run read_proposal_count w = (count w, w).
Proof. done. Qed.
Lemma run_proposal_u64 pid s w : run (read_proposal_u64 pid s) w = (u256_to_u64 (field w pid s), w).
Proof. done. Qed.
Lemma run_proposal_u8 pid s w : run (read_proposal_u8 pid s) w = (u256_to_u8 (field w pid s), w).
Proof. done. Qed.
Lemma run_proposal_u128 pid s w : run (read_proposal_u128 pid s) w = (u256_to_u128 (field w pid s), w).
Proof. done. Qed.
Lemma run_vote_tally pid s w : run (read_vote_tally pid s) w = (u256_to_u128 (field w pid s), w).
Proof. done. Qed.
Lemma run_status pid w : run (read_proposal_status pid) w = (status w pid, w).
Proof. done. Qed.
Lemma run_proposer pid w :
  run (read_proposal_proposer pid) w = (u256_to_address (field w pid "proposer"), w).
Proof. done. Qed.
Lemma run_data_len pid w :
  run (read_proposal_data_len pid) w = (u256_to_u64 (field w pid "data_len"), w).
Proof. done. Qed.
Lemma run_is_paused w : run is_paused w = (paused w, w).
Proof. done. Qed.
Lemma run_config_u64 s w :
  run (read_config_u64 s) w = (u256_to_u64 (grd w (slot_gov_config (b_ s))), w).
Proof. done. Qed.
Lemma run_config_u32 s w :
  run (read_config_u32 s) w = (wrap_u32 (u256_to_u64 (grd w (slot_gov_config (b_ s)))), w).
Proof. done. Qed.
Lemma run_gerr {A} m w : run (gerr m : prog (res A)) w = (Err (Other m), w).
Proof. done. Qed.

Definition valid_id w pid : bool := negb (pid =? 0) && (pid <=? count w).

Lemma run_require_valid pid w :
  run (require_valid_proposal_id pid) w =
    (if valid_id w pid then Ok tt else Err (Other "governance: invalid proposal id"), w).
Proof.
  unfold require_valid_proposal_id, valid_id. destruct (pid =? 0); [done|]. cbn [negb andb].
  rewrite run_bind, run_proposal_count, Z.leb_antisym. by destruct (count w <? pid).
Qed.

Lemma run_require_status pid s m w :
  run (require_proposal_status pid s m) w =
    (if status w pid =? s then Ok tt else Err (Other m), w).
Proof.
  unfold require_proposal_status. rewrite run_bind, run_status. by destruct (status w pid =? s).
Qed.

End Spec.

#[export] Hint Rewrite @run_gload @run_gstore @run_ret @run_proposal_count @run_proposal_u64
  @run_proposal_u8 @run_proposal_u128 @run_vote_tally @run_status @run_proposer @run_data_len @run_is_paused
  @run_config_u64 @run_config_u32 @run_gerr @run_require_valid @run_require_status : gov_run.
#[export] Hint Rewrite @run_bind @run_try @run_map_err : gov_run.

(** Follows a run that is known to succeed: evaluates its reads and keeps the
    conditions it passed. *)
Ltac run_inv H :=
  repeat (progress autorewrite with gov_run in H
          || match type of H with
             | context [if ?b then _ else _] => destruct b eqn:?; try discriminate H
             | context [match ?x with _ => _ end] => destruct x eqn:?; try discriminate H
             end).

(** ** Successful runs *)

Section Runs.
Context `{Keccak}.
Implicit Types (w : world).

Definition block_of w pid (suffix : string) : Z := u256_to_u64 (field w pid suffix).
Definition votes w pid (suffix : string) : Z := u256_to_u128 (field w pid suffix).
Lemma votes_fit w pid s : fits U128_MAX (votes w pid s).
Proof.
  unfold votes. rewrite u256_to_u128_mod. unfold U128_MAX.
  pose proof (Z.mod_pos_bound (field w pid s) (2 ^ 128)). fit.
Qed.

Definition kind w pid : Z := u256_to_u8 (field w pid "proposal_type").
Definition proposer_of w pid : Z := u256_to_address (field w pid "proposer").
Definition validators w : Z :=
  let v := wslot w VALIDATOR_ADDRESS slot_validator_count in if v <=? U64_MAX then v else U64_MAX.
Lemma run_validators w : run read_gov_validator_count w = (validators w, w).
Proof. done. Qed.
Hint Rewrite @run_validators : gov_run.

Definition config_u64 w (s : string) : Z := u256_to_u64 (grd w (slot_gov_config (b_ s))).

(** The state after [Pending] proposals that are due became [Active]. *)
Definition advanced pid b w : world :=
  (run (auto_advance pid (status w pid) (block_of w pid "start_block") b) w).2.

(** The writes of a vote. *)
Definition cast pid c v pw w : world :=
  let w1 := gwr (slot_gov_voter_vote pid v) c (gwr (slot_gov_voter pid v) (u128_to_u256 pw) w) in
  gwr (slot_gov_proposal pid (tally_suffix c))
    (u128_to_u256 (saturating_add U128_MAX (votes w1 pid (tally_suffix c)) pw)) w1.

Lemma vote_ok pid c v pw b w w' :
  run (vote pid c v pw b) w = (Ok tt, w') ->
  1 <= c <= 3 /\ paused w = false /\ valid_id w pid = true /\
  block_of w pid "start_block" <= b < block_of w pid "end_block" /\ pw <> 0 /\
  status (advanced pid b w) pid = 1 /\ grd (advanced pid b w) (slot_gov_voter pid v) = 0 /\
  w' = cast pid c v pw (advanced pid b w).
Proof.
  intros E. unfold vote in E. run_inv E. injection E as <-.
  unfold advanced, block_of. rewrite Heqp. cbn [snd].
  destruct (Z.eqb_spec pw 0), (Z.eqb_spec (status w0 pid) 1),
    (Z.eqb_spec (grd w0 (slot_gov_voter pid v)) 0); try done.
  split_and!; try done; lia.
Qed.

(** The quorum and the majority a proposal needs to be queued. *)
Definition mandate w pid : Prop :=
  let yes := votes w pid "votes_for" in
  let no := votes w pid "votes_against" in
  has_quorum (votes w pid "quorum_required") (validators w) yes no
    (saturating_add U128_MAX (saturating_add U128_MAX yes no) (votes w pid "votes_abstain")) = true /\
  has_majority yes no
    (or_default (wrap_u32 (config_u64 w "simple_majority_bps"))
       (simple_majority_bps gov_config_default)) = true.

Definition enqueue pid b exec_block w : world :=
  gwr (slot_gov_proposal pid "execution_block") (u64_to_u256 exec_block)
    (gwr (slot_gov_proposal pid "queued_at") (u64_to_u256 b)
       (gwr (slot_gov_proposal pid "status") 2 w)).

Definition timelock_of w : Z := or_default (config_u64 w "timelock") GOV_TIMELOCK_BLOCKS.

Lemma has_quorum_positive q vc vc' yes no total :
  (0 <? q) = true -> has_quorum q vc yes no total = has_quorum q vc' yes no total.
Proof. unfold has_quorum. by intros ->. Qed.

Lemma queue_ok pid b w w' :
  run (queue pid b) w = (Ok tt, w') ->
  let w1 := advanced pid b w in
  paused w = false /\ valid_id w pid = true /\ status w1 pid = 1 /\ mandate w1 pid /\
  exists exec_block,
    (if kind w1 pid =? 5 then exec_block = b
     else exec_block = b + timelock_of w1 /\ exec_block <= U64_MAX) /\
    w' = enqueue pid b exec_block w1.
Proof.
  intros E w1. unfold queue in E. unfold w1, advanced, block_of, mandate, kind, votes, config_u64.
  run_inv E; injection E as <-; rewrite ?Heqp; cbn [snd];
    repeat match goal with H : negb _ = false |- _ => apply negb_false_iff in H end;
    (split; [done|]); (split; [done|]); (split; [by apply Z.eqb_eq|]).
  all: split; [split; [|done]|].
  all: try match goal with
    | Hq : (0 <? _) = true, Hm : has_quorum _ _ _ _ _ = true |- has_quorum _ _ _ _ _ = true =>
        by rewrite (has_quorum_positive _ _ 0)
    end.
  all: try done.
  all: rewrite Heqb6; try (by exists b).
  all: destruct (checked_add _ _ _) eqn:Ec in Heqr; [|done]; injection Heqr as ->;
    apply checked_add_Some in Ec as [-> ?]; by eexists.
Qed.

Lemma read_chunks_pure m i pid len acc w : (run (read_chunks m i pid len acc) w).2 = w.
Proof.
  revert i acc. induction m as [|m IH]; intros; cbn [read_chunks]; [done|].
  rewrite run_bind, run_gload. apply IH.
Qed.

Lemma execution_data_pure pid w : (run (read_proposal_execution_data pid) w).2 = w.
Proof.
  unfold read_proposal_execution_data. rewrite run_bind, run_data_len.
  destruct_cmp; try done; apply read_chunks_pure.
Qed.

Lemma writes_read_chunks P m i pid len acc : writes P (read_chunks m i pid len acc).
Proof.
  revert i acc. induction m as [|m IH]; intros; cbn [read_chunks]; [constructor|].
  apply writes_bind; [apply writes_load|]. intros. apply IH.
Qed.

Lemma writes_execution_data P pid : writes P (read_proposal_execution_data pid).
Proof.
  unfold read_proposal_execution_data, read_proposal_data_len, gload.
  writes_prog; apply writes_read_chunks.
Qed.

Definition data_of w pid : list Z := (run (read_proposal_execution_data pid) w).1.

(** The side effects and the refund of an execution. *)
Lemma execute_ok pid b w w' :
  run (execute pid b) w = (Ok tt, w') ->
  valid_id w pid = true /\ (paused w = true -> kind w pid = 5) /\ status w pid = 2 /\
  block_of w pid "execution_block" <= b <=
    saturating_add U64_MAX (block_of w pid "execution_block")
      (or_default (config_u64 w "execution_timeout") GOV_EXEC_TIMEOUT) /\
  exists w1 w2,
    run (apply_proposal (kind w pid) (data_of w pid)) w = (Ok tt, w1) /\
    run (refund_deposit "governance: refund failed" pid (proposer_of w pid)) w1 = (Ok tt, w2) /\
    w' = gwr (slot_gov_proposal pid "status") 3 w2.
Proof.
  intros E. unfold execute in E. unfold data_of, block_of, config_u64, kind, proposer_of.
  run_inv E. injection E as <-. destruct a, a0.
  pose proof (execution_data_pure pid w) as Ep. rewrite Heqp in Ep. cbn [snd] in Ep. subst w0.
  split; [done|]. split; [intros Hp; rewrite Hp in *; cbn in *; lia|]. split; [by apply Z.eqb_eq|].
  split; [lia|]. exists w1, w2. done.
Qed.

Lemma gledger_ok {A} m (p : prog (ares A)) w a w' :
  run (gledger m p) w = (Ok a, w') -> run p w = (Ok a, w').
Proof. apply run_map_err_ok. Qed.

Lemma refund_ok msg pid pr w w' :
  run (refund_deposit msg pid pr) w = (Ok tt, w') ->
  (0 < votes w pid "deposit" /\ pr <> 0 /\
   exists w1, run (add_balance CALL_ASSET_ID pr (votes w pid "deposit")) w = (Ok tt, w1) /\
     w' = gwr (slot_gov_proposal pid "deposit") 0 w1) \/
  ((votes w pid "deposit" <= 0 \/ pr = 0) /\ w' = w).
Proof.
  intros E. unfold refund_deposit in E. unfold votes. run_inv E; injection E as <-.
  - left. apply gledger_ok in Heqp. destruct a. split; [lia|]. split; [lia|]. eauto.
  - right. split; [lia|done].
Qed.

Lemma cancel_ok pid caller w w' :
  run (cancel_proposal pid caller) w = (Ok tt, w') ->
  paused w = false /\ valid_id w pid = true /\ caller = proposer_of w pid /\ status w pid = 0 /\
  exists w1,
    run (refund_deposit "governance: refund failed" pid caller) w = (Ok tt, w1) /\
    w' = gwr (slot_gov_proposal pid "status") 4 w1.
Proof.
  intros E. unfold cancel_proposal in E. unfold proposer_of. run_inv E. injection E as <-.
  destruct a. split; [done|]. split; [done|]. split; [lia|]. split; [lia|].
  exists w0. split; [|done]. rewrite <- Heqp. do 2 f_equal. lia.
Qed.

(** What a submission writes once its deposit is paid. *)
Definition record_proposal pid ty t d data p b start_block end_block (review_period : Z) : prog unit :=
  do store_proposal pid ty t d data p start_block end_block (if review_period =? 0 then 1 else 0);
  do (if review_period =? 0 then compute_and_set_quorum pid else Ret tt);
  do (if 0 <? review_period then gstore (slot_gov_proposal_quorum_required pid) 0 else Ret tt);
  gstore (slot_gov_last_submission p) (u64_to_u256 b).

Definition cooled_down w p b : Prop :=
  let last := u256_to_u64 (grd w (slot_gov_last_submission p)) in
  last <= 0 \/
  or_default (config_u64 w "proposal_cooldown") GOV_PROPOSAL_COOLDOWN <= saturating_sub b last.

Lemma submit_ok ty t d data p b w w' pid :
  run (submit_proposal ty t d data p b) w = (Ok pid, w') ->
  ty <= 10 /\ validate_execution_data ty data = Ok tt /\
  let w0 := (run ensure_config_initialized w).2 in
  cooled_down w0 p b /\
  exists w1,
    run (deduct_balance CALL_ASSET_ID p PROPOSAL_DEPOSIT) w0 = (Ok tt, w1) /\
    pid = wrap_u64 (count w1 + 1) /\
    let start_block := b + config_u64 w1 "review_period" in
    let end_block := start_block + config_u64 w1 "voting_period" in
    end_block <= U64_MAX /\
    w' = (run (record_proposal pid ty t d data p b start_block end_block
                 (config_u64 w1 "review_period")) w1).2.
Proof.
  intros E. unfold submit_proposal in E. unfold cooled_down, record_proposal, config_u64.
  run_inv E; injection E as <- <-; cbn [snd];
    repeat match goal with
    | H : ok_or _ (checked_add _ _ _) = Ok _ |- _ =>
        let Ec := fresh "Ec" in
        destruct (checked_add _ _ _) eqn:Ec in H; [|done]; injection H as ->;
        apply checked_add_Some in Ec as [-> ?]
    | a : unit |- _ => destruct a
    | H : run (gledger _ _) _ = _ |- _ => apply gledger_ok in H
    end; try lia.
  all: (split; [lia|]); (split; [done|]); (split; [lia|]).
  all: exists w1; (split; [done|]); (split; [done|]); (split; [lia|]).
  all: rewrite ?Heqb2, ?Heqb3, run_bind, Heqp2; autorewrite with gov_run; by rewrite ?Heqp3.
Qed.

End Runs.

(** ** Distinct slots and frames *)

(** Membership in a concrete list of names. *)
Ltac named := solve [refine (bool_decide_eq_true_1 _ _); vm_compute; reflexivity].
Ltac use_field := split; [done | named].

(** Follows a program into its definitions.  [st] proves that a key may be
    written, [sub] handles the calls with a frame lemma of their own. *)
Tactic Notation "follow" "storing" tactic3(st) "calling" tactic3(sub) :=
  repeat lazymatch goal with
  | |- writes _ (gstore _ _) => st
  | |- writes _ (store _ _ _) => apply writes_store; [done]
  | |- writes _ _ => first [sub | writes_step | writes_unfold]
  end.

Section Layout.
Context `{Keccak}.
Implicit Types (w : world) (k : gov_key).

(** The proposals, the accounts and the parameter names in use, and the
    assumption that their slots are distinct. *)
Variables (n : Z) (parties : list Z) (configs : list (list Z)).

Definition in_use k : Prop :=
  match k with
  | slot_gov_proposal pid suffix => 1 <= pid <= n /\ suffix ∈ proposal_suffixes
  | slot_gov_proposal_data_chunk pid idx => 1 <= pid <= n /\ fits U64_MAX idx
  | slot_gov_voter pid a | slot_gov_voter_vote pid a => 1 <= pid <= n /\ a ∈ parties
  | slot_gov_last_submission a => a ∈ parties
  | slot_emergency_pause_sig_epoch a | slot_emergency_resume_sig_epoch a => a ∈ parties
  | slot_gov_config suffix => suffix ∈ configs
  | slot_fee_currency a | slot_fee_currency_cap a => fits U64_MAX a
  | slot_key_rotation id_buf suffix =>
      length id_buf = 8%nat /\ Forall is_byte id_buf /\ suffix ∈ rotation_suffixes
  | slot_prover_rotation suffix => suffix ∈ prover_suffixes
  | _ => True
  end.

Record gov_layout : Prop := {
  gl_slots : forall k k', in_use k -> in_use k' -> gov_slot k = gov_slot k' -> k = k';
  gl_configs : forall s, s ∈ ALLOWED_GOVERNANCE_PARAMS -> b_ s ∈ configs;
  gl_bound : n < U64_MAX
}.

Hypothesis layout : gov_layout.

Lemma grd_gwr k v w k' :
  in_use k -> in_use k' -> grd (gwr k v w) k' = if decide (k = k') then v else grd w k'.
Proof.
  intros Hk Hk'. unfold grd, gwr. cbn. rewrite slot_put. destruct (decide (k = k')) as [->|Hne].
  - by rewrite decide_True.
  - rewrite decide_False; [done|]. intros E. injection E as E.
    by apply Hne, (gl_slots layout).
Qed.

Lemma grd_gwr_same k v w : grd (gwr k v w) k = v.
Proof. unfold grd, gwr. cbn. apply slot_put_same. Qed.

Lemma grd_gwr_ne k v w k' : in_use k -> in_use k' -> k <> k' -> grd (gwr k v w) k' = grd w k'.
Proof. intros. rewrite grd_gwr by done. by case_decide. Qed.

(** ** Frames *)

(** A program that writes, of the governance storage, only keys in [K]. *)
Definition gov_writes (K : gov_key -> Prop) (a s : Z) : Prop :=
  a = GOVERNANCE_ADDRESS -> exists k, K k /\ in_use k /\ s = gov_slot k.

Lemma run_gov_frame (K : gov_key -> Prop) {A} (p : prog A) w k :
  writes (gov_writes K) p -> in_use k -> ~ K k -> grd (run p w).2 k = grd w k.
Proof.
  intros Hp Hk Hn. apply (run_writes _ _ _ _ _ Hp). intros Hw. destruct (Hw eq_refl) as (k' & HK & Hk' & E).
  apply Hn. by rewrite (gl_slots layout k k').
Qed.

Lemma writes_gstore (K : gov_key -> Prop) k v : K k -> in_use k -> writes (gov_writes K) (gstore k v).
Proof. intros. apply writes_store. intros _. eauto. Qed.

Lemma writes_foreign (K : gov_key -> Prop) a s v :
  a <> GOVERNANCE_ADDRESS -> writes (gov_writes K) (store a s v).
Proof. intros Hne. apply writes_store. by intros ->. Qed.

(** The keys of the configuration. *)
Definition config_key k : Prop :=
  match k with slot_gov_config _ | slot_gov_config_initialized => True | _ => False end.

Lemma param_in_use s : s ∈ ALLOWED_GOVERNANCE_PARAMS -> in_use (slot_gov_config (b_ s)).
Proof. apply (gl_configs layout). Qed.

Lemma writes_ensure_config (K : gov_key -> Prop) :
  (forall k, config_key k -> K k) -> writes (gov_writes K) ensure_config_initialized.
Proof.
  intros HK. follow storing (apply writes_gstore; [by apply HK | first [done | apply param_in_use; named]])
    calling (fail).
Qed.

(** The keys that moving a due proposal to [Active] writes. *)
Definition advance_key pid k : Prop :=
  k = slot_gov_proposal pid "status" \/ k = slot_gov_proposal pid "quorum_required" \/ config_key k.

Lemma writes_compute_quorum (K : gov_key -> Prop) pid :
  1 <= pid <= n -> K (slot_gov_proposal pid "quorum_required") ->
  (forall k, config_key k -> K k) -> writes (gov_writes K) (compute_and_set_quorum pid).
Proof.
  intros Hp HK HC. unfold compute_and_set_quorum, governance_config.
  follow storing (apply writes_gstore; [done|by use_field])
    calling (apply writes_ensure_config; [done]).
Qed.

Lemma writes_auto_advance (K : gov_key -> Prop) pid s sb b :
  1 <= pid <= n -> (forall k, advance_key pid k -> K k) ->
  writes (gov_writes K) (auto_advance pid s sb b).
Proof.
  intros Hp HK. unfold auto_advance. writes_prog.
  - apply writes_gstore; [apply HK; by left | by use_field].
  - apply writes_compute_quorum; [done|apply HK; right; by left | intros k Hk; apply HK; right; by right].
Qed.

(** ** Frames of the operations *)

Lemma one_of_true key keys : one_of key keys = true -> exists s, s ∈ keys /\ key = b_ s.
Proof.
  unfold one_of. rewrite existsb_exists. intros (s & Hs & E). exists s.
  apply bool_decide_eq_true in E. by apply list_elem_of_In in Hs.
Qed.

Lemma field_u64_fits data i : Forall is_byte data -> fits U64_MAX (field_u64 data i).
Proof.
  intros Hd. unfold field_u64. set (bs := slice data (32 * i + 24) 8).
  assert (Hb : Forall is_byte bs) by (by apply slice_bytes).
  assert (Hl : (length bs <= 8)%nat) by (unfold bs, slice; rewrite length_take; lia).
  pose proof (from_be_bound bs Hb) as [? Hu]. split; [done|].
  assert (256 ^ Z.of_nat (length bs) <= 256 ^ 8) by (apply Z.pow_le_mono_r; lia).
  unfold U64_MAX. lia.
Qed.

(** The keys the side effects of a proposal write. *)
Definition effect_key k : Prop :=
  match k with
  | slot_gov_config _ | slot_gov_paused | slot_protocol_upgrade | slot_fee_currency _
  | slot_fee_currency_cap _ | slot_key_rotation _ _ | slot_prover_rotation _ => True
  | _ => False
  end.

Lemma writes_parameter_change (K : gov_key -> Prop) data :
  (forall k, effect_key k -> K k) -> writes (gov_writes K) (execute_parameter_change data).
Proof.
  intros HK. unfold execute_parameter_change, malformed, gerr. writes_prog.
  match goal with Ho : negb (one_of _ _) = false |- _ =>
    apply negb_false_iff, one_of_true in Ho as (s & Hs & E) end.
  apply writes_gstore; [by apply HK|]. unfold in_use. rewrite E. by apply (gl_configs layout).
Qed.

Lemma writes_apply (K : gov_key -> Prop) ty data :
  Forall is_byte data -> (forall k, effect_key k -> K k) ->
  writes (gov_writes K) (apply_proposal ty data).
Proof.
  intros Hd HK. unfold apply_proposal.
  follow storing (apply writes_gstore; [by apply HK|first [done | by apply field_u64_fits | named | idtac]])
    calling (apply writes_parameter_change; [done]).
  all: apply Nat.ltb_ge in Heqb; (split; [unfold slice; rewrite length_take, length_drop; lia|]);
    (split; [by apply slice_bytes | named]).
Qed.

Lemma read_chunks_bytes m i pid len acc w :
  Forall is_byte acc -> Forall is_byte (run (read_chunks m i pid len acc) w).1.
Proof.
  revert i acc. induction m as [|m IH]; intros i acc Ha; cbn [read_chunks]; [done|].
  rewrite run_bind, run_gload. apply IH. apply Forall_app. split; [done|].
  apply Forall_take, be_bytes_is_byte.
Qed.

Lemma data_of_bytes w pid : Forall is_byte (data_of w pid).
Proof.
  unfold data_of, read_proposal_execution_data. rewrite run_bind, run_data_len.
  destruct_cmp; try constructor; by apply read_chunks_bytes.
Qed.

Lemma writes_refund (K : gov_key -> Prop) msg pid pr :
  1 <= pid <= n -> K (slot_gov_proposal pid "deposit") ->
  writes (gov_writes K) (refund_deposit msg pid pr).
Proof.
  intros Hp HK. 
  follow storing (apply writes_gstore; [done|by use_field]) calling (fail).
Qed.

(** The keys a submission writes. *)
Definition submit_key pid p k : Prop :=
  match k with
  | slot_gov_proposal_count => True
  | slot_gov_proposal pid' _ | slot_gov_proposal_data_chunk pid' _ => pid' = pid
  | slot_gov_last_submission p' => p' = p
  | _ => config_key k
  end.

Lemma writes_store_chunks pid p i cs :
  1 <= pid <= n -> 0 <= i -> i + Z.of_nat (length cs) <= U64_MAX ->
  writes (gov_writes (submit_key pid p)) (store_chunks pid i cs).
Proof.
  intros Hp. revert i. induction cs as [|c cs IH]; intros i Hi Hl; cbn [store_chunks length] in *; [constructor|].
  apply writes_bind; [apply writes_gstore; [done|split; [done|fit]]|]. intros _. apply IH; lia.
Qed.

Lemma writes_record pid ty t d data p b sb eb rp :
  1 <= pid <= n -> p ∈ parties -> Z.of_nat (length data) <= U64_MAX ->
  writes (gov_writes (submit_key pid p)) (record_proposal pid ty t d data p b sb eb rp).
Proof.
  intros Hp Hpa Hd. unfold record_proposal, store_proposal.
  follow storing (apply writes_gstore; [done|first [done | use_field]])
    calling (first
      [ apply writes_store_chunks; [done|done|pose proof (length_chunks_le data); lia]
      | apply writes_compute_quorum; [done|done|by intros []] ]).
Qed.


(** The fields of a new proposal. *)
Definition initial_fields ty t d data p sb eb st : list (string * Z) :=
  [("proposer", address_to_u256 p); ("title", keccak256 t); ("desc", keccak256 d);
   ("data", keccak256 data); ("data_len", u64_to_u256 (Z.of_nat (length data)));
   ("status", st); ("votes_for", 0); ("votes_against", 0); ("votes_abstain", 0);
   ("deposit", u128_to_u256 PROPOSAL_DEPOSIT); ("start_block", u64_to_u256 sb);
   ("end_block", u64_to_u256 eb); ("proposal_type", ty); ("review_end", u64_to_u256 sb)]%string.

Lemma store_chunks_frame pid i cs w k :
  1 <= pid <= n -> 0 <= i -> i + Z.of_nat (length cs) <= U64_MAX -> in_use k ->
  (forall j, k <> slot_gov_proposal_data_chunk pid j) ->
  grd (run (store_chunks pid i cs) w).2 k = grd w k.
Proof.
  intros Hp Hi Hl Hk Hn.
  apply (run_gov_frame (fun k => exists j, k = slot_gov_proposal_data_chunk pid j)); [|done|naive_solver].
  clear Hk Hn. revert i Hi Hl. induction cs as [|c cs IH]; intros i Hi Hl; cbn [store_chunks length] in *; [constructor|].
  apply writes_bind; [apply writes_gstore; [eauto|split; [done|fit]]|]. intros _. apply IH; lia.
Qed.

Lemma stored_fields pid ty t d data p sb eb st w w' :
  1 <= pid <= n -> Z.of_nat (length data) <= U64_MAX ->
  run (store_proposal pid ty t d data p sb eb st) w = (tt, w') ->
  Forall (fun f => field w' pid f.1 = f.2) (initial_fields ty t d data p sb eb st) /\
  grd w' slot_gov_proposal_count = u64_to_u256 pid.
Proof.
  intros Hp Hl E. unfold store_proposal in E.
  rewrite !run_bind in E. autorewrite with gov_run in E.
  match type of E with context [run (store_chunks pid 0 (chunks data)) ?w1] =>
    destruct (run (store_chunks pid 0 (chunks data)) w1) as [u w2] eqn:Ec;
    pose proof (fun k => store_chunks_frame pid 0 (chunks data) w1 k Hp) as F
  end.
  rewrite Ec in F. cbn [snd] in F. autorewrite with gov_run in E. injection E as <-.
  assert (F' : forall k, in_use k -> (forall j, k <> slot_gov_proposal_data_chunk pid j) -> _) by
    (intros k Hk Hj; exact (F k ltac:(lia) ltac:(pose proof (length_chunks_le data); lia) Hk Hj)).
  clear F Ec. unfold initial_fields, field.
  split; [repeat (apply Forall_cons; split; [cbn [fst snd]|]); [..|constructor]|].
  all: repeat first
    [ rewrite grd_gwr_same | rewrite grd_gwr_ne; [|done || use_field..|done]
    | rewrite F'; [|done || use_field|done] ]; done.
Qed.

Lemma deduct_frame a v w w' r k :
  in_use k -> run (deduct_balance CALL_ASSET_ID a v) w = (r, w') -> grd w' k = grd w k.
Proof.
  intros Hk E. change w' with (r, w').2. rewrite <- E.
  apply (run_gov_frame (fun _ => False)); [|done|tauto].
  follow storing (fail) calling (fail).
Qed.

Lemma ensure_config_frame w k :
  in_use k -> ~ config_key k -> grd (run ensure_config_initialized w).2 k = grd w k.
Proof. intros. apply (run_gov_frame config_key); [|done..]. by apply writes_ensure_config. Qed.

(** The keys written after the fields of a new proposal. *)
Definition tail_key pid p k : Prop :=
  k = slot_gov_proposal pid "quorum_required" \/ k = slot_gov_last_submission p \/ config_key k.

Lemma recorded_fields pid ty t d data p b sb eb rp w :
  1 <= pid <= n -> p ∈ parties -> Z.of_nat (length data) <= U64_MAX ->
  let w' := (run (record_proposal pid ty t d data p b sb eb rp) w).2 in
  Forall (fun f => field w' pid f.1 = f.2)
    (initial_fields ty t d data p sb eb (if rp =? 0 then 1 else 0)) /\
  grd w' slot_gov_proposal_count = u64_to_u256 pid.
Proof.
  intros Hp Hpa Hl w'. unfold w', record_proposal. rewrite run_bind.
  destruct (run (store_proposal _ _ _ _ _ _ _ _ _) w) as [[] w1] eqn:E1.
  apply stored_fields in E1 as [Hf Hc]; [|done..].
  match goal with |- context [run ?q w1] => set (tl := q) end.
  assert (F : forall k, in_use k -> ~ tail_key pid p k -> grd (run tl w1).2 k = grd w1 k).
  { intros k Hk Hn. apply (run_gov_frame (tail_key pid p)); [|done..]. unfold tl, tail_key.
    follow storing (apply writes_gstore; [tauto|first [done | use_field]])
      calling (apply writes_compute_quorum; [done|by left|intros; by right; right]). }
  rewrite F; [split; [|done]|done|by intros [?|[?|?]]].
  unfold initial_fields, field in *. rewrite !Forall_cons in Hf |- *. cbn [fst snd] in *.
  destruct_and! Hf.
  split_and!; try constructor; (rewrite F; [done|use_field|by intros [?|[?|?]]]).
Qed.

Lemma count_nonneg w : 0 <= count w.
Proof. unfold count. rewrite u256_to_u64_mod. by apply Z.mod_pos_bound. Qed.

(** A submission takes the next id and touches no other proposal. *)
Lemma submit_effect ty t d data p b w w' pid :
  p ∈ parties -> count w < n -> Z.of_nat (length data) <= U64_MAX ->
  run (submit_proposal ty t d data p b) w = (Ok pid, w') ->
  pid = count w + 1 /\ count w' = pid /\
  (exists sb eb st, (st = 0 \/ st = 1) /\
     Forall (fun f => field w' pid f.1 = f.2) (initial_fields ty t d data p sb eb st)) /\
  (forall k, in_use k -> ~ submit_key pid p k -> grd w' k = grd w k).
Proof.
  intros Hpa Hc Hl E. apply submit_ok in E as (_ & _ & _ & w1 & Ed & Epid & _ & Ew').
  pose proof (count_nonneg w) as H0. pose proof (gl_bound layout) as Hb.
  assert (F1 : forall k, in_use k -> ~ config_key k -> grd w1 k = grd w k).
  { intros k Hk Hn. rewrite (deduct_frame _ _ _ _ _ _ Hk Ed). by apply ensure_config_frame. }
  assert (Ec : count w1 = count w) by (unfold count; rewrite F1; [done|done|tauto]).
  rewrite Ec in Epid. unfold wrap_u64 in Epid. rewrite Z.mod_small in Epid by (unfold U64_MAX in *; lia).
  assert (Hp : 1 <= pid <= n) by lia. assert (fits U64_MAX pid) by (split; lia).
  split; [done|]. subst w'. edestruct recorded_fields as [Hf Hcw]; [exact Hp|exact Hpa|exact Hl|].
  split; [|split].
  - unfold count. by rewrite Hcw, (u64_to_u256_id pid), u256_to_u64_id.
  - do 3 eexists. split; [|exact Hf]. case_match; auto.
  - intros k Hk Hn. rewrite (run_gov_frame (submit_key pid p)); [|by apply writes_record|done..].
    apply F1; [done|]. intros Hck. apply Hn. by destruct k.
Qed.

Lemma tally_used pid c : 1 <= pid <= n -> in_use (slot_gov_proposal pid (tally_suffix c)).
Proof. intros. split; [done|]. unfold tally_suffix. repeat case_match; named. Qed.

Lemma cast_frame pid c v pw w k :
  1 <= pid <= n -> v ∈ parties -> in_use k ->
  k <> slot_gov_voter pid v -> k <> slot_gov_voter_vote pid v ->
  k <> slot_gov_proposal pid (tally_suffix c) -> grd (cast pid c v pw w) k = grd w k.
Proof.
  intros Hp Hv Hk H1 H2 H3. unfold cast.
  rewrite !grd_gwr_ne; try done; by apply tally_used.
Qed.

Lemma enqueue_frame pid b eb w k :
  1 <= pid <= n -> in_use k -> k <> slot_gov_proposal pid "status" ->
  k <> slot_gov_proposal pid "queued_at" -> k <> slot_gov_proposal pid "execution_block" ->
  grd (enqueue pid b eb w) k = grd w k.
Proof. intros. unfold enqueue. rewrite !grd_gwr_ne; try done; use_field. Qed.

(** ** Status *)

Lemma status_enqueue pid b eb w : 1 <= pid <= n -> status (enqueue pid b eb w) pid = 2.
Proof.
  intros. unfold status, field, enqueue.
  do 2 (rewrite grd_gwr_ne; [|use_field|use_field|done]). by rewrite grd_gwr_same.
Qed.

Definition valid w pid : Prop := 1 <= pid <= count w.

Lemma status_advanced pid b w :
  1 <= pid <= n ->
  status (advanced pid b w) pid =
    if (status w pid =? 0) && (block_of w pid "start_block" <=? b) then 1 else status w pid.
Proof.
  intros Hp. unfold advanced, auto_advance. destruct (_ && _); [|done].
  rewrite run_bind, run_gstore. unfold status, field.
  rewrite (run_gov_frame (fun k => k = slot_gov_proposal pid "quorum_required" \/ config_key k)).
  - by rewrite grd_gwr_same.
  - apply writes_compute_quorum; [done|by left|by right].
  - use_field.
  - by intros [?|?].
Qed.

Lemma advanced_frame pid b w k :
  1 <= pid <= n -> in_use k -> ~ advance_key pid k -> grd (advanced pid b w) k = grd w k.
Proof.
  intros Hp Hk Hn. apply (run_gov_frame (advance_key pid)); [|done..].
  by apply writes_auto_advance.
Qed.

End Layout.
