(* ===== verification/GovLayout.v ===== *)
(** * GovLayout: the governance storage has no overlapping entries

    The byte strings the governance slots hash are distinct for distinct keys
    in use, so the layout assumed in [GovernanceSpec] holds for every hash
    without collisions on them. *)

From stdpp Require Import base gmap list strings.
From Stdlib Require Import ZArith Lia.
From S2P Require Import Prelude Provider World EvmProvider Refinement Dispatch Utils.
From S2P Require Import Asset AssetSpec Validator Governance GovAdvancer GovernanceSpec.
From S2P Require Import Keyed.

Local Open Scope Z_scope.
Local Open Scope callnode_scope.

Definition gov_preimage (k : gov_key) : list Z := concat (gov_parts k).

(** Accounts are addresses, and no parameter is named like the flag of an
    initialised configuration. *)
Record names_ok (n : Z) (parties : list Z) (configs : list (list Z)) : Prop := {
  no_bound : n < U64_MAX;
  no_parties : forall a, a ∈ parties -> fits ADDRESS_MAX a;
  no_configs : b_ "_initialized" ∉ configs;
  no_params : forall s, s ∈ ALLOWED_GOVERNANCE_PARAMS -> b_ s ∈ configs
}.

Lemma proposal_suffix_length s : s ∈ proposal_suffixes -> (length (b_ s) <= 15)%nat.
Proof.
  intros Hs. assert (F : Forall (fun k => (length (b_ k) <= 15)%nat) proposal_suffixes)
    by (repeat constructor; vm_compute; lia).
  rewrite Forall_forall in F. by apply F.
Qed.

(** Two keys with the same preimage are equal. *)
Lemma gov_preimage_inj n parties configs k k' :
  names_ok n parties configs -> in_use n parties configs k -> in_use n parties configs k' ->
  gov_preimage k = gov_preimage k' ->
  k <> slot_gov_proposal_count -> k' <> slot_gov_proposal_count -> k = k'.
Proof.
  intros [Hn Hp Hc _] H1 H2 E N1 N2. pose proof (f_equal length E) as L.
  unfold gov_preimage in *.
  destruct k, k'; cbn [gov_parts concat in_use] in *; try done; bytes_now; rewrite ?app_nil_r in *;
    cbn [app] in E; try discriminate E; same_tail E;
    rewrite ?length_app, ?length_cons, ?length_u64_bytes, ?length_addr_bytes in L;
    cbn [length] in L; try lia; destruct_and?; take_apart; subst; try done.
  1, 2: match goal with Hs : _ ∈ proposal_suffixes |- _ => apply proposal_suffix_length in Hs end;
    rewrite ?length_app, ?length_u64_bytes in L; cbn [length] in L; lia.
  apply app_inj_len in E as [-> Es]; [|congruence]. by apply b_inj in Es as ->.
Qed.

Section Hash.
Context `{Keccak} (n : Z) (parties : list Z) (configs : list (list Z)).

(** The hash has no collision among the keys in use and never gives 0, the
    slot of the proposal counter. *)
Record collision_free : Prop := {
  cf_inj : forall k k', in_use n parties configs k -> in_use n parties configs k' ->
    keccak256 (gov_preimage k) = keccak256 (gov_preimage k') -> gov_preimage k = gov_preimage k';
  cf_zero : forall k, in_use n parties configs k -> keccak256 (gov_preimage k) <> 0
}.

Lemma gov_slot_preimage k : k <> slot_gov_proposal_count -> gov_slot k = keccak256 (gov_preimage k).
Proof. by destruct k. Qed.

(** The entries of the governance storage do not overlap.  For a hash
    without collisions on the byte strings in use, distinct proposals,
    fields, data chunks, ballots, parameters, rotations and flags have
    distinct slots, whatever the accounts and parameters in use. *)
Lemma governance_layout_holds :
  names_ok n parties configs -> collision_free -> gov_layout n parties configs.
Proof.
  intros N [Ci Cz]. split; [|apply (no_params _ _ _ N)|apply (no_bound _ _ _ N)].
  intros k k' Hk Hk' E.
  destruct (decide (k = slot_gov_proposal_count)) as [->|Hne], (decide (k' = slot_gov_proposal_count)) as [->|Hne'].
  - done.
  - rewrite (gov_slot_preimage k') in E by done. by destruct (Cz k').
  - rewrite (gov_slot_preimage k) in E by done. by destruct (Cz k).
  - rewrite !gov_slot_preimage in E by done.
    apply (gov_preimage_inj n parties configs); try done. by apply Ci.
Qed.

End Hash.
