(* ===== verification/GovernanceLife.v ===== *)
(** * GovernanceLife: governance as steps on the storage

    The calls of the governance precompile and the per-block advancer as steps
    on the governance storage: what a successful call did, which keys it may
    write, and how it moves the status of the proposals. *)

From stdpp Require Import base gmap list strings relations.
From Stdlib Require Import ZArith Lia.
From S2P Require Import Prelude Provider World EvmProvider Refinement Dispatch Utils.
From S2P Require Import Asset AssetSpec Validator Governance GovAdvancer GovernanceSpec.
From S2P Require Import Keyed.

Local Open Scope Z_scope.
Local Open Scope callnode_scope.

(** ** Operations *)

Inductive gov_op : Type :=
| OpSubmit (call : submitProposalCall)
| OpVote (call : voteCall)
| OpQueue (call : proposalCall)
| OpExecute (call : proposalCall)
| OpCancel (call : proposalCall)
| OpPause (call : emergencyPauseCall)
| OpResume.

Section Props.
Context `{Keccak}.
Implicit Types (w : world).

Definition gov_handler (sender : Z) (o : gov_op) : prog (res unit) :=
  match o with
  | OpSubmit call => submit_proposal_handler sender call
  | OpVote call => vote_handler sender call
  | OpQueue call => queue_handler sender call
  | OpExecute call => execute_handler sender call
  | OpCancel call => cancel_proposal_handler sender call
  | OpPause call => emergency_pause_handler sender call
  | OpResume => emergency_resume_handler sender
  end.

(** Storage with another log and nothing else changed. *)
Definition logged w w' : Prop :=
  w_env w' = w_env w /\ forall a s, wslot w' a s = wslot w a s.

Lemma logged_refl w : logged w w.
Proof. done. Qed.

Lemma logged_trans w1 w2 w3 : logged w1 w2 -> logged w2 w3 -> logged w1 w3.
Proof. intros [E1 H1] [E2 H2]. split; [congruence|]. intros. by rewrite H2. Qed.

Lemma logged_grd w w' k : logged w w' -> grd w' k = grd w k.
Proof. intros [_ Hs]. apply Hs. Qed.

(** A program that writes no storage. *)
Lemma run_logged {A} (p : prog A) w : writes (fun _ _ => False) p -> logged w (run p w).2.
Proof. intros Hp. split; [apply run_env|]. intros a s. apply (run_writes _ _ _ _ _ Hp). tauto. Qed.

Lemma writes_gov_event P s ts d : writes P (gov_event s ts d).
Proof. unfold gov_event. writes_prog. Qed.

Lemma run_gov_event s ts d w : exists w', run (gov_event s ts d) w = (tt, w') /\ logged w w'.
Proof.
  exists (run (gov_event s ts d) w).2. split; [|apply run_logged, writes_gov_event].
  by destruct (run (gov_event s ts d) w) as [[] ?].
Qed.

(** ** Successful calls *)

Definition height w : Z := e_block_number (w_env w).

Lemma run_height w : run block_number w = (height w, w).
Proof. done. Qed.

Definition is_val w a : bool :=
  negb (u256_to_u64 (wslot w VALIDATOR_ADDRESS (slot_validator_by_addr a)) =? 0).
Definition held w a : Z := unwrap_or 0 (run (read_balance CALL_ASSET_ID a) w).1.

Lemma run_validator_id a w :
  run (read_validator_id a) w =
    (u256_to_u64 (wslot w VALIDATOR_ADDRESS (slot_validator_by_addr a)), w).
Proof. done. Qed.

Lemma run_held a w :
  run (read_balance CALL_ASSET_ID a) w = ((run (read_balance CALL_ASSET_ID a) w).1, w).
Proof. done. Qed.

Lemma run_compliance a w :
  run (check_compliance a) w = ((run (check_compliance a) w).1, w).
Proof. done. Qed.

Hint Rewrite @run_height @run_validator_id : gov_run.

Lemma vote_call_ok sender call w w' :
  run (vote_handler sender call) w = (Ok tt, w') ->
  sender <> 0 /\ exists w1,
    run (vote (vo_proposalId call) (vo_vote call) sender
           (voting_power (kind w (vo_proposalId call)) (is_val w sender) (held w sender)) (height w)) w
      = (Ok tt, w1) /\ logged w1 w'.
Proof.
  intros E. unfold vote_handler, require_caller in E. rewrite run_try, run_ret in E.
  destruct (Z.eqb_spec sender 0); [done|]. split; [done|].
  rewrite run_bind, run_proposal_u8, run_bind, run_validator_id, run_bind, run_held, run_bind,
    run_height, run_try in E.
  fold (kind w (vo_proposalId call)) (is_val w sender) (held w sender) in E.
  destruct (run (vote _ _ _ _ _) w) as [[[]|] w1]; [|done]. exists w1. split; [done|].
  rewrite run_bind in E. edestruct run_gov_event as (w2 & E2 & L). rewrite E2 in E.
  by injection E as <-.
Qed.

Lemma submit_call_ok sender call w w' :
  run (submit_proposal_handler sender call) w = (Ok tt, w') ->
  sender <> 0 /\ exists pid w1,
    run (submit_proposal (sp_proposalType call) (sp_title call) (sp_description call)
           (sp_executionData call) sender (height w)) w = (Ok pid, w1) /\ logged w1 w'.
Proof.
  intros E. unfold submit_proposal_handler, require_caller in E. rewrite run_try, run_ret in E.
  destruct (Z.eqb_spec sender 0); [done|]. split; [done|]. rewrite run_try, run_compliance in E.
  destruct (run (check_compliance sender) w).1; [|done].
  rewrite run_bind, run_height, run_try in E.
  destruct (run (submit_proposal _ _ _ _ _ _) w) as [[pid|] w1]; [|done]. exists pid, w1.
  split; [done|]. rewrite run_bind in E. edestruct run_gov_event as (w2 & E2 & L). rewrite E2 in E.
  by injection E as <-.
Qed.

Lemma queue_call_ok sender call w w' :
  run (queue_handler sender call) w = (Ok tt, w') ->
  sender <> 0 /\ (sender = proposer_of w (pr_proposalId call) \/ is_val w sender = true) /\
  exists w1, run (queue (pr_proposalId call) (height w)) w = (Ok tt, w1) /\ logged w1 w'.
Proof.
  intros E. unfold queue_handler, require_caller in E. rewrite run_try, run_ret in E.
  destruct (Z.eqb_spec sender 0); [done|]. split; [done|].
  rewrite run_bind, run_proposer, run_bind, run_validator_id in E.
  destruct (_ && _) eqn:Ea in E; [done|]. rewrite run_bind, run_height, run_bind in E.
  destruct (run (queue _ _) w) as [[[]|] w1].
  - split; [unfold is_val, proposer_of; lia|]. exists w1. split; [done|].
    cbn [terminal_event] in E. rewrite run_bind, run_ret, run_try, run_ret, run_bind in E.
    edestruct run_gov_event as (w2 & E2 & L). rewrite E2 in E. by injection E as <-.
  - rewrite run_bind in E. destruct (run (terminal_event _ _ _ _) w1). by rewrite run_try in E.
Qed.

Lemma execute_call_ok sender call w w' :
  run (execute_handler sender call) w = (Ok tt, w') ->
  sender <> 0 /\
  exists w1, run (execute (pr_proposalId call) (height w)) w = (Ok tt, w1) /\ logged w1 w'.
Proof.
  intros E. unfold execute_handler, require_caller in E. rewrite run_try, run_ret in E.
  destruct (Z.eqb_spec sender 0); [done|]. split; [done|].
  rewrite run_bind, run_height, run_bind in E.
  destruct (run (execute _ _) w) as [[[]|] w1].
  - exists w1. split; [done|]. cbn [terminal_event] in E. rewrite run_bind, run_ret, run_try, run_ret in E.
    apply (f_equal snd) in E. cbn [snd] in E. subst w'. apply run_logged.
    unfold execution_event, read_proposal_u8, gload.
    writes_prog; try apply writes_gov_event; apply writes_execution_data.
  - rewrite run_bind in E. destruct (run (terminal_event _ _ _ _) w1). by rewrite run_try in E.
Qed.

Lemma cancel_call_ok sender call w w' :
  run (cancel_proposal_handler sender call) w = (Ok tt, w') ->
  sender <> 0 /\ run (cancel_proposal (pr_proposalId call) sender) w = (Ok tt, w').
Proof.
  intros E. unfold cancel_proposal_handler, require_caller in E. rewrite run_try, run_ret in E.
  by destruct (Z.eqb_spec sender 0).
Qed.

End Props.

(** ** The life of a proposal *)

(** The moves between states: 0 pending, 1 active, 2 queued, 3 executed,
    4 defeated or cancelled, 5 expired. *)
Definition edge (s s' : Z) : bool :=
  (s =? s') ||
  existsb (fun e => (e.1 =? s) && (e.2 =? s'))
    [(0, 1); (0, 2); (1, 2); (0, 4); (1, 4); (2, 3); (2, 5)].

Lemma edge_refl s : edge s s = true.
Proof. unfold edge. by rewrite Z.eqb_refl. Qed.

Section Life.
Context `{Keccak} (n : Z) (parties : list Z) (configs : list (list Z)).
Hypothesis layout : gov_layout n parties configs.
Implicit Types (w : world) (k : gov_key).

Abbreviation used := (in_use n parties configs).

Lemma status_used pid : 1 <= pid <= n -> used (slot_gov_proposal pid "status").
Proof. intros. use_field. Qed.

(** Every proposal moves along an edge. *)
Definition moves w w' : Prop :=
  forall pid, valid w pid -> edge (status w pid) (status w' pid) = true.

(** No proposal appears or disappears. *)
Definition lives w w' : Prop := moves w w' /\ count w' = count w.

Lemma lives_same w w' :
  (forall pid, valid w pid -> status w' pid = status w pid) -> count w' = count w -> lives w w'.
Proof. intros Hs Hc. split; [|done]. intros pid Hp. rewrite Hs by done. apply edge_refl. Qed.

Lemma moves_logged w w1 w2 : moves w w1 -> logged w1 w2 -> moves w w2.
Proof.
  intros Hs L pid Hp. unfold status, field. rewrite (logged_grd _ _ _ L). by apply Hs.
Qed.

Lemma lives_logged w w1 w2 : lives w w1 -> logged w1 w2 -> lives w w2.
Proof.
  intros [Hs Hc] L. split; [by apply (moves_logged _ w1)|].
  unfold count in *. by rewrite (logged_grd _ _ _ L).
Qed.

(** A change of one proposal. *)
Lemma lives_one w w' pid :
  count w <= n -> edge (status w pid) (status w' pid) = true ->
  (forall pid', valid w pid' -> pid' <> pid -> status w' pid' = status w pid') ->
  count w' = count w -> lives w w'.
Proof.
  intros Hn He Hs Hc. split; [|lia]. intros pid' Hp.
  destruct (decide (pid' = pid)) as [->|Hne]; [done|]. rewrite Hs by done. apply edge_refl.
Qed.

Lemma valid_id_range w pid : 0 <= pid -> count w <= n -> valid_id w pid = true -> 1 <= pid <= n.
Proof. unfold valid_id. lia. Qed.

Lemma field_ne pid pid' s s' : pid <> pid' -> slot_gov_proposal pid s <> slot_gov_proposal pid' s'.
Proof. congruence. Qed.

Lemma advanced_other pid b w pid' s :
  1 <= pid <= n -> 1 <= pid' <= n -> s ∈ proposal_suffixes -> pid' <> pid ->
  field (advanced pid b w) pid' s = field w pid' s.
Proof.
  intros. apply (advanced_frame n parties configs layout); [done|done|].
  intros [[=]|[[=]|?]]; done.
Qed.

Lemma count_advanced pid b w : 1 <= pid <= n -> count (advanced pid b w) = count w.
Proof.
  intros. unfold count. rewrite (advanced_frame n parties configs layout); [done..|].
  by intros [?|[?|?]].
Qed.

Lemma edge_from_pending s : edge 1 s = true -> edge 0 s = true.
Proof. unfold edge. cbn [existsb fst snd]. lia. Qed.

Lemma edge_advanced pid b w s :
  1 <= pid <= n -> status (advanced pid b w) pid = 1 -> edge 1 s = true ->
  edge (status w pid) s = true.
Proof.
  intros Hp Hs He. rewrite (status_advanced n parties configs layout) in Hs by done.
  destruct (_ && _) eqn:E; [|by rewrite Hs].
  assert (status w pid = 0) as -> by lia. by apply edge_from_pending.
Qed.

(** An operation on an active proposal, or on one that is due. *)
Lemma lives_active pid b w w' :
  count w <= n -> 1 <= pid <= n -> status (advanced pid b w) pid = 1 ->
  edge 1 (status w' pid) = true ->
  (forall pid', 1 <= pid' <= n -> pid' <> pid ->
     status w' pid' = status (advanced pid b w) pid') ->
  count w' = count (advanced pid b w) -> lives w w'.
Proof.
  intros Hn Hp Hs He Ho Hc. apply (lives_one w _ pid); [done|by apply (edge_advanced pid b)|..].
  - intros pid' [? ?] Hne. rewrite Ho by (done || lia). unfold status.
    by rewrite advanced_other by (done || lia || named).
  - by rewrite Hc, count_advanced.
Qed.

Lemma vote_lives pid c v pw b w w' :
  count w <= n -> 0 <= pid -> v ∈ parties -> run (vote pid c v pw b) w = (Ok tt, w') -> lives w w'.
Proof.
  intros Hn Hp0 Hv E. apply vote_ok in E as (Hc & _ & Hid & _ & _ & Hs & _ & ->).
  pose proof (valid_id_range _ _ Hp0 Hn Hid) as Hp.
  assert (Ht : "status"%string <> tally_suffix c) by (unfold tally_suffix; repeat case_match; done).
  assert (F : forall pid', 1 <= pid' <= n ->
    status (cast pid c v pw (advanced pid b w)) pid' = status (advanced pid b w) pid').
  { intros pid' Hp'. unfold status, field. 
    by rewrite (cast_frame n parties configs layout)
      by first [done | by apply status_used | congruence]. }
  apply (lives_active pid b); [done..| | |].
  - by rewrite F, Hs.
  - intros. by apply F.
  - unfold count. by rewrite (cast_frame n parties configs layout).
Qed.

Lemma queue_lives pid b w w' :
  count w <= n -> 0 <= pid -> run (queue pid b) w = (Ok tt, w') -> lives w w'.
Proof.
  intros Hn Hp0 E. apply queue_ok in E as (_ & Hid & Hs & _ & eb & _ & ->).
  pose proof (valid_id_range _ _ Hp0 Hn Hid) as Hp.
  apply (lives_active pid b); [done..| | |].
  - by rewrite (status_enqueue n parties configs layout).
  - intros pid' Hp' Hne. unfold status, field. 
    by rewrite (enqueue_frame n parties configs layout)
      by first [done | by apply status_used | congruence].
  - unfold count. by rewrite (enqueue_frame n parties configs layout).
Qed.

(** The proposal fields survive the side effects of a proposal. *)
Lemma apply_frame ty w pid w' k :
  run (apply_proposal ty (data_of w pid)) w = (Ok tt, w') -> used k -> ~ effect_key k ->
  grd w' k = grd w k.
Proof.
  intros E Hk Hn.
  pose proof (run_gov_frame n parties configs layout effect_key
    (apply_proposal ty (data_of w pid)) w k) as F.
  rewrite E in F. apply F; [|done..]. apply (writes_apply n parties configs layout); [|done].
  apply data_of_bytes.
Qed.

Lemma refund_frame msg pid pr w w' k :
  1 <= pid <= n -> run (refund_deposit msg pid pr) w = (Ok tt, w') -> used k ->
  k <> slot_gov_proposal pid "deposit" -> grd w' k = grd w k.
Proof.
  intros Hp E Hk Hn.
  pose proof (run_gov_frame n parties configs layout (fun k => k = slot_gov_proposal pid "deposit")
    (refund_deposit msg pid pr) w k) as F.
  rewrite E in F. apply F; [|done..]. by apply writes_refund.
Qed.

Lemma execute_lives pid b w w' :
  count w <= n -> 0 <= pid -> run (execute pid b) w = (Ok tt, w') -> lives w w'.
Proof.
  intros Hn Hp0 E. apply execute_ok in E as (Hid & _ & Hs & _ & w1 & w2 & E1 & E2 & ->).
  pose proof (valid_id_range _ _ Hp0 Hn Hid) as Hp.
  assert (F : forall k, used k -> ~ effect_key k -> k <> slot_gov_proposal pid "deposit" ->
    k <> slot_gov_proposal pid "status" -> grd (gwr (slot_gov_proposal pid "status") 3 w2) k = grd w k).
  { intros k Hk Hne Hd Hst. rewrite (grd_gwr_ne n parties configs layout);
      [|by apply status_used|done|congruence].
    rewrite (refund_frame _ _ _ _ _ _ Hp E2) by done. by apply (apply_frame _ _ _ _ _ E1). }
  apply (lives_one w _ pid); [done|..].
  - unfold status at 2, field. by rewrite Hs, grd_gwr_same.
  - intros pid' [? ?] Hne. unfold status, field. rewrite F; [done|apply status_used; lia|tauto|congruence..].
  - unfold count. rewrite F; [done|done|tauto|done..].
Qed.

Lemma cancel_lives pid caller w w' :
  count w <= n -> 0 <= pid -> run (cancel_proposal pid caller) w = (Ok tt, w') -> lives w w'.
Proof.
  intros Hn Hp0 E. apply cancel_ok in E as (_ & Hid & _ & Hs & w1 & E1 & ->).
  pose proof (valid_id_range _ _ Hp0 Hn Hid) as Hp.
  assert (F : forall k, used k -> k <> slot_gov_proposal pid "deposit" ->
    k <> slot_gov_proposal pid "status" -> grd (gwr (slot_gov_proposal pid "status") 4 w1) k = grd w k).
  { intros k Hk Hd Hst. rewrite (grd_gwr_ne n parties configs layout);
      [|by apply status_used|done|congruence]. by apply (refund_frame _ _ _ _ _ _ Hp E1). }
  apply (lives_one w _ pid); [done|..].
  - unfold status at 2, field. by rewrite Hs, grd_gwr_same.
  - intros pid' [? ?] Hne. unfold status, field. rewrite F; [done|apply status_used; lia|congruence..].
  - unfold count. by rewrite F.
Qed.

Lemma submit_lives ty t d data p b w w' pid :
  p ∈ parties -> count w < n -> Z.of_nat (length data) <= U64_MAX ->
  run (submit_proposal ty t d data p b) w = (Ok pid, w') -> moves w w' /\ count w' = count w + 1.
Proof.
  intros Hp Hc Hl E. apply (submit_effect n parties configs layout) in E as (Hpid & Hcw & _ & F); [|done..].
  split; [|lia]. intros pid' [? ?]. unfold status, field. rewrite F; [apply edge_refl|apply status_used; lia|].
  cbn. lia.
Qed.

(** The keys of the emergency powers. *)
Definition emergency_key k : Prop :=
  match k with
  | slot_gov_paused | slot_gov_pause_reason
  | slot_emergency_pause_epoch | slot_emergency_pause_sig_epoch _ | slot_emergency_pause_sig_count
  | slot_emergency_resume_epoch | slot_emergency_resume_sig_epoch _
  | slot_emergency_resume_sig_count => True
  | _ => config_key k
  end.

Lemma writes_pause sender call :
  sender ∈ parties ->
  writes (gov_writes n parties configs emergency_key) (emergency_pause_handler sender call).
Proof.
  intros Hs. unfold emergency_pause_handler, require_caller.
  destruct (sender =? 0); [constructor|]. unfold try_ at 1. cbn [prog_bind].
  follow storing (apply writes_gstore; [done|done])
    calling (first [ apply (writes_ensure_config n parties configs layout); by intros []
                   | apply writes_gov_event ]).
Qed.

Lemma writes_resume sender :
  sender ∈ parties ->
  writes (gov_writes n parties configs emergency_key) (emergency_resume_handler sender).
Proof.
  intros Hs. unfold emergency_resume_handler, require_caller.
  destruct (sender =? 0); [constructor|]. unfold try_ at 1. cbn [prog_bind].
  follow storing (apply writes_gstore; [done|done])
    calling (first [ apply (writes_ensure_config n parties configs layout); by intros []
                   | apply writes_gov_event ]).
Qed.

Lemma emergency_lives {A} (p : prog A) w r w' :
  count w <= n -> writes (gov_writes n parties configs emergency_key) p ->
  run p w = (r, w') -> lives w w'.
Proof.
  intros Hn Hp E. pose proof (run_gov_frame n parties configs layout emergency_key p w) as F.
  rewrite E in F. apply lives_same.
  - intros pid [? ?]. unfold status, field. rewrite F; [done|done|apply status_used; lia|tauto].
  - unfold count. rewrite F; [done|done|done|tauto].
Qed.

(** ** The advancer *)

Lemma run_advance_proposal q tl et b pid w :
  run (advance_proposal q tl et b pid) w =
    if status w pid =? 0 then let '(ev, w') := run (advance_pending q pid b) w in (Some ev, w')
    else if status w pid =? 1 then let '(ev, w') := run (advance_active tl pid b) w in (Some ev, w')
    else if status w pid =? 2 then run (advance_queued et pid b) w
    else (Some [], w).
Proof.
  unfold advance_proposal. rewrite run_bind, run_status.
  destruct (status w pid) as [|[p|[p|p|]|]|p]; cbn [Z.eqb Pos.eqb];
    first [rewrite run_bind; reflexivity | rewrite run_ret; reflexivity | reflexivity].
Qed.

Definition full_data w pid : list Z := (run (read_gov_proposal_execution_data pid) w).1.

(** The name of the parameter a proposal of type 0 sets. *)
Definition param_word (data : list Z) : list Z :=
  if (64 <? length data)%nat then slice data 32 32 else b_ "param_change".

Definition params_in_use w : Prop :=
  forall pid, valid w pid -> param_word (full_data w pid) ∈ configs.

Lemma full_data_bytes w pid : Forall is_byte (full_data w pid).
Proof.
  unfold full_data, read_gov_proposal_execution_data. rewrite run_bind, run_data_len.
  destruct_cmp; try constructor; by apply read_chunks_bytes.
Qed.

Lemma run_full_data w pid :
  run (read_gov_proposal_execution_data pid) w = (full_data w pid, w).
Proof.
  unfold full_data, read_gov_proposal_execution_data. rewrite run_bind, run_data_len.
  destruct_cmp; [done|].
  match goal with |- run ?p w = _ => rewrite (surjective_pairing (run p w)) at 1 end.
  by rewrite read_chunks_pure.
Qed.

Lemma writes_advance_parameter data :
  param_word data ∈ configs ->
  writes (gov_writes n parties configs effect_key) (advance_parameter_change data).
Proof.
  intros Hw. unfold advance_parameter_change, write_config_u128. cbv zeta.
  destruct (48 <=? length data)%nat; [|constructor]. by apply writes_gstore.
Qed.

Lemma writes_advance_rotation data :
  Forall is_byte data ->
  writes (gov_writes n parties configs effect_key) (advance_key_rotation data).
Proof.
  intros Hb. unfold advance_key_rotation. destruct (64 <=? length data)%nat eqn:E; [|constructor].
  apply Nat.leb_le in E.
  follow storing (apply writes_gstore; [done|]) calling (fail).
  split; [unfold slice; rewrite length_take, length_drop; lia|].
  split; [by apply slice_bytes|named].
Qed.

Lemma side_effects_frame pid ty w k :
  param_word (full_data w pid) ∈ configs -> used k -> ~ effect_key k ->
  grd (run (apply_side_effects pid ty) w).2 k = grd w k.
Proof.
  intros Hw Hk Hn. unfold apply_side_effects. rewrite run_bind, run_full_data. cbv zeta.
  pose proof (full_data_bytes w pid) as Hb. generalize dependent (full_data w pid). intros data Hw Hb.
  apply (run_gov_frame n parties configs layout effect_key); [|done..].
  follow storing (apply writes_gstore; [done|first [done | by apply field_u64_fits | cbn [in_use]; named]])
    calling (first [ apply writes_advance_parameter; [done]
                   | apply writes_advance_rotation; [done] ]).
Qed.

(** The keys the advancer writes for one proposal. *)
Definition advancer_key pid k : Prop :=
  effect_key k \/
  exists s, s ∈ ["status"; "quorum_required"; "queued_at"; "execution_block"; "deposit"]%string /\
            k = slot_gov_proposal pid s.

Ltac adv_key := right; eexists; (split; [|reflexivity]); named.

Lemma writes_advance_pending q pid b :
  1 <= pid <= n -> writes (gov_writes n parties configs (advancer_key pid)) (advance_pending q pid b).
Proof.
  intros Hp. follow storing (apply writes_gstore; [adv_key|use_field]) calling (fail).
Qed.

Lemma writes_advance_active tl pid b :
  1 <= pid <= n -> writes (gov_writes n parties configs (advancer_key pid)) (advance_active tl pid b).
Proof.
  intros Hp. follow storing (apply writes_gstore; [adv_key|use_field]) calling (fail).
Qed.

Lemma writes_confiscate pid :
  1 <= pid <= n -> writes (gov_writes n parties configs (advancer_key pid)) (confiscate pid).
Proof. intros Hp. follow storing (apply writes_gstore; [adv_key|use_field]) calling (fail). Qed.

(** A pending proposal is activated once its review is over. *)
Definition review_done w pid b : bool :=
  let review_end := block_of w pid "review_end" in
  if 0 <? review_end then review_end <=? b else block_of w pid "start_block" <=? b.

Lemma run_advance_pending q pid b w :
  run (advance_pending q pid b) w =
    if review_done w pid b then
      let w1 := gwr (slot_gov_proposal pid "status") 1 w in
      ([ProposalAdvanced pid Pending Active],
       gwr (slot_gov_proposal pid "quorum_required") (u128_to_u256 (compute_quorum (kind w1 pid) q)) w1)
    else ([], w).
Proof.
  unfold advance_pending, write_gov_proposal_status, review_done, block_of.
  autorewrite with gov_run. destruct (0 <? _).
  all: match goal with |- context [if ?c then _ else _] => destruct c end; autorewrite with gov_run; reflexivity.
Qed.

(** An active proposal whose voting period is over is queued or defeated. *)
Definition passes w pid : bool :=
  let yes := votes w pid "votes_for" in
  let no := votes w pid "votes_against" in
  let total := wrap_u128 (yes + no) in
  let q := votes w pid "quorum_required" in
  (if 0 <? q then q <=? total else (0 <? total) && (no <? yes)) && (no <? yes).

Lemma run_advance_active tl pid b w :
  run (advance_active tl pid b) w =
    if block_of w pid "end_block" <? b then
      if passes w pid then
        ([ProposalAdvanced pid Active Queued],
         enqueue pid b (if kind w pid =? 5 then b else wrap_u64 (b + tl)) w)
      else
        ([ProposalDefeated pid], gwr (slot_gov_proposal pid "status") 4 (run (confiscate pid) w).2)
    else ([], w).
Proof.
  unfold advance_active, write_gov_proposal_status, block_of, passes, votes, kind.
  autorewrite with gov_run. destruct (_ <? b); [|reflexivity].
  autorewrite with gov_run. destruct (_ && _); autorewrite with gov_run; [reflexivity|].
  destruct (run (confiscate pid) w) as [u w1]. reflexivity.
Qed.

(** The refund of the advancer. *)
Definition advancer_refund pid : prog unit :=
  proposer <- read_proposal_proposer pid;
  deposit <- read_proposal_u128 pid "deposit";
  if (0 <? deposit) && negb (proposer =? 0) then
    do add_balance_evm CALL_ASSET_ID proposer deposit;
    gstore (slot_gov_proposal pid "deposit") 0
  else Ret tt.

(** A queued proposal expires, is executed, panics or waits. *)
Lemma run_advance_queued et pid b w :
  let exec_block := block_of w pid "execution_block" in
  run (advance_queued et pid b) w =
    if saturating_add U64_MAX exec_block et <? b then
      (Some [ProposalExpired pid], gwr (slot_gov_proposal pid "status") 5 (run (confiscate pid) w).2)
    else if exec_block <=? b then
      match run (apply_side_effects pid (kind w pid)) w with
      | (None, w1) => (None, w1)
      | (Some _, w1) =>
          (Some [ProposalExecuted pid (pretty.pretty (Z.to_N (kind w pid)))],
           gwr (slot_gov_proposal pid "status") 3 (run (advancer_refund pid) w1).2)
      end
    else (Some [], w).
Proof.
  intros eb. unfold advance_queued, write_gov_proposal_status. rewrite run_bind, run_proposal_u64.
  fold (block_of w pid "execution_block"). fold eb.
  destruct (_ <? b).
  { rewrite run_bind. destruct (run (confiscate pid) w) as [u w1]. reflexivity. }
  destruct (eb <=? b); [|reflexivity].
  rewrite run_bind, run_proposal_u8, run_bind. fold (kind w pid).
  destruct (run (apply_side_effects pid (kind w pid)) w) as [[u|] w1]; [|reflexivity].
  unfold advancer_refund. autorewrite with gov_run.
  destruct (_ && _); autorewrite with gov_run; [|reflexivity].
  destruct (run (add_balance_evm _ _ _) w1) as [u' w2]. reflexivity.
Qed.

Lemma writes_advancer_refund pid :
  1 <= pid <= n -> writes (gov_writes n parties configs (advancer_key pid)) (advancer_refund pid).
Proof. intros Hp. follow storing (apply writes_gstore; [adv_key|use_field]) calling (fail). Qed.

Lemma advance_queued_frame et pid b w k :
  1 <= pid <= n -> param_word (full_data w pid) ∈ configs -> used k -> ~ advancer_key pid k ->
  grd (run (advance_queued et pid b) w).2 k = grd w k.
Proof.
  intros Hp Hw Hk Hn. rewrite run_advance_queued.
  assert (Hs : slot_gov_proposal pid "status" <> k) by (intros <-; apply Hn; adv_key).
  assert (F : forall (p : prog unit) w1, writes (gov_writes n parties configs (advancer_key pid)) p ->
    grd (gwr (slot_gov_proposal pid "status") 5 (run p w1).2) k = grd w1 k /\
    grd (gwr (slot_gov_proposal pid "status") 3 (run p w1).2) k = grd w1 k).
  { intros p w1 Hp1. rewrite !(grd_gwr_ne n parties configs layout); try done; try by apply status_used.
    split; by apply (run_gov_frame n parties configs layout (advancer_key pid)). }
  destruct (_ <? b); [by apply F, writes_confiscate|].
  destruct (_ <=? b); [|done].
  pose proof (side_effects_frame pid (kind w pid) w k Hw Hk) as F1.
  destruct (run (apply_side_effects _ _) w) as [[u|] w1]; cbn [snd] in *.
  - destruct (F (advancer_refund pid) w1) as [_ ->]; [by apply writes_advancer_refund|].
    apply F1. intros He. apply Hn. by left.
  - apply F1. intros He. apply Hn. by left.
Qed.

(** One iteration of the advancer. *)
Lemma advance_proposal_step q tl et b pid w :
  1 <= pid <= n -> param_word (full_data w pid) ∈ configs ->
  let w' := (run (advance_proposal q tl et b pid) w).2 in
  (forall k, used k -> ~ advancer_key pid k -> grd w' k = grd w k) /\
  ((run (advance_proposal q tl et b pid) w).1 = None \/ edge (status w pid) (status w' pid) = true).
Proof.
  intros Hp Hw w'. unfold w'. rewrite run_advance_proposal.
  assert (F : forall (p : prog (list GovernanceEvent)) k,
    writes (gov_writes n parties configs (advancer_key pid)) p -> used k -> ~ advancer_key pid k ->
    grd (let '(ev, w') := run p w in (Some ev, w')).2 k = grd w k).
  { intros p k Hpw Hk Hn. rewrite <- (run_gov_frame n parties configs layout (advancer_key pid) p w k)
      by done. by destruct (run p w). }
  destruct (Z.eqb_spec (status w pid) 0) as [E0|].
  { split; [intros; by apply F; [apply writes_advance_pending|..]|]. right.
    rewrite run_advance_pending, E0. destruct (review_done _ _ _); cbn [snd]; [|by rewrite E0].
    unfold status, field. rewrite (grd_gwr_ne n parties configs layout); [|use_field|use_field|done].
    by rewrite grd_gwr_same. }
  destruct (Z.eqb_spec (status w pid) 1) as [E1|].
  { split; [intros; by apply F; [apply writes_advance_active|..]|]. right.
    rewrite run_advance_active, E1. destruct (_ <? b); [|cbn [snd]; by rewrite E1].
    destruct (passes _ _); cbn [snd]; [by rewrite (status_enqueue n parties configs layout)|].
    unfold status, field. by rewrite grd_gwr_same. }
  destruct (Z.eqb_spec (status w pid) 2) as [E2|].
  2: { split; [done|]. right. apply edge_refl. }
  split; [intros; by apply advance_queued_frame|].
  rewrite run_advance_queued.
  destruct (_ <? b); [right; unfold status at 2, field; cbn [snd]; by rewrite grd_gwr_same, E2|].
  destruct (_ <=? b); [|right; apply edge_refl].
  destruct (run (apply_side_effects _ _) w) as [[u|] w1]; [right|by left].
  unfold status at 2, field; cbn [snd]. by rewrite grd_gwr_same, E2.
Qed.

(** The execution data depends on its length and its chunks. *)
Definition data_key pid k : Prop :=
  k = slot_gov_proposal pid "data_len" \/
  exists i, fits U64_MAX i /\ k = slot_gov_proposal_data_chunk pid i.

Lemma read_chunks_ext m i pid len acc w w' :
  (forall k, data_key pid k -> grd w' k = grd w k) -> 0 <= i -> i + Z.of_nat m <= U64_MAX ->
  (run (read_chunks m i pid len acc) w').1 = (run (read_chunks m i pid len acc) w).1.
Proof.
  intros Hk. revert i acc. induction m as [|m IH]; intros i acc Hi Hm; cbn [read_chunks]; [done|].
  rewrite !run_bind, !run_gload, Hk by (right; exists i; split; [split; lia|done]).
  apply IH; lia.
Qed.

Lemma full_data_ext pid w w' :
  (forall k, data_key pid k -> grd w' k = grd w k) -> full_data w' pid = full_data w pid.
Proof.
  intros Hk. unfold full_data, read_gov_proposal_execution_data.
  rewrite !run_bind, !run_data_len. unfold field. rewrite Hk by (by left).
  set (len := u256_to_u64 _). assert (Hl : fits U64_MAX len).
  { unfold len. rewrite u256_to_u64_mod. unfold U64_MAX.
    pose proof (Z.mod_pos_bound (grd w (slot_gov_proposal_data_len pid)) (2 ^ 64)). split; lia. }
  destruct (len =? 0); [done|]. apply read_chunks_ext; [done|done|].
  destruct Hl. assert ((len + 31) / 32 <= len + 0) by (Z.to_euclidean_division_equations; lia). lia.
Qed.

Lemma data_key_used pid k : 1 <= pid <= n -> data_key pid k -> used k.
Proof. intros Hp [->|(i & Hi & ->)]; [use_field|done]. Qed.

Lemma data_not_advanced pid pid' k : data_key pid k -> ~ advancer_key pid' k.
Proof.
  intros Hd Ha. destruct Hd as [->|(i & _ & ->)]; destruct Ha as [?|(s & Hs & [=])]; try done.
  subst. revert Hs. refine (bool_decide_eq_false_1 _ _). vm_compute. reflexivity.
Qed.

Lemma advance_from_lives q tl et b m pid w r w' :
  1 <= pid -> pid + Z.of_nat m - 1 <= count w -> count w <= n -> params_in_use w ->
  run (advance_from q tl et b m pid) w = (Some r, w') ->
  lives w w' /\ count w' = count w /\
  (forall k, used k -> (forall p, pid <= p -> ~ advancer_key p k) -> grd w' k = grd w k).
Proof.
  revert pid w r w'. induction m as [|m IH]; intros pid w r w' Hp Hm Hn Hw E; cbn [advance_from] in E.
  { injection E as _ <-. split; [by apply lives_same|done]. }
  rewrite run_bind in E.
  destruct (advance_proposal_step q tl et b pid w) as [F He]; [lia|apply Hw; unfold valid; lia|].
  destruct (run (advance_proposal q tl et b pid) w) as [[ev|] w1] eqn:E1; [|done].
  cbn [fst snd] in *. destruct He as [|He]; [done|].
  assert (Hc : count w1 = count w) by (unfold count; rewrite F; [done|done|by intros [?|(?&?&?)]]).
  rewrite run_bind in E.
  destruct (run (advance_from _ _ _ _ m _) w1) as [[evs|] w2] eqn:E2; [|done]. injection E as _ <-.
  assert (Hs : forall p, p <> pid -> 1 <= p <= n -> status w1 p = status w p).
  { intros p Hne Hpn. unfold status, field. rewrite F; [done|by apply status_used|].
    intros [?|(s & _ & [=])]; done. }
  destruct (IH (pid + 1) w1 evs w2) as (HL & Hc2 & F2); [lia|lia|lia| |done|].
  { intros p [Hp1 Hp2]. rewrite (full_data_ext p w w1).
    - apply Hw. split; lia.
    - intros k Hk. apply F; [apply (data_key_used p); [lia|done]|by apply (data_not_advanced p)]. }
  split; [|split; [lia|]].
  - split; [|lia]. intros p [? ?]. destruct (decide (p = pid)) as [->|Hne].
    + enough (status w2 pid = status w1 pid) as -> by done. unfold status, field.
      rewrite F2; [done|apply status_used; lia|]. intros p' Hp' [?|(s & _ & [=])]; [done|lia].
    + rewrite <- (Hs p) by (done || lia). apply HL. split; lia.
  - intros k Hk Hn'. rewrite F2 by (try done; intros; apply Hn'; lia). apply F; [done|]. apply Hn'. lia.
Qed.

Lemma advance_lives b w r w' :
  count w <= n -> params_in_use w -> run (advance b) w = (Some r, w') ->
  lives w w' /\ (forall k, used k -> (forall p, ~ advancer_key p k) -> grd w' k = grd w k).
Proof.
  intros Hn Hw E. unfold advance in E. rewrite run_bind, run_proposal_count in E.
  destruct (Z.eqb_spec (count w) 0); [injection E as _ <-; split; [by apply lives_same|done]|].
  pose proof (count_nonneg w).
  autorewrite with gov_run in E.
  match type of E with (let '(_, _) := run read_validator_count w in _) = _ =>
    destruct (run read_validator_count w) as [v w0] eqn:Ev end.
  assert (w0 = w) as -> by (by injection Ev).
  apply advance_from_lives in E as (HL & _ & F); [|lia|lia|done|done].
  split; [done|]. intros k Hk Hn'. apply F; [done|]. intros. apply Hn'.
Qed.

(** ** Steps *)

(** The ABI types of a decoded call, and room for a new proposal. *)
Definition op_wf w (o : gov_op) : Prop :=
  match o with
  | OpSubmit call => count w < n /\ Z.of_nat (length (sp_executionData call)) <= U64_MAX
  | OpVote call => 0 <= vo_proposalId call
  | OpQueue call | OpExecute call | OpCancel call => 0 <= pr_proposalId call
  | OpPause _ | OpResume => True
  end.

(** A committed governance call, the advancer at the end of a block, or
    anything that leaves the governance storage alone. *)
Inductive gov_step : world -> world -> Prop :=
| step_call sender o w w' :
    sender ∈ parties -> op_wf w o -> run (gov_handler sender o) w = (Ok tt, w') -> gov_step w w'
| step_advance b w events w' :
    fits U64_MAX b -> params_in_use w -> run (advance b) w = (Some events, w') -> gov_step w w'
| step_other w w' : (forall k, used k -> grd w' k = grd w k) -> gov_step w w'.

Lemma op_moves sender o w w' :
  count w <= n -> sender ∈ parties -> op_wf w o -> run (gov_handler sender o) w = (Ok tt, w') ->
  moves w w' /\ count w <= count w' <= n.
Proof.
  intros Hn Hs Hwf E.
  assert (L : forall w1, lives w w1 -> logged w1 w' -> moves w w' /\ count w <= count w' <= n).
  { intros w1 HL Hlog. destruct (lives_logged _ _ _ HL Hlog) as [? ->]. split; [done|lia]. }
  destruct o as [c|c|c|c|c|c|]; cbn [gov_handler op_wf] in *.
  - destruct Hwf as [Hc Hl]. apply submit_call_ok in E as (_ & pid & w1 & E & Hlog).
    apply submit_lives in E as [Hm Hc1]; [|done..]. split; [by apply (moves_logged _ w1)|].
    unfold count in *. rewrite (logged_grd _ _ _ Hlog). lia.
  - apply vote_call_ok in E as (_ & w1 & E & Hlog). apply vote_lives in E; [|done..]. by apply (L w1).
  - apply queue_call_ok in E as (_ & _ & w1 & E & Hlog). apply queue_lives in E; [|done..]. by apply (L w1).
  - apply execute_call_ok in E as (_ & w1 & E & Hlog). apply execute_lives in E; [|done..]. by apply (L w1).
  - apply cancel_call_ok in E as [_ E]. apply cancel_lives in E; [|done..].
    apply (L w'); [done|apply logged_refl].
  - apply emergency_lives in E; [|done|by apply writes_pause]. apply (L w'); [done|apply logged_refl].
  - apply emergency_lives in E; [|done|by apply writes_resume]. apply (L w'); [done|apply logged_refl].
Qed.

Lemma step_moves w w' : count w <= n -> gov_step w w' -> moves w w' /\ count w <= count w' <= n.
Proof.
  intros Hn S. destruct S as [sender o w w' Hs Hwf E|b w ev w' Hb Hw E|w w' F].
  - by apply (op_moves sender o).
  - apply advance_lives in E as [[Hm ->] _]; [|done..]. split; [done|lia].
  - assert (Hc : count w' = count w) by (unfold count; by rewrite F). split; [|lia].
    intros pid [? ?]. unfold status, field. rewrite F by (apply status_used; lia). apply edge_refl.
Qed.

(** The keys a call may write. *)
Definition op_key w sender (o : gov_op) k : Prop :=
  match o with
  | OpSubmit call => submit_key (count w + 1) sender k
  | OpVote call =>
      let pid := vo_proposalId call in
      advance_key pid k \/ k = slot_gov_voter pid sender \/ k = slot_gov_voter_vote pid sender \/
      k = slot_gov_proposal pid (tally_suffix (vo_vote call))
  | OpQueue call =>
      let pid := pr_proposalId call in
      advance_key pid k \/ k = slot_gov_proposal pid "queued_at" \/
      k = slot_gov_proposal pid "execution_block"
  | OpExecute call =>
      let pid := pr_proposalId call in
      effect_key k \/ k = slot_gov_proposal pid "status" \/ k = slot_gov_proposal pid "deposit"
  | OpCancel call =>
      let pid := pr_proposalId call in
      k = slot_gov_proposal pid "status" \/ k = slot_gov_proposal pid "deposit"
  | OpPause _ | OpResume => emergency_key k
  end.

Lemma op_frame sender o w w' k :
  count w <= n -> sender ∈ parties -> op_wf w o -> run (gov_handler sender o) w = (Ok tt, w') ->
  used k -> ~ op_key w sender o k -> grd w' k = grd w k.
Proof.
  intros Hn Hs Hwf E Hk Hop. destruct o as [c|c|c|c|c|c|]; cbn [gov_handler op_wf op_key] in *.
  - destruct Hwf as [Hc Hl]. apply submit_call_ok in E as (_ & pid & w1 & E & Hlog).
    rewrite (logged_grd _ _ _ Hlog).
    apply (submit_effect n parties configs layout) in E as (-> & _ & _ & F); [by apply F|done..].
  - apply vote_call_ok in E as (_ & w1 & E & Hlog). rewrite (logged_grd _ _ _ Hlog).
    apply vote_ok in E as (_ & _ & Hid & _ & _ & _ & _ & ->).
    pose proof (valid_id_range _ _ Hwf Hn Hid).
    rewrite (cast_frame n parties configs layout) by tauto.
    apply (advanced_frame n parties configs layout); tauto.
  - apply queue_call_ok in E as (_ & _ & w1 & E & Hlog). rewrite (logged_grd _ _ _ Hlog).
    apply queue_ok in E as (_ & Hid & _ & _ & eb & _ & ->).
    pose proof (valid_id_range _ _ Hwf Hn Hid).
    rewrite (enqueue_frame n parties configs layout) by (try tauto; unfold advance_key in *; tauto).
    apply (advanced_frame n parties configs layout); tauto.
  - apply execute_call_ok in E as (_ & w1 & E & Hlog). rewrite (logged_grd _ _ _ Hlog).
    apply execute_ok in E as (Hid & _ & _ & _ & w2 & w3 & E1 & E2 & ->).
    pose proof (valid_id_range _ _ Hwf Hn Hid).
    rewrite (grd_gwr_ne n parties configs layout) by first [tauto | use_field | intros <-; tauto].
    rewrite (refund_frame _ _ _ _ _ k) by (eassumption || tauto).
    apply (apply_frame _ _ _ _ _ E1); tauto.
  - apply cancel_call_ok in E as [_ E]. apply cancel_ok in E as (_ & Hid & _ & _ & w1 & E1 & ->).
    pose proof (valid_id_range _ _ Hwf Hn Hid).
    rewrite (grd_gwr_ne n parties configs layout) by first [tauto | use_field | intros <-; tauto].
    apply (refund_frame _ _ _ _ _ k) in E1; tauto.
  - pose proof (run_gov_frame n parties configs layout emergency_key _ w k (writes_pause sender c Hs)) as F.
    rewrite E in F. by apply F.
  - pose proof (run_gov_frame n parties configs layout emergency_key _ w k (writes_resume sender Hs)) as F.
    rewrite E in F. by apply F.
Qed.

End Life.
