(* ===== verification/AdvancerSpec.v ===== *)
(** * AdvancerSpec: what one end-of-block pass does to every proposal

    [advance] of [GovAdvancer] visits the proposals in turn; here its effect
    on one proposal is read off the state before the pass: the next status,
    the execution block of a proposal it queues, and the fields it keeps. *)

From stdpp Require Import base gmap list strings relations.
From Stdlib Require Import ZArith Lia.
From S2P Require Import Prelude Provider World EvmProvider Refinement Dispatch Utils.
From S2P Require Import Asset AssetSpec Validator Governance GovAdvancer GovernanceSpec GovernanceLife.
From S2P Require Import Keyed.

Local Open Scope Z_scope.
Local Open Scope callnode_scope.

Section Advancer.
Context `{Keccak} (n : Z) (parties : list Z) (configs : list (list Z)).
Hypothesis layout : gov_layout n parties configs.
Implicit Types (w : world) (k : gov_key).

Abbreviation used := (in_use n parties configs).

(** The iteration of a proposal [p]: it starts in a state with the fields of
    [p] as they were, and nothing after it touches them. *)
Lemma advance_from_own q tl et b m pid w r w' p :
  1 <= pid -> pid + Z.of_nat m - 1 <= count w -> count w <= n -> params_in_use configs w ->
  run (advance_from q tl et b m pid) w = (Some r, w') -> pid <= p < pid + Z.of_nat m ->
  exists w1 ev w2,
    run (advance_proposal q tl et b p) w1 = (Some ev, w2) /\ param_word (full_data w1 p) ∈ configs /\
    (forall k, used k -> (forall i, i < p -> ~ advancer_key i k) -> grd w1 k = grd w k) /\
    (forall k, used k -> (forall i, p < i -> ~ advancer_key i k) -> grd w' k = grd w2 k).
Proof.
  revert pid w r w'. induction m as [|m IH]; intros pid w r w' Hp Hm Hn Hw E Hr; [lia|].
  cbn [advance_from] in E. rewrite run_bind in E.
  assert (Hwp : param_word (full_data w pid) ∈ configs) by (apply Hw; unfold valid; lia).
  destruct (advance_proposal_step n parties configs layout q tl et b pid w) as [F _]; [lia|done|].
  destruct (run (advance_proposal q tl et b pid) w) as [[ev|] w1] eqn:E1; [|done]. cbn [snd] in F.
  rewrite run_bind in E.
  destruct (run (advance_from _ _ _ _ m _) w1) as [[evs|] w2] eqn:E2; [|done]. injection E as _ <-.
  assert (Hc : count w1 = count w) by (unfold count; rewrite F; [done|done|by intros [?|(?&?&?)]]).
  assert (Hw1 : params_in_use configs w1).
  { intros i [? ?]. rewrite (full_data_ext i w w1); [apply Hw; split; lia|]. intros k Hk.
    apply F; [apply (data_key_used n parties configs i); [lia|done]|by apply (data_not_advanced i)]. }
  destruct (decide (p = pid)) as [->|Hne].
  - exists w, ev, w1. split_and!; [done..|].
    apply (advance_from_lives n parties configs layout) in E2 as (_ & _ & F2); [|lia|lia|lia|done].
    intros k Hk Hi. apply F2; [done|]. intros i Hi'. apply Hi. lia.
  - destruct (IH (pid + 1) w1 evs w2) as (v1 & ev' & v2 & Ev & Hv & F1 & F2); [lia|lia|lia|done|done|lia|].
    exists v1, ev', v2. split_and!; [done..| |done]. intros k Hk Hi. rewrite F1 by done.
    apply F; [done|]. apply Hi. lia.
Qed.

Definition advance_timelock w : Z := or_default (config_u64 w "timelock") 100.
Definition advance_timeout w : Z := or_default (config_u64 w "execution_timeout") 1000.

Lemma advance_own b w r w' p :
  count w <= n -> params_in_use configs w -> run (advance b) w = (Some r, w') -> valid w p ->
  exists q w1 ev w2,
    run (advance_proposal q (advance_timelock w) (advance_timeout w) b p) w1 = (Some ev, w2) /\
    param_word (full_data w1 p) ∈ configs /\ full_data w1 p = full_data w p /\
    (forall s, s ∈ proposal_suffixes -> field w1 p s = field w p s) /\
    (forall s, s ∈ proposal_suffixes -> field w' p s = field w2 p s).
Proof.
  intros Hn Hw E [Hp1 Hp2]. unfold advance in E. rewrite run_bind, run_proposal_count in E.
  destruct (Z.eqb_spec (count w) 0); [lia|]. pose proof (count_nonneg w).
  autorewrite with gov_run in E.
  match type of E with (let '(_, _) := run read_validator_count w in _) = _ =>
    destruct (run read_validator_count w) as [v w0] eqn:Ev end.
  assert (w0 = w) as -> by (by injection Ev).
  eapply (advance_from_own _ _ _ _ _ _ _ _ _ p) in E as (w1 & ev & w2 & E & Hd & F1 & F2);
    [|lia|lia|done|done|lia].
  do 4 eexists. split_and!; [exact E|done| | |].
  - apply full_data_ext. intros k Hk.
    apply F1; [apply (data_key_used n parties configs p); [lia|done]|]. intros. by apply (data_not_advanced p).
  - intros s Hs. apply F1; [split; [lia|done]|]. intros i Hi [?|(s' & _ & [=])]; [done|lia].
  - intros s Hs. apply F2; [split; [lia|done]|]. intros i Hi [?|(s' & _ & [=])]; [done|lia].
Qed.

(** ** The next status *)

(** [et] and [tl] are the execution timeout and the timelock of the pass. *)
Definition next_status et w pid b : Z :=
  let s := status w pid in
  let exec_block := block_of w pid "execution_block" in
  if s =? 0 then if review_done w pid b then 1 else 0
  else if s =? 1 then
    if block_of w pid "end_block" <? b then if passes w pid then 2 else 4 else 1
  else if s =? 2 then
    if saturating_add U64_MAX exec_block et <? b then 5
    else if exec_block <=? b then 3 else 2
  else s.

(** The execution block after the pass. *)
Definition next_execution tl et w pid b : Z :=
  if (status w pid =? 1) && (next_status et w pid b =? 2) then
    if kind w pid =? 5 then b else wrap_u64 (b + tl)
  else block_of w pid "execution_block".

Lemma same_fields_reads w w1 pid :
  (forall s, s ∈ proposal_suffixes -> field w1 pid s = field w pid s) ->
  status w1 pid = status w pid /\ kind w1 pid = kind w pid /\ passes w1 pid = passes w pid /\
  (forall b, review_done w1 pid b = review_done w pid b) /\
  block_of w1 pid "end_block" = block_of w pid "end_block" /\
  block_of w1 pid "execution_block" = block_of w pid "execution_block".
Proof.
  intros F. unfold status, kind, passes, review_done, block_of, votes.
  rewrite !F by named. done.
Qed.

Lemma field_status_write w pid v s :
  1 <= pid <= n -> s ∈ proposal_suffixes -> s <> "status"%string ->
  field (gwr (slot_gov_proposal pid "status") v w) pid s = field w pid s.
Proof.
  intros. unfold field. rewrite (grd_gwr_ne n parties configs layout); [done|use_field|done|congruence].
Qed.

Lemma execution_enqueue pid b eb w :
  1 <= pid <= n -> fits U64_MAX eb ->
  block_of (enqueue pid b eb w) pid "execution_block" = eb.
Proof.
  intros Hp He. unfold block_of, field, enqueue. rewrite grd_gwr_same.
  by rewrite (u64_to_u256_id eb), u256_to_u64_id.
Qed.

(** Programs that write none of the proposal's fields but the deposit. *)
Lemma confiscate_execution pid w :
  1 <= pid <= n -> field (run (confiscate pid) w).2 pid "execution_block" = field w pid "execution_block".
Proof.
  intros Hp.
  apply (run_gov_frame n parties configs layout (fun k => k = slot_gov_proposal pid "deposit"));
    [|use_field|congruence].
  follow storing (apply writes_gstore; [done|use_field]) calling (fail).
Qed.

Lemma refund_execution pid w :
  1 <= pid <= n ->
  field (run (advancer_refund pid) w).2 pid "execution_block" = field w pid "execution_block".
Proof.
  intros Hp.
  apply (run_gov_frame n parties configs layout (fun k => k = slot_gov_proposal pid "deposit"));
    [|use_field|congruence].
  follow storing (apply writes_gstore; [done|use_field]) calling (fail).
Qed.


Lemma own_outcome q tl et b pid w ev w' :
  1 <= pid <= n -> fits U64_MAX b -> param_word (full_data w pid) ∈ configs ->
  run (advance_proposal q tl et b pid) w = (Some ev, w') ->
  status w' pid = next_status et w pid b /\
  block_of w' pid "execution_block" = next_execution tl et w pid b.
Proof.
  intros Hp Hb Hw E. rewrite run_advance_proposal in E. unfold next_execution, next_status.
  destruct (Z.eqb_spec (status w pid) 0) as [E0|].
  { rewrite run_advance_pending in E. rewrite E0. cbn [Z.eqb andb].
    destruct (review_done w pid b); injection E as _ <-; [|done].
    unfold status, block_of, field. rewrite !(grd_gwr_ne n parties configs layout (slot_gov_proposal pid "quorum_required"))
      by (use_field || done).
    split; [by rewrite grd_gwr_same|]. f_equal. by apply field_status_write; [|named|]. }
  destruct (Z.eqb_spec (status w pid) 1) as [E1|].
  { rewrite run_advance_active in E. cbn [andb].
    destruct (_ <? b); [|injection E as _ <-; done].
    destruct (passes w pid); injection E as _ <-; cbn [Z.eqb Pos.eqb].
    - split; [by apply (status_enqueue n parties configs layout)|].
      apply execution_enqueue; [done|]. destruct (kind w pid =? 5); [done|apply wrap_u64_fits].
    - unfold status at 1, field at 1. rewrite grd_gwr_same. split; [done|].
      unfold block_of. f_equal. rewrite field_status_write by (done || named). by apply confiscate_execution. }
  destruct (Z.eqb_spec (status w pid) 2) as [E2|]; cbn [andb].
  2: { injection E as _ <-. done. }
  rewrite run_advance_queued in E. cbv zeta in E.
  destruct (_ <? b).
  { injection E as _ <-. unfold status at 1, field at 1. rewrite grd_gwr_same. split; [done|].
    unfold block_of. f_equal. rewrite field_status_write by (done || named). by apply confiscate_execution. }
  destruct (_ <=? b); [|by injection E as _ <-].
  pose proof (side_effects_frame n parties configs layout pid (kind w pid) w
    (slot_gov_proposal pid "execution_block") Hw) as F.
  destruct (run (apply_side_effects _ _) w) as [[u|] w1]; [|done]. apply (f_equal snd) in E. cbn [snd] in E. subst w'.
  unfold status at 1, field at 1. rewrite grd_gwr_same. split; [done|].
  unfold block_of. f_equal. rewrite field_status_write by (done || named).
  rewrite refund_execution by done. apply F; [use_field|tauto].
Qed.

(** What a pass does to the status and the execution block of a proposal. *)
Lemma advance_outcome b w r w' p :
  count w <= n -> fits U64_MAX b -> params_in_use configs w ->
  run (advance b) w = (Some r, w') -> valid w p ->
  status w' p = next_status (advance_timeout w) w p b /\
  block_of w' p "execution_block" = next_execution (advance_timelock w) (advance_timeout w) w p b.
Proof.
  intros Hn Hb Hw E Hp. pose proof Hp as [? ?].
  destruct (advance_own _ _ _ _ _ Hn Hw E Hp) as (q & w1 & ev & w2 & E1 & Hd & _ & F1 & F2).
  apply own_outcome in E1 as [Es Ex]; [|lia|done|done].
  destruct (same_fields_reads _ _ _ F2) as (-> & _ & _ & _ & _ & ->). rewrite Es, Ex.
  unfold next_execution, next_status.
  destruct (same_fields_reads _ _ _ F1) as (-> & -> & -> & -> & -> & ->). done.
Qed.

End Advancer.
