(* ===== verification/GovDemo.v ===== *)
(** * GovDemo: a governance scenario

    An injective stand-in for the hash satisfies the layout assumptions, and
    a proposal lives through submission, vote, queueing and execution on a
    concrete storage.  The examples of the governance files run on it. *)

From stdpp Require Import base gmap list strings relations.
From Stdlib Require Import ZArith Lia.
From S2P Require Import Prelude Provider World EvmProvider Refinement Dispatch Utils.
From S2P Require Import Asset AssetSpec AssetPrecompile SimpleJournal Validator Governance GovAdvancer.
From S2P Require Import GovernanceSpec GovLayout GovernanceLife AdvancerSpec HashDemo.

Local Open Scope Z_scope.
Local Open Scope callnode_scope.

Module GovDemo.
Import Demo HashDemo.

(** ** The layout *)

Lemma preimage_bytes n parties configs k :
  (forall c, c ∈ configs -> Forall is_byte c) -> in_use n parties configs k ->
  Forall is_byte (gov_preimage k).
Proof.
  intros Hc Hk. unfold gov_preimage. destruct k; cbn [gov_parts concat in_use] in *; destruct_and?;
    rewrite ?Forall_app; split_and?; first [by constructor | apply b_bytes | apply be_bytes_is_byte | by auto].
Qed.

Lemma hash_collision_free n parties configs :
  (forall c, c ∈ configs -> Forall is_byte c) -> collision_free n parties configs.
Proof.
  intros Hc. split.
  - intros k k' Hk Hk' E. apply hash_inj; [by eapply preimage_bytes..|done].
  - intros k Hk. apply hash_positive. by eapply preimage_bytes.
Qed.

(** Proposals 1 to 3, three accounts, the known parameters and the names the
    advancer derives from execution data. *)
Definition people : list Z := [alice; bob; TREASURY_ADDRESS].
Definition names : list (list Z) :=
  b_ "param_change" :: be_bytes 32 200 :: map b_ ALLOWED_GOVERNANCE_PARAMS.

Lemma demo_names : names_ok 3 people names.
Proof.
  split; [done| | |].
  - intros a Ha. assert (F : Forall (fits ADDRESS_MAX) people) by (repeat constructor; vm_compute; discriminate).
    rewrite Forall_forall in F. by apply F.
  - refine (bool_decide_eq_false_1 _ _). vm_compute. reflexivity.
  - intros s Hs. right. right. by apply list_elem_of_fmap_2.
Qed.

Lemma demo_bytes c : c ∈ names -> Forall is_byte c.
Proof.
  unfold names. intros [->|[->|Hc]%elem_of_cons]%elem_of_cons;
    [apply b_bytes|apply be_bytes_is_byte|].
  apply list_elem_of_fmap in Hc as (s & -> & _). apply b_bytes.
Qed.

Lemma gov_demo_layout : gov_layout 3 people names.
Proof. apply governance_layout_holds; [apply demo_names|apply hash_collision_free, demo_bytes]. Qed.

(** ** The scenario *)

Definition at_block (b : Z) (m : wstate) : world := mkWorld m (mkEnv 1000000 false 1 1000 b 0) [].

(** Half of the supply with [alice], a quarter with [bob], some in the
    treasury; [alice] is the only validator; the configuration is seeded. *)
Definition genesis : wstate :=
  w_cur (run seed_gov_config (at_block 0
    (put_slot ASSET_ADDRESS (slot_balance CALL_ASSET_ID alice) (TOTAL_SUPPLY / 2)
    (put_slot ASSET_ADDRESS (slot_balance CALL_ASSET_ID bob) (TOTAL_SUPPLY / 4)
    (put_slot ASSET_ADDRESS (slot_balance CALL_ASSET_ID TREASURY_ADDRESS) 5000
    (put_slot VALIDATOR_ADDRESS (slot_validator_by_addr alice) 1
    (put_slot VALIDATOR_ADDRESS slot_validator_count 1 w0))))))).2.

(** [alice] proposes to pay 500 to [bob] from the treasury. *)
Definition spend : submitProposalCall :=
  {| sp_proposalType := 2; sp_title := b_ "grant"; sp_description := b_ "grant to bob";
     sp_executionData := be_bytes 32 bob ++ be_bytes 32 500 |}.
Definition first : proposalCall := {| pr_proposalId := 1 |}.
Definition yes : voteCall := {| vo_proposalId := 1; vo_vote := 1 |}.

Definition after {A} (p : prog A) (w : world) : world := (run p w).2.
Definition later (b : Z) (w : world) : world := at_block b (w_cur w).

Definition g0 : world := at_block 7 genesis.
Definition submitted_w : world := after (gov_handler alice (OpSubmit spend)) g0.
Definition voting_w : world := later 20 submitted_w.
Definition voted_w : world := after (gov_handler alice (OpVote yes)) voting_w.
Definition queueing_w : world := later 120 voted_w.
Definition queued_w : world := after (gov_handler alice (OpQueue first)) queueing_w.
Definition due_w : world := later 220 queued_w.
Definition executed_w : world := after (gov_handler alice (OpExecute first)) due_w.

Lemma ran {A} (p : prog (res A)) (a : A) w :
  (run p w).1 = Ok a -> run p w = (Ok a, after p w).
Proof. intros E. rewrite <- E. apply surjective_pairing. Qed.

Lemma submit_runs : (run (gov_handler alice (OpSubmit spend)) g0).1 = Ok tt.
Proof. vm_compute. reflexivity. Qed.
Lemma vote_runs : (run (gov_handler alice (OpVote yes)) voting_w).1 = Ok tt.
Proof. vm_compute. reflexivity. Qed.
Lemma queue_runs : (run (gov_handler alice (OpQueue first)) queueing_w).1 = Ok tt.
Proof. vm_compute. reflexivity. Qed.
Lemma execute_runs : (run (gov_handler alice (OpExecute first)) due_w).1 = Ok tt.
Proof. vm_compute. reflexivity. Qed.

Abbreviation demo_step := (gov_step 3 people names).

Lemma alice_in : alice ∈ people.
Proof. left. Qed.

Lemma later_step b w : demo_step w (later b w).
Proof. apply step_other. intros k _. reflexivity. Qed.

Lemma submit_wf : op_wf 3 g0 (OpSubmit spend).
Proof. split; vm_compute; [reflexivity|discriminate]. Qed.

Lemma submit_step : demo_step g0 submitted_w.
Proof.
  exact (step_call _ _ _ alice (OpSubmit spend) _ _ alice_in submit_wf (ran _ _ _ submit_runs)).
Qed.

Lemma vote_step : demo_step voting_w voted_w.
Proof.
  exact (step_call _ _ _ alice (OpVote yes) _ _ alice_in Z.le_0_1 (ran _ _ _ vote_runs)).
Qed.

Lemma queue_step : demo_step queueing_w queued_w.
Proof.
  exact (step_call _ _ _ alice (OpQueue first) _ _ alice_in Z.le_0_1 (ran _ _ _ queue_runs)).
Qed.

Lemma execute_step : demo_step due_w executed_w.
Proof.
  exact (step_call _ _ _ alice (OpExecute first) _ _ alice_in Z.le_0_1 (ran _ _ _ execute_runs)).
Qed.

(** From the submission to the execution. *)
Lemma demo_life : rtc demo_step submitted_w executed_w.
Proof.
  eapply rtc_l; [apply later_step|]. eapply rtc_l; [apply vote_step|].
  eapply rtc_l; [apply later_step|]. eapply rtc_l; [apply queue_step|].
  eapply rtc_l; [apply later_step|]. eapply rtc_l; [apply execute_step|]. done.
Qed.

Lemma demo_statuses :
  count submitted_w = 1 /\ status submitted_w 1 = 0 /\ status voted_w 1 = 1 /\
  status queued_w 1 = 2 /\ status executed_w 1 = 3.
Proof. vm_compute. done. Qed.

(** ** The same proposal under the advancer *)

Definition reviewed_w : world := after (advance 20) submitted_w.
Definition ballot_w : world := after (gov_handler alice (OpVote yes)) (later 25 reviewed_w).
Definition passed_w : world := after (advance 118) ballot_w.
Definition settled_w : world := after (advance 220) passed_w.

Lemma ballot_runs : (run (gov_handler alice (OpVote yes)) (later 25 reviewed_w)).1 = Ok tt.
Proof. vm_compute. reflexivity. Qed.

Lemma ballot_steps : rtc demo_step reviewed_w ballot_w.
Proof.
  eapply rtc_l; [apply (later_step 25)|]. apply rtc_once.
  exact (step_call _ _ _ alice (OpVote yes) _ _ alice_in Z.le_0_1 (ran _ _ _ ballot_runs)).
Qed.

Lemma passed {A} (p : prog (option A)) (a : A) w :
  (run p w).1 = Some a -> exists a', run p w = (Some a', after p w).
Proof. intros E. exists a. rewrite <- E. apply surjective_pairing. Qed.

Lemma demo_params w :
  count w = 1 -> param_word (full_data w 1) = b_ "param_change" -> params_in_use names w.
Proof.
  intros Hc Hp pid [? ?]. assert (pid = 1) as -> by lia. rewrite Hp. left.
Qed.

End GovDemo.
