(* ===== verification/GovernanceProps.v ===== *)
(** * GovernanceProps: properties of governance

    What the governance precompile and the per-block advancer guarantee about
    the life of proposals, votes, timelocks, deposits and the emergency
    powers, and where the advancer departs from the precompile. *)

From stdpp Require Import base gmap list strings relations.
From Stdlib Require Import ZArith Lia.
From S2P Require Import Prelude Provider World EvmProvider Refinement Dispatch Utils.
From S2P Require Import Asset AssetSpec Validator Governance GovAdvancer GovernanceSpec GovernanceLife.
From S2P Require Import AssetPrecompile SimpleJournal AdvancerSpec GovDemo.
From S2P Require Import Keyed.

Local Open Scope Z_scope.
Local Open Scope callnode_scope.

Section Props.
Context `{Keccak} (n : Z) (parties : list Z) (configs : list (list Z)).
Hypothesis layout : gov_layout n parties configs.
Implicit Types (w : world) (k : gov_key).

Abbreviation used := (in_use n parties configs).
Abbreviation step := (gov_step n parties configs).

(** Executed, defeated and expired proposals are decided. *)
Definition decided (s : Z) : Prop := s = 3 \/ s = 4 \/ s = 5.

Lemma edge_decided s s' : decided s -> edge s s' = true -> s' = s.
Proof. unfold edge, decided. cbn [existsb fst snd]. lia. Qed.

Lemma edge_range s s' : 0 <= s <= 5 -> edge s s' = true -> 0 <= s' <= 5.
Proof. unfold edge. cbn [existsb fst snd]. lia. Qed.

Lemma edge_executed s : edge s 3 = true -> s = 2 \/ s = 3.
Proof. unfold edge. cbn [existsb fst snd]. lia. Qed.

Lemma steps_count w w' : count w <= n -> rtc step w w' -> count w <= count w' <= n.
Proof.
  intros Hn R. revert Hn. induction R as [w|w w1 w' S _ IH]; intros Hn; [lia|].
  destruct (step_moves n parties configs layout w w1) as [_ ?]; [done..|]. lia.
Qed.

Lemma decided_stays w w' pid :
  count w <= n -> rtc step w w' -> valid w pid -> decided (status w pid) ->
  status w' pid = status w pid.
Proof.
  intros Hn R. revert Hn. induction R as [w|w w1 w' S _ IH]; intros Hn Hp Hd; [done|].
  destruct (step_moves n parties configs layout w w1) as [Hm Hc]; [done..|].
  pose proof (edge_decided _ _ Hd (Hm pid Hp)) as E. rewrite <- E.
  apply IH; [lia|unfold valid in *; lia|by rewrite E].
Qed.

(** Proposals follow their life cycle.  Whatever sequence of governance
    calls, end-of-block advances and foreign transactions runs, a proposal
    that was executed, defeated or expired keeps that status, no proposal
    gets an unknown status, none disappears, and a proposal becomes executed
    only in a step that finds it queued. *)
Theorem proposals_follow_life_cycle w w' pid :
  count w <= n -> rtc step w w' -> valid w pid -> 0 <= status w pid <= 5 ->
  valid w' pid /\ 0 <= status w' pid <= 5 /\
  (decided (status w pid) -> status w' pid = status w pid) /\
  (forall w'', step w' w'' -> status w'' pid = 3 -> status w' pid = 2 \/ status w' pid = 3).
Proof.
  intros Hn R. revert Hn. induction R as [w|w w1 w' S _ IH]; intros Hn Hv Hs.
  - split_and!; [done|lia|lia|done|]. intros w'' S E3.
    destruct (step_moves n parties configs layout w w'' Hn S) as [Hm _]. apply edge_executed. rewrite <- E3. by apply Hm.
  - destruct (step_moves n parties configs layout w w1 Hn S) as [Hm Hc]. pose proof (Hm pid Hv) as He.
    destruct IH as (Hv' & Hs' & Hd & He'); [lia|unfold valid in *; lia|by eapply edge_range|].
    split_and!; [done|lia|lia| |done]. intros Hdec.
    pose proof (edge_decided _ _ Hdec He) as E1. rewrite <- E1. apply Hd. by rewrite E1.
Qed.

(** ** Votes *)

Definition power w pid v : Z := grd w (slot_gov_voter pid v).
Definition choice w pid v : Z := grd w (slot_gov_voter_vote pid v).

(** The power cast for a choice, each account once. *)
Definition ballots w pid c : Z :=
  sum_of (fun v => if choice w pid v =? c then power w pid v else 0) parties.

(** The tallies are the recorded votes; proposals not yet submitted have none. *)
Record votes_counted w : Prop := {
  vc_power : forall pid v, 1 <= pid <= n -> v ∈ parties -> fits U128_MAX (power w pid v);
  vc_fresh : forall pid v, count w < pid <= n -> v ∈ parties -> power w pid v = 0;
  vc_tally : forall pid c, valid w pid -> 1 <= c <= 3 ->
    votes w pid (tally_suffix c) = Z.min U128_MAX (ballots w pid c)
}.

(** The keys a vote is recorded in. *)
Definition ballot_key pid k : Prop :=
  (exists c, k = slot_gov_proposal pid (tally_suffix c)) \/
  (exists v, v ∈ parties /\ (k = slot_gov_voter pid v \/ k = slot_gov_voter_vote pid v)).

Lemma ballots_ext w w' pid c :
  (forall k, ballot_key pid k -> grd w' k = grd w k) -> ballots w' pid c = ballots w pid c.
Proof.
  intros F. apply sum_of_ext. intros v Hv. unfold choice, power.
  rewrite !F; [done|right; exists v; auto..].
Qed.

Lemma ballot_used pid k : 1 <= pid <= n -> ballot_key pid k -> used k.
Proof.
  intros Hp [(c & ->)|(v & Hv & [->| ->])]; [|done..]. by apply tally_used.
Qed.

Lemma tally_suffix_cases c :
  tally_suffix c = "votes_for"%string \/ tally_suffix c = "votes_against"%string \/
  tally_suffix c = "votes_abstain"%string.
Proof. unfold tally_suffix. repeat case_match; auto. Qed.

Lemma tally_suffix_inj c c' :
  1 <= c <= 3 -> 1 <= c' <= 3 -> tally_suffix c = tally_suffix c' -> c = c'.
Proof.
  intros Hc Hc'. assert (c = 1 \/ c = 2 \/ c = 3) as [->|[->| ->]] by lia;
    assert (c' = 1 \/ c' = 2 \/ c' = 3) as [->|[->| ->]] by lia; done.
Qed.

Lemma counted_same w w' :
  count w <= n -> count w' = count w ->
  (forall pid k, 1 <= pid <= n -> ballot_key pid k -> grd w' k = grd w k) ->
  votes_counted w -> votes_counted w'.
Proof.
  intros Hn Hc F [V1 V2 V3].
  assert (P : forall pid v, 1 <= pid <= n -> v ∈ parties -> power w' pid v = power w pid v).
  { intros pid v Hp Hv. apply (F pid); [done|]. right. exists v. auto. }
  split.
  - intros pid v Hp Hv. rewrite P by done. by apply V1.
  - intros pid v Hp Hv. pose proof (count_nonneg w). rewrite P by (done || lia). apply V2; [lia|done].
  - intros pid c [? ?] Hc'. rewrite (ballots_ext w w') by (intros; apply (F pid); [lia|done]).
    unfold votes, field. rewrite (F pid); [|lia|left; by exists c]. apply V3; [unfold valid; lia|done].
Qed.

(** Votes are touched by submissions and votes only. *)
Lemma ballot_not_written w sender o pid k :
  ballot_key pid k ->
  match o with OpSubmit _ | OpVote _ => False | _ => True end -> ~ op_key w sender o k.
Proof.
  intros Hb Ho.
  destruct Hb as [(c & ->)|(v & Hv & [->| ->])].
  1: destruct (tally_suffix_cases c) as [->|[->| ->]].
  all: destruct o; try done; cbn; unfold advance_key; intuition congruence.
Qed.

Lemma ballot_not_advanced pid k p : ballot_key pid k -> ~ advancer_key p k.
Proof.
  intros Hb [He|(s & Hs & ->)].
  - by destruct Hb as [(c & ->)|(v & Hv & [->| ->])].
  - destruct Hb as [(c & [= -> ->])|(v & Hv & [?|?])]; [|done..].
    revert Hs. destruct (tally_suffix_cases c) as [->|[->| ->]];
      refine (bool_decide_eq_false_1 _ _); vm_compute; reflexivity.
Qed.

Lemma ballots_zero w pid c :
  (forall v, v ∈ parties -> power w pid v = 0) -> ballots w pid c = 0.
Proof.
  intros Hz. unfold ballots. rewrite (sum_of_ext _ (fun _ => 0)).
  - clear. by induction parties.
  - intros v Hv. rewrite Hz by done. by case_match.
Qed.

Lemma fields_votes ty t d data p sb eb st w pid c :
  Forall (fun f => field w pid f.1 = f.2) (initial_fields ty t d data p sb eb st) ->
  votes w pid (tally_suffix c) = 0.
Proof.
  unfold initial_fields. rewrite !Forall_cons. cbn [fst snd]. intros Hf. destruct_and! Hf.
  unfold votes. destruct (tally_suffix_cases c) as [->|[->| ->]];
    match goal with E : field w pid ?s = 0 |- context [field w pid ?s] => by rewrite E end.
Qed.

Lemma submit_counted ty t d data p b w w' pid :
  p ∈ parties -> count w < n -> Z.of_nat (length data) <= U64_MAX ->
  run (submit_proposal ty t d data p b) w = (Ok pid, w') -> votes_counted w -> votes_counted w'.
Proof.
  intros Hp Hc Hl E [V1 V2 V3].
  apply (submit_effect n parties configs layout) in E as (Hpid & Hcw & (sb & eb & st & _ & Hf) & F); [|done..].
  pose proof (count_nonneg w).
  assert (P : forall i v, 1 <= i <= n -> v ∈ parties -> power w' i v = power w i v).
  { intros i v Hi Hv. apply F; [done|]. tauto. }
  split.
  - intros i v Hi Hv. rewrite P by done. by apply V1.
  - intros i v Hi Hv. rewrite P by (done || lia). apply V2; [lia|done].
  - intros i c [? ?] Hc'. destruct (decide (i = pid)) as [->|Hne].
    + rewrite (fields_votes _ _ _ _ _ _ _ _ _ _ _ Hf), ballots_zero; [done|].
      intros v Hv. rewrite P by (done || lia). apply V2; [lia|done].
    + assert (F' : forall k, ballot_key i k -> grd w' k = grd w k).
      { intros k Hk. apply F; [apply (ballot_used i); [lia|done]|].
        by destruct Hk as [(c' & [= ->])|(v & Hv & [->| ->])]; cbn; intros ?. }
      rewrite (ballots_ext w w') by done. unfold votes, field. rewrite F' by (left; by exists c).
      apply V3; [split; lia|done].
Qed.

Lemma power_cast pid c v pw w i u :
  1 <= pid <= n -> v ∈ parties -> fits U128_MAX pw -> 1 <= i <= n -> u ∈ parties ->
  power (cast pid c v pw w) i u = if decide (i = pid /\ u = v) then pw else power w i u.
Proof.
  intros Hp Hv Hpw Hi Hu. unfold power. case_decide as D.
  - destruct D as [-> ->]. unfold cast.
    do 2 (rewrite (grd_gwr_ne n parties configs layout); [|first [by apply tally_used | done]|done|done]).
    by rewrite grd_gwr_same, u128_to_u256_id.
  - apply (cast_frame n parties configs layout); [done..|naive_solver|done|done].
Qed.

Lemma choice_cast pid c v pw w i u :
  1 <= pid <= n -> v ∈ parties -> 1 <= i <= n -> u ∈ parties ->
  choice (cast pid c v pw w) i u = if decide (i = pid /\ u = v) then c else choice w i u.
Proof.
  intros Hp Hv Hi Hu. unfold choice. case_decide as D.
  - destruct D as [-> ->]. unfold cast.
    rewrite (grd_gwr_ne n parties configs layout); [|by apply tally_used|done|done].
    by rewrite grd_gwr_same.
  - apply (cast_frame n parties configs layout); [done..|naive_solver|done].
Qed.

Lemma votes_cast pid c v pw w i c' :
  1 <= pid <= n -> v ∈ parties -> fits U128_MAX pw -> 1 <= i <= n -> 1 <= c <= 3 -> 1 <= c' <= 3 ->
  votes (cast pid c v pw w) i (tally_suffix c') =
    if decide (i = pid /\ c' = c) then saturating_add U128_MAX (votes w pid (tally_suffix c)) pw
    else votes w i (tally_suffix c').
Proof.
  intros Hp Hv Hpw Hi Hc Hc'. case_decide as D.
  - destruct D as [-> ->]. unfold cast, votes at 1, field. rewrite grd_gwr_same.
    set (w1 := gwr _ _ _). assert (votes w1 pid (tally_suffix c) = votes w pid (tally_suffix c)) as ->.
    { unfold votes, field, w1.
      by rewrite !(grd_gwr_ne n parties configs layout) by (done || by apply tally_used). }
    set (t := saturating_add _ _ _). assert (fits U128_MAX t).
    { pose proof (votes_fit w pid (tally_suffix c)). unfold t, saturating_add. fit. }
    rewrite (u128_to_u256_id t) by done. by apply u256_to_u128_id.
  - unfold votes, field. rewrite (cast_frame n parties configs layout); [done|done|done|by apply tally_used|done|done|].
    intros [= -> E]. apply D. split; [done|by apply tally_suffix_inj].
Qed.

Lemma ballots_cast pid c v pw w i c' :
  NoDup parties -> 1 <= pid <= n -> v ∈ parties -> fits U128_MAX pw -> 1 <= i <= n ->
  power w pid v = 0 ->
  ballots (cast pid c v pw w) i c' = ballots w i c' + if decide (i = pid /\ c' = c) then pw else 0.
Proof.
  intros Hnd Hp Hv Hpw Hi Hz. unfold ballots. destruct (decide (i = pid)) as [->|Hne].
  - rewrite (sum_of_update (fun u => if choice w pid u =? c' then power w pid u else 0) _ _ v) by
      (done || (intros u Hu Hne; rewrite power_cast, choice_cast by done;
       rewrite !decide_False by naive_solver; done)).
    rewrite power_cast, choice_cast, !decide_True, Hz by done.
    destruct (Z.eqb_spec c c'), (choice w pid v =? c'); case_decide; naive_solver lia.
  - rewrite decide_False by naive_solver. rewrite Z.add_0_r. apply sum_of_ext. intros u Hu.
    rewrite power_cast, choice_cast by done. by rewrite !decide_False by naive_solver.
Qed.

Lemma cast_counted pid c v pw w :
  NoDup parties -> valid w pid -> count w <= n -> 1 <= c <= 3 -> v ∈ parties ->
  fits U128_MAX pw -> power w pid v = 0 -> votes_counted w -> votes_counted (cast pid c v pw w).
Proof.
  intros Hnd [Hp1 Hp2] Hn Hc Hv Hpw Hz [V1 V2 V3].
  assert (Hp : 1 <= pid <= n) by lia.
  assert (Ec : count (cast pid c v pw w) = count w).
  { unfold count. by rewrite (cast_frame n parties configs layout). }
  split.
  - intros i u Hi Hu. rewrite power_cast by done. case_decide; [done|by apply V1].
  - intros i u Hi Hu. rewrite power_cast by (done || lia). case_decide; [lia|apply V2; [lia|done]].
  - intros i c' [? ?] Hc'. rewrite votes_cast, ballots_cast by (done || lia).
    assert (0 <= ballots w pid c).
    { apply sum_of_nonneg. intros u Hu. case_match; [|done]. by apply V1. }
    case_decide as D.
    + destruct D as [-> ->]. rewrite V3 by (done || (unfold valid; lia)).
      unfold saturating_add. fit.
    + rewrite Z.add_0_r. apply V3; [unfold valid; lia|done].
Qed.

Lemma held_fits w a : fits U128_MAX (held w a).
Proof.
  unfold held, read_balance, checked_u128. rewrite run_bind. cbn [run fst].
  destruct (run (load _ _) w) as [raw w1].
  cbn [run fst]. destruct (U128_MAX <? raw); cbn [unwrap_or]; [unfold U128_MAX; fit|].
  rewrite u256_to_u128_mod. pose proof (Z.mod_pos_bound raw (2 ^ 128)). unfold U128_MAX. fit.
Qed.

Lemma voting_power_fits ty (val : bool) b :
  fits U128_MAX b -> fits U128_MAX (voting_power ty val b).
Proof.
  intros Hb. unfold voting_power, saturating_add, U128_MAX in *. repeat case_match; fit.
Qed.

(** A ballot, once cast, is never changed. *)
Definition kept w w' : Prop :=
  forall pid v, 1 <= pid <= n -> v ∈ parties -> power w pid v <> 0 ->
    power w' pid v = power w pid v /\ choice w' pid v = choice w pid v.

Lemma kept_same w w' :
  (forall pid k, 1 <= pid <= n -> ballot_key pid k -> grd w' k = grd w k) -> kept w w'.
Proof.
  intros F pid v Hp Hv _. unfold power, choice.
  rewrite !(F pid) by (done || (right; exists v; auto)). done.
Qed.

Lemma quiet_ballots w w' :
  count w <= n -> count w' = count w ->
  (forall pid k, 1 <= pid <= n -> ballot_key pid k -> grd w' k = grd w k) ->
  votes_counted w -> votes_counted w' /\ kept w w'.
Proof. intros. split; [by apply (counted_same w)|by apply kept_same]. Qed.

Lemma logged_ballots w w1 w' :
  count w1 <= n -> logged w1 w' -> votes_counted w1 /\ kept w w1 -> votes_counted w' /\ kept w w'.
Proof.
  intros Hn L [V K]. destruct (quiet_ballots w1 w') as [V' _]; [done| | |done|].
  - unfold count. by rewrite (logged_grd _ _ _ L).
  - intros. by apply logged_grd.
  - split; [done|]. intros pid v Hp Hv Hz. unfold power, choice. rewrite !(logged_grd _ _ _ L).
    by apply K.
Qed.

Lemma advanced_ballots pid b w :
  1 <= pid <= n -> forall i k, 1 <= i <= n -> ballot_key i k -> grd (advanced pid b w) k = grd w k.
Proof.
  intros Hp i k Hi Hk. apply (advanced_frame n parties configs layout); [done|by apply (ballot_used i)|].
  unfold advance_key. destruct Hk as [(c & ->)|(v & Hv & [->| ->])].
  1: destruct (tally_suffix_cases c) as [->|[->| ->]].
  all: cbn; intuition congruence.
Qed.

Lemma vote_ballots pid c v pw b w w' :
  NoDup parties -> count w <= n -> 0 <= pid -> v ∈ parties -> fits U128_MAX pw ->
  run (vote pid c v pw b) w = (Ok tt, w') -> votes_counted w ->
  (votes_counted w' /\ kept w w') /\ count w' = count w.
Proof.
  intros Hnd Hn Hp0 Hv Hpw E V. apply vote_ok in E as (Hc & _ & Hid & _ & _ & _ & Hz & ->).
  pose proof (valid_id_range n _ _ Hp0 Hn Hid) as Hp.
  pose proof (advanced_ballots pid b w Hp) as FA.
  pose proof (count_advanced n parties configs layout pid b w Hp) as Ec.
  assert (VA : votes_counted (advanced pid b w)) by (by apply (counted_same w)).
  assert (valid w pid) by (unfold valid, valid_id in *; lia).
  split; [split|].
  - apply cast_counted; try done; unfold valid in *; lia.
  - intros i u Hi Hu Hne. rewrite power_cast, choice_cast by done.
    pose proof (kept_same w _ FA i u Hi Hu Hne) as [Ep Eh].
    rewrite !decide_False; [done| |]; intros [-> ->]; unfold power in Ep, Hne; congruence.
  - unfold count in *. by rewrite (cast_frame n parties configs layout).
Qed.

Lemma submit_ballots ty t d data p b w w' pid :
  p ∈ parties -> count w < n -> Z.of_nat (length data) <= U64_MAX ->
  run (submit_proposal ty t d data p b) w = (Ok pid, w') -> votes_counted w ->
  (votes_counted w' /\ kept w w') /\ count w' <= n.
Proof.
  intros Hp Hc Hl E V. pose proof (submit_counted _ _ _ _ _ _ _ _ _ Hp Hc Hl E V) as V'.
  apply (submit_effect n parties configs layout) in E as (Hpid & Hcw & _ & F); [|done..].
  split; [split; [done|]|lia]. intros i v Hi Hv _. unfold power, choice.
  rewrite !F by (done || tauto). done.
Qed.

Lemma step_ballots w w' :
  NoDup parties -> count w <= n -> step w w' -> votes_counted w -> votes_counted w' /\ kept w w'.
Proof.
  intros Hnd Hn S V. destruct S as [sender o w w' Hs Hwf E|b w ev w' Hb Hw E|w w' F].
  - assert (Q : match o with OpSubmit _ | OpVote _ => False | _ => True end ->
      count w' = count w -> votes_counted w' /\ kept w w').
    { intros Ho Hc. apply quiet_ballots; [done..| |done]. intros pid k Hp Hk.
      apply (op_frame n parties configs layout sender o); [done..|by apply (ballot_used pid)|].
      by apply (ballot_not_written _ _ _ pid). }
    assert (C : match o with OpSubmit _ => False | _ => True end -> count w' = count w).
    { intros Ho. unfold count. rewrite (op_frame n parties configs layout sender o w w'); [done..|].
      destruct o; try done; cbn; unfold advance_key; intuition congruence. }
    destruct o as [c|c|c|c|c|c|]; try (by apply Q; [|apply C]); cbn [gov_handler op_wf] in *.
    + destruct Hwf as [Hc Hl]. apply submit_call_ok in E as (_ & pid & w1 & E & Hlog).
      apply submit_ballots in E as [HB Hn1]; [|done..]. by apply (logged_ballots _ w1).
    + apply vote_call_ok in E as (_ & w1 & E & Hlog).
      apply vote_ballots in E as [HB Hn1]; [|done..|apply voting_power_fits, held_fits|done].
      apply (logged_ballots _ w1); [lia|done..].
  - apply (advance_lives n parties configs layout) in E as [[_ Hc] F]; [|done..].
    apply quiet_ballots; [done..| |done]. intros pid k Hp Hk. apply F; [by apply (ballot_used pid)|].
    intros p. by apply (ballot_not_advanced pid).
  - apply quiet_ballots; [done|unfold count; by rewrite F| |done]. intros pid k Hp Hk.
    apply F. by apply (ballot_used pid).
Qed.

(** C5: votes are counted once.  In every state governance reaches, the
    tallies of a proposal are the powers of the accounts that voted, each
    account once and under the choice it made (up to saturation of the 128-bit
    counters); a ballot is never changed, and an account that voted on a
    proposal cannot vote on it again. *)
Theorem votes_counted_once w w' :
  NoDup parties -> count w <= n -> votes_counted w -> rtc step w w' ->
  votes_counted w' /\
  forall pid v, valid w pid -> v ∈ parties -> power w pid v <> 0 ->
    power w' pid v = power w pid v /\ choice w' pid v = choice w pid v /\
    forall c w'', run (vote_handler v {| vo_proposalId := pid; vo_vote := c |}) w' <> (Ok tt, w'').
Proof.
  intros Hnd Hn V R.
  assert (votes_counted w' /\ kept w w' /\ count w' <= n) as (V' & K & Hn').
  { clear -Hnd Hn V R layout. revert Hn V. induction R as [w|w w1 w' S _ IH]; intros Hn V; [done|].
    destruct (step_ballots w w1) as [V1 K1]; [done..|].
    destruct (step_moves n parties configs layout w w1) as [_ Hc]; [done..|].
    destruct IH as (V' & K' & Hn'); [lia|done|]. split_and!; [done| |done].
    intros pid v Hp Hv Hz. destruct (K1 pid v) as [E1 E2]; [done..|].
    destruct (K' pid v) as [E1' E2']; [done..|by rewrite E1|]. split; congruence. }
  split; [done|]. intros pid v [Hp1 Hp2] Hv Hz. destruct (K pid v) as [E1 E2]; [lia|done..|].
  split_and!; [done..|]. intros c w'' E. apply vote_call_ok in E as (_ & w1 & E & _).
  cbn [vo_proposalId vo_vote] in E. apply vote_ok in E as (_ & _ & _ & _ & _ & _ & E0 & _).
  rewrite (advanced_ballots pid) with (i := pid) in E0 by (lia || (right; exists v; auto)).
  unfold power in *. congruence.
Qed.

(** ** Time *)

(** A call or a pass at block [b]. *)
Inductive block_step (b : Z) : world -> world -> Prop :=
| block_call sender o w w' :
    sender ∈ parties -> op_wf n w o -> height w = b -> fits U64_MAX b ->
    run (gov_handler sender o) w = (Ok tt, w') -> block_step b w w'
| block_advance w events w' :
    fits U64_MAX b -> params_in_use configs w -> run (advance b) w = (Some events, w') ->
    block_step b w w'.

Lemma block_step_step b w w' : block_step b w w' -> step w w'.
Proof. intros [sender o ? ? Hs Hwf _ _ E|? ? ? Hb Hw E]; [by eapply step_call|by eapply step_advance]. Qed.

(** The fields set at submission. *)
Definition fixed_suffixes : list string :=
  ["proposer"; "title"; "desc"; "data"; "data_len"; "start_block"; "end_block"; "proposal_type";
   "review_end"]%string.

Lemma fixed_not_advanced s p pid : s ∈ fixed_suffixes -> ~ advancer_key p (slot_gov_proposal pid s).
Proof.
  intros Hs [?|(s' & Hs' & [= -> ->])]; [done|]. revert s' Hs Hs'.
  unfold fixed_suffixes. set_solver.
Qed.

Lemma fixed_used s pid : s ∈ fixed_suffixes -> 1 <= pid <= n -> used (slot_gov_proposal pid s).
Proof. intros Hs Hp. split; [done|]. unfold fixed_suffixes, proposal_suffixes in *. set_solver. Qed.

Lemma fixed_not_written w sender o s pid :
  valid w pid -> s ∈ fixed_suffixes -> ~ op_key w sender o (slot_gov_proposal pid s).
Proof.
  intros [? ?] Hs.
  assert (Hne : Forall (fun x => s <> x) ["status"; "quorum_required"; "queued_at"; "execution_block";
    "deposit"; "votes_for"; "votes_against"; "votes_abstain"]%string).
  { unfold fixed_suffixes in Hs. repeat constructor; set_solver. }
  rewrite !Forall_cons in Hne. destruct_and! Hne.
  destruct o as [c|c|c|c|c|c|]; cbn; unfold advance_key; cbn [config_key]; [lia|..|tauto|tauto].
  1: destruct (tally_suffix_cases (vo_vote c)) as [->|[->| ->]].
  all: intuition congruence.
Qed.

Lemma step_fixed w w' pid s :
  count w <= n -> step w w' -> valid w pid -> s ∈ fixed_suffixes -> field w' pid s = field w pid s.
Proof.
  intros Hn S [Hp1 Hp2] Hs. assert (Hu : used (slot_gov_proposal pid s)) by (apply fixed_used; [done|lia]).
  destruct S as [sender o w w' Hse Hwf E|b w ev w' Hb Hw E|w w' F].
  - apply (op_frame n parties configs layout sender o); try done. by apply fixed_not_written.
  - apply (advance_lives n parties configs layout) in E as [_ F]; [|done..]. apply F; [done|].
    intros p. by apply fixed_not_advanced.
  - by apply F.
Qed.

Lemma steps_fixed w w' pid s :
  count w <= n -> rtc step w w' -> valid w pid -> s ∈ fixed_suffixes -> field w' pid s = field w pid s.
Proof.
  intros Hn R. revert Hn. induction R as [w|w w1 w' S _ IH]; intros Hn Hp Hs; [done|].
  destruct (step_moves n parties configs layout w w1) as [_ ?]; [done..|].
  rewrite IH by (done || (unfold valid in *; lia)). by apply step_fixed.
Qed.

(** The execution block of a queued proposal is fixed. *)
Lemma queued_execution w w' pid :
  count w <= n -> step w w' -> valid w pid -> status w pid = 2 -> status w' pid = 2 ->
  block_of w' pid "execution_block" = block_of w pid "execution_block".
Proof.
  intros Hn S [Hp1 Hp2] E2 E2'. assert (Hu : used (slot_gov_proposal pid "execution_block")) by (split; [lia|named]).
  destruct S as [sender o w w' Hse Hwf E|b w ev w' Hb Hw E|w w' F]; unfold block_of, field.
  - f_equal. assert (Hq : forall c, o = OpQueue c -> pr_proposalId c <> pid).
    { intros c -> <-. cbn in Hwf, E. apply queue_call_ok in E as (_ & _ & w1 & E & _).
      apply queue_ok in E as (_ & _ & E & _).
      rewrite (status_advanced n parties configs layout), E2 in E by lia. done. }
    apply (op_frame n parties configs layout sender o); try done.
    destruct o as [c|c|c|c|c|c|]; cbn; unfold advance_key; cbn [config_key]; [lia|..|tauto|tauto].
    1: destruct (tally_suffix_cases (vo_vote c)) as [->|[->| ->]].
    all: try (specialize (Hq c eq_refl)). all: intuition congruence.
  - apply (advance_outcome n parties configs layout _ _ _ _ pid) in E as [_ E]; [|done..].
    unfold next_execution in E. rewrite E2 in E. exact E.
  - by rewrite F.
Qed.

(** The proposal a call is about, and the status a successful call gives it. *)
Definition op_target (o : gov_op) : option (Z * Z) :=
  match o with
  | OpVote c => Some (vo_proposalId c, 1)
  | OpQueue c => Some (pr_proposalId c, 2)
  | OpExecute c => Some (pr_proposalId c, 3)
  | OpCancel c => Some (pr_proposalId c, 4)
  | _ => None
  end.

Lemma status_logged w w' pid : logged w w' -> status w' pid = status w pid.
Proof. intros L. unfold status, field. by rewrite (logged_grd _ _ _ L). Qed.

Lemma op_target_status sender o w w' pid s :
  count w <= n -> sender ∈ parties -> op_wf n w o -> run (gov_handler sender o) w = (Ok tt, w') ->
  op_target o = Some (pid, s) -> status w' pid = s.
Proof.
  intros Hn Hs Hwf E Ht. destruct o as [c|c|c|c|c|c|]; cbn in *; try done; injection Ht as <- <-.
  - apply vote_call_ok in E as (_ & w1 & E & L). rewrite (status_logged _ _ _ L).
    apply vote_ok in E as (_ & _ & Hid & _ & _ & E & _ & ->).
    pose proof (valid_id_range n _ _ Hwf Hn Hid). rewrite <- E.
    unfold status, field. rewrite (cast_frame n parties configs layout); try done; [use_field|].
    by destruct (tally_suffix_cases (vo_vote c)) as [->|[->| ->]].
  - apply queue_call_ok in E as (_ & _ & w1 & E & L). rewrite (status_logged _ _ _ L).
    apply queue_ok in E as (_ & Hid & _ & _ & eb & _ & ->).
    pose proof (valid_id_range n _ _ Hwf Hn Hid). by apply (status_enqueue n parties configs layout).
  - apply execute_call_ok in E as (_ & w1 & E & L). rewrite (status_logged _ _ _ L).
    apply execute_ok in E as (_ & _ & _ & _ & w2 & w3 & _ & _ & ->).
    unfold status, field. by rewrite grd_gwr_same.
  - apply cancel_call_ok in E as [_ E]. apply cancel_ok in E as (_ & _ & _ & _ & w1 & _ & ->).
    unfold status, field. by rewrite grd_gwr_same.
Qed.

Lemma op_other_status sender o w w' pid :
  count w <= n -> sender ∈ parties -> op_wf n w o -> run (gov_handler sender o) w = (Ok tt, w') ->
  valid w pid -> (forall s, op_target o <> Some (pid, s)) -> status w' pid = status w pid.
Proof.
  intros Hn Hs Hwf E [? ?] Ht. unfold status, field. f_equal.
  apply (op_frame n parties configs layout sender o); try done; [split; [lia|named]|].
  destruct o as [c|c|c|c|c|c|]; cbn in *; unfold advance_key; cbn [config_key]; [lia|..|tauto|tauto].
  1: destruct (tally_suffix_cases (vo_vote c)) as [->|[->| ->]].
  all: match type of Ht with forall s, Some (?p, ?v) <> _ =>
         assert (p <> pid) by (intros <-; by apply (Ht v)) end; intuition congruence.
Qed.

Lemma op_status sender o w w' pid :
  count w <= n -> sender ∈ parties -> op_wf n w o -> run (gov_handler sender o) w = (Ok tt, w') ->
  valid w pid -> status w' pid <> status w pid -> op_target o = Some (pid, status w' pid).
Proof.
  intros Hn Hs Hwf E Hp Hne. destruct (op_target o) as [[p s]|] eqn:Ht.
  - destruct (decide (p = pid)) as [->|].
    + by rewrite (op_target_status sender o w w' pid s).
    + exfalso. apply Hne, (op_other_status sender o); try done. intros s'. congruence.
  - exfalso. apply Hne, (op_other_status sender o); try done. intros s'. congruence.
Qed.

Definition approved w pid b : Prop := mandate (advanced pid b w) pid \/ passes w pid = true.

Lemma advanced_timelock pid b w :
  1 <= pid <= n -> timelock_of (advanced pid b w) = timelock_of w.
Proof.
  intros Hp. unfold timelock_of, config_u64. do 2 f_equal.
  apply (run_gov_frame n parties configs layout (fun k => k <> slot_gov_config (b_ "timelock"))).
  - follow storing (apply writes_gstore;
      [ | first [done | use_field | apply (param_in_use n parties configs layout); named]])
      calling (fail).
    all: intros [=]; vm_compute in *; congruence.
  - apply (param_in_use n parties configs layout). named.
  - tauto.
Qed.

Lemma timelock_nonneg w : 0 <= timelock_of w.
Proof.
  unfold timelock_of, or_default, config_u64. rewrite u256_to_u64_mod.
  pose proof (Z.mod_pos_bound (grd w (slot_gov_config (b_ "timelock"))) (2 ^ 64)).
  case_match; [done|lia].
Qed.

Lemma becomes_queued b w w' pid :
  count w <= n -> block_step b w w' -> valid w pid -> status w pid <> 2 -> status w' pid = 2 ->
  b + timelock_of w <= U64_MAX ->
  approved w pid b /\ (kind w pid <> 5 -> b + timelock_of w <= block_of w' pid "execution_block").
Proof.
  intros Hn S Hp Hne E2 Hb. pose proof Hp as [? ?].
  destruct S as [sender o w w' Hs Hwf Hh Hf E|w ev w' Hf Hw E].
  - pose proof (op_status sender o w w' pid Hn Hs Hwf E Hp) as Ht. rewrite E2 in Ht.
    specialize (Ht ltac:(congruence)). destruct o as [| |c| | | |]; try done. injection Ht as Ht.
    cbn in E. apply queue_call_ok in E as (_ & _ & w1 & E & L). rewrite Ht, Hh in E.
    apply queue_ok in E as (_ & _ & _ & Hm & eb & Heb & ->). split; [by left|]. intros Hk.
    assert (kind (advanced pid b w) pid = kind w pid) as Ek.
    { unfold kind. f_equal. apply (advanced_frame n parties configs layout); [lia|split; [lia|named]|].
      unfold advance_key. cbn [config_key]. intuition congruence. }
    rewrite Ek in Heb. destruct (Z.eqb_spec (kind w pid) 5); [done|]. destruct Heb as [-> ?].
    rewrite advanced_timelock in * by lia.
    unfold block_of, field. rewrite (logged_grd _ _ _ L).
    change (b + timelock_of w <= block_of (enqueue pid b (b + timelock_of w) (advanced pid b w)) pid "execution_block").
    rewrite (execution_enqueue n); [lia|lia|]. pose proof (timelock_nonneg w). fit.
  - apply (advance_outcome n parties configs layout _ _ _ _ pid) in E as [Es Ex]; [|done..].
    rewrite E2 in Es. unfold next_execution in Ex. rewrite <- Es in Ex. unfold next_status in Es.
    destruct (Z.eqb_spec (status w pid) 0); [by destruct (review_done w pid b)|].
    destruct (Z.eqb_spec (status w pid) 1); [|by destruct (Z.eqb_spec (status w pid) 2)].
    destruct (_ <? b); [|done]. unfold approved. destruct (passes w pid); [|done].
    split; [by right|]. intros Hk. rewrite Ex. cbn [Z.eqb Pos.eqb andb].
    destruct (Z.eqb_spec (kind w pid) 5); [done|]. unfold wrap_u64.
    pose proof (timelock_nonneg w). change (advance_timelock w) with (timelock_of w).
    rewrite Z.mod_small; [lia|]. unfold fits in *. lia.
Qed.

Lemma becomes_executed b w w' pid :
  count w <= n -> block_step b w w' -> valid w pid -> status w pid <> 3 -> status w' pid = 3 ->
  status w pid = 2 /\ block_of w pid "execution_block" <= b.
Proof.
  intros Hn S Hp Hne E3. destruct S as [sender o w w' Hs Hwf Hh Hf E|w ev w' Hf Hw E].
  - pose proof (op_status sender o w w' pid Hn Hs Hwf E Hp) as Ht. rewrite E3 in Ht.
    specialize (Ht ltac:(congruence)). destruct o as [| | |c| | |]; try done. injection Ht as Ht.
    cbn in E. apply execute_call_ok in E as (_ & w1 & E & L). rewrite Ht, Hh in E.
    apply execute_ok in E as (_ & _ & ? & [? ?] & _). done.
  - apply (advance_outcome n parties configs layout _ _ _ _ pid) in E as [Es _]; [|done..].
    rewrite E3 in Es. unfold next_status in Es.
    destruct (Z.eqb_spec (status w pid) 0); [by destruct (review_done w pid b)|].
    destruct (Z.eqb_spec (status w pid) 1); [by destruct (_ <? b), (passes w pid)|].
    destruct (Z.eqb_spec (status w pid) 2); [|done]. split; [done|].
    destruct (_ <? b); [done|]. destruct (Z.leb_spec (block_of w pid "execution_block") b); done.
Qed.

Lemma edge_queued s s' : s = 2 -> edge s s' = true -> s' = 2 \/ decided s'.
Proof. intros ->. unfold edge, decided. cbn [existsb fst snd]. lia. Qed.

(** Between two states in which it is queued, a proposal stays queued. *)
Lemma queued_stays w w' pid :
  count w <= n -> rtc step w w' -> valid w pid -> status w pid = 2 -> status w' pid = 2 ->
  block_of w' pid "execution_block" = block_of w pid "execution_block".
Proof.
  intros Hn R. revert Hn. induction R as [w|w w1 w' S R IH]; intros Hn Hp E E'; [done|].
  destruct (step_moves n parties configs layout w w1) as [Hm Hc]; [done..|].
  assert (Hp1 : valid w1 pid) by (unfold valid in *; lia).
  destruct (edge_queued _ _ E (Hm pid Hp)) as [E1|Hd].
  - rewrite IH by (done || lia). by apply queued_execution.
  - exfalso. pose proof (decided_stays w1 w' pid) as E1. unfold decided in *.
    rewrite E1 in E' by (done || lia). lia.
Qed.


(** ** Progress *)

(** A pass of the advancer at block [b] that does not panic. *)
Definition pass (b : Z) w w' : Prop :=
  fits U64_MAX b /\ params_in_use configs w /\ exists events, run (advance b) w = (Some events, w').

Lemma pass_outcome b w w' pid :
  count w <= n -> pass b w w' -> valid w pid ->
  status w' pid = next_status (advance_timeout w) w pid b /\ count w' = count w.
Proof.
  intros Hn (Hb & Hw & ev & E) Hp.
  pose proof (advance_lives n parties configs layout _ _ _ _ Hn Hw E) as [[_ Hc] _].
  by apply (advance_outcome n parties configs layout _ _ _ _ pid) in E as [-> _].
Qed.

Lemma edge_up s s' : 0 <= s <= 5 -> edge s s' = true -> s <= s' <= 5.
Proof. unfold edge. cbn [existsb fst snd]. lia. Qed.

Lemma steps_up w w' pid :
  count w <= n -> rtc step w w' -> valid w pid -> 0 <= status w pid <= 5 ->
  status w pid <= status w' pid <= 5.
Proof.
  intros Hn R. revert Hn. induction R as [w|w w1 w' S _ IH]; intros Hn Hp Hs; [lia|].
  destruct (step_moves n parties configs layout w w1) as [Hm Hc]; [done..|].
  pose proof (edge_up _ _ Hs (Hm pid Hp)). unfold valid in *. lia.
Qed.

(** A pass after the review leaves no proposal pending, one after the voting
    period none active, one after the execution block none queued. *)
Lemma pass_reviewed b w w' pid :
  count w <= n -> pass b w w' -> valid w pid -> 0 <= status w pid <= 5 ->
  review_done w pid b = true -> 1 <= status w' pid <= 5.
Proof.
  intros Hn S Hp Hs Hr. destruct (pass_outcome b w w' pid) as [-> _]; [done..|].
  unfold next_status. rewrite Hr. repeat case_match; lia.
Qed.

Lemma pass_voted b w w' pid :
  count w <= n -> pass b w w' -> valid w pid -> 1 <= status w pid <= 5 ->
  block_of w pid "end_block" < b -> 2 <= status w' pid <= 5.
Proof.
  intros Hn S Hp Hs He. destruct (pass_outcome b w w' pid) as [-> _]; [done..|].
  unfold next_status. destruct (Z.ltb_spec (block_of w pid "end_block") b); [|lia].
  destruct (Z.eqb_spec (status w pid) 0); [lia|]. repeat case_match; lia.
Qed.

Lemma pass_decided b w w' pid :
  count w <= n -> pass b w w' -> valid w pid -> 2 <= status w pid <= 5 ->
  (status w pid = 2 -> block_of w pid "execution_block" <= b) -> decided (status w' pid).
Proof.
  intros Hn S Hp Hs He. destruct (pass_outcome b w w' pid) as [-> _]; [done..|].
  unfold next_status, decided.
  destruct (Z.eqb_spec (status w pid) 0); [lia|]. destruct (Z.eqb_spec (status w pid) 1); [lia|].
  destruct (Z.eqb_spec (status w pid) 2) as [E|]; [|lia]. specialize (He E).
  destruct (_ <? b); [lia|]. destruct (Z.leb_spec (block_of w pid "execution_block") b); lia.
Qed.

(** C7: every proposal is decided.  Three passes of the advancer, one after
    the end of the review, one after the end of the voting period and one
    after the execution block, leave a proposal executed, defeated or
    expired, whatever calls and passes run before and between them. *)
Theorem proposals_get_decided w pid b1 w1 w1' b2 w2 w2' b3 w3 w3' :
  count w <= n -> valid w pid -> 0 <= status w pid <= 5 ->
  rtc step w w1 -> pass b1 w1 w1' -> review_done w pid b1 = true ->
  rtc step w1' w2 -> pass b2 w2 w2' -> block_of w pid "end_block" < b2 ->
  rtc step w2' w3 -> pass b3 w3 w3' -> block_of w2' pid "execution_block" <= b3 ->
  decided (status w3' pid).
Proof.
  intros Hn Hp Hs R1 P1 Hr R2 P2 He R3 P3 Hx.
  assert (V : forall v v', count v <= n -> valid v pid -> rtc step v v' -> count v' <= n /\ valid v' pid).
  { intros v v' Hv Hvp R. pose proof (steps_count _ _ Hv R). unfold valid in *. lia. }
  assert (L : forall b v v', pass b v v' -> rtc step v v').
  { intros b v v' (? & ? & ev & ?). apply rtc_once. by eapply step_advance. }
  destruct (V w w1) as [N1 V1]; [done..|]. destruct (V w1 w1') as [N1' V1']; [done|done|by eapply L|].
  destruct (V w1' w2) as [N2 V2]; [done..|]. destruct (V w2 w2') as [N2' V2']; [done|done|by eapply L|].
  destruct (V w2' w3) as [N3 V3]; [done..|].
  assert (R12 : rtc step w w2) by (transitivity w1; [done|]; transitivity w1'; [by eapply L|done]).
  pose proof (steps_up w w1 pid Hn R1 Hp Hs).
  assert (1 <= status w1' pid <= 5).
  { apply (pass_reviewed b1 w1); [done|done|done|lia|]. rewrite <- Hr. unfold review_done, block_of.
    by rewrite !(steps_fixed w w1 pid) by (done || named). }
  pose proof (steps_up w1' w2 pid N1' R2 V1' ltac:(lia)).
  assert (2 <= status w2' pid <= 5).
  { apply (pass_voted b2 w2); [done|done|done|lia|]. unfold block_of in *.
    by rewrite (steps_fixed w w2 pid) by (done || named). }
  pose proof (steps_up w2' w3 pid N2' R3 V2' ltac:(lia)).
  apply (pass_decided b3 w3); [done|done|done|lia|]. intros E3.
  by rewrite (queued_stays w2' w3 pid) by (done || lia).
Qed.

End Props.

(** ** The theorems on a scenario *)

Module GovernanceDemo.
Import Demo GovDemo.

Lemma proposals_follow_life_cycle_witness :
  valid executed_w 1 /\ 0 <= status executed_w 1 <= 5 /\
  (decided (status submitted_w 1) -> status executed_w 1 = status submitted_w 1) /\
  (forall w'', demo_step executed_w w'' -> status w'' 1 = 3 ->
     status executed_w 1 = 2 \/ status executed_w 1 = 3).
Proof.
  refine (proposals_follow_life_cycle 3 people names gov_demo_layout submitted_w executed_w 1 _ demo_life _ _).
  - vm_compute. discriminate.
  - vm_compute. split; discriminate.
  - vm_compute. split; discriminate.
Defined.

Lemma one_of_people v : v ∈ people -> v = alice \/ v = bob \/ v = TREASURY_ADDRESS.
Proof. unfold people. rewrite !elem_of_cons, elem_of_nil. tauto. Qed.

Lemma voted_counted : votes_counted 3 people voted_w.
Proof.
  split.
  - intros pid v Hp Hv. assert (pid = 1 \/ pid = 2 \/ pid = 3) as [->|[->| ->]] by lia;
      apply one_of_people in Hv as [->|[->| ->]]; vm_compute; split; discriminate.
  - intros pid v Hp Hv. assert (Hc : count voted_w = 1) by (vm_compute; reflexivity). rewrite Hc in Hp.
    assert (pid = 2 \/ pid = 3) as [->| ->] by lia;
      apply one_of_people in Hv as [->|[->| ->]]; vm_compute; reflexivity.
  - intros pid c [Hp1 Hp2] Hc. assert (Hn : count voted_w = 1) by (vm_compute; reflexivity). rewrite Hn in Hp2.
    assert (pid = 1) as -> by lia. assert (c = 1 \/ c = 2 \/ c = 3) as [->|[->| ->]] by lia;
      vm_compute; reflexivity.
Qed.

Lemma rest_of_life : rtc demo_step voted_w executed_w.
Proof.
  eapply rtc_l; [apply (later_step 120)|]. eapply rtc_l; [apply queue_step|].
  eapply rtc_l; [apply (later_step 220)|]. apply rtc_once, execute_step.
Qed.

Lemma votes_counted_once_witness :
  votes_counted 3 people executed_w /\
  forall pid v, valid voted_w pid -> v ∈ people -> power voted_w pid v <> 0 ->
    power executed_w pid v = power voted_w pid v /\ choice executed_w pid v = choice voted_w pid v /\
    forall c w'', run (vote_handler v {| vo_proposalId := pid; vo_vote := c |}) executed_w <> (Ok tt, w'').
Proof.
  refine (votes_counted_once 3 people names gov_demo_layout voted_w executed_w _ _ voted_counted rest_of_life).
  - refine (bool_decide_eq_true_1 _ _). vm_compute. reflexivity.
  - vm_compute. discriminate.
Defined.

Lemma queue_block : block_step 3 people names 120 queueing_w queued_w.
Proof.
  refine (block_call _ _ _ _ alice (OpQueue first) _ _ alice_in Z.le_0_1 eq_refl _ (ran _ _ _ queue_runs)).
  vm_compute. split; discriminate.
Qed.

Lemma execute_block : block_step 3 people names 220 due_w executed_w.
Proof.
  refine (block_call _ _ _ _ alice (OpExecute first) _ _ alice_in Z.le_0_1 eq_refl _ (ran _ _ _ execute_runs)).
  vm_compute. split; discriminate.
Qed.


Lemma review_pass : pass names 20 submitted_w reviewed_w.
Proof.
  split; [vm_compute; split; discriminate|]. split; [apply demo_params; vm_compute; reflexivity|].
  apply (passed _ [ProposalAdvanced 1 Pending Active]). vm_compute. reflexivity.
Qed.

Lemma vote_pass : pass names 118 ballot_w passed_w.
Proof.
  split; [vm_compute; split; discriminate|]. split; [apply demo_params; vm_compute; reflexivity|].
  apply (passed _ [ProposalAdvanced 1 Active Queued]). vm_compute. reflexivity.
Qed.

Lemma final_pass : pass names 220 passed_w settled_w.
Proof.
  split; [vm_compute; split; discriminate|]. split; [apply demo_params; vm_compute; reflexivity|].
  apply (passed _ [ProposalExecuted 1 "2"]). vm_compute. reflexivity.
Qed.

Lemma proposals_get_decided_witness : decided (status settled_w 1).
Proof.
  refine (proposals_get_decided 3 people names gov_demo_layout submitted_w 1 20 submitted_w reviewed_w
    118 ballot_w passed_w 220 passed_w settled_w _ _ _ (rtc_refl _ _) review_pass _ ballot_steps
    vote_pass _ (rtc_refl _ _) final_pass _).
  - vm_compute. discriminate.
  - vm_compute. split; discriminate.
  - vm_compute. split; discriminate.
  - vm_compute. reflexivity.
  - vm_compute. reflexivity.
  - vm_compute. discriminate.
Defined.

End GovernanceDemo.
