(* ===== verification/GovernanceFunds.v ===== *)
(** * GovernanceFunds: the CALL tokens governance holds

    A proposal takes a deposit from its proposer and gives it back when it is
    executed or cancelled.  Governance calls neither create nor destroy CALL:
    balances and held deposits together are conserved.  The advancer executes
    treasury spends differently. *)

From stdpp Require Import base gmap list list_numbers strings relations.
From Stdlib Require Import ZArith Lia.
From S2P Require Import Prelude Provider World EvmProvider Refinement Dispatch Utils.
From S2P Require Import Asset AssetSpec Validator Governance GovAdvancer GovernanceSpec GovernanceLife.
From S2P Require Import AssetPrecompile SimpleJournal AdvancerSpec GovDemo GovernanceProps.
From S2P Require Import Keyed.
From S2P Require Import HashDemo.

Local Open Scope Z_scope.
Local Open Scope callnode_scope.

Section Funds.
Context `{Keccak} (n : Z) (parties : list Z) (configs : list (list Z)).
Hypothesis layout : gov_layout n parties configs.
Implicit Types (w : world) (k : gov_key).

Abbreviation used := (in_use n parties configs).

(** The balance slots of the accounts involved are distinct, for every asset. *)
Record money_layout : Prop := {
  ml_parties : NoDup parties;
  ml_treasury : TREASURY_ADDRESS ∈ parties;
  ml_slots : forall id a p, fits U64_MAX id -> a ∈ parties -> p ∈ parties ->
    slot_balance id a = slot_balance CALL_ASSET_ID p -> id = CALL_ASSET_ID /\ a = p
}.
Hypothesis money : money_layout.

(** Deposits held for proposals. *)
Definition deposits w : Z := sum_of (fun pid => votes w pid "deposit") (seqZ 1 n).

(** CALL in accounts and in deposits. *)
Definition call_total w : Z := sum_of (bal w CALL_ASSET_ID) parties + deposits w.

(** Balances are 128-bit words, proposals not yet submitted hold nothing, and
    the proposers are among the accounts involved. *)
Record funded w : Prop := {
  fd_fits : forall id a, fits U64_MAX id -> a ∈ parties -> fits U128_MAX (bal w id a);
  fd_fresh : forall pid, count w < pid <= n -> field w pid "deposit" = 0;
  fd_proposer : forall pid, valid w pid -> proposer_of w pid ∈ parties
}.

(** Storage with the same balances. *)
Definition same_money w w' : Prop := forall id a, bal w' id a = bal w id a.

Lemma same_money_trans w w1 w' : same_money w w1 -> same_money w1 w' -> same_money w w'.
Proof. intros E1 E2 id a. by rewrite E2. Qed.

Lemma money_gwr k v w : same_money w (gwr k v w).
Proof. intros id a. unfold bal, gwr. cbn. rewrite slot_put. by rewrite decide_False by (intros [=]; done). Qed.

Lemma money_logged w w' : logged w w' -> same_money w w'.
Proof. intros [_ Hs] id a. apply Hs. Qed.

Lemma money_writes {A} (p : prog A) w :
  writes (fun a _ => a <> ASSET_ADDRESS) p -> same_money w (run p w).2.
Proof. intros Hp id a. apply (run_writes _ _ _ _ _ Hp). tauto. Qed.

Lemma money_advanced pid b w : same_money w (advanced pid b w).
Proof.
  apply money_writes. follow storing (apply writes_store; done) calling (fail).
Qed.

Lemma grd_put s v w k : grd (put s v w) k = grd w k.
Proof. unfold grd, put. cbn. rewrite slot_put. by rewrite decide_False by (intros [=]; done). Qed.

Lemma field_put s v w pid f : field (put s v w) pid f = field w pid f.
Proof. apply grd_put. Qed.

Lemma bal_put id a v w p :
  fits U64_MAX id -> a ∈ parties -> p ∈ parties ->
  bal (put (slot_balance id a) v w) CALL_ASSET_ID p =
    if decide (id = CALL_ASSET_ID /\ a = p) then v else bal w CALL_ASSET_ID p.
Proof.
  intros Hi Ha Hp. unfold bal. case_decide as D.
  - destruct D as [-> ->]. rewrite wslot_put. by rewrite decide_True.
  - apply wslot_put_ne. intros E. by apply D, (ml_slots money).
Qed.

Lemma sum_put id a v w :
  fits U64_MAX id -> a ∈ parties ->
  sum_of (bal (put (slot_balance id a) v w) CALL_ASSET_ID) parties =
    sum_of (bal w CALL_ASSET_ID) parties +
      if decide (id = CALL_ASSET_ID) then v - bal w CALL_ASSET_ID a else 0.
Proof.
  intros Hi Ha. case_decide as D.
  - rewrite (sum_of_update (bal w CALL_ASSET_ID) _ _ a); [|apply (ml_parties money)|done|].
    + rewrite bal_put, decide_True by done. lia.
    + intros y Hy Hne. rewrite bal_put by done. by rewrite decide_False by naive_solver.
  - rewrite Z.add_0_r. apply sum_of_ext. intros y Hy. rewrite bal_put by done.
    by rewrite decide_False by naive_solver.
Qed.

(** ** Payments *)

Lemma fits_put s v w id a :
  fits U128_MAX v -> fits U128_MAX (bal w id a) -> fits U128_MAX (bal (put s v w) id a).
Proof. intros Hv Hb. unfold bal in *. rewrite wslot_put. by case_decide. Qed.

Lemma funded_put s v w : fits U128_MAX v -> funded w -> funded (put s v w).
Proof.
  intros Hv [F1 F2 F3]. split.
  - intros id a Hi Ha. apply fits_put; [done|by apply F1].
  - intros pid. unfold count. rewrite grd_put, field_put. apply F2.
  - intros pid. unfold valid, count, proposer_of. rewrite grd_put, field_put. apply F3.
Qed.

Lemma deposits_put s v w : deposits (put s v w) = deposits w.
Proof. apply sum_of_ext. intros pid _. unfold votes. by rewrite field_put. Qed.

Lemma pay_out id a v w w' :
  fits U64_MAX id -> a ∈ parties -> 0 <= v -> funded w ->
  run (deduct_balance id a v) w = (Ok tt, w') ->
  v <= bal w id a /\ w' = put (slot_balance id a) (bal w id a - v) w /\ funded w' /\
  call_total w' = call_total w - if decide (id = CALL_ASSET_ID) then v else 0.
Proof.
  intros Hi Ha Hv F E. pose proof (fd_fits _ F id a Hi Ha) as Hf.
  rewrite run_deduct_balance in E by done. destruct (Z.ltb_spec (bal w id a) v); [done|].
  injection E as <-. split_and!; [done|done|apply funded_put; [fit|done]|].
  unfold call_total. rewrite sum_put, deposits_put by done. case_decide; subst; lia.
Qed.

Lemma pay_in id a v w w' :
  fits U64_MAX id -> a ∈ parties -> 0 <= v -> funded w ->
  run (add_balance id a v) w = (Ok tt, w') ->
  w' = put (slot_balance id a) (bal w id a + v) w /\ funded w' /\
  call_total w' = call_total w + if decide (id = CALL_ASSET_ID) then v else 0.
Proof.
  intros Hi Ha Hv F E. pose proof (fd_fits _ F id a Hi Ha) as Hf.
  rewrite run_add_balance in E by done. destruct (Z.ltb_spec U128_MAX (bal w id a + v)); [done|].
  injection E as <-. split_and!; [done|apply funded_put; [fit|done]|].
  unfold call_total. rewrite sum_put, deposits_put by done. case_decide; subst; lia.
Qed.

(** Storage with the same balances and, of the proposals, the same number,
    proposers and deposits. *)
Definition same_funds w w' : Prop :=
  same_money w w' /\ count w' = count w /\
  forall pid, 1 <= pid <= n ->
    field w' pid "deposit" = field w pid "deposit" /\ field w' pid "proposer" = field w pid "proposer".

Lemma same_funds_trans w w1 w' : same_funds w w1 -> same_funds w1 w' -> same_funds w w'.
Proof.
  intros (M1 & C1 & F1) (M2 & C2 & F2). split; [by eapply same_money_trans|]. split; [congruence|].
  intros pid Hp. destruct (F1 pid Hp), (F2 pid Hp). split; congruence.
Qed.

Lemma same_funds_kept w w' :
  same_funds w w' -> count w <= n -> funded w -> funded w' /\ call_total w' = call_total w.
Proof.
  intros (M & Hc & F) Hn [F1 F2 F3]. pose proof (count_nonneg w). split; [split|].
  - intros id a Hi Ha. rewrite M. by apply F1.
  - intros pid Hp. destruct (F pid) as [-> _]; [lia|]. apply F2. lia.
  - intros pid [? ?]. unfold proposer_of. destruct (F pid) as [_ ->]; [lia|]. apply F3. split; lia.
  - unfold call_total, deposits. f_equal.
    + apply sum_of_ext. intros a _. apply M.
    + apply sum_of_ext. intros pid Hp. apply elem_of_seqZ in Hp. unfold votes.
      destruct (F pid) as [-> _]; [lia|done].
Qed.

(** A change of the deposit of one proposal. *)
Lemma deposits_gwr pid v w :
  1 <= pid <= n -> fits U128_MAX v ->
  deposits (gwr (slot_gov_proposal pid "deposit") v w) = deposits w - votes w pid "deposit" + v.
Proof.
  intros Hp Hv. unfold deposits.
  rewrite (sum_of_update (fun i => votes w i "deposit") _ _ pid).
  - unfold votes at 3, field. rewrite grd_gwr_same, u256_to_u128_id by done. lia.
  - apply NoDup_seqZ.
  - apply elem_of_seqZ. lia.
  - intros i Hi Hne. apply elem_of_seqZ in Hi. unfold votes, field.
    rewrite (grd_gwr_ne n parties configs layout); [done|use_field|split; [lia|named]|congruence].
Qed.

(** ** Operations *)

Lemma same_funds_status pid v w :
  1 <= pid <= n -> same_funds w (gwr (slot_gov_proposal pid "status") v w).
Proof.
  intros Hp. split; [apply money_gwr|]. unfold count, field.
  split; [by rewrite (grd_gwr_ne n parties configs layout) by (done || use_field)|].
  intros i Hi. by rewrite !(grd_gwr_ne n parties configs layout) by first [use_field | congruence].
Qed.

Lemma same_funds_logged w w' : logged w w' -> same_funds w w'.
Proof.
  intros L. split; [by apply money_logged|]. unfold count, field. rewrite (logged_grd _ _ _ L).
  split; [done|]. intros pid _. by rewrite !(logged_grd _ _ _ L).
Qed.

(** A program that touches neither the ledger nor these fields. *)
Lemma same_funds_frame w w' (K : gov_key -> Prop) :
  same_money w w' -> (forall k, used k -> ~ K k -> grd w' k = grd w k) ->
  ~ K slot_gov_proposal_count ->
  (forall pid s, s ∈ ["deposit"; "proposer"]%string -> ~ K (slot_gov_proposal pid s)) -> same_funds w w'.
Proof.
  intros M F Hc Hk. split; [done|]. unfold count, field. split; [by rewrite F|].
  intros pid Hp. split; (rewrite F; [done|use_field|apply Hk; named]).
Qed.

Lemma refund_funds msg pid pr w w' :
  count w <= n -> valid w pid -> pr ∈ parties -> funded w ->
  run (refund_deposit msg pid pr) w = (Ok tt, w') ->
  funded w' /\ call_total w' = call_total w /\ count w' = count w.
Proof.
  intros Hn [? ?] Hpr F E. apply refund_ok in E as [(Hd & _ & w1 & E & ->)|[_ ->]]; [|done].
  apply pay_in in E as (-> & F1 & Et); [|done|done|lia|done].
  set (d := bal w CALL_ASSET_ID pr + votes w pid "deposit") in *.
  set (s := slot_balance CALL_ASSET_ID pr) in *. rewrite decide_True in Et by done.
  assert (Hc : forall v, count (gwr (slot_gov_proposal pid "deposit") v (put s d w)) = count w).
  { intros v. unfold count. rewrite (grd_gwr_ne n parties configs layout);
      [by rewrite grd_put|split; [lia|named]|done|done]. }
  split; [|split; [|done]].
  - destruct F1 as [F1 F2 F3]. split.
    + intros id a Hi Ha. rewrite money_gwr. by apply F1.
    + intros i. rewrite Hc. intros Hi. unfold field.
      rewrite (grd_gwr_ne n parties configs layout); [|split; [lia|named]|split; [lia|named]|intros [=]; lia].
      apply F2. unfold count in *. rewrite grd_put. done.
    + intros i [? Hi]. rewrite Hc in Hi. unfold proposer_of, field.
      rewrite (grd_gwr_ne n parties configs layout); [|split; [lia|named]|split; [lia|named]|done].
      apply F3. unfold valid, count in *. rewrite grd_put. lia.
  - unfold call_total in *. rewrite deposits_gwr by (done || lia).
    rewrite (sum_of_ext (bal (gwr _ 0 (put s d w)) CALL_ASSET_ID) (bal (put s d w) CALL_ASSET_ID))
      by (intros; apply money_gwr).
    unfold votes at 1. rewrite field_put. fold (votes w pid "deposit"). lia.
Qed.

Lemma field_u128_nonneg data i : Forall is_byte data -> 0 <= field_u128 data i.
Proof. intros Hd. unfold field_u128. apply from_be_bound. by apply slice_bytes. Qed.

Lemma apply_quiet ty w pid w' :
  ty <> 2 -> run (apply_proposal ty (data_of w pid)) w = (Ok tt, w') -> same_funds w w'.
Proof.
  intros Hty E. apply (same_funds_frame _ _ effect_key).
  - change w' with (Ok tt : res unit, w').2. rewrite <- E. apply money_writes.
    unfold apply_proposal. follow storing (apply writes_store; done) calling (fail).
    all: done.
  - intros k Hk Hn. by apply (apply_frame n parties configs layout _ _ _ _ _ E).
  - tauto.
  - tauto.
Qed.

Lemma spend_funds w pid w' :
  field_addr (data_of w pid) 0 ∈ parties -> funded w ->
  run (apply_proposal 2 (data_of w pid)) w = (Ok tt, w') ->
  funded w' /\ call_total w' = call_total w /\ (forall k, grd w' k = grd w k).
Proof.
  intros Hr F E. pose proof (data_of_bytes w pid) as Hb. generalize dependent (data_of w pid).
  intros data Hr E Hb. cbn [apply_proposal] in E. unfold execute_treasury_spend, malformed in E.
  assert (Hid : fits U64_MAX (if (96 <=? length data)%nat then field_u64 data 2 else CALL_ASSET_ID)).
  { destruct (96 <=? length data)%nat; [by apply field_u64_fits|done]. }
  pose proof (field_u128_nonneg data 1 Hb) as Ha.
  generalize dependent (if (96 <=? length data)%nat then field_u64 data 2 else CALL_ASSET_ID).
  intros id E Hid. run_inv E. injection E as <-. destruct a, a0.
  repeat match goal with Hg : run (gledger _ _) _ = _ |- _ => apply gledger_ok in Hg end.
  apply pay_out in Heqp as (_ & -> & F1 & E1); [|done|apply (ml_treasury money)|done|done].
  apply pay_in in Heqp0 as (-> & F2 & E2); [|done..]. split; [done|]. split; [lia|].
  intros k. by rewrite !grd_put.
Qed.

Lemma ensure_funds w : same_funds w (run ensure_config_initialized w).2.
Proof.
  apply (same_funds_frame _ _ config_key); [|intros; by apply (ensure_config_frame n parties configs layout)|tauto|tauto].
  apply money_writes. follow storing (apply writes_store; done) calling (fail).
Qed.

Lemma writes_store_chunks_money pid i cs :
  writes (fun a _ => a <> ASSET_ADDRESS) (store_chunks pid i cs).
Proof.
  revert i. induction cs as [|c cs IH]; intros i; cbn [store_chunks]; [constructor|].
  apply writes_bind; [by apply writes_store|done].
Qed.

Lemma record_money pid ty t d data p b sb eb rp w :
  same_money w (run (record_proposal pid ty t d data p b sb eb rp) w).2.
Proof.
  apply money_writes. unfold record_proposal, store_proposal.
  follow storing (apply writes_store; done) calling (apply writes_store_chunks_money).
Qed.

Lemma deposit_fits : fits U128_MAX PROPOSAL_DEPOSIT.
Proof. unfold fits. vm_compute. split; discriminate. Qed.

Lemma initial_funds ty t d data p sb eb st w pid :
  fits ADDRESS_MAX p ->
  Forall (fun f => field w pid f.1 = f.2) (initial_fields ty t d data p sb eb st) ->
  votes w pid "deposit" = PROPOSAL_DEPOSIT /\ proposer_of w pid = p.
Proof.
  intros Hp Hf. unfold initial_fields in Hf. rewrite !Forall_cons in Hf. cbn [fst snd] in Hf.
  destruct Hf as (Ep & _ & _ & _ & _ & _ & _ & _ & _ & Ed & _). unfold votes, proposer_of.
  rewrite Ep, Ed, (u128_to_u256_id PROPOSAL_DEPOSIT deposit_fits), (address_to_u256_id p Hp).
  split; [exact (u256_to_u128_id PROPOSAL_DEPOSIT deposit_fits)|exact (u256_to_address_id p Hp)].
Qed.

(** A submission moves the deposit out of the proposer's account. *)
Lemma submit_funds ty t d data p b w w' pid :
  p ∈ parties -> fits ADDRESS_MAX p -> count w < n -> Z.of_nat (length data) <= U64_MAX ->
  run (submit_proposal ty t d data p b) w = (Ok pid, w') -> funded w ->
  funded w' /\ call_total w' = call_total w /\
  votes w' pid "deposit" = PROPOSAL_DEPOSIT /\ proposer_of w' pid = p /\
  PROPOSAL_DEPOSIT <= bal w CALL_ASSET_ID p /\
  forall a, a ∈ parties -> bal w' CALL_ASSET_ID a =
    bal w CALL_ASSET_ID a - if decide (a = p) then PROPOSAL_DEPOSIT else 0.
Proof.
  intros Hp Hpf Hc Hl E F.
  pose proof E as E'. apply (submit_effect n parties configs layout) in E' as (Hpid & Hcw & (sb & eb & st & _ & Hf) & FR); [|done..].
  apply submit_ok in E as (_ & _ & _ & w1 & Ed & _ & _ & Ew'). cbv zeta in Ew'.
  pose proof (count_nonneg w). set (w0 := (run ensure_config_initialized w).2) in *.
  destruct (same_funds_kept w w0) as [F0 T0]; [apply ensure_funds|lia|done|].
  destruct (ensure_funds w) as (M0 & C0 & D0). fold w0 in M0, C0, D0.
  apply pay_out in Ed as (Hbal & -> & F1 & T1); [|done..]. rewrite decide_True in T1 by done.
  match type of Ew' with w' = (run (record_proposal ?a ?b ?c ?d ?e ?f ?g ?h ?i ?j) ?w).2 =>
    pose proof (record_money a b c d e f g h i j w) as M1 end.
  rewrite <- Ew' in M1. clear Ew'.
  apply initial_funds in Hf as [Dn Pn]; [|done]. set (w1 := put _ _ _) in *.
  assert (FO : forall i s, 1 <= i <= n -> i <> pid -> s ∈ proposal_suffixes -> field w' i s = field w i s).
  { intros i s Hi Hne Hs. apply FR; [by split|]. exact Hne. }
  split_and!; [split| |done|done|by rewrite <- M0|].
  - intros id a Hi Ha. rewrite M1. by apply (fd_fits _ F1).
  - intros i Hi. rewrite FO by (named || lia). apply (fd_fresh _ F). lia.
  - intros i [? ?]. destruct (decide (i = pid)) as [->|Hne]; [by rewrite Pn|].
    unfold proposer_of. rewrite FO by (named || lia). apply (fd_proposer _ F). split; lia.
  - rewrite <- T0. rewrite <- (Z.sub_add PROPOSAL_DEPOSIT (call_total w0)), <- T1. unfold call_total.
    rewrite <- Z.add_assoc. f_equal; [apply sum_of_ext; intros; apply M1|].
    unfold w1. rewrite deposits_put. unfold deposits.
    rewrite (sum_of_update (fun i => votes w0 i "deposit") _ _ pid); [|apply NoDup_seqZ|apply elem_of_seqZ; lia|].
    + rewrite Dn. unfold votes at 2. destruct (D0 pid) as [-> _]; [lia|].
      rewrite (fd_fresh _ F) by lia. rewrite (u256_to_u128_id 0) by (split; done). lia.
    + intros i Hi Hne. apply elem_of_seqZ in Hi. unfold votes. destruct (D0 i) as [-> _]; [lia|].
      rewrite FO by (named || lia). done.
  - intros a Ha. rewrite M1. unfold w1. rewrite bal_put by done. rewrite <- (M0 CALL_ASSET_ID a).
    destruct (decide (a = p)) as [->|Hne].
    + by rewrite decide_True.
    + rewrite decide_False; [lia|]. intros [_ ->]. done.
Qed.

Lemma execute_funds pid b w w' :
  count w <= n -> 0 <= pid -> field_addr (data_of w pid) 0 ∈ parties ->
  run (execute pid b) w = (Ok tt, w') -> funded w -> funded w' /\ call_total w' = call_total w.
Proof.
  intros Hn Hp0 Hr E F. apply execute_ok in E as (Hid & _ & _ & _ & w1 & w2 & E1 & E2 & ->).
  pose proof (valid_id_range n _ _ Hp0 Hn Hid) as Hp.
  assert (V : valid w pid) by (unfold valid, valid_id in *; lia).
  assert (funded w1 /\ call_total w1 = call_total w /\ count w1 = count w) as (F1 & T1 & C1).
  { destruct (decide (kind w pid = 2)) as [Ek|Hk].
    - rewrite Ek in E1. apply spend_funds in E1 as (? & ? & G); [|done..]. unfold count. by rewrite G.
    - pose proof (apply_quiet _ _ _ _ Hk E1) as S. destruct (same_funds_kept _ _ S Hn F). by destruct S as (_ & ? & _). }
  apply refund_funds in E2 as (F2 & T2 & C2); [|lia|unfold valid in *; lia|by apply (fd_proposer _ F)|done].
  destruct (same_funds_kept w2 (gwr (slot_gov_proposal pid "status") 3 w2)) as [F3 T3];
    [by apply same_funds_status|lia|done|]. split; [done|lia].
Qed.

Lemma cancel_funds pid caller w w' :
  count w <= n -> 0 <= pid -> caller ∈ parties ->
  run (cancel_proposal pid caller) w = (Ok tt, w') -> funded w ->
  funded w' /\ call_total w' = call_total w.
Proof.
  intros Hn Hp0 Hc E F. apply cancel_ok in E as (_ & Hid & _ & _ & w1 & E1 & ->).
  pose proof (valid_id_range n _ _ Hp0 Hn Hid) as Hp.
  assert (V : valid w pid) by (unfold valid, valid_id in *; lia).
  apply refund_funds in E1 as (F2 & T2 & C2); [|done..].
  destruct (same_funds_kept w1 (gwr (slot_gov_proposal pid "status") 4 w1)) as [F3 T3];
    [by apply same_funds_status|lia|done|]. split; [done|lia].
Qed.

(** Votes, queueing and the emergency powers move no money. *)
Lemma quiet_money sender o w w' :
  run (gov_handler sender o) w = (Ok tt, w') ->
  match o with OpSubmit _ | OpExecute _ | OpCancel _ => False | _ => True end -> same_money w w'.
Proof.
  intros E Ho. destruct o as [c|c|c|c|c|c|]; try done; cbn [gov_handler] in E.
  - apply vote_call_ok in E as (_ & w1 & E & L). apply vote_ok in E as (_ & _ & _ & _ & _ & _ & _ & ->).
    apply (same_money_trans _ (advanced (vo_proposalId c) (height w) w)); [apply money_advanced|].
    intros id a. rewrite (money_logged _ _ L). unfold cast. by rewrite !money_gwr.
  - apply queue_call_ok in E as (_ & _ & w1 & E & L). apply queue_ok in E as (_ & _ & _ & _ & eb & _ & ->).
    apply (same_money_trans _ (advanced (pr_proposalId c) (height w) w)); [apply money_advanced|].
    intros id a. rewrite (money_logged _ _ L). unfold enqueue. by rewrite !money_gwr.
  - change w' with (Ok tt : res unit, w').2. rewrite <- E. apply money_writes.
    unfold emergency_pause_handler, require_caller.
    destruct (sender =? 0); [constructor|]. unfold try_ at 1. cbn [prog_bind].
    follow storing (apply writes_store; done) calling (apply writes_gov_event).
  - change w' with (Ok tt : res unit, w').2. rewrite <- E. apply money_writes.
    unfold emergency_resume_handler, require_caller.
    destruct (sender =? 0); [constructor|]. unfold try_ at 1. cbn [prog_bind].
    follow storing (apply writes_store; done) calling (apply writes_gov_event).
Qed.

Lemma quiet_funds sender o w w' :
  count w <= n -> sender ∈ parties -> op_wf n w o ->
  run (gov_handler sender o) w = (Ok tt, w') ->
  match o with OpSubmit _ | OpExecute _ | OpCancel _ => False | _ => True end -> same_funds w w'.
Proof.
  intros Hn Hs Hwf E Ho. apply (same_funds_frame _ _ (op_key w sender o)).
  - by apply (quiet_money sender o).
  - intros k Hk Hno. by apply (op_frame n parties configs layout sender o).
  - destruct o; try done; cbn; unfold advance_key; intuition congruence.
  - intros pid s Hs'. destruct o as [c|c|c|c|c|c|]; try done; cbn; unfold advance_key; cbn [config_key].
    1: destruct (tally_suffix_cases (vo_vote c)) as [->|[->| ->]].
    all: assert (s = "deposit" \/ s = "proposer")%string as [->| ->] by set_solver.
    all: intuition congruence.
Qed.

Lemma logged_funds w w1 w' :
  count w1 <= n -> logged w1 w' -> funded w1 /\ call_total w1 = call_total w ->
  funded w' /\ call_total w' = call_total w.
Proof.
  intros Hn L [F T]. destruct (same_funds_kept w1 w') as [F' T']; [by apply same_funds_logged|done..|].
  split; [done|lia].
Qed.

(** The recipient of a treasury spend is among the accounts involved. *)
Definition pays_party w (o : gov_op) : Prop :=
  match o with OpExecute c => field_addr (data_of w (pr_proposalId c)) 0 ∈ parties | _ => True end.

(** C8: governance calls conserve CALL.  A committed call of the governance
    precompile, treasury spends and refunds included, leaves the sum of the
    account balances and the deposits held for proposals unchanged. *)
Theorem governance_conserves_call sender o w w' :
  count w <= n -> sender ∈ parties -> fits ADDRESS_MAX sender -> op_wf n w o -> pays_party w o ->
  run (gov_handler sender o) w = (Ok tt, w') -> funded w ->
  funded w' /\ call_total w' = call_total w.
Proof.
  intros Hn Hs Ha Hwf Hpp E F.
  assert (Q : match o with OpSubmit _ | OpExecute _ | OpCancel _ => False | _ => True end ->
    funded w' /\ call_total w' = call_total w).
  { intros Ho. apply same_funds_kept; [|done..]. by apply (quiet_funds sender o). }
  assert (Hn' : count w' <= n).
  { by destruct (op_moves n parties configs layout sender o w w') as [_ ?]; [..|lia]. }
  assert (L : forall w1, logged w1 w' -> count w1 <= n).
  { intros w1 L. unfold count in *. by rewrite <- (logged_grd _ _ _ L). }
  destruct o as [c|c|c|c|c|c|]; try (by apply Q); cbn [gov_handler op_wf pays_party] in *.
  - destruct Hwf as [Hc Hl]. apply submit_call_ok in E as (_ & pid & w1 & E & Lg).
    apply submit_funds in E as (F1 & T1 & _); [|done..]. by apply (logged_funds w w1); [apply L|..].
  - apply execute_call_ok in E as (_ & w1 & E & Lg). apply execute_funds in E; [|done..].
    by apply (logged_funds w w1); [apply L|..].
  - apply cancel_call_ok in E as [_ E]. by apply cancel_funds in E.
Qed.

(** ** The deposit of a pending proposal *)

Lemma pending_deposit w w' pid :
  count w <= n -> gov_step n parties configs w w' -> valid w pid -> status w' pid = 0 ->
  status w pid = 0 -> field w' pid "deposit" = field w pid "deposit".
Proof.
  intros Hn S Hp E0' E0. pose proof Hp as [? ?].
  assert (Hu : used (slot_gov_proposal pid "deposit")) by (split; [lia|named]).
  destruct S as [sender o w w' Hs Hwf E|b w ev w' Hb Hw E|w w' F].
  - apply (op_frame n parties configs layout sender o); try done.
    assert (Ht : forall s, s <> 0 -> op_target o <> Some (pid, s)).
    { intros s Hne Ht. apply Hne. rewrite <- E0'. symmetry.
      by apply (op_target_status n parties configs layout sender o w). }
    destruct o as [c|c|c|c|c|c|]; cbn in *; unfold advance_key; cbn [config_key]; [lia|..|tauto|tauto].
    1: destruct (tally_suffix_cases (vo_vote c)) as [->|[->| ->]].
    all: match type of Ht with forall s, _ -> Some (?p, ?v) <> _ =>
           assert (p <> pid) by (intros <-; by apply (Ht v)) end; intuition congruence.
  - destruct (advance_own n parties configs layout _ _ _ _ _ Hn Hw E Hp)
      as (q & w1 & ev' & w2 & E1 & Hd & _ & F1 & F2).
    rewrite F2, <- F1 by named.
    assert (Es : status w1 pid = 0) by (unfold status; rewrite F1 by named; done).
    rewrite run_advance_proposal, Es, run_advance_pending in E1. cbn [Z.eqb] in E1.
    destruct (review_done w1 pid b); injection E1 as _ <-; [|done].
    unfold field. by rewrite !(grd_gwr_ne n parties configs layout) by (done || (split; [lia|named])).
  - by apply F.
Qed.

Lemma pending_kept w w' pid :
  count w <= n -> rtc (gov_step n parties configs) w w' -> valid w pid ->
  status w' pid = 0 -> 0 <= status w pid <= 5 ->
  field w' pid "deposit" = field w pid "deposit".
Proof.
  intros Hn R. revert Hn. induction R as [w|w w1 w' S R IH]; intros Hn Hp E0 Hs; [done|].
  destruct (step_moves n parties configs layout w w1) as [Hm Hc]; [done..|].
  assert (Hp1 : valid w1 pid) by (unfold valid in *; lia).
  pose proof (edge_up _ _ Hs (Hm pid Hp)).
  pose proof (steps_up n parties configs layout w1 w' pid ltac:(lia) R Hp1 ltac:(lia)).
  rewrite IH by (done || lia). apply pending_deposit; try done; lia.
Qed.

Lemma cancel_succeeds pid p w :
  p <> 0 -> p ∈ parties -> valid w pid -> paused w = false -> proposer_of w pid = p ->
  status w pid = 0 -> 0 < votes w pid "deposit" -> funded w ->
  bal w CALL_ASSET_ID p + votes w pid "deposit" <= U128_MAX ->
  run (cancel_proposal_handler p {| pr_proposalId := pid |}) w =
    (Ok tt, gwr (slot_gov_proposal pid "status") 4
       (gwr (slot_gov_proposal pid "deposit") 0
          (put (slot_balance CALL_ASSET_ID p) (bal w CALL_ASSET_ID p + votes w pid "deposit") w))).
Proof.
  intros Hp0 Hp [? ?] Hpa Hpr Hs Hd F Hb.
  assert (Hid : valid_id w pid = true) by (unfold valid_id; lia).
  unfold cancel_proposal_handler, require_caller. rewrite run_try, run_ret, (proj2 (Z.eqb_neq _ _) Hp0).
  cbn [pr_proposalId]. unfold cancel_proposal. rewrite run_bind, run_is_paused, Hpa, run_try,
    run_require_valid, Hid, run_bind, run_proposer. fold (proposer_of w pid). rewrite Hpr, Z.eqb_refl.
  cbn [negb]. rewrite run_bind, run_status, Hs. cbn [Z.eqb negb]. rewrite run_try.
  unfold refund_deposit. rewrite run_bind, run_proposal_u128. fold (votes w pid "deposit").
  rewrite (proj2 (Z.ltb_lt _ _) Hd), (proj2 (Z.eqb_neq _ _) Hp0). cbn [negb andb].
  rewrite run_try. unfold gledger. rewrite run_map_err, run_add_balance by
    first [lia | by apply (fd_fits _ F)].
  destruct (Z.ltb_spec U128_MAX (bal w CALL_ASSET_ID p + votes w pid "deposit")); [lia|].
  autorewrite with gov_run. done.
Qed.

(** A submission, as the call. *)
Lemma submitted p call w w1 :
  let pid := count w + 1 in
  count w < n -> p ∈ parties -> fits ADDRESS_MAX p -> op_wf n w (OpSubmit call) -> funded w ->
  run (submit_proposal_handler p call) w = (Ok tt, w1) ->
  p <> 0 /\ count w1 = pid /\ 0 <= status w1 pid <= 5 /\ votes w1 pid "deposit" = PROPOSAL_DEPOSIT /\
  proposer_of w1 pid = p /\
  forall a, a ∈ parties -> bal w1 CALL_ASSET_ID a =
    bal w CALL_ASSET_ID a - if decide (a = p) then PROPOSAL_DEPOSIT else 0.
Proof.
  intros pid Hc Hp Ha [_ Hl] F E. apply submit_call_ok in E as (Hp0 & pid' & w0 & E & L).
  pose proof E as E'.
  apply (submit_effect n parties configs layout) in E' as (-> & Hcw & (sb & eb & st & Hst & Hf) & _); [|done..].
  fold pid in E, Hcw, Hf. apply submit_funds in E as (_ & _ & Hd & Hpr & _ & Hbal); [|done..].
  assert (Hf1 : forall s, field w1 pid s = field w0 pid s) by (intros; by apply logged_grd).
  split; [done|]. split; [unfold count in *; by rewrite (logged_grd _ _ _ L)|]. split.
  - unfold initial_fields in Hf. rewrite !Forall_cons in Hf. cbn [fst snd] in Hf.
    destruct Hf as (_ & _ & _ & _ & _ & Es & _). unfold status. rewrite Hf1, Es.
    destruct Hst as [-> | ->]; vm_compute; split; discriminate.
  - unfold votes, proposer_of. rewrite !Hf1. split; [done|]. split; [done|].
    intros a Ha'. rewrite (money_logged _ _ L). by apply Hbal.
Qed.

(** No second cancellation. *)
Lemma cancelled_for_good w w' pid sender w'' :
  count w <= n -> valid w pid -> status w pid = 4 -> rtc (gov_step n parties configs) w w' ->
  run (cancel_proposal_handler sender {| pr_proposalId := pid |}) w' <> (Ok tt, w'').
Proof.
  intros Hn Hp E4 R E. apply cancel_call_ok in E as [_ E]. cbn [pr_proposalId] in E.
  apply cancel_ok in E as (_ & _ & _ & E0 & _).
  rewrite (decided_stays n parties configs layout w w' pid) in E0 by (done || (unfold decided; lia)). lia.
Qed.

(** A deposit comes back.  A submission takes exactly the deposit from its
    proposer and from nobody else.  As long as the proposal is pending, the
    proposer can cancel it unless governance is paused; the cancellation
    succeeds, pays back exactly the deposit, and nobody can cancel the
    proposal a second time. *)
Theorem deposit_comes_back p call w w1 w2 :
  let pid := count w + 1 in
  count w < n -> p ∈ parties -> fits ADDRESS_MAX p -> op_wf n w (OpSubmit call) -> funded w ->
  run (submit_proposal_handler p call) w = (Ok tt, w1) ->
  rtc (gov_step n parties configs) w1 w2 -> status w2 pid = 0 -> paused w2 = false -> funded w2 ->
  bal w2 CALL_ASSET_ID p + PROPOSAL_DEPOSIT <= U128_MAX ->
  (forall a, a ∈ parties -> bal w1 CALL_ASSET_ID a =
     bal w CALL_ASSET_ID a - if decide (a = p) then PROPOSAL_DEPOSIT else 0) /\
  exists w3,
    run (cancel_proposal_handler p {| pr_proposalId := pid |}) w2 = (Ok tt, w3) /\
    (forall a, a ∈ parties -> bal w3 CALL_ASSET_ID a =
       bal w2 CALL_ASSET_ID a + if decide (a = p) then PROPOSAL_DEPOSIT else 0) /\
    forall sender w4 w5, rtc (gov_step n parties configs) w3 w4 ->
      run (cancel_proposal_handler sender {| pr_proposalId := pid |}) w4 <> (Ok tt, w5).
Proof.
  intros pid Hc Hp Ha Hwf F E R E0 Hpa F2 Hb.
  apply submitted in E as (Hp0 & Hc1 & Hs1 & Hd & Hpr & Hbal); [|done..]. fold pid in Hc1, Hs1, Hd, Hpr.
  pose proof (count_nonneg w). assert (Hp1 : valid w1 pid) by (unfold valid; lia).
  pose proof (steps_count n parties configs layout w1 w2 ltac:(lia) R) as Hc2.
  assert (Hd2 : votes w2 pid "deposit" = PROPOSAL_DEPOSIT).
  { rewrite <- Hd. unfold votes. f_equal. apply pending_kept; done || lia. }
  assert (Hpr2 : proposer_of w2 pid = p).
  { rewrite <- Hpr. unfold proposer_of. f_equal.
    apply (steps_fixed n parties configs layout w1 w2); done || lia || named. }
  assert (Hv2 : valid w2 pid) by (unfold valid in *; lia).
  split; [done|]. eexists. split; [apply cancel_succeeds; try done; rewrite Hd2; done|]. rewrite Hd2.
  split.
  - intros a Ha'. rewrite !money_gwr, bal_put by done. destruct (decide (a = p)) as [->|Hne].
    + by rewrite decide_True.
    + rewrite decide_False; [lia|]. intros [_ ->]. done.
  - intros sender w4 w5 R4. assert (Hn : 1 <= pid <= n) by (unfold valid in *; lia).
    set (w3 := gwr _ _ _) in *. assert (Hc3 : count w3 = count w2).
    { unfold count, w3. rewrite !(grd_gwr_ne n parties configs layout) by (done || use_field).
      by rewrite grd_put. }
    apply (cancelled_for_good w3); [lia|unfold valid in *; lia| |done].
    unfold status, field, w3. by rewrite grd_gwr_same.
Qed.

End Funds.

(** ** The theorems on a scenario *)

Module FundsDemo.
Import Demo HashDemo GovDemo.

Lemma people_addresses a : a ∈ people -> fits ADDRESS_MAX a.
Proof. apply (GovLayout.no_parties _ _ _ demo_names). Qed.

Lemma demo_money : money_layout people.
Proof.
  split.
  - refine (bool_decide_eq_true_1 _ _). vm_compute. reflexivity.
  - refine (bool_decide_eq_true_1 _ _). vm_compute. reflexivity.
  - intros id a q Hi Ha Hq E. unfold slot_balance, storage_slot in E.
    apply hash_inj in E; [|cbn [concat]; rewrite !Forall_app; split_and!; try apply be_bytes_is_byte; constructor..].
    assert (Ek : KBalance id a = KBalance CALL_ASSET_ID q).
    { apply key_preimage_inj; [split; [done|by apply people_addresses]|split; [split; vm_compute; discriminate|by apply people_addresses]|].
      cbn [concat] in E. by rewrite !app_nil_r in E. }
    by injection Ek.
Qed.

(** Every word of the ledger has 128 bits. *)
Definition small_ledger (m : wstate) : Prop :=
  map_Forall (fun (k : Z * Z) v => k.1 = ASSET_ADDRESS -> 0 <= v /\ v <= U128_MAX) (w_persistent m).

Lemma small_fits w id a : small_ledger (w_cur w) -> fits U128_MAX (bal w id a).
Proof.
  intros Hs. unfold bal, wslot, slot.
  destruct (w_persistent (w_cur w) !! (ASSET_ADDRESS, slot_balance id a)) as [v|] eqn:E; cbn [default].
  - by apply (Hs _ _ E).
  - split; vm_compute; discriminate.
Qed.

Lemma demo_funded w c :
  small_ledger (w_cur w) -> count w = c -> 0 <= c <= 1 ->
  (forall pid, 1 <= pid <= 3 -> c < pid -> field w pid "deposit" = 0) ->
  (c = 1 -> proposer_of w 1 ∈ people) -> funded 3 people w.
Proof.
  intros Hs Hc Hr Hd Hp. split.
  - intros. by apply small_fits.
  - intros pid Hpid. apply Hd; lia.
  - intros pid [? ?]. assert (pid = 1) as -> by lia. apply Hp. lia.
Qed.

Lemma genesis_funded : funded 3 people g0.
Proof.
  apply (demo_funded _ 0).
  - refine (bool_decide_eq_true_1 _ _). vm_compute. reflexivity.
  - vm_compute. reflexivity.
  - lia.
  - intros pid Hp _. assert (pid = 1 \/ pid = 2 \/ pid = 3) as [->|[->| ->]] by lia; vm_compute; reflexivity.
  - lia.
Qed.

Lemma pending_funded b : funded 3 people (later b submitted_w).
Proof.
  apply (demo_funded _ 1).
  - change (w_cur (later b submitted_w)) with (w_cur submitted_w).
    refine (bool_decide_eq_true_1 _ _). vm_compute. reflexivity.
  - vm_compute. reflexivity.
  - lia.
  - intros pid Hp ?. assert (pid = 2 \/ pid = 3) as [->| ->] by lia; vm_compute; reflexivity.
  - intros _. refine (bool_decide_eq_true_1 _ _). vm_compute. reflexivity.
Qed.

Lemma due_funded : funded 3 people due_w.
Proof.
  apply (demo_funded _ 1).
  - refine (bool_decide_eq_true_1 _ _). vm_compute. reflexivity.
  - vm_compute. reflexivity.
  - lia.
  - intros pid Hp ?. assert (pid = 2 \/ pid = 3) as [->| ->] by lia; vm_compute; reflexivity.
  - intros _. refine (bool_decide_eq_true_1 _ _). vm_compute. reflexivity.
Qed.

(** The execution of the treasury spend. *)
Lemma governance_conserves_call_witness :
  funded 3 people executed_w /\ call_total 3 people executed_w = call_total 3 people due_w.
Proof.
  refine (governance_conserves_call 3 people names gov_demo_layout demo_money alice (OpExecute first)
    due_w executed_w _ alice_in _ Z.le_0_1 _ (ran _ _ _ execute_runs) due_funded).
  - vm_compute. discriminate.
  - vm_compute. split; discriminate.
  - change (field_addr (data_of due_w 1) 0 ∈ people).
    refine (bool_decide_eq_true_1 _ _). vm_compute. reflexivity.
Defined.

Lemma deposit_comes_back_witness :
  (forall a, a ∈ people -> bal submitted_w CALL_ASSET_ID a =
     bal g0 CALL_ASSET_ID a - if decide (a = alice) then PROPOSAL_DEPOSIT else 0) /\
  exists w3,
    run (cancel_proposal_handler alice {| pr_proposalId := count g0 + 1 |}) (later 9 submitted_w) = (Ok tt, w3) /\
    (forall a, a ∈ people -> bal w3 CALL_ASSET_ID a =
       bal (later 9 submitted_w) CALL_ASSET_ID a + if decide (a = alice) then PROPOSAL_DEPOSIT else 0) /\
    forall sender w4 w5, rtc demo_step w3 w4 ->
      run (cancel_proposal_handler sender {| pr_proposalId := count g0 + 1 |}) w4 <> (Ok tt, w5).
Proof.
  refine (deposit_comes_back 3 people names gov_demo_layout demo_money alice spend g0 submitted_w
    (later 9 submitted_w) _ alice_in _ submit_wf genesis_funded (ran _ _ _ submit_runs)
    (rtc_once _ _ (later_step 9 submitted_w)) _ _ (pending_funded 9) _).
  - vm_compute. reflexivity.
  - vm_compute. split; discriminate.
  - vm_compute. reflexivity.
  - vm_compute. reflexivity.
  - vm_compute. discriminate.
Defined.

End FundsDemo.
