(* ===== verification/GovernanceData.v ===== *)
(** * GovernanceData: execution data

    The execution data of a proposal is stored in chunks of 32 bytes and read
    back by the precompile and by the advancer: both get the bytes that were
    submitted. *)

From stdpp Require Import base gmap list list_numbers strings relations.
From Stdlib Require Import ZArith Lia.
From S2P Require Import Prelude Provider World EvmProvider Refinement Dispatch Utils.
From S2P Require Import Asset AssetSpec Validator Governance GovAdvancer GovernanceSpec GovernanceLife.
From S2P Require Import AssetPrecompile SimpleJournal AdvancerSpec GovDemo GovernanceProps GovernanceFunds.
From S2P Require Import Keyed.

Local Open Scope Z_scope.
Local Open Scope callnode_scope.

Section Data.
Context `{Keccak} (n : Z) (parties : list Z) (configs : list (list Z)).
Hypothesis layout : gov_layout n parties configs.
Implicit Types (w : world) (k : gov_key).

Abbreviation used := (in_use n parties configs).

(** The chunks of [data] are stored for [pid]. *)
Definition chunks_stored w pid (data : list Z) : Prop :=
  forall i, (i < (length data + 31) / 32)%nat ->
    grd w (slot_gov_proposal_data_chunk pid (Z.of_nat i)) = chunk_word (chunk_at data i).

(** ** Reading *)

Lemma read_back w pid data m i :
  Forall is_byte data -> chunks_stored w pid data ->
  (i + m <= (length data + 31) / 32)%nat ->
  (run (read_chunks m (Z.of_nat i) pid (length data) (take (32 * i) data)) w).1 =
    take (32 * (i + m)) data.
Proof.
  intros Hd Hs. revert i. induction m as [|m IH]; intros i Hi; cbn [read_chunks].
  { by rewrite Nat.add_0_r. }
  assert (Hl : (32 * i < length data)%nat).
  { assert (32 * ((length data + 31) / 32) <= length data + 31)%nat by (apply Nat.Div0.mul_div_le). lia. }
  rewrite run_bind, run_gload, Hs by lia.
  assert (Hc : Forall is_byte (chunk_at data i)) by (by apply slice_bytes).
  pose proof (length_chunk_at data i) as Lc.
  rewrite chunk_word_bytes by (done || lia).
  rewrite length_take, (Nat.min_l (32 * i) (length data)) by lia.
  rewrite (take_app_length' (chunk_at data i)) by lia. rewrite take_next_chunk.
  replace (Z.of_nat i + 1) with (Z.of_nat (S i)) by lia. rewrite IH by lia. f_equal. lia.
Qed.

Lemma read_chunks_data w pid data :
  Forall is_byte data -> chunks_stored w pid data ->
  (run (read_chunks ((length data + 31) / 32) 0 pid (length data) []) w).1 = data.
Proof.
  intros Hd Hs. pose proof (read_back w pid data ((length data + 31) / 32) 0 Hd Hs) as E.
  rewrite take_0 in E by done. change (Z.of_nat 0) with 0 in E. rewrite E by lia. apply take_ge.
  pose proof (Nat.div_mod_eq (length data + 31) 32). pose proof (Nat.mod_upper_bound (length data + 31) 32).
  lia.
Qed.

(** The data is stored with its length. *)
Definition data_stored w pid (data : list Z) : Prop :=
  field w pid "data_len" = Z.of_nat (length data) /\ chunks_stored w pid data.

Lemma readers_agree w pid data :
  Forall is_byte data -> Z.of_nat (length data) <= MAX_EXECUTION_DATA_LEN -> data_stored w pid data ->
  data_of w pid = data /\ full_data w pid = data.
Proof.
  intros Hd Hl [El Hs]. unfold data_of, full_data, read_proposal_execution_data, read_gov_proposal_execution_data.
  rewrite !run_bind, !run_data_len, El.
  assert (Hf : fits U64_MAX (Z.of_nat (length data))) by (unfold MAX_EXECUTION_DATA_LEN, U64_MAX in *; fit).
  rewrite (u256_to_u64_id _ Hf). destruct (Z.eqb_spec (Z.of_nat (length data)) 0) as [E0|].
  { destruct data; [done|cbn in E0; lia]. }
  rewrite (proj2 (Z.ltb_ge _ _) Hl), chunk_count, Nat2Z.id. by rewrite read_chunks_data.
Qed.

(** ** Writing *)

Lemma writes_chunks_from lo pid i cs :
  1 <= pid <= n -> 0 <= i -> lo <= i -> i + Z.of_nat (length cs) <= U64_MAX ->
  writes (gov_writes n parties configs
    (fun k => exists j, lo <= j /\ k = slot_gov_proposal_data_chunk pid j)) (store_chunks pid i cs).
Proof.
  intros Hp. revert i. induction cs as [|c cs IH]; intros i Hi Hlo Hl; cbn [store_chunks length] in *; [constructor|].
  apply writes_bind; [apply writes_gstore; [eauto|split; [done|fit]]|]. intros _. apply IH; lia.
Qed.

Lemma later_chunks pid i cs w k :
  1 <= pid <= n -> 0 <= i -> i + Z.of_nat (length cs) <= U64_MAX -> used k ->
  (forall j, i <= j -> k <> slot_gov_proposal_data_chunk pid j) ->
  grd (run (store_chunks pid i cs) w).2 k = grd w k.
Proof.
  intros Hp Hi Hl Hk Hn.
  apply (run_gov_frame n parties configs layout
    (fun k => exists j, i <= j /\ k = slot_gov_proposal_data_chunk pid j)); [|done|naive_solver].
  by apply writes_chunks_from.
Qed.

Lemma stored_chunk pid cs i w j c :
  1 <= pid <= n -> 0 <= i -> i + Z.of_nat (length cs) <= U64_MAX -> cs !! j = Some c ->
  grd (run (store_chunks pid i cs) w).2 (slot_gov_proposal_data_chunk pid (i + Z.of_nat j)) = chunk_word c.
Proof.
  intros Hp. revert i w j. induction cs as [|c' cs IH]; intros i w j Hi Hl Hj; [done|].
  cbn [store_chunks length] in *. rewrite run_bind, run_gstore. destruct j as [|j]; cbn in Hj.
  - injection Hj as ->. rewrite Z.add_0_r, later_chunks; [by rewrite grd_gwr_same|done|lia|lia| |].
    + split; [done|fit].
    + intros j Hj [= E]. lia.
  - replace (i + Z.of_nat (S j)) with (i + 1 + Z.of_nat j) by lia. apply IH; [lia|lia|done].
Qed.

Lemma store_proposal_chunks pid ty t d data p sb eb st w :
  1 <= pid <= n -> Z.of_nat (length data) <= U64_MAX ->
  chunks_stored (run (store_proposal pid ty t d data p sb eb st) w).2 pid data.
Proof.
  intros Hp Hl i Hi. unfold store_proposal. autorewrite with gov_run.
  match goal with |- context [run (store_chunks pid 0 (chunks data)) ?w1] =>
    pose proof (stored_chunk pid (chunks data) 0 w1 i _ Hp ltac:(lia) (chunks_fit data Hl)
      (chunks_lookup data i Hi)) as F;
    destruct (run (store_chunks pid 0 (chunks data)) w1) as [u w2] end.
  cbn [snd] in F. autorewrite with gov_run. cbn [snd].
  assert (fits U64_MAX (Z.of_nat i)).
  { pose proof (length_chunks_le data) as Lc. rewrite length_chunks in Lc. split; lia. }
  repeat (rewrite (grd_gwr_ne n parties configs layout); [|use_field|done|done]).
  exact F.
Qed.

Lemma recorded_chunks pid ty t d data p b sb eb rp w :
  1 <= pid <= n -> p ∈ parties -> Z.of_nat (length data) <= U64_MAX ->
  chunks_stored (run (record_proposal pid ty t d data p b sb eb rp) w).2 pid data.
Proof.
  intros Hp Hpa Hl i Hi. unfold record_proposal. rewrite run_bind.
  pose proof (store_proposal_chunks pid ty t d data p sb eb (if rp =? 0 then 1 else 0) w Hp Hl i Hi) as F.
  destruct (run (store_proposal _ _ _ _ _ _ _ _ _) w) as [[] w1]. cbn [snd] in F. rewrite <- F.
  assert (fits U64_MAX (Z.of_nat i)).
  { pose proof (length_chunks_le data) as Lc. rewrite length_chunks in Lc. split; lia. }
  apply (run_gov_frame n parties configs layout (tail_key pid p)); [|done|by intros [?|[?|?]]].
  unfold tail_key.
  follow storing (apply writes_gstore; [tauto|first [done | use_field]])
    calling (apply (writes_compute_quorum n parties configs layout); [done|by left|intros; by right; right]).
Qed.

Lemma submit_data ty t d data p b w w' pid :
  p ∈ parties -> count w < n -> Z.of_nat (length data) <= U64_MAX ->
  run (submit_proposal ty t d data p b) w = (Ok pid, w') -> data_stored w' pid data.
Proof.
  intros Hpa Hc Hl E. pose proof E as E'.
  apply (submit_effect n parties configs layout) in E' as (Hpid & _ & (sb & eb & st & _ & Hf) & _); [|done..].
  pose proof (count_nonneg w). split.
  - unfold initial_fields in Hf. rewrite !Forall_cons in Hf. cbn [fst snd] in Hf.
    destruct Hf as (_ & _ & _ & _ & -> & _). apply u64_to_u256_id. split; lia.
  - apply submit_ok in E as (_ & _ & _ & w1 & _ & _ & _ & ->). apply recorded_chunks; [lia|done|done].
Qed.

(** ** Nobody rewrites the data *)

Lemma step_data w w' pid k :
  count w <= n -> gov_step n parties configs w w' -> valid w pid -> data_key pid k ->
  grd w' k = grd w k.
Proof.
  intros Hn S [Hp1 Hp2] Hk. assert (Hu : used k) by (apply (data_key_used n parties configs pid); [lia|done]).
  destruct S as [sender o w w' Hs Hwf E|b w ev w' Hb Hw E|w w' F].
  - apply (op_frame n parties configs layout sender o); try done.
    destruct Hk as [->|(i & Hi & ->)]; [apply (fixed_not_written n parties configs layout); [by split|named]|].
    destruct o; cbn; unfold advance_key; cbn [config_key]; [lia|..]; intuition congruence.
  - apply (advance_lives n parties configs layout) in E as [_ F]; [|done..]. apply F; [done|].
    intros p. by apply (data_not_advanced pid).
  - by apply F.
Qed.

Lemma steps_data w w' pid k :
  count w <= n -> rtc (gov_step n parties configs) w w' -> valid w pid -> data_key pid k ->
  grd w' k = grd w k.
Proof.
  intros Hn R. revert Hn. induction R as [w|w w1 w' S _ IH]; intros Hn Hp Hk; [done|].
  destruct (step_moves n parties configs layout w w1) as [_ ?]; [done..|].
  rewrite IH by (done || (unfold valid in *; lia)). by apply (step_data _ _ pid).
Qed.

(** The execution data comes back as submitted.  Whatever happens after a
    submission, the precompile and the advancer both read exactly the bytes
    that were submitted, up to the limit of 1 MB. *)
Theorem execution_data_round_trip p call w w1 w2 :
  let pid := count w + 1 in
  let data := sp_executionData call in
  p ∈ parties -> op_wf n w (OpSubmit call) -> Forall is_byte data ->
  Z.of_nat (length data) <= MAX_EXECUTION_DATA_LEN ->
  run (submit_proposal_handler p call) w = (Ok tt, w1) ->
  rtc (gov_step n parties configs) w1 w2 ->
  run (read_proposal_execution_data pid) w2 = (data, w2) /\
  run (read_gov_proposal_execution_data pid) w2 = (data, w2).
Proof.
  intros pid data Hp [Hc Hl] Hb Hm E R. apply submit_call_ok in E as (_ & pid' & w0 & E & L).
  pose proof (submit_effect n parties configs layout _ _ _ _ _ _ _ _ _ Hp Hc Hl E) as (-> & Hcw & _).
  apply submit_data in E as [El Hs]; [|done..]. fold pid in El, Hs, Hcw. fold data in El, Hs, Hl.
  pose proof (count_nonneg w).
  assert (Hc1 : count w1 = pid) by (unfold count in *; by rewrite (logged_grd _ _ _ L)).
  assert (K : forall k, data_key pid k -> grd w2 k = grd w0 k).
  { intros k Hk. rewrite (steps_data w1 w2 pid k); [by apply logged_grd|lia|done|unfold valid; lia|done]. }
  destruct (readers_agree w2 pid data) as [E1 E2]; [done|done| |].
  - split; [unfold field; rewrite K by (by left); done|]. intros i Hi. rewrite K; [by apply Hs|].
    right. exists (Z.of_nat i). split; [|done].
    pose proof (length_chunks_le data) as Lc. rewrite length_chunks in Lc. split; lia.
  - rewrite run_full_data, E2. split; [|done].
    rewrite (surjective_pairing (run (read_proposal_execution_data pid) w2)).
    by rewrite execution_data_pure; fold (data_of w2 pid); rewrite E1.
Qed.

End Data.

Module DataDemo.
Import Demo GovDemo.

Lemma spend_bytes : Forall is_byte (sp_executionData spend).
Proof. apply Forall_app. split; apply be_bytes_is_byte. Qed.

Lemma execution_data_round_trip_witness :
  run (read_proposal_execution_data (count g0 + 1)) executed_w = (sp_executionData spend, executed_w) /\
  run (read_gov_proposal_execution_data (count g0 + 1)) executed_w = (sp_executionData spend, executed_w).
Proof.
  refine (execution_data_round_trip 3 people names gov_demo_layout alice spend g0 submitted_w executed_w
    alice_in submit_wf spend_bytes _ (ran _ _ _ submit_runs) demo_life).
  vm_compute. discriminate.
Defined.

End DataDemo.
