(* ===== verification/AdvancerProps.v ===== *)
(** * AdvancerProps: where the advancer departs from the precompile

    [GovernanceAdvancer::apply_side_effects] says it mirrors
    [GovernanceStorage::execute].  The theorems here show what it does
    instead with treasury spends and parameter changes, and two consequences
    of how voting power is counted. *)

From stdpp Require Import base gmap list list_numbers strings relations.
From Stdlib Require Import ZArith Lia.
From S2P Require Import Prelude Provider World EvmProvider Refinement Dispatch Utils.
From S2P Require Import Asset AssetSpec Validator Governance GovAdvancer GovernanceSpec GovernanceLife.
From S2P Require Import AssetPrecompile SimpleJournal AdvancerSpec GovDemo GovernanceProps GovernanceFunds.
From S2P Require Import Keyed.

Local Open Scope Z_scope.
Local Open Scope callnode_scope.

Section Departures.
Context `{Keccak} (n : Z) (parties : list Z) (configs : list (list Z)).
Hypothesis layout : gov_layout n parties configs.
Implicit Types (w : world) (k : gov_key).

(** A queued proposal the advancer executes at block [b]. *)
Definition due et w pid b : Prop :=
  status w pid = 2 /\
  block_of w pid "execution_block" <= b <= saturating_add U64_MAX (block_of w pid "execution_block") et.

Lemma run_advance_due q tl et b w pid :
  due et w pid b ->
  run (advance_proposal q tl et b pid) w =
    match run (apply_side_effects pid (kind w pid)) w with
    | (None, w1) => (None, w1)
    | (Some _, w1) =>
        (Some [ProposalExecuted pid (pretty.pretty (Z.to_N (kind w pid)))],
         gwr (slot_gov_proposal pid "status") 3 (run (advancer_refund pid) w1).2)
    end.
Proof.
  intros [Es [Hlo Hhi]]. rewrite run_advance_proposal, Es. cbn [Z.eqb Pos.eqb].
  rewrite run_advance_queued. cbv zeta.
  rewrite (proj2 (Z.ltb_ge _ _) Hhi), (proj2 (Z.leb_le _ _) Hlo). done.
Qed.

(** ** Treasury spends *)

Lemma run_side_spend w pid :
  kind w pid = 2 ->
  run (apply_side_effects pid (kind w pid)) w = run (advance_treasury_spend (full_data w pid)) w.
Proof. intros ->. unfold apply_side_effects. rewrite run_bind, run_full_data. done. Qed.

(** A malformed treasury spend stops the advancer.  Execution data of 48
    to 63 bytes passes the length check and is sliced out of range: while such
    a proposal is due, every pass panics, whatever other proposals there
    are. *)
Theorem short_spend_panics b w pid :
  count w <= n -> params_in_use configs w -> valid w pid ->
  kind w pid = 2 -> (48 <= length (full_data w pid) < 64)%nat ->
  due (advance_timeout w) w pid b ->
  (run (advance b) w).1 = None.
Proof.
  intros Hn Hw Hp Hk Hl Hd. destruct (run (advance b) w) as [[ev|] w'] eqn:E; [|done]. exfalso.
  destruct (advance_own n parties configs layout _ _ _ _ _ Hn Hw E Hp)
    as (q & w1 & ev' & w2 & E1 & _ & Ed & F & _).
  destruct (same_fields_reads _ _ _ F) as (Es & Ek & _ & _ & _ & Ex).
  rewrite run_advance_due in E1 by (unfold due in *; by rewrite Es, Ex).
  rewrite run_side_spend, Ed in E1 by congruence. unfold advance_treasury_spend, index_range in E1.
  rewrite (proj2 (Nat.leb_le _ _)), (proj2 (Nat.leb_gt _ _)) in E1 by lia. discriminate E1.
Qed.

(** The proposals whose data the advancer slices out of range. *)
Definition sliceable w pid : Prop :=
  kind w pid = 2 -> (length (full_data w pid) < 48 \/ 64 <= length (full_data w pid))%nat.

Lemma side_effects_return w pid : sliceable w pid ->
  is_Some (run (apply_side_effects pid (kind w pid)) w).1.
Proof.
  intros Hs. destruct (decide (kind w pid = 2)) as [Hk|Hk].
  - rewrite run_side_spend by done. unfold advance_treasury_spend, index_range.
    destruct (48 <=? length (full_data w pid))%nat eqn:E48; [|done].
    apply Nat.leb_le in E48. specialize (Hs Hk).
    rewrite (proj2 (Nat.leb_le _ _)) by lia. cbn [unless_panic]. rewrite run_bind.
    by destruct (run (add_balance_evm _ _ _) w).
  - unfold apply_side_effects. rewrite run_bind, run_full_data. cbv zeta.
    set (data := full_data w pid). clearbody data. clear Hs.
    assert (D : forall p : prog unit, is_Some (run (do p; Ret (Some tt)) w).1).
    { intros p. rewrite run_bind. by destruct (run p w). }
    repeat case_match; try apply D; done.
Qed.

Lemma advance_proposal_returns q tl et b pid w :
  sliceable w pid -> is_Some (run (advance_proposal q tl et b pid) w).1.
Proof.
  intros Hs. rewrite run_advance_proposal.
  destruct (_ =? 0); [by destruct (run (advance_pending _ _ _) w)|].
  destruct (_ =? 1); [by destruct (run (advance_active _ _ _) w)|].
  destruct (_ =? 2); [|done]. rewrite run_advance_queued. cbv zeta.
  destruct (_ <? b); [done|]. destruct (_ <=? b); [|done].
  destruct (side_effects_return w pid Hs) as [u E].
  destruct (run (apply_side_effects _ _) w) as [[u'|] w1]; done.
Qed.

Lemma advance_from_returns q tl et b m pid w :
  1 <= pid -> pid + Z.of_nat m - 1 <= count w -> count w <= n -> params_in_use configs w ->
  (forall p, valid w p -> sliceable w p) ->
  is_Some (run (advance_from q tl et b m pid) w).1.
Proof.
  revert pid w. induction m as [|m IH]; intros pid w Hp Hm Hn Hw Hs; cbn [advance_from]; [done|].
  rewrite run_bind.
  destruct (advance_proposal_step n parties configs layout q tl et b pid w) as [F _];
    [lia|apply Hw; unfold valid; lia|].
  destruct (advance_proposal_returns q tl et b pid w) as [ev E]; [apply Hs; unfold valid; lia|].
  destruct (run (advance_proposal q tl et b pid) w) as [r w1]. cbn [fst snd] in *. subst r.
  assert (Hc : count w1 = count w) by (unfold count; rewrite F; [done|done|by intros [?|(?&?&?)]]).
  assert (Hd : forall p, valid w p -> full_data w1 p = full_data w p).
  { intros p [? ?]. apply full_data_ext. intros k Hk.
    apply F; [apply (data_key_used n parties configs p); [lia|done]|by apply (data_not_advanced p)]. }
  destruct (IH (pid + 1) w1) as [evs E]; [lia|lia|lia| | |].
  - intros p Hv. rewrite Hd; [apply Hw|]; unfold valid in *; lia.
  - intros p Hv. assert (Hv0 : valid w p) by (unfold valid in *; lia). unfold sliceable.
    rewrite Hd by done. assert (kind w1 p = kind w p) as ->; [|by apply Hs].
    unfold kind, field. rewrite F; [done|split; [unfold valid in *; lia|named]|].
    by apply (fixed_not_advanced n parties configs layout); [named].
  - rewrite run_bind. destruct (run (advance_from _ _ _ _ m _) w1) as [r w2]. cbn [fst] in E. by subst r.
Qed.


(** ** Parameter changes *)

Lemma param_word_not_allowed data s : s ∈ ALLOWED_GOVERNANCE_PARAMS -> param_word data <> b_ s.
Proof.
  intros Hs E. assert (F : Forall (fun s => (length (b_ s) < 32)%nat /\ b_ "param_change" <> b_ s)
    ALLOWED_GOVERNANCE_PARAMS).
  { repeat constructor; vm_compute; (lia || discriminate). }
  rewrite Forall_forall in F. destruct (F s Hs) as [Hl Hne]. unfold param_word in E.
  destruct (64 <? length data)%nat eqn:El; [|by apply Hne].
  apply Nat.ltb_lt in El. apply (f_equal length) in E. unfold slice in E.
  rewrite length_take, length_drop in E. lia.
Qed.

(** Parameter changes have no effect under the advancer.  On data with
    which the precompile sets one of the governance parameters to its new
    value, the advancer writes under a name taken from the word of the value
    and leaves every parameter as it was. *)
Theorem advancer_sets_no_parameter data w w1 :
  run (execute_parameter_change data) w = (Ok tt, w1) -> param_word data ∈ configs ->
  let w2 := (run (advance_parameter_change data) w).2 in
  (exists s, s ∈ ALLOWED_GOVERNANCE_PARAMS /\
     grd w1 (slot_gov_config (b_ s)) = u128_to_u256 (field_u128 data 1)) /\
  (forall s, s ∈ ALLOWED_GOVERNANCE_PARAMS ->
     grd w2 (slot_gov_config (b_ s)) = grd w (slot_gov_config (b_ s))).
Proof.
  intros E Hw w2. split.
  - unfold execute_parameter_change, malformed, write_config_u128 in E. run_inv E.
    apply (f_equal snd) in E. cbn [snd] in E. subst w1.
    match goal with Ho : negb (one_of _ _) = false |- _ =>
      apply negb_false_iff, one_of_true in Ho as (s & Hs & Ek) end.
    exists s. split; [done|]. rewrite Ek. apply grd_gwr_same.
  - intros s Hs. unfold w2.
    apply (run_gov_frame n parties configs layout (fun k => k = slot_gov_config (param_word data))).
    + unfold advance_parameter_change, write_config_u128. cbv zeta.
      destruct (48 <=? length data)%nat; [|constructor]. by apply writes_gstore.
    + by apply (param_in_use n parties configs layout).
    + intros [= Ew]. by apply (param_word_not_allowed data s).
Qed.

Hypothesis money : money_layout parties.

Lemma deposit_le_total w pid a :
  funded n parties w -> 1 <= pid <= n -> a ∈ parties ->
  bal w CALL_ASSET_ID a + votes w pid "deposit" <= call_total n parties w.
Proof.
  intros F Hp Ha. unfold call_total, deposits.
  assert (bal w CALL_ASSET_ID a <= sum_of (bal w CALL_ASSET_ID) parties).
  { apply sum_of_member; [|done]. intros y Hy. by apply (fd_fits _ _ _ F). }
  assert (votes w pid "deposit" <= sum_of (fun i => votes w i "deposit") (seqZ 1 n)).
  { apply (sum_of_member (fun i => votes w i "deposit")); [intros; by apply votes_fit|].
    apply elem_of_seqZ. lia. }
  lia.
Qed.

(** Without overflow the refund of the advancer is that of the precompile. *)
Lemma advancer_refund_same msg w pid :
  funded n parties w -> proposer_of w pid ∈ parties ->
  bal w CALL_ASSET_ID (proposer_of w pid) + votes w pid "deposit" <= U128_MAX ->
  run (refund_deposit msg pid (proposer_of w pid)) w = (Ok tt, (run (advancer_refund pid) w).2).
Proof.
  intros F Hp Hb. unfold refund_deposit, advancer_refund.
  rewrite !run_bind, run_proposal_u128, run_proposer, run_bind, run_proposal_u128.
  fold (votes w pid "deposit") (proposer_of w pid). destruct (_ && _); [|done].
  rewrite run_try. unfold gledger, add_balance_evm.
  rewrite run_map_err, !run_bind, run_add_balance by
    first [by apply (fd_fits _ _ _ F) | apply votes_fit].
  destruct (Z.ltb_spec U128_MAX (bal w CALL_ASSET_ID (proposer_of w pid) + votes w pid "deposit")); [lia|].
  autorewrite with gov_run. done.
Qed.

(** The advancer mints treasury spends.  Executing a treasury spend it
    credits the recipient and debits nobody: the CALL in accounts and deposits
    grows by the amount spent, where the same proposal executed by a call
    conserves it. *)
Theorem advancer_mints_treasury_spend q tl et b w pid :
  let data := full_data w pid in
  let amount := field_u128 data 1 in
  count w <= n -> valid w pid -> funded n parties w -> kind w pid = 2 -> due et w pid b ->
  (64 <= length data)%nat -> field_addr data 0 ∈ parties ->
  call_total n parties w + amount <= U128_MAX ->
  exists events w',
    run (advance_proposal q tl et b pid) w = (Some events, w') /\ status w' pid = 3 /\
    call_total n parties w' = call_total n parties w + amount.
Proof.
  intros data amount Hn Hp F Hk Hd Hl Hr Hb. pose proof Hp as [? ?].
  assert (Ha : 0 <= amount) by (apply field_u128_nonneg, full_data_bytes).
  pose proof (deposit_le_total w pid _ F ltac:(lia) Hr) as Hle. pose proof (votes_fit w pid "deposit").
  rewrite run_advance_due, run_side_spend by done. fold data. unfold advance_treasury_spend, index_range.
  rewrite !(proj2 (Nat.leb_le _ _)) by lia. cbn [unless_panic]. unfold add_balance_evm.
  rewrite !run_bind. change (from_be (slice data 48 16)) with amount.
  destruct (run (add_balance CALL_ASSET_ID (field_addr data 0) amount) w) as [r w1] eqn:E1.
  pose proof (run_add_balance CALL_ASSET_ID (field_addr data 0) amount w) as Ea. rewrite E1 in Ea.
  rewrite (proj2 (Z.ltb_ge _ _)) in Ea by (unfold fits in *; lia).
  assert (r = Ok tt) as -> by (assert (E := Ea ltac:(by apply (fd_fits _ _ _ F)) Ha); congruence). clear Ea.
  apply (pay_in n parties) in E1 as (-> & F1 & T1); [|done..]. rewrite decide_True in T1 by done.
  set (w1 := put _ _ w) in *. autorewrite with gov_run. do 2 eexists. split; [reflexivity|].
  split; [unfold status, field; by rewrite grd_gwr_same|].
  assert (Hc1 : count w1 = count w) by (unfold count, w1; by rewrite grd_put).
  assert (Hv1 : valid w1 pid) by (unfold valid in *; lia).
  pose proof (fd_proposer _ _ _ F1 pid Hv1) as Hpr.
  pose proof (deposit_le_total w1 pid _ F1 ltac:(lia) Hpr) as Hle1.
  pose proof (advancer_refund_same "" w1 pid F1 Hpr ltac:(lia)) as Er.
  apply (refund_funds n parties configs layout money) in Er as (F2 & T2 & C2); [|lia|done|done|done].
  destruct (same_funds_kept n parties (run (advancer_refund pid) w1).2
    (gwr (slot_gov_proposal pid "status") 3 (run (advancer_refund pid) w1).2)) as [_ T3];
    [apply (same_funds_status n parties configs layout); lia|lia|done|]. lia.
Qed.

End Departures.

(** ** Examples *)

Module AdvancerDemo.
Import Demo GovDemo FundsDemo.

(** A spend whose data lacks its last 14 bytes. *)
Definition short_spend : submitProposalCall :=
  {| sp_proposalType := 2; sp_title := b_ "grant"; sp_description := b_ "grant to bob";
     sp_executionData := take 50 (be_bytes 32 bob ++ be_bytes 32 500) |}.
Definition short_w : world :=
  after (gov_handler alice (OpQueue first))
    (later 120 (after (gov_handler alice (OpVote yes))
       (later 20 (after (gov_handler alice (OpSubmit short_spend)) g0)))).

Lemma short_spend_panics_witness : (run (advance 225) short_w).1 = None.
Proof.
  refine (short_spend_panics 3 people names gov_demo_layout 225 short_w 1 _ _ _ _ _ _).
  - vm_compute. discriminate.
  - apply demo_params; vm_compute; reflexivity.
  - vm_compute. split; discriminate.
  - vm_compute. reflexivity.
  - vm_compute. lia.
  - vm_compute. split; [reflexivity|split; discriminate].
Defined.


Lemma advancer_mints_treasury_spend_witness :
  exists events w',
    run (advance_proposal (mkQuorumParams 1 6667 2000 2000 5001 6667) 100 1000 225 1) due_w
      = (Some events, w') /\ status w' 1 = 3 /\
    call_total 3 people w' = call_total 3 people due_w + field_u128 (full_data due_w 1) 1.
Proof.
  refine (advancer_mints_treasury_spend 3 people names gov_demo_layout demo_money
    (mkQuorumParams 1 6667 2000 2000 5001 6667) 100 1000 225 due_w 1 _ _ due_funded _ _ _ _ _).
  - vm_compute. discriminate.
  - vm_compute. split; discriminate.
  - vm_compute. reflexivity.
  - vm_compute. split; [reflexivity|split; discriminate].
  - vm_compute. lia.
  - refine (bool_decide_eq_true_1 _ _). vm_compute. reflexivity.
  - vm_compute. discriminate.
Defined.

(** [("timelock", 200)]. *)
Definition set_timelock : list Z :=
  be_bytes 32 64 ++ be_bytes 32 200 ++ be_bytes 32 8 ++ b_ "timelock" ++ replicate 24 0.

Lemma advancer_sets_no_parameter_witness :
  (exists s, s ∈ ALLOWED_GOVERNANCE_PARAMS /\
     grd (after (execute_parameter_change set_timelock) g0) (slot_gov_config (b_ s)) =
       u128_to_u256 (field_u128 set_timelock 1)) /\
  (forall s, s ∈ ALLOWED_GOVERNANCE_PARAMS ->
     grd (run (advance_parameter_change set_timelock) g0).2 (slot_gov_config (b_ s)) =
       grd g0 (slot_gov_config (b_ s))).
Proof.
  refine (advancer_sets_no_parameter 3 people names gov_demo_layout set_timelock g0
    (after (execute_parameter_change set_timelock) g0) (ran _ tt _ _) _).
  - vm_compute. reflexivity.
  - refine (bool_decide_eq_true_1 _ _). vm_compute. reflexivity.
Defined.

(** ** Voting power *)

(** [alice] votes, sends her CALL to [bob], and [bob] votes. *)
Definition moved_w : world :=
  after (transfer CALL_ASSET_ID alice bob (bal voted_w CALL_ASSET_ID alice)) voted_w.
Definition twice_w : world := after (gov_handler bob (OpVote yes)) moved_w.

(** The same tokens vote twice.  The power of a vote is the balance at the
    time of the vote, so tokens that voted vote again from another account:
    the tally exceeds all the CALL there is in the accounts, although the
    comment at the snapshot says it prevents voting again after a transfer. *)
Theorem tokens_vote_twice :
  (run (gov_handler bob (OpVote yes)) moved_w).1 = Ok tt /\
  sum_of (bal twice_w CALL_ASSET_ID) people < votes twice_w 1 "votes_for".
Proof. vm_compute. split; reflexivity. Qed.

(** A proposal to change a parameter on a chain with 100 validators, on which
    [bob], who is none of them, owns 100 base units of CALL. *)
Definition change : submitProposalCall :=
  {| sp_proposalType := 0; sp_title := b_ "timelock"; sp_description := b_ "timelock to 200";
     sp_executionData := set_timelock |}.
Definition crowd_w : world :=
  later 7 (mkWorld (put_slot VALIDATOR_ADDRESS slot_validator_count 100
    (put_slot ASSET_ADDRESS (slot_balance CALL_ASSET_ID bob) 100 genesis)) (w_env g0) []).
Definition dust_w : world :=
  after (gov_handler bob (OpVote yes)) (later 20 (after (gov_handler alice (OpSubmit change)) crowd_w)).

(** Dust meets the quorum of the validators.  The quorum of a parameter
    change is two thirds of the validators, in heads, and is compared with
    voting power in base units of CALL: one account that is no validator and
    holds 100 base units passes the proposal of a chain with 100
    validators. *)
Theorem dust_meets_validator_quorum :
  is_val dust_w bob = false /\ bal dust_w CALL_ASSET_ID bob = 100 /\ validators dust_w = 100 /\
  votes dust_w 1 "quorum_required" = 67 /\
  (run (gov_handler alice (OpQueue first)) (later 120 dust_w)).1 = Ok tt.
Proof. vm_compute. repeat split; reflexivity. Qed.

End AdvancerDemo.
