(* ===== verification/GovernancePause.v ===== *)
(** * GovernancePause: the emergency pause

    Validators sign an emergency pause one call at a time; the pause takes
    effect when the signatures of the current epoch reach the threshold.  The
    counter counts each validator once per epoch. *)

From stdpp Require Import base gmap list list_numbers strings relations.
From Stdlib Require Import ZArith Lia.
From S2P Require Import Prelude Provider World EvmProvider Refinement Dispatch Utils.
From S2P Require Import Asset AssetSpec Validator Governance GovAdvancer GovernanceSpec GovernanceLife.
From S2P Require Import AssetPrecompile SimpleJournal AdvancerSpec GovDemo.
From S2P Require Import Keyed.

Local Open Scope Z_scope.
Local Open Scope callnode_scope.

Section Pause.
Context `{Keccak} (n : Z) (parties : list Z) (configs : list (list Z)).
Hypothesis layout : gov_layout n parties configs.
Implicit Types (w : world) (k : gov_key).

Abbreviation used := (in_use n parties configs).

(** ** Reading the signatures *)

Definition stored_epoch w : Z := u256_to_u64 (grd w slot_emergency_pause_epoch).
Definition epoch w : Z := if stored_epoch w =? 0 then 1 else stored_epoch w.
Definition signed w v : Z := u256_to_u64 (grd w (slot_emergency_pause_sig_epoch v)).
Definition sig_count w : Z := u256_to_u64 (grd w slot_emergency_pause_sig_count).

(** The number of accounts that signed in the current epoch. *)
Definition signers w : Z := sum_of (fun v => if signed w v =? epoch w then 1 else 0) parties.

Definition pause_bps w : Z :=
  if grd w slot_gov_config_initialized =? 0 then emergency_pause_bps gov_config_default
  else wrap_u32 (config_u64 w "emergency_pause_bps").
Definition pause_threshold w : Z := wrap_u64 (div_ceil (validators w * pause_bps w) 10000).

(** The counter counts the signers, and nobody signed a later epoch. *)
Record signatures_counted w : Prop := {
  sc_past : forall v, v ∈ parties -> signed w v <= epoch w;
  sc_count : sig_count w = signers w
}.

(** ** The call *)

(** The state with its first epoch opened. *)
Definition opened w : world :=
  if stored_epoch w =? 0 then gwr slot_emergency_pause_epoch (u64_to_u256 1) w else w.

(** The state after the signature of [v]. *)
Definition sign v w : world :=
  let w2 := gwr (slot_emergency_pause_sig_epoch v) (u64_to_u256 (epoch w)) (opened w) in
  gwr slot_emergency_pause_sig_count (u64_to_u256 (wrap_u64 (sig_count w2 + 1))) w2.

(** The state after the pause and the start of a new epoch. *)
Definition pausing reason w : world :=
  let w1 := gwr slot_gov_pause_reason (from_be reason) (gwr slot_gov_paused 1 w) in
  gwr slot_emergency_pause_sig_count 0
    (gwr slot_emergency_pause_epoch (u64_to_u256 (wrap_u64 (stored_epoch w1 + 1))) w1).

Definition configured w : world := (run governance_config w).2.

Lemma run_stored_epoch w : run read_emergency_pause_epoch w = (stored_epoch w, w).
Proof. done. Qed.
Lemma run_signed v w : run (read_emergency_pause_sig_epoch v) w = (signed w v, w).
Proof. done. Qed.
Lemma run_open w :
  run (if stored_epoch w =? 0 then do write_emergency_pause_epoch 1; Ret 1 else Ret (stored_epoch w)) w
    = (epoch w, opened w).
Proof. unfold epoch, opened. by destruct (stored_epoch w =? 0). Qed.

Lemma run_count_signature w :
  run increment_emergency_pause_sig_count w =
    (wrap_u64 (sig_count w + 1),
     gwr slot_emergency_pause_sig_count (u64_to_u256 (wrap_u64 (sig_count w + 1))) w).
Proof. done. Qed.

Lemma pause_call_ok sender call w w' :
  run (emergency_pause_handler sender call) w = (Ok tt, w') ->
  paused w = false /\ is_val w sender = true /\ signed (opened w) sender < epoch w /\
  let w2 := gwr (slot_emergency_pause_sig_epoch sender) (u64_to_u256 (epoch w)) (opened w) in
  let w3 := sign sender w in
  if wrap_u64 (sig_count w2 + 1) <?
       emergency_pause_threshold (run governance_config w3).1 (validators w3)
  then w' = configured w3
  else paused (configured w3) = false /\ logged (pausing (ep_reason call) (configured w3)) w'.
Proof.
  intros E. unfold emergency_pause_handler, require_caller in E. rewrite run_try, run_ret in E.
  destruct (Z.eqb_spec sender 0); [done|].
  rewrite run_bind, run_is_paused in E. destruct (paused w); [done|]. split; [done|].
  rewrite run_bind, run_validator_id in E.
  destruct (u256_to_u64 (wslot w VALIDATOR_ADDRESS (slot_validator_by_addr sender)) =? 0) eqn:Ev; [done|].
  split; [unfold is_val; by rewrite Ev|].
  rewrite run_bind, run_stored_epoch, run_bind, run_open, run_bind, run_signed in E.
  destruct (Z.leb_spec (epoch w) (signed (opened w) sender)); [done|]. split; [done|].
  unfold write_emergency_pause_sig_epoch in E.
  rewrite run_bind, run_gstore, run_bind, run_count_signature, run_bind, run_validators, run_bind in E.
  cbv zeta. fold (sign sender w) in E. unfold configured.
  destruct (run governance_config (sign sender w)) as [cfg w4]. cbn [fst snd].
  destruct (_ <? _).
  { rewrite run_ret in E. by injection E as <-. }
  rewrite run_try in E. unfold emergency_pause in E. rewrite run_bind, run_is_paused in E.
  destruct (paused w4); [done|]. split; [done|].
  unfold increment_emergency_pause_epoch, reset_emergency_pause_sig_count, write_emergency_pause_epoch in E.
  autorewrite with gov_run in E. rewrite run_stored_epoch in E. autorewrite with gov_run in E.
  edestruct run_gov_event as (w6 & E6 & L). rewrite E6 in E. by injection E as <-.
Qed.

(** ** The threshold *)

Lemma configured_frame w k : used k -> ~ config_key k -> grd (configured w) k = grd w k.
Proof.
  intros Hk Hn. apply (run_gov_frame n parties configs layout config_key); [|done..].
  unfold governance_config.
  follow storing (fail) calling (apply (writes_ensure_config n parties configs layout); done).
Qed.

Lemma config_bps w : emergency_pause_bps (run governance_config w).1 = pause_bps w.
Proof.
  unfold governance_config. rewrite run_bind.
  destruct (run ensure_config_initialized w) as [[] w1] eqn:E.
  assert (Ew : emergency_pause_bps
    (run governance_config w).1 = wrap_u32 (config_u64 w1 "emergency_pause_bps")).
  { unfold governance_config. by rewrite run_bind, E. }
  unfold governance_config in Ew. rewrite run_bind, E in Ew. rewrite Ew. clear Ew.
  unfold ensure_config_initialized in E. rewrite run_bind, run_gload in E. unfold pause_bps, config_u64.
  destruct (Z.eqb_spec (grd w slot_gov_config_initialized) 0); cbn [negb] in E.
  - unfold write_config_u32 in E. autorewrite with gov_run in E.
    apply (f_equal snd) in E. cbn [snd] in E. subst w1.
    rewrite (grd_gwr_ne n parties configs layout); [|done|apply (param_in_use n parties configs layout); named|done].
    rewrite grd_gwr_same. vm_compute. reflexivity.
  - rewrite run_ret in E. by injection E as <-.
Qed.

Lemma validators_gwr k v w : validators (gwr k v w) = validators w.
Proof.
  unfold validators, gwr. cbn. rewrite slot_put. by rewrite decide_False by (intros [=]; done).
Qed.

Lemma validators_sign v w : validators (sign v w) = validators w.
Proof. unfold sign, opened. rewrite !validators_gwr. case_match; [apply validators_gwr|done]. Qed.

(** ** A signature *)

Lemma opened_frame w k : used k -> k <> slot_emergency_pause_epoch -> grd (opened w) k = grd w k.
Proof.
  intros Hk Hn. unfold opened. case_match; [|done]. by apply (grd_gwr_ne n parties configs layout).
Qed.

Lemma sign_frame v w k :
  v ∈ parties -> used k -> k <> slot_emergency_pause_epoch -> k <> slot_emergency_pause_sig_epoch v ->
  k <> slot_emergency_pause_sig_count -> grd (sign v w) k = grd w k.
Proof.
  intros Hv Hk H1 H2 H3. unfold sign. rewrite !(grd_gwr_ne n parties configs layout) by done.
  by apply opened_frame.
Qed.

Lemma u64_range x : fits U64_MAX (u256_to_u64 x).
Proof. rewrite u256_to_u64_mod. unfold U64_MAX. pose proof (Z.mod_pos_bound x (2 ^ 64)). fit. Qed.

Lemma epoch_range w : 1 <= epoch w <= U64_MAX.
Proof.
  pose proof (u64_range (grd w slot_emergency_pause_epoch)) as Hr. unfold epoch, stored_epoch.
  case_match; unfold fits, U64_MAX in *; lia.
Qed.

Lemma stored_epoch_sign v w : v ∈ parties -> stored_epoch (sign v w) = epoch w.
Proof.
  intros Hv. unfold stored_epoch at 1, sign. rewrite !(grd_gwr_ne n parties configs layout) by done.
  unfold epoch, opened. destruct (stored_epoch w =? 0); [|done]. rewrite grd_gwr_same. done.
Qed.

Lemma epoch_sign v w : v ∈ parties -> epoch (sign v w) = epoch w.
Proof.
  intros Hv. unfold epoch at 1. rewrite stored_epoch_sign by done. pose proof (epoch_range w).
  destruct (Z.eqb_spec (epoch w) 0); lia.
Qed.

Lemma signed_sign v w u :
  v ∈ parties -> u ∈ parties -> signed (sign v w) u = if decide (u = v) then epoch w else signed w u.
Proof.
  intros Hv Hu. unfold signed. case_decide as D.
  - subst u. unfold sign. rewrite (grd_gwr_ne n parties configs layout) by done. rewrite grd_gwr_same.
    pose proof (epoch_range w). rewrite (u64_to_u256_id (epoch w)) by fit. apply u256_to_u64_id. fit.
  - rewrite sign_frame; try done. congruence.
Qed.

Lemma sig_count_sign v w : v ∈ parties -> sig_count (sign v w) = wrap_u64 (sig_count w + 1).
Proof.
  intros Hv. unfold sig_count at 1, sign. rewrite grd_gwr_same.
  assert (Ec : sig_count (gwr (slot_emergency_pause_sig_epoch v) (u64_to_u256 (epoch w)) (opened w)) = sig_count w).
  { unfold sig_count. rewrite (grd_gwr_ne n parties configs layout), opened_frame by done. done. }
  rewrite Ec. pose proof (wrap_u64_fits (sig_count w + 1)) as Hf.
  rewrite (u64_to_u256_id _ Hf). apply u256_to_u64_id, Hf.
Qed.

(** ** Counting *)

Hypothesis parties_distinct : NoDup parties.
Hypothesis parties_bound : Z.of_nat (length parties) < U64_MAX.

Lemma signers_range w : 0 <= signers w <= Z.of_nat (length parties).
Proof.
  unfold signers. clear. induction parties as [|v l IH]; cbn [sum_of length]; [lia|]. case_match; lia.
Qed.

Definition pause_key k : Prop :=
  match k with
  | slot_emergency_pause_epoch | slot_emergency_pause_sig_epoch _ | slot_emergency_pause_sig_count => True
  | _ => False
  end.

Lemma counted_same_keys w w' :
  (forall k, used k -> pause_key k -> grd w' k = grd w k) -> signatures_counted w -> signatures_counted w'.
Proof.
  intros F [S1 S2]. assert (Ee : epoch w' = epoch w) by (unfold epoch, stored_epoch; by rewrite F).
  assert (Es : forall v, v ∈ parties -> signed w' v = signed w v) by (intros; unfold signed; by rewrite F).
  split.
  - intros v Hv. rewrite Ee, Es by done. by apply S1.
  - unfold sig_count. rewrite F by done. fold (sig_count w). rewrite S2. apply sum_of_ext.
    intros v Hv. by rewrite Ee, Es.
Qed.

Lemma counted_sign v w :
  v ∈ parties -> signed w v < epoch w -> signatures_counted w ->
  signatures_counted (sign v w) /\ sig_count (sign v w) = signers w + 1.
Proof.
  intros Hv Hs [S1 S2]. pose proof (signers_range w).
  assert (Ec : sig_count (sign v w) = signers w + 1).
  { rewrite sig_count_sign, S2 by done. unfold wrap_u64. apply Z.mod_small. lia. }
  split; [split|done].
  - intros u Hu. rewrite signed_sign, epoch_sign by done. case_decide; [lia|by apply S1].
  - rewrite Ec. unfold signers at 2.
    rewrite (sum_of_update (fun u => if signed w u =? epoch w then 1 else 0) _ _ v); [|done|done|].
    + rewrite signed_sign, epoch_sign, decide_True, Z.eqb_refl by done.
      destruct (Z.eqb_spec (signed w v) (epoch w)); [lia|]. unfold signers. lia.
    + intros u Hu Hne. by rewrite signed_sign, epoch_sign, decide_False by done.
Qed.

Lemma pausing_frame reason w k :
  used k -> k <> slot_gov_paused -> k <> slot_gov_pause_reason -> k <> slot_emergency_pause_epoch ->
  k <> slot_emergency_pause_sig_count -> grd (pausing reason w) k = grd w k.
Proof. intros. unfold pausing. by rewrite !(grd_gwr_ne n parties configs layout) by done. Qed.

Lemma counted_pausing reason w :
  stored_epoch w = epoch w -> epoch w < U64_MAX -> (forall v, v ∈ parties -> signed w v <= epoch w) ->
  signatures_counted (pausing reason w).
Proof.
  intros Es He Hp. pose proof (epoch_range w).
  assert (Ee : epoch (pausing reason w) = epoch w + 1).
  { assert (stored_epoch (pausing reason w) = epoch w + 1) as E.
    { unfold stored_epoch, pausing. rewrite (grd_gwr_ne n parties configs layout), grd_gwr_same by done.
      unfold stored_epoch. rewrite !(grd_gwr_ne n parties configs layout) by done.
      fold (stored_epoch w). rewrite Es.
      assert (Hf : fits U64_MAX (epoch w + 1)) by (split; lia).
      unfold wrap_u64. rewrite Z.mod_small by lia. rewrite (u64_to_u256_id _ Hf). by apply u256_to_u64_id. }
    unfold epoch at 1. rewrite E. destruct (Z.eqb_spec (epoch w + 1) 0); lia. }
  assert (Esg : forall v, v ∈ parties -> signed (pausing reason w) v = signed w v).
  { intros v Hv. unfold signed. by rewrite pausing_frame. }
  split.
  - intros v Hv. rewrite Ee, Esg by done. specialize (Hp v Hv). lia.
  - assert (sig_count (pausing reason w) = 0) as -> by (unfold sig_count, pausing; by rewrite grd_gwr_same).
    symmetry. unfold signers. rewrite (sum_of_ext _ (fun _ => 0)).
    + clear. by induction parties.
    + intros v Hv. rewrite Ee, Esg by done. specialize (Hp v Hv).
      destruct (Z.eqb_spec (signed w v) (epoch w + 1)); lia.
Qed.

(** ** Steps *)

Lemma writes_resume_keys sender :
  sender ∈ parties ->
  writes (gov_writes n parties configs (fun k => ~ pause_key k)) (emergency_resume_handler sender).
Proof.
  intros Hs. unfold emergency_resume_handler, require_caller.
  destruct (sender =? 0); [constructor|]. unfold try_ at 1. cbn [prog_bind].
  follow storing (apply writes_gstore; [tauto|done])
    calling (first [ apply (writes_ensure_config n parties configs layout); intros []; cbn; tauto
                   | apply writes_gov_event ]).
Qed.

Lemma other_call_keys sender o w w' k :
  count w <= n -> sender ∈ parties -> op_wf n w o -> run (gov_handler sender o) w = (Ok tt, w') ->
  match o with OpPause _ => False | _ => True end -> used k -> pause_key k -> grd w' k = grd w k.
Proof.
  intros Hn Hs Hwf E Ho Hk Hp. destruct o as [c|c|c|c|c|c|]; try done.
  6: { cbn [gov_handler] in E. pose proof (run_gov_frame n parties configs layout _ _ w k (writes_resume_keys sender Hs) Hk) as F.
       rewrite E in F. apply F. tauto. }
  all: eapply (op_frame n parties configs layout sender); try done; destruct k; try done; cbn;
    unfold advance_key; cbn [config_key]; intuition congruence.
Qed.

Lemma signed_opened v w : v ∈ parties -> signed (opened w) v = signed w v.
Proof. intros Hv. unfold signed. by rewrite opened_frame. Qed.

Lemma sig_count_opened v w x :
  v ∈ parties -> sig_count (gwr (slot_emergency_pause_sig_epoch v) x (opened w)) = sig_count w.
Proof. intros Hv. unfold sig_count. by rewrite (grd_gwr_ne n parties configs layout), opened_frame. Qed.

Lemma threshold_sign v w :
  v ∈ parties ->
  emergency_pause_threshold (run governance_config (sign v w)).1 (validators (sign v w)) = pause_threshold w.
Proof.
  intros Hv. unfold emergency_pause_threshold, pause_threshold. rewrite config_bps, validators_sign.
  do 3 f_equal. unfold pause_bps, config_u64.
  rewrite !sign_frame by first [done | apply (param_in_use n parties configs layout); named]. done.
Qed.

(** A successful call either adds a signature or pauses. *)
Lemma pause_call_cases sender call w w' :
  sender ∈ parties -> run (emergency_pause_handler sender call) w = (Ok tt, w') ->
  paused w = false /\ is_val w sender = true /\ signed w sender < epoch w /\
  (sig_count (sign sender w) < pause_threshold w /\ w' = configured (sign sender w) \/
   pause_threshold w <= sig_count (sign sender w) /\
   logged (pausing (ep_reason call) (configured (sign sender w))) w').
Proof.
  intros Hs E. apply pause_call_ok in E as (Hpa & Hv & Hsg & E). cbv zeta in E.
  rewrite signed_opened in Hsg by exact Hs. split; [exact Hpa|]. split; [exact Hv|]. split; [exact Hsg|].
  rewrite threshold_sign, sig_count_opened, <- (sig_count_sign sender w) in E by exact Hs.
  destruct (Z.ltb_spec (sig_count (sign sender w)) (pause_threshold w)) as [Hlt|Hge].
  - left. by split.
  - right. by destruct E.
Qed.

Lemma pause_counted sender call w w' :
  sender ∈ parties -> epoch w < U64_MAX -> run (emergency_pause_handler sender call) w = (Ok tt, w') ->
  signatures_counted w ->
  signatures_counted w' /\
  (paused w' = true -> is_val w sender = true /\ signed w sender < epoch w /\
     pause_threshold w <= signers w + 1).
Proof.
  intros Hs He E C. apply pause_call_cases in E as (Hpa & Hv & Hsg & E); [|exact Hs].
  destruct (counted_sign sender w Hs Hsg C) as [C3 Ec]. rewrite Ec in E.
  pose proof (stored_epoch_sign sender w Hs) as Es. pose proof (epoch_sign sender w Hs) as Ee.
  assert (Ep : paused (sign sender w) = paused w) by (unfold paused; by rewrite sign_frame).
  generalize dependent (sign sender w). intros w3 E C3 Ec Es Ee Ep.
  assert (K4 : forall k, used k -> pause_key k -> grd (configured w3) k = grd w3 k).
  { intros k Hk Hp. apply configured_frame; [done|]. destruct k; cbn in *; tauto. }
  assert (C4 : signatures_counted (configured w3)) by (by apply (counted_same_keys w3)).
  destruct E as [[Hlt ->]|[Hge L]].
  - split; [done|]. unfold paused. rewrite configured_frame by (done || tauto). fold (paused w3). congruence.
  - split; [|done]. apply (counted_same_keys (pausing (ep_reason call) (configured w3)));
      [intros; by apply logged_grd|].
    assert (Ee4 : epoch (configured w3) = epoch w) by (rewrite <- Ee; unfold epoch, stored_epoch; by rewrite !K4).
    apply counted_pausing; [|lia|apply (sc_past _ C4)]. rewrite Ee4, <- Es.
    unfold stored_epoch. by rewrite K4.
Qed.

(** An emergency pause needs its quorum.  In every state governance
    reaches, the signature counter of the emergency pause is the number of
    distinct accounts that signed in the current epoch.  A call that pauses
    governance comes from a validator that had not signed before, and with it
    the signers reach the threshold, two thirds of the validators unless
    configured otherwise. *)
Theorem pause_needs_quorum w w' :
  count w <= n -> epoch w < U64_MAX -> gov_step n parties configs w w' -> signatures_counted w ->
  signatures_counted w' /\
  forall sender call, sender ∈ parties ->
    run (emergency_pause_handler sender call) w = (Ok tt, w') -> paused w' = true ->
    is_val w sender = true /\ signed w sender < epoch w /\ pause_threshold w <= signers w + 1.
Proof.
  intros Hn He S C. split.
  - destruct S as [sender o w w' Hs Hwf E|b w ev w' Hb Hw E|w w' F].
    + destruct (match o with OpPause _ => true | _ => false end) eqn:Eo.
      * destruct o; try done. by apply (pause_counted sender call w).
      * apply (counted_same_keys w); [|done]. intros k Hk Hp.
        apply (other_call_keys sender o); try done. by destruct o.
    + apply (advance_lives n parties configs layout) in E as [_ F]; [|done..].
      apply (counted_same_keys w); [|done]. intros k Hk Hp. apply F; [done|].
      intros p [?|(s & _ & ?)]; by destruct k.
    + apply (counted_same_keys w); [|done]. intros k Hk _. by apply F.
  - intros sender call Hs E. by apply (pause_counted sender call w w').
Qed.

End Pause.

Module PauseDemo.
Import Demo GovDemo.

Definition stop : emergencyPauseCall := {| ep_reason := be_bytes 32 1 |}.
Definition stopped_w : world := after (gov_handler alice (OpPause stop)) g0.

Lemma stop_runs : (run (gov_handler alice (OpPause stop)) g0).1 = Ok tt.
Proof. vm_compute. reflexivity. Qed.

Lemma stop_step : demo_step g0 stopped_w.
Proof. exact (step_call _ _ _ alice (OpPause stop) _ _ alice_in I (ran _ _ _ stop_runs)). Qed.

Lemma genesis_signatures : signatures_counted people g0.
Proof.
  split; [|vm_compute; reflexivity]. intros v Hv.
  assert (F : Forall (fun v => signed g0 v <= epoch g0) people).
  { refine (bool_decide_eq_true_1 _ _). vm_compute. reflexivity. }
  rewrite Forall_forall in F. by apply F.
Qed.

(** The only validator pauses governance. *)
Lemma pause_needs_quorum_witness :
  paused stopped_w = true /\ signatures_counted people stopped_w /\
  forall sender call, sender ∈ people ->
    run (emergency_pause_handler sender call) g0 = (Ok tt, stopped_w) -> paused stopped_w = true ->
    is_val g0 sender = true /\ signed g0 sender < epoch g0 /\ pause_threshold g0 <= signers people g0 + 1.
Proof.
  split; [vm_compute; reflexivity|].
  refine (pause_needs_quorum 3 people names gov_demo_layout _ _ g0 stopped_w _ _ stop_step genesis_signatures).
  - refine (bool_decide_eq_true_1 _ _). vm_compute. reflexivity.
  - vm_compute. reflexivity.
  - vm_compute. discriminate.
  - vm_compute. reflexivity.
Defined.

End PauseDemo.
