(* ===== verification/GovernanceCall.v ===== *)
(** * GovernanceCall: the governance precompile on the production provider

    A call of the governance precompile on [EvmStorageProvider] either fails
    and leaves the storage as it was, or has exactly the effect its handler
    has on the gas-free storage of [World]: the states the governance
    theorems speak about are the states the node reaches. *)

From stdpp Require Import base gmap list list_numbers strings relations.
From Stdlib Require Import ZArith Lia.
From S2P Require Import Prelude Provider World EvmProvider Refinement Dispatch Utils.
From S2P Require Import Asset AssetSpec Validator Governance GovAdvancer GovernanceSpec GovernanceLife.
From S2P Require Import AssetPrecompile AssetPrecompileSpec SimpleJournal ProviderProps GovDemo.
From S2P Require Import Keyed CallSpec.

Local Open Scope Z_scope.
Local Open Scope callnode_scope.

Section Calls.
Context `{Keccak}.

Lemma benign_read_chunks wr m i pid len acc : benign wr (read_chunks m i pid len acc).
Proof.
  revert i acc. induction m as [|m IH]; intros i acc; cbn [read_chunks]; [constructor|].
  apply benign_bind; [apply benign_load|]. intros. apply IH.
Qed.

Lemma benign_store_chunks pid i cs : benign true (store_chunks pid i cs).
Proof.
  revert i. induction cs as [|c cs IH]; intros i; cbn [store_chunks]; [constructor|].
  apply benign_bind; [apply benign_store|]. intros. apply IH.
Qed.

Ltac gov_benign := benign_follow calling (first [apply benign_read_chunks | apply benign_store_chunks]).

Lemma benign_submit ty t d data p b : benign true (submit_proposal ty t d data p b).
Proof. gov_benign. Qed.
Lemma benign_vote pid c v pw b : benign true (vote pid c v pw b).
Proof. gov_benign. Qed.
Lemma benign_queue pid b : benign true (queue pid b).
Proof. gov_benign. Qed.
Lemma benign_apply ty data : benign true (apply_proposal ty data).
Proof. gov_benign. Qed.
Lemma benign_execute pid b : benign true (execute pid b).
Proof.
  benign_follow calling (first [apply benign_read_chunks | apply benign_apply]).
Qed.
Lemma benign_cancel pid c : benign true (cancel_proposal pid c).
Proof. gov_benign. Qed.

(** ** The handlers *)

(** An event with up to two topics of its own and 64 bytes of data is cheaper
    than a read. *)
Lemma guarded_event {E A} wr s ts d (q : prog (result E A)) :
  (length ts <= 2)%nat -> (length d <= 64)%nat -> guarded wr q -> guarded wr (do gov_event s ts d; q).
Proof.
  intros Ht Hd Hq. apply g_emit_dropped; [|done].
  unfold log_gas, LOG, LOGTOPIC, LOGDATA, COLD_SLOAD_COST. cbn [log_topics log_data length]. lia.
Qed.

Lemma guarded_submit_handler m c : guarded true (submit_proposal_handler m c).
Proof.
  unfold submit_proposal_handler. apply guarded_try; [constructor|intros caller].
  apply guarded_try; [apply guarded_check_compliance|intros _].
  apply guarded_benign_bind; [apply benign_block_number|intros b].
  apply guarded_try; [apply benign_guarded, benign_submit|intros pid].
  apply guarded_event; [cbn; lia..|constructor].
Qed.

Lemma guarded_vote_handler m c : guarded true (vote_handler m c).
Proof.
  unfold vote_handler. apply guarded_try; [constructor|intros caller].
  do 3 (apply guarded_benign_bind; [benign_follow calling (fail)|intros ?]). cbv zeta.
  apply guarded_benign_bind; [apply benign_block_number|intros b].
  apply guarded_try; [apply benign_guarded, benign_vote|intros _].
  apply guarded_event; [cbn; lia|rewrite length_app, !length_be_bytes; lia|constructor].
Qed.

(** The event of a terminal state, then the error itself. *)
Lemma guarded_terminal wr (r : res unit) pid terminal s (q : prog (res unit)) :
  guarded wr q -> guarded wr (do terminal_event r pid terminal s; do? Ret r; q).
Proof.
  intros Hq. destruct r as [[]|e]; cbn [terminal_event]; [done|].
  apply (guarded_benign_bind wr (load GOVERNANCE_ADDRESS (gov_slot (slot_gov_proposal pid "status")))
    (fun v => do (if u256_to_u8 v =? terminal then gov_event s [u64_to_u256 pid] [] else Ret tt);
              do? Ret (Err e : res unit); q)); [apply benign_load|intros v].
  destruct (_ =? _); [|constructor]. apply guarded_event; [cbn; lia..|constructor].
Qed.

Lemma guarded_queue_handler m c : guarded true (queue_handler m c).
Proof.
  unfold queue_handler. apply guarded_try; [constructor|intros caller]. cbv zeta.
  do 2 (apply guarded_benign_bind; [benign_follow calling (fail)|intros ?]).
  destruct (_ && _); [constructor|].
  apply guarded_benign_bind; [apply benign_block_number|intros b].
  apply guarded_benign_bind; [apply benign_queue|intros r]. apply guarded_terminal.
  apply guarded_event; [cbn; lia..|constructor].
Qed.

Lemma guarded_execution_event wr ty data (q : prog (res unit)) :
  guarded wr q -> guarded wr (do execution_event ty data; q).
Proof.
  intros Hq. unfold execution_event. cbv zeta.
  repeat match goal with
  | |- context [prog_bind (match ?x with _ => _ end) _] => destruct x
  end; try done; apply guarded_event; try done; rewrite ?length_be_bytes; cbn; lia.
Qed.

Lemma guarded_execute_handler m c : guarded true (execute_handler m c).
Proof.
  unfold execute_handler. apply guarded_try; [constructor|intros caller]. cbv zeta.
  apply guarded_benign_bind; [apply benign_block_number|intros b].
  apply guarded_benign_bind; [apply benign_execute|intros r]. apply guarded_terminal.
  apply guarded_event; [cbn; lia..|].
  do 2 (apply guarded_benign_bind; [benign_follow calling (apply benign_read_chunks)|intros ?]).
  apply guarded_execution_event. constructor.
Qed.

Lemma guarded_cancel_handler m c : guarded true (cancel_proposal_handler m c).
Proof.
  unfold cancel_proposal_handler. apply guarded_try; [constructor|intros caller].
  apply benign_guarded, benign_cancel.
Qed.

Ltac emergency_handler :=
  repeat match goal with
  | |- guarded _ (prog_bind (gov_event _ _ _) _) => apply guarded_event; [cbn; lia..|]
  | |- guarded _ (prog_bind _ _) => apply guarded_benign_bind; [solve [benign_follow calling (fail)]|intros ?]
  | |- guarded _ (if ?b then _ else _) => destruct b
  | |- guarded _ (try_ _ _) => apply guarded_try; [apply benign_guarded; solve [benign_follow calling (fail)]|intros ?]
  | |- guarded _ _ => constructor
  end.

Lemma guarded_pause_handler m c : guarded true (emergency_pause_handler m c).
Proof. unfold emergency_pause_handler. emergency_handler. Qed.

Lemma guarded_resume_handler m : guarded true (emergency_resume_handler m).
Proof. unfold emergency_resume_handler. emergency_handler. Qed.

Lemma guarded_gov_handler m o : guarded true (gov_handler m o).
Proof.
  destruct o; [apply guarded_submit_handler|apply guarded_vote_handler|apply guarded_queue_handler
    |apply guarded_execute_handler|apply guarded_cancel_handler|apply guarded_pause_handler
    |apply guarded_resume_handler].
Qed.

End Calls.

(** ** The entry point *)

Section Entry.
Context `{Keccak} `{GovernanceAbi} {J : Type} `{HJ : JournalTr J} `{HL : !JournalLaws J}.
Implicit Types (s : EvmStorageProvider J).

(** The operation calldata requests, if it requests one. *)
Definition requested_op (calldata : list Z) : option gov_op :=
  let sel := take 4 calldata in
  let request {T} (d : result string T) (op : T -> gov_op) :=
    match d with Ok c => Some (op c) | Err _ => None end in
  if bool_decide (sel = sel_submitProposal) then request (dec_submitProposal calldata) OpSubmit
  else if bool_decide (sel = sel_vote) then request (dec_vote calldata) OpVote
  else if bool_decide (sel = sel_queue) then request (dec_queue calldata) OpQueue
  else if bool_decide (sel = sel_execute) then request (dec_execute calldata) OpExecute
  else if bool_decide (sel = sel_cancelProposal) then request (dec_cancelProposal calldata) OpCancel
  else if bool_decide (sel = sel_emergencyPause) then request (dec_emergencyPause calldata) OpPause
  else if bool_decide (sel = sel_emergencyResume)
  then request (dec_emergencyResume calldata) (fun _ => OpResume)
  else None.

(** The outcome a call must have. *)
Definition gov_call_ok (request : option gov_op) (m : Z) s
    (x : res PrecompileOutput * EvmStorageProvider J) : Prop :=
  match x.1 with
  | Err _ => vw x.2 = vw s
  | Ok _ =>
      match request with
      | None => vw x.2 = vw s
      | Some o => exists w', run (gov_handler m o) (abs s) = (Ok tt, w') /\ vw x.2 = w_cur w'
      end
  end.

Lemma mutate_gov {T} (dec : list Z -> result string T) (op : T -> gov_op) (gas : N) calldata m s s0 :
  e_is_static (evm_env s) = false -> COLD_SLOAD_COST <= Z.of_N gas -> vw s = vw s0 -> evm_env s = evm_env s0 ->
  gov_call_ok (match dec calldata with Ok c => Some (op c) | Err _ => None end) m s0
    (mutate_void dec calldata gas (fun c => gov_handler m (op c)) s).
Proof using HL.
  intros Hst Hg Ev Ee. unfold gov_call_ok, mutate_void.
  destruct (mutate_outcome_on dec (fun _ : unit => []) (fun c => gov_handler m (op c)) calldata gas s)
    as [_ O]; [intros; apply guarded_gov_handler|done|done|].
  destruct (mutate dec (fun _ : unit => []) calldata gas _ s) as [[o|e] s']; cbn [fst snd] in *; [|congruence].
  destruct O as (c & [] & Ed & Er & Ev' & _). rewrite Ed.
  assert (abs s0 = abs s) as -> by (unfold abs; by rewrite Ev, Ee).
  exists (run (gov_handler m (op c)) (abs s)).2. split; [|done]. rewrite <- Er. apply surjective_pairing.
Qed.

(** A read gives the stored word, or 0 when gas ran out. *)
Lemma load_value a k s : (run (load a k) s).1 = slot (vw s) a k \/ (run (load a k) s).1 = 0.
Proof using HL.
  unfold load, sload. rewrite run_bind, run_call. unfold sp_exec. cbn. evm_unfold. evm_cases.
  all: first [by right | left; congruence].
Qed.

Lemma execute_gas_enough len :
  0 <= len <= 2 ^ 40 -> COLD_SLOAD_COST <= Z.of_N (execute_gas len).
Proof.
  intros Hl. unfold execute_gas, COLD_SLOAD_COST, wrap_u64, U64_MAX.
  rewrite !(Z.mod_small (len + 31)) by lia.
  assert (0 <= (len + 31) / 32 <= 2 ^ 40) by (Z.to_euclidean_division_equations; lia).
  rewrite !Z.mod_small by (rewrite ?Z.mod_small; lia). lia.
Qed.

Lemma submit_gas_enough calldata : COLD_SLOAD_COST <= Z.of_N (submit_gas calldata).
Proof.
  unfold submit_gas, COLD_SLOAD_COST, saturating_sub.
  assert (0 <= (Z.max 0 (Z.of_nat (length calldata) - 4) + 31) / 32) by (apply Z.div_pos; lia). lia.
Qed.

Lemma execute_call calldata m s :
  e_is_static (evm_env s) = false ->
  (forall pid, u256_to_u64 (field (abs s) pid "data_len") <= 2 ^ 40) ->
  gov_call_ok (match dec_execute calldata with Ok c => Some (OpExecute c) | Err _ => None end) m s
    (precompile_execute calldata m s).
Proof using HL.
  intros Hst Hlen. unfold precompile_execute.
  set (pid := if (36 <=? length calldata)%nat then from_be (slice calldata 28 8) else 0).
  specialize (Hlen pid). pose proof (load_value GOVERNANCE_ADDRESS (gov_slot (slot_gov_proposal_data_len pid)) s) as Hv.
  pose proof (run_readonly (read_proposal_data_len pid) s) as Er.
  pose proof (run_frame (read_proposal_data_len pid) s) as (Ee & _ & _).
  assert (Ed : (run (read_proposal_data_len pid) s).1 =
    u256_to_u64 (run (load GOVERNANCE_ADDRESS (gov_slot (slot_gov_proposal_data_len pid))) s).1).
  { unfold read_proposal_data_len, gload. rewrite run_bind. by destruct (run (load _ _) s). }
  destruct (run (read_proposal_data_len pid) s) as [len s1]. cbn [fst snd] in *.
  apply (mutate_gov dec_execute OpExecute); [by rewrite Ee| |apply Er|done].
  - apply execute_gas_enough. rewrite Ed. destruct Hv as [-> | ->]; [|vm_compute; split; discriminate].
    split; [rewrite u256_to_u64_mod; by apply Z.mod_pos_bound|done].
  - unfold read_proposal_data_len, gload. readonly_prog.
Qed.

Lemma gov_views calldata m s (x : res PrecompileOutput * EvmStorageProvider J) :
  x ∈ [precompile_get_proposal calldata s; precompile_get_proposal_status calldata s;
       precompile_get_proposal_votes calldata s; precompile_is_paused calldata s;
       precompile_get_proposal_count calldata s] -> gov_call_ok None m s x.
Proof using HL.
  intros Hx. assert (vw x.2 = vw s) as E.
  { repeat (apply elem_of_cons in Hx as [->|Hx]; [apply view_readonly; intros c|]); [..|by apply elem_of_nil in Hx].
    all: unfold get_proposal_handler, get_proposal_status_handler, get_proposal_votes_handler,
      is_paused_handler, is_paused, require_valid_proposal_id, read_proposal_count, read_proposal_status,
      read_vote_tally, read_proposal_proposer, read_proposal_u64, read_proposal_u8, read_proposal_u128,
      ok_read, gload, gerr; readonly_prog. }
  unfold gov_call_ok. by destruct x.1.
Qed.

(** C4: the governance precompile implements its operations.  On the
    production provider, outside a static call, a call either fails or is a
    view and leaves the storage as it was, or performs the one operation its
    calldata requests, with exactly the effect of its handler, whatever gas
    the accesses cost.  (The stored lengths bound the gas of an execution.) *)
Theorem governance_call_refines_handler calldata m s :
  e_is_static (evm_env s) = false ->
  (forall pid, u256_to_u64 (field (abs s) pid "data_len") <= 2 ^ 40) ->
  gov_call_ok (requested_op calldata) m s (governance_call calldata m s).
Proof using HL.
  intros Hst Hlen. unfold governance_call. destruct (length calldata <? 4)%nat; [done|].
  unfold requested_op. cbv zeta.
  case_bool_decide; [apply (mutate_gov dec_submitProposal OpSubmit); try done; apply submit_gas_enough|].
  case_bool_decide; [by apply (mutate_gov dec_vote OpVote)|].
  case_bool_decide; [by apply (mutate_gov dec_queue OpQueue)|].
  case_bool_decide; [by apply execute_call|].
  case_bool_decide; [by apply (mutate_gov dec_cancelProposal OpCancel)|].
  case_bool_decide; [by apply (mutate_gov dec_emergencyPause OpPause)|].
  case_bool_decide; [by apply (mutate_gov dec_emergencyResume (fun _ => OpResume))|].
  repeat (case_bool_decide; [apply (gov_views calldata); set_solver|]). done.
Qed.

End Entry.

Module CallDemo.
Import Demo GovDemo.

Definition dec_id (d : list Z) : result string proposalCall :=
  need (i ← decode_u64 d 4; Some {| pr_proposalId := i |}).

#[global] Instance gov_abi : GovernanceAbi := {|
  dec_submitProposal := fun _ => Err "dynamic"%string;
  dec_vote := fun d => need (
    i ← decode_u64 d 4; v ← decode_u8 d 36; Some {| vo_proposalId := i; vo_vote := v |});
  dec_queue := dec_id;
  dec_execute := dec_id;
  dec_cancelProposal := dec_id;
  dec_emergencyPause := fun d =>
    if bool_decide (length (slice d 4 32) = 32%nat) then Ok {| ep_reason := slice d 4 32 |}
    else Err "short calldata"%string;
  dec_emergencyResume := fun _ => Ok tt;
  dec_getProposalStatus := dec_id;
  dec_getProposalVotes := dec_id;
  dec_getProposal := dec_id;
  dec_isPaused := fun _ => Ok tt;
  dec_getProposalCount := fun _ => Ok tt;
  genc_u256 := be_bytes 32;
  genc_u64 := encode_u64;
  genc_votes := fun _ => [];
  genc_proposal := fun _ => [];
  sel_submitProposal := [0; 0; 0; 1];
  sel_vote := [0; 0; 0; 2];
  sel_queue := [0; 0; 0; 3];
  sel_execute := [0; 0; 0; 4];
  sel_cancelProposal := [0; 0; 0; 5];
  sel_emergencyPause := [0; 0; 0; 6];
  sel_emergencyResume := [0; 0; 0; 7];
  sel_getProposalStatus := [0; 0; 0; 8];
  sel_getProposalVotes := [0; 0; 0; 9];
  sel_getProposal := [0; 0; 0; 10];
  sel_isPaused := [0; 0; 0; 11];
  sel_getProposalCount := [0; 0; 0; 12]
|}.

Definition pause_calldata : list Z := [0; 0; 0; 6] ++ be_bytes 32 1.
Definition node : EvmStorageProvider SimpleJournal := provider genesis 1000000 false.

Lemma genesis_lengths pid : u256_to_u64 (field (abs node) pid "data_len") <= 2 ^ 40.
Proof.
  assert (F : map_Forall (fun (k : Z * Z) v => k.1 = GOVERNANCE_ADDRESS -> u256_to_u64 v <= 2 ^ 40)
    (w_persistent genesis)).
  { refine (bool_decide_eq_true_1 _ _). vm_compute. reflexivity. }
  unfold field, grd, wslot, slot. change (w_cur (abs node)) with genesis.
  destruct (w_persistent genesis !! _) as [v|] eqn:E; cbn [default]; [by apply (F _ _ E)|].
  vm_compute. discriminate.
Qed.

Lemma governance_call_refines_handler_witness :
  is_ok (governance_call pause_calldata alice node).1 = true /\
  requested_op pause_calldata = Some (OpPause {| ep_reason := be_bytes 32 1 |}) /\
  gov_call_ok (requested_op pause_calldata) alice node (governance_call pause_calldata alice node).
Proof.
  split; [vm_compute; reflexivity|]. split; [vm_compute; reflexivity|].
  apply (governance_call_refines_handler pause_calldata alice node); [reflexivity|exact genesis_lengths].
Defined.

(** The proposal at the end of its voting period, without a vote. *)
Definition unvoted : EvmStorageProvider SimpleJournal :=
  evm_new (mkSJ (w_cur submitted_w) [] ∅) (mkEnv 1000000 false 1 1000 120 0).
Definition queue_calldata : list Z := [0; 0; 0; 3] ++ encode_u64 1.

(** A call cannot record a defeat.  Queueing a proposal without a quorum,
    the handler marks it defeated, confiscates its deposit and returns an
    error; the dispatch undoes what a failed handler wrote, so the proposal
    stays pending and keeps its deposit. *)
Theorem defeat_is_rolled_back :
  let h := run (queue_handler alice first) (abs unvoted) in
  let x := governance_call queue_calldata alice unvoted in
  is_ok h.1 = false /\ status h.2 1 = 4 /\ votes h.2 1 "deposit" = 0 /\
  is_ok x.1 = false /\ status (abs x.2) 1 = 0 /\ votes (abs x.2) 1 "deposit" = PROPOSAL_DEPOSIT.
Proof. vm_compute. repeat split; reflexivity. Qed.

End CallDemo.
