(* ===== verification/EthProof.v ===== *)
(** * EthProof: Merkle-Patricia proofs and receipts of an external chain

    Models [verify_mpt_proof] with its helpers ([light-client/src/verifier.rs])
    and the extraction of bridge events from receipts
    ([light-client/src/ethereum/proof.rs]).  Shows that inclusion proofs bind:
    two proofs against one root cannot give one key two values without a
    keccak256 collision; that proofs built from the nodes of a trie verify;
    and what a proof of absence is worth. *)

From stdpp Require Import base list strings pretty.
From Stdlib Require Import ZArith Lia.
From S2P Require Import Prelude Provider World EvmProvider Refinement Utils Rlp.

Local Open Scope Z_scope.
Local Open Scope callnode_scope.

(** ** The verifier *)

Definition bytes_to_nibbles (bs : list Z) : list Z :=
  concat (map (fun b => [Z.shiftr b 4; Z.land b 0x0F]) bs).

Definition compact_decode (data : list Z) : outcome MptError (bool * list Z) :=
  match data with
  | [] => Fail InvalidNode
  | first :: rest =>
      let high := Z.shiftr first 4 in
      let low := Z.land first 0x0F in
      kind <~
        (if low =? 0 then
           if high =? 0 then Done (false, false)
           else if high =? 2 then Done (true, false)
           else Fail InvalidNode
         else if low =? 1 then Done (false, true)
         else if low =? 3 then Done (true, true)
         else Fail InvalidNode);
      let (is_leaf, has_odd) := (kind : bool * bool) in
      Done (is_leaf, (if has_odd then [high] else []) ++ bytes_to_nibbles rest)
  end.

(** [slice::starts_with]. *)
Fixpoint starts_with (xs prefix : list Z) {struct prefix} : bool :=
  match prefix, xs with
  | [], _ => true
  | p :: prefix, x :: xs => (x =? p) && starts_with xs prefix
  | _ :: _, [] => false
  end.

Section Verifier.
Context `{Keccak, RlpHeader}.

Definition extract_child_ref (data : list Z) : Z :=
  if zlen data =? 32 then from_be data
  else if (zlen data =? 34) && (default 0 (data !! 0%nat) =? 0xb8)
          && (default 0 (data !! 1%nat) =? 0x20)
  then from_be (slice data 2 32)
  else keccak256 data.

(** The loop over the proof nodes. *)
Fixpoint verify_nodes (expected_hash : Z) (remaining : list Z) (proof : list (list Z)) :
    outcome MptError (option (list Z)) :=
  match proof with
  | [] => Done None
  | node_rlp :: proof =>
      let actual_hash := keccak256 node_rlp in
      if negb (actual_hash =? expected_hash)
      then Fail (NodeHashMismatch expected_hash actual_hash) else
      items <~ parse_rlp_list node_rlp;
      match items with
      | [item0; item1] =>
          decoded <~ compact_decode item0;
          let (is_leaf, node_key) := (decoded : bool * list Z) in
          if is_leaf then
            if starts_with remaining node_key then Done (Some item1) else Done None
          else if starts_with remaining node_key
          then verify_nodes (extract_child_ref item1) (drop (length node_key) remaining) proof
          else Done None
      | _ =>
          if negb (length items =? 17)%nat then Fail InvalidNode else
          match remaining with
          | [] => Done (items !! 16%nat)
          | nibble :: remaining =>
              if 15 <? nibble then Fail InvalidNode else
              let child_ref := default [] (items !! Z.to_nat nibble) in
              if bool_decide (child_ref = []) || bool_decide (child_ref = [0x80]) then Done None
              else verify_nodes (extract_child_ref child_ref) remaining proof
          end
      end
  end.

Definition verify_mpt_proof (root_hash : Z) (key_bytes : list Z) (proof : list (list Z)) :
    outcome MptError (option (list Z)) :=
  match proof with
  | [] => Done None
  | _ => verify_nodes root_hash (bytes_to_nibbles key_bytes) proof
  end.

End Verifier.

(** ** Receipts and bridge events *)

Record ReceiptLog : Type := mkReceiptLog {
  rl_address : list Z;
  rl_topics : list Z;
  rl_data : list Z
}.

Record BridgeEvent : Type := mkBridgeEvent {
  ev_source_chain : Z;
  ev_source_tx_hash : Z;
  ev_source_block : Z;
  ev_sender : list Z;
  ev_recipient : Z;
  ev_asset_id : Z;
  ev_amount : Z
}.

Definition parse_log (entry : list Z) : outcome string ReceiptLog :=
  fields <~ parse_rlp_list_items entry;
  match fields with
  | address :: topics :: data :: _ =>
      topics_items <~ parse_rlp_list_items topics;
      Done (mkReceiptLog address
              (omap (fun t => if zlen t =? 32 then Some (from_be t) else None) topics_items) data)
  | _ => sfail "log entry has too few fields"
  end.

Fixpoint parse_logs (entries : list (list Z)) : outcome string (list ReceiptLog) :=
  match entries with
  | [] => Done []
  | entry :: entries =>
      log <~ parse_log entry; logs <~ parse_logs entries; Done (log :: logs)
  end.

Definition parse_logs_rlp (logs_rlp : list Z) : outcome string (list ReceiptLog) :=
  entries <~ parse_rlp_list_items logs_rlp; parse_logs entries.

Definition parse_receipt_logs (receipt_rlp : list Z) : outcome string (list ReceiptLog) :=
  match receipt_rlp with
  | [] => sfail "empty receipt"
  | first :: body =>
      items <~ parse_rlp_list_items (if first <=? 0x7f then body else receipt_rlp);
      match items !! 3%nat with
      | Some logs_rlp => parse_logs_rlp logs_rlp
      | None => sfail ("receipt has " +:+ pretty (length items) +:+ " fields, expected >= 4")
      end
  end.

Definition BRIDGE_DEPOSIT_EVENT_SIG : Z :=
  0x3a957f168e13a027b53e7f6fe958a0bca90d515b66bf4b5a6c61608479135406.

(** [None] is [Fail tt]; an unparsable data field is [None] as well. *)
Definition try_parse_bridge_log (log : ReceiptLog) : outcome unit BridgeEvent :=
  match rl_topics log with
  | [] => Fail tt
  | event_sig :: _ =>
      if negb (event_sig =? BRIDGE_DEPOSIT_EVENT_SIG) && negb (BRIDGE_DEPOSIT_EVENT_SIG =? 0)
      then Fail tt else
      fields <~ outcome_map_err (fun _ => tt) (parse_rlp_list_items (rl_data log));
      match fields with
      | f0 :: f1 :: f2 :: f3 :: f4 :: _ =>
          match decode_rlp_uint 8 f0, decode_rlp_uint 8 f1, decode_rlp_uint 8 f3,
                decode_rlp_uint 16 f4 with
          | Some source_chain, Some source_block, Some asset_id, Some amount =>
              let sender := if bool_decide (f2 = [0x80]) then [] else f2 in
              let topic i := default 0 (rl_topics log !! i) in
              Done (mkBridgeEvent source_chain (topic 1%nat) source_block sender
                      (from_be (slice (be_bytes 32 (topic 2%nat)) 12 20)) asset_id amount)
          | _, _, _, _ => Fail tt
          end
      | _ => Fail tt
      end
  end.

Fixpoint parse_bridge_event_from_logs (logs : list ReceiptLog) : outcome unit BridgeEvent :=
  match logs with
  | [] => Fail tt
  | log :: logs =>
      match try_parse_bridge_log log with
      | Fail _ => parse_bridge_event_from_logs logs
      | o => o
      end
  end.

(** ** Proofs bind *)

Section Binding.
Context `{Keccak, RlpHeader}.

(** Two different nodes of the proofs have the same hash. *)
Definition collide (p1 p2 : list (list Z)) : Prop :=
  exists a b, a ∈ p1 /\ b ∈ p2 /\ a <> b /\ keccak256 a = keccak256 b.

Lemma collide_cons a b p1 p2 : collide p1 p2 -> collide (a :: p1) (b :: p2).
Proof.
  intros (x & y & Hx & Hy & Hxy). exists x, y. split; [by constructor|]. by split; [constructor|].
Qed.

(** What a second proof can say where the first one shows a value. *)
Definition agrees (p1 p2 : list (list Z)) (v : list Z) (r : option (list Z)) : Prop :=
  r = Some v \/ (r = None /\ exists k, (k < length p1)%nat /\ p2 = take k p1) \/ collide p1 p2.

Lemma agrees_cons n p1 p2 v r : agrees p1 p2 v r -> agrees (n :: p1) (n :: p2) v r.
Proof.
  intros [->|[(-> & k & Hk & ->)|Hc]]; [by left| |right; right; by apply collide_cons].
  right. left. split; [done|]. exists (S k). cbn. split; [lia|done].
Qed.

Lemma verify_nodes_agree p1 : forall h rem p2 v r,
  verify_nodes h rem p1 = Done (Some v) -> verify_nodes h rem p2 = Done r -> agrees p1 p2 v r.
Proof.
  induction p1 as [|n1 p1 IH]; intros h rem p2 v r E1 E2; [done|].
  destruct p2 as [|n2 p2].
  { injection E2 as <-. right. left. split; [done|]. exists O. cbn. split; [lia|done]. }
  cbn [verify_nodes] in E1, E2.
  destruct (Z.eqb_spec (keccak256 n1) h) as [H1|]; [|done].
  destruct (Z.eqb_spec (keccak256 n2) h) as [H2|]; [|done]. cbn [negb] in E1, E2.
  destruct (decide (n1 = n2)) as [<-|Hne].
  2: { right. right. exists n1, n2. do 2 (split; [by constructor|]). split; congruence. }
  destruct (parse_rlp_list n1) as [items| | |]; cbn [outcome_bind] in E1, E2; try done.
  destruct items as [|i0 [|i1 [|i2 items]]]; try done.
  - destruct (compact_decode i0) as [[leaf key]| | |]; cbn [outcome_bind] in E1, E2; try done.
    destruct leaf, (starts_with rem key); try done.
    + left. congruence.
    + apply agrees_cons. by eapply IH.
  - cbn [negb] in E1, E2. destruct (negb (length _ =? 17)%nat); [done|].
    destruct rem as [|x rem]; [left; congruence|].
    destruct (15 <? x); [done|].
    destruct (bool_decide _ || bool_decide _); [done|].
    apply agrees_cons. by eapply IH.
Qed.

(** C13: inclusion proofs bind.  If one proof shows that a key has a value
    under a root, every other proof that the verifier accepts for that root
    and key shows the same value, or is a truncation of the first one that
    shows absence, or the two proofs contain two different nodes with the
    same keccak256 hash. *)
Theorem mpt_proofs_agree root key p1 p2 v r :
  verify_mpt_proof root key p1 = Done (Some v) -> verify_mpt_proof root key p2 = Done r ->
  r = Some v \/ (r = None /\ exists k, (k < length p1)%nat /\ p2 = take k p1) \/ collide p1 p2.
Proof.
  intros E1 E2. destruct p1 as [|n1 p1]; [done|]. apply (verify_nodes_agree _ root (bytes_to_nibbles key)).
  - done.
  - by destruct p2.
Qed.

End Binding.

(** ** Building nodes

    [compact_encode], [make_leaf_node_rlp], [make_extension_node_rlp] and
    [make_branch_node_rlp] of [verifier.rs]. *)

Fixpoint pack_nibbles (ns : list Z) : list Z :=
  match ns with
  | a :: b :: ns => Z.lor (Z.shiftl a 4) b :: pack_nibbles ns
  | _ => []
  end.

Definition compact_encode (nibbles : list Z) (is_leaf : bool) : list Z :=
  match nibbles with
  | n :: rest =>
      if Nat.odd (length nibbles)
      then Z.lor (Z.shiftl n 4) (if is_leaf then 3 else 1) :: pack_nibbles rest
      else (if is_leaf then 0x20 else 0x00) :: pack_nibbles nibbles
  | [] => [if is_leaf then 0x20 else 0x00]
  end.

Definition make_leaf_node_rlp (key_nibbles value : list Z) : list Z :=
  rlp_encode_list [rlp_encode_short_bytes (compact_encode key_nibbles true);
                   rlp_encode_short_bytes value].

Definition make_extension_node_rlp (key_nibbles : list Z) (child_hash : Z) : list Z :=
  rlp_encode_list [rlp_encode_short_bytes (compact_encode key_nibbles false);
                   rlp_encode_short_bytes (be_bytes 32 child_hash)].

Definition make_branch_node_rlp (children : list (option Z)) (value : option (list Z)) : list Z :=
  rlp_encode_list
    (map (fun c => match c with
                   | Some hash => rlp_encode_short_bytes (be_bytes 32 hash)
                   | None => [0x80]
                   end) children ++
     [match value with Some v => rlp_encode_short_bytes v | None => [0x80] end]).

(** ** Nibbles *)

Definition is_nibble (n : Z) : Prop := 0 <= n < 16.

Definition nibble_facts (a b : Z) : bool :=
  let x := Z.lor (Z.shiftl a 4) b in
  (Z.shiftr x 4 =? a) && (Z.land x 0x0F =? b) && (0 <=? x) && (x <? 256).

Lemma pack_nibble a b :
  is_nibble a -> is_nibble b ->
  let x := Z.lor (Z.shiftl a 4) b in Z.shiftr x 4 = a /\ Z.land x 0x0F = b /\ is_byte x.
Proof.
  intros Ha Hb x.
  assert (F : Forall (fun a => Forall (fun b => nibble_facts a b = true) (seqZ 0 16)) (seqZ 0 16))
    by (refine (bool_decide_eq_true_1 _ _); vm_compute; reflexivity).
  rewrite Forall_forall in F. specialize (F a ltac:(apply elem_of_seqZ; unfold is_nibble in *; lia)).
  rewrite Forall_forall in F. specialize (F b ltac:(apply elem_of_seqZ; unfold is_nibble in *; lia)).
  unfold nibble_facts in F. fold x in F. unfold is_byte. lia.
Qed.

Lemma pack_nibbles_unpack ns :
  Forall is_nibble ns -> Nat.even (length ns) = true -> bytes_to_nibbles (pack_nibbles ns) = ns.
Proof.
  revert ns. fix IH 1. intros [|a [|b ns]] Hn He; [done|done|].
  inversion Hn as [|? ? Ha Hn']; subst. inversion Hn' as [|? ? Hb Hns]; subst.
  destruct (pack_nibble a b Ha Hb) as (E1 & E2 & _).
  cbn [pack_nibbles]. unfold bytes_to_nibbles. cbn [map concat app]. rewrite E1, E2.
  do 2 f_equal. by apply IH.
Qed.

Lemma pack_nibbles_bytes ns : Forall is_nibble ns -> Forall is_byte (pack_nibbles ns).
Proof.
  revert ns. fix IH 1. intros [|a [|b ns]] Hn; [constructor|constructor|].
  inversion Hn as [|? ? Ha Hn']; subst. inversion Hn' as [|? ? Hb Hns]; subst.
  constructor; [by apply (pack_nibble a b)|by apply IH].
Qed.

Lemma length_pack_nibbles ns : (length (pack_nibbles ns) <= length ns)%nat.
Proof. revert ns. fix IH 1. intros [|a [|b ns]]; cbn; [lia..|]. specialize (IH ns). lia. Qed.

(** Decoding a node key inverts encoding it. *)
Lemma compact_round_trip ns leaf :
  Forall is_nibble ns -> compact_decode (compact_encode ns leaf) = Done (leaf, ns).
Proof.
  intros Hn. destruct ns as [|n ns]; [by destruct leaf|]. unfold compact_encode.
  destruct (Nat.odd (length (n :: ns))) eqn:Eo.
  - inversion Hn as [|? ? Hx Hns]; subst.
    set (ty := if leaf then 3 else 1). assert (Ht : is_nibble ty) by (unfold is_nibble, ty; destruct leaf; lia).
    destruct (pack_nibble n ty Hx Ht) as (E1 & E2 & _). unfold compact_decode. rewrite E1, E2.
    rewrite pack_nibbles_unpack; [by destruct leaf|done|].
    cbn [length] in Eo. by rewrite Nat.odd_succ in Eo.
  - unfold compact_decode. rewrite pack_nibbles_unpack; [by destruct leaf|done|].
    by rewrite <- Nat.negb_odd, Eo.
Qed.

Lemma compact_encode_bytes ns leaf : Forall is_nibble ns -> Forall is_byte (compact_encode ns leaf).
Proof.
  intros Hn. destruct ns as [|n ns]; cbn [compact_encode].
  - constructor; [|constructor]. unfold is_byte. destruct leaf; lia.
  - destruct (Nat.odd _); constructor; try by apply pack_nibbles_bytes.
    + inversion Hn; subst. apply pack_nibble; [done|]. unfold is_nibble. destruct leaf; lia.
    + inversion Hn; subst. by apply pack_nibbles_bytes.
    + unfold is_byte. destruct leaf; lia.
Qed.

Lemma length_compact_encode ns leaf : (length (compact_encode ns leaf) <= length ns + 1)%nat.
Proof.
  destruct ns as [|n ns]; cbn [compact_encode]; [cbn; lia|].
  pose proof (length_pack_nibbles ns). pose proof (length_pack_nibbles (n :: ns)).
  destruct (Nat.odd _); cbn [length] in *; lia.
Qed.

(** ** Proofs built from the nodes of a trie verify *)

Section Complete.
Context `{Keccak, RlpHeader}.

(** The nodes on the way from a root to the value of a key. *)
Inductive trie_path : Z -> list Z -> list Z -> list (list Z) -> Prop :=
| path_leaf key value :
    Forall is_nibble key -> Forall is_byte value -> zlen key + zlen value <= 2 ^ 32 ->
    let node := make_leaf_node_rlp key value in
    trie_path (keccak256 node) key value [node]
| path_extension key child rest value proof :
    Forall is_nibble key -> zlen key <= 2 ^ 32 -> fits U256_MAX child ->
    trie_path child rest value proof ->
    let node := make_extension_node_rlp key child in
    trie_path (keccak256 node) (key ++ rest) value (node :: proof)
| path_branch children stored n child rest value proof :
    length children = 16%nat -> Forall (fun c => default 0 c <= U256_MAX) children ->
    Forall is_byte (default [] stored) -> zlen (default [] stored) <= 2 ^ 32 ->
    is_nibble n -> children !! Z.to_nat n = Some (Some child) -> fits U256_MAX child ->
    trie_path child rest value proof ->
    let node := make_branch_node_rlp children stored in
    trie_path (keccak256 node) (n :: rest) value (node :: proof)
| path_value children value :
    length children = 16%nat -> Forall is_byte value -> zlen value <= 2 ^ 32 ->
    let node := make_branch_node_rlp children (Some value) in
    trie_path (keccak256 node) [] value [node].

Lemma encodable_small item : Forall is_byte item -> zlen item <= 2 ^ 32 + 1 -> encodable item.
Proof. intros. split; [done|]. unfold U64_MAX. lia. Qed.

Lemma zlen_encoded item : zlen item <= 2 ^ 32 + 1 -> zlen (rlp_encode_short_bytes item) <= zlen item + 9.
Proof.
  intros Hl. pose proof (zlen_nonneg item). unfold rlp_encode_short_bytes.
  destruct (_ && _); [lia|]. destruct (Z.ltb_spec (zlen item) 56); [rewrite zlen_cons; lia|].
  rewrite zlen_cons, zlen_app.
  pose proof (length_bytes_size (zlen item) ltac:(unfold U64_MAX; fit) ltac:(lia)). lia.
Qed.

Lemma zlen_concat_encoded items :
  Forall (fun i => zlen i <= 2 ^ 32 + 1) items ->
  zlen (concat (map rlp_encode_short_bytes items)) <= zlen (concat items) + 9 * Z.of_nat (length items).
Proof.
  induction 1 as [|i items Hi _ IH]; [done|]. cbn [map concat length].
  rewrite !zlen_app. pose proof (zlen_encoded i Hi). lia.
Qed.

(** A short list of items of moderate size prints and parses. *)
Lemma small_list_parses items :
  items <> [] -> (length items <= 17)%nat ->
  Forall (fun i => Forall is_byte i /\ zlen i <= 2 ^ 32 + 1) items ->
  parse_rlp_list (rlp_encode_list (map rlp_encode_short_bytes items)) = Done items.
Proof.
  intros Hne Hl Hi. apply rlp_list_round_trip; [done| |].
  - eapply Forall_impl; [done|]. intros i [? ?]. by apply encodable_small.
  - assert (Hz : zlen (concat items) <= (2 ^ 32 + 1) * Z.of_nat (length items)).
    { clear -Hi. induction Hi as [|i items [_ ?] _ IH]; [done|]. cbn [concat length].
      rewrite zlen_app. lia. }
    pose proof (zlen_concat_encoded items ltac:(eapply Forall_impl; [done|]; by intros ? [])).
    unfold U64_MAX. lia.
Qed.

Lemma starts_with_app xs ys : starts_with (xs ++ ys) xs = true.
Proof. induction xs; cbn; [done|]. by rewrite Z.eqb_refl. Qed.

Lemma starts_with_refl xs : starts_with xs xs = true.
Proof. rewrite <- (app_nil_r xs) at 1. apply starts_with_app. Qed.

Lemma leaf_parses key value :
  Forall is_nibble key -> Forall is_byte value -> zlen key + zlen value <= 2 ^ 32 ->
  parse_rlp_list (make_leaf_node_rlp key value) = Done [compact_encode key true; value].
Proof.
  intros Hk Hv Hl. pose proof (zlen_nonneg key). pose proof (zlen_nonneg value).
  pose proof (length_compact_encode key true). unfold zlen in *.
  apply (small_list_parses [_; _]); [done|cbn; lia|].
  rewrite !Forall_cons, Forall_nil. unfold zlen.
  split_and!; try lia; try done. by apply compact_encode_bytes.
Qed.

Lemma extension_parses key child :
  Forall is_nibble key -> zlen key <= 2 ^ 32 ->
  parse_rlp_list (make_extension_node_rlp key child) = Done [compact_encode key false; be_bytes 32 child].
Proof.
  intros Hk Hl. pose proof (length_compact_encode key false). unfold zlen in *.
  apply (small_list_parses [_; _]); [done|cbn; lia|].
  rewrite !Forall_cons, Forall_nil. unfold zlen. rewrite length_be_bytes.
  split_and!; try lia; try done; [by apply compact_encode_bytes|apply be_bytes_is_byte].
Qed.

Definition branch_item (c : option Z) : list Z :=
  match c with Some hash => be_bytes 32 hash | None => [] end.

Lemma branch_parses children stored :
  length children = 16%nat -> Forall is_byte (default [] stored) ->
  zlen (default [] stored) <= 2 ^ 32 ->
  parse_rlp_list (make_branch_node_rlp children stored) =
    Done (map branch_item children ++ [default [] stored]).
Proof.
  intros Hl Hb Hz. unfold make_branch_node_rlp.
  rewrite <- (small_list_parses (map branch_item children ++ [default [] stored])).
  - rewrite map_app, map_map. cbn [map]. f_equal. f_equal. f_equal.
    + apply map_ext. by intros [].
    + by destruct stored.
  - by destruct (map branch_item children).
  - rewrite length_app, length_map. cbn. lia.
  - apply Forall_app. split; [|repeat constructor; [done|lia]].
    apply Forall_map, Forall_forall. intros [h|] _; cbn [branch_item].
    + split; [apply be_bytes_is_byte|]. unfold zlen. rewrite length_be_bytes. lia.
    + split; [constructor|]. done.
Qed.

Lemma extract_hash h : fits U256_MAX h -> extract_child_ref (be_bytes 32 h) = h.
Proof.
  intros Hh. unfold extract_child_ref, zlen. rewrite length_be_bytes. cbn [Z.eqb Z.of_nat].
  rewrite from_be_be_bytes. apply Z.mod_small. unfold U256_MAX in Hh. fit.
Qed.

Lemma trie_path_verifies h key value proof :
  trie_path h key value proof -> proof <> [] /\ verify_nodes h key proof = Done (Some value).
Proof.
  induction 1 as [key value Hk Hv Hl node|key child rest value proof Hk Hl Hc _ [_ IH] node
    |children stored n child rest value proof Hl Hch Hb Hz Hn Hx Hc _ [_ IH] node
    |children value Hl Hv Hz node]; (split; [done|]); cbn [verify_nodes];
    rewrite Z.eqb_refl; cbn [negb]; unfold node.
  - rewrite leaf_parses by done. cbn [outcome_bind].
    rewrite compact_round_trip by done. cbn [outcome_bind]. by rewrite starts_with_refl.
  - rewrite extension_parses by done. cbn [outcome_bind].
    rewrite compact_round_trip by done. cbn [outcome_bind].
    by rewrite starts_with_app, extract_hash, drop_app_length by done.
  - rewrite branch_parses by done. cbn [outcome_bind].
    destruct children as [|c0 [|c1 [|c2 children]]]; [done..|]. cbn [map app].
    cbn [length] in Hl. cbn [length]. rewrite length_app, length_map. cbn [length].
    replace (S (S (S (length children + 1)))) with 17%nat by lia. cbn [negb Nat.eqb].
    destruct (Z.ltb_spec 15 n); [unfold is_nibble in Hn; lia|].
    assert (El : (branch_item c0 :: branch_item c1 :: branch_item c2 :: map branch_item children
      ++ [default [] stored]) !! Z.to_nat n = Some (be_bytes 32 child)).
    { change (branch_item c0 :: branch_item c1 :: branch_item c2 :: map branch_item children
        ++ [default [] stored]) with (map branch_item (c0 :: c1 :: c2 :: children) ++ [default [] stored]).
      apply lookup_app_l_Some. by rewrite list_lookup_fmap, Hx. }
    rewrite El. change (default [] (Some (be_bytes 32 child))) with (be_bytes 32 child).
    pose proof (length_be_bytes 32 child) as Hlen.
    rewrite !bool_decide_eq_false_2 by (intros E; by rewrite E in Hlen). cbn [orb].
    by rewrite extract_hash.
  - rewrite (branch_parses children (Some value)) by done. cbn [outcome_bind].
    change (default [] (Some value)) with value.
    destruct children as [|c0 [|c1 [|c2 children]]]; [done..|]. cbn [map app].
    cbn [length] in Hl. cbn [length]. rewrite length_app, length_map. cbn [length].
    replace (S (S (S (length children + 1)))) with 17%nat by lia. cbn [negb Nat.eqb].
    f_equal. change (branch_item c0 :: branch_item c1 :: branch_item c2 :: map branch_item children
        ++ [value]) with (map branch_item (c0 :: c1 :: c2 :: children) ++ [value]).
    rewrite (lookup_app_r (map branch_item (c0 :: c1 :: c2 :: children))) by (rewrite length_map; cbn; lia).
    rewrite length_map. cbn [length]. by replace (16 - _)%nat with O by lia.
Qed.

(** C14: honest proofs verify.  A proof made of the nodes on the path from a
    root to a value, encoded by the leaf, extension and branch encoders, is
    accepted and yields that value. *)
Theorem mpt_path_verifies root key value proof :
  trie_path root (bytes_to_nibbles key) value proof ->
  verify_mpt_proof root key proof = Done (Some value).
Proof.
  intros Hp. destruct (trie_path_verifies _ _ _ _ Hp) as [Hne E]. by destruct proof.
Qed.

End Complete.

(** ** Concrete proofs and hostile inputs *)

Module EthProofDemo.

#[local] Instance demo_keccak : Keccak := fun bs => from_be (1 :: bs).
#[local] Instance demo_header : RlpHeader := fun _ => true.

(** A root branch whose child 6 is a leaf for the rest of the key [0x61]. *)
Definition leaf : list Z := make_leaf_node_rlp [1] [10; 20].
Definition children : list (option Z) := <[6%nat := Some (keccak256 leaf)]> (replicate 16 None).
Definition branch : list Z := make_branch_node_rlp children None.
Definition root : Z := keccak256 branch.

Lemma mpt_path_verifies_witness : verify_mpt_proof root [0x61] [branch; leaf] = Done (Some [10; 20]).
Proof.
  apply (mpt_path_verifies root [0x61] [10; 20] [branch; leaf]).
  apply (path_branch children None 6 (keccak256 leaf) [1] [10; 20] [leaf]).
  - reflexivity.
  - apply Forall_insert; [apply Forall_replicate|]; by vm_compute.
  - constructor.
  - by vm_compute.
  - by split; vm_compute.
  - reflexivity.
  - by split; vm_compute.
  - apply path_leaf; [rewrite Forall_cons, Forall_nil; by repeat split; vm_compute| |by vm_compute].
    rewrite !Forall_cons, Forall_nil. by repeat split; vm_compute.
Defined.

Lemma mpt_proofs_agree_witness :
  (None : option (list Z)) = Some [10; 20] \/
  ((None : option (list Z)) = None /\
   exists k, (k < length [branch; leaf])%nat /\ [branch] = take k [branch; leaf]) \/
  collide [branch; leaf] [branch].
Proof.
  apply (mpt_proofs_agree root [0x61] [branch; leaf] [branch] [10; 20] None); vm_compute; reflexivity.
Defined.

(** A truncated proof of an included key shows its absence, and so does the
    empty proof under every root. *)
Example truncated_proof_shows_absence :
  verify_mpt_proof root [0x61] [branch; leaf] = Done (Some [10; 20]) /\
  verify_mpt_proof root [0x61] [branch] = Done None /\
  forall hash key, verify_mpt_proof hash key [] = Done None.
Proof. by split_and!; [vm_compute..|]. Qed.

(** The node key of a leaf only has to be a prefix of the rest of the key. *)
Example leaf_shows_longer_keys :
  let node := make_leaf_node_rlp [6; 1] [10; 20] in
  verify_mpt_proof (keccak256 node) [0x61; 0x62] [node] = Done (Some [10; 20]).
Proof. by vm_compute. Qed.

(** Ethereum's encoding of the odd leaf path [5] is 0x35: flags in the high
    nibble.  The verifier reads flag 5, and reads the extension 0x13 as a leaf. *)
Example hex_prefix_nibbles_swapped :
  compact_decode [0x35] = Fail InvalidNode /\ compact_encode [5] true = [0x53] /\
  compact_decode [0x13] = Done (true, [1]).
Proof. by vm_compute. Qed.

(** A branch without a value shows the empty value for the key that ends there. *)
Example empty_branch_value_included :
  let node := make_branch_node_rlp (replicate 16 None) None in
  verify_mpt_proof (keccak256 node) [] [node] = Done (Some []).
Proof. by vm_compute. Qed.

(** An item whose announced length wraps its size to 0: the list loop never
    gets past it. *)
Definition stuck_item : list Z := 0xFF :: replicate 7 0xFF ++ [0xF7].

Lemma stuck_item_diverges rounds : rlp_items decode_one_item rounds stuck_item = Diverge.
Proof.
  induction rounds as [|rounds IH]; [done|]. cbn [rlp_items stuck_item].
  change (0xFF :: replicate 7 0xFF ++ [0xF7]) with stuck_item.
  assert (E : decode_one_item stuck_item = Done ([], 0)) by (by vm_compute).
  rewrite E. cbn [outcome_bind snd]. change (drop (Z.to_nat 0) stuck_item) with stuck_item. by rewrite IH.
Qed.

(** A ten-byte receipt on which [parse_receipt_logs] does not return. *)
Example receipt_bomb : parse_receipt_logs (0xC9 :: stuck_item) = Diverge.
Proof. by vm_compute. Qed.

(** A proof node on which the verifier panics: a long string whose end
    wraps below its start. *)
Example node_bomb :
  let node := 0xC9 :: 0xBF :: replicate 7 0xFF ++ [0xF7] in
  verify_mpt_proof (keccak256 node) [] [node] = Panic.
Proof. by vm_compute. Qed.

(** A header with a number of nine bytes panics. *)
Example number_bomb :
  number (mkHeader (0xD2 :: replicate 8 0x80 ++ 0x89 :: replicate 9 1) 0) = Panic.
Proof. by vm_compute. Qed.

End EthProofDemo.
