(* ===== verification/EthLightClient.v ===== *)
(** * EthLightClient: headers of an external chain

    Models [EthLightClient] ([light-client/src/ethereum/client.rs]): verified
    headers above a trusted anchor, the buffer of early headers,
    reorganisations, pruning, inclusion checks and sync committee updates,
    with the beacon types of [light-client/src/beacon.rs] it uses.  BLS
    verification is a parameter.  Shows the invariant of the client's state,
    what its checks guarantee, and where headers and committees are accepted
    unchecked. *)

From stdpp Require Import base gmap list strings.
From Stdlib Require Import ZArith Lia.
From S2P Require Import Prelude Provider World EvmProvider Refinement Utils Rlp.
From S2P Require Import EthProof.

Local Open Scope Z_scope.
Local Open Scope callnode_scope.

(** ** Types *)

Record GenesisState : Type := mkGenesis {
  anchor_hash : Z;
  anchor_block : Z;
  anchor_state_root : Z
}.

Record BeaconConfig : Type := mkBeaconConfig {
  fork_version : list Z;
  genesis_validators_root : Z
}.

(** Where the source puts the text of another error into a message, the
    constructor carries that error. *)
Inductive LightClientError : Type :=
| InvalidHeader (msg : string)
| HeaderNotFound (block : Z)
| HeaderNotVerified (block latest : Z)
| TxNotFound
| ReceiptNotFound
| BridgeEventNotFound
| LogParseError (msg : string)
| MptProofError (e : MptError)
| EmptyProof (msg : string)
| NotInitialized
| BeforeAnchor (block : Z)
| DuplicateHeader (block : Z)
| BeforeFinalized (block : Z)
| BufferFull
| AnchorNotVerified (block : Z)
| SyncCommitteeSignatureInvalid (msg : string)
| AlreadyInitialized
| InsufficientSyncParticipation (got required : Z).

Record BeaconBlockHeader : Type := mkBeacon {
  bh_slot : Z;
  bh_proposer_index : Z;
  bh_parent_root : Z;
  bh_state_root : Z;
  bh_body_root : Z
}.

Record SyncCommittee : Type := mkCommittee {
  pubkeys : list (list Z);
  aggregate_pubkey : list Z
}.

Record SyncAggregate : Type := mkAggregate {
  sync_committee_bits : list Z;
  sync_committee_signature : list Z
}.

Record LightClientUpdate : Type := mkUpdate {
  attested_header : BeaconBlockHeader;
  next_sync_committee : SyncCommittee;
  next_sync_committee_branch : list Z;
  finalized_header : BeaconBlockHeader;
  finality_branch : list Z;
  sync_aggregate : SyncAggregate;
  signature_slot : Z
}.

Record EthLightClient : Type := mkClient {
  genesis : GenesisState;
  verified_headers : gmap Z EthHeader;
  latest_block : Z;
  finalized_block : option (Z * Z);
  buffer : list (Z * EthHeader);
  beacon_config : option BeaconConfig;
  sync_committee : option SyncCommittee;
  current_sync_period : Z
}.

Definition MAX_BUFFER_SIZE : Z := 64.
Definition SYNC_COMMITTEE_SIZE : nat := 512.
Definition MIN_SYNC_PARTICIPATION : Z := 342.

(** blst's aggregate verification under the beacon chain's tag. *)
Class BlsAggregate : Type :=
  bls_verify_aggregate_beacon : list (list Z) -> list Z -> list Z -> result string unit.

(** ** Headers *)

Definition with_headers (c : EthLightClient) (headers : gmap Z EthHeader) (latest : Z)
    (buf : list (Z * EthHeader)) : EthLightClient :=
  mkClient (genesis c) headers latest (finalized_block c) buf (beacon_config c)
    (sync_committee c) (current_sync_period c).

(** [BTreeMap::insert] and [BTreeMap::contains_key] on a list sorted by key. *)
Definition buffer_insert (n : Z) (h : EthHeader) (buf : list (Z * EthHeader)) :
    list (Z * EthHeader) := insert_by fst (n, h) buf.
Definition buffer_contains (n : Z) (buf : list (Z * EthHeader)) : bool :=
  existsb (fun e => e.1 =? n) buf.

Definition init_with_beacon_config (g : GenesisState) (cfg : option BeaconConfig) : EthLightClient :=
  mkClient g {[anchor_block g := mkHeader [] (anchor_hash g)]} (anchor_block g) None [] cfg None 0.

Definition is_verified (c : EthLightClient) (n : Z) : bool :=
  bool_decide (is_Some (verified_headers c !! n)).

(** [ok_or_else] on a header field. *)
Definition field_or {A} (msg : string) (o : outcome unit A) : outcome LightClientError A :=
  outcome_map_err (fun _ => InvalidHeader msg) o.

(** Verified headers with one more, and the latest block after it. *)
Definition add_verified (c : EthLightClient) (n : Z) (h : EthHeader) : EthLightClient :=
  with_headers c (<[n := h]> (verified_headers c)) (Z.max (latest_block c) n) (buffer c).

(** [insert_verified_header]: an error leaves the client as it was. *)
Definition insert_verified_header (c : EthLightClient) (h : EthHeader) :
    outcome LightClientError EthLightClient :=
  block_num <~ field_or "cannot decode block number" (number h);
  if is_verified c block_num then Fail (DuplicateHeader block_num)
  else Done (add_verified c block_num h).

(** One round of the loop for each buffered header; the results of the
    insertions are dropped. *)
Fixpoint flush_rounds (rounds : nat) (c : EthLightClient) : outcome LightClientError EthLightClient :=
  match rounds with
  | O => Done c
  | S rounds =>
      match List.find (fun e => is_verified c (saturating_sub e.1 1)) (buffer c) with
      | None => Done c
      | Some (n, h) =>
          let c := with_headers c (verified_headers c) (latest_block c)
                     (List.filter (fun e => negb (e.1 =? n)) (buffer c)) in
          match insert_verified_header c h with
          | Done c' => flush_rounds rounds c'
          | Fail _ => flush_rounds rounds c
          | Panic => Panic
          | Diverge => Diverge
          end
      end
  end.

Definition flush_buffer (c : EthLightClient) : outcome LightClientError EthLightClient :=
  flush_rounds (length (buffer c)) c.

(** [handle_reorg], without the unwound headers, which its caller drops. *)
Definition handle_reorg (c : EthLightClient) (h : EthHeader) :
    outcome LightClientError EthLightClient :=
  block_num <~ field_or "cannot decode block number" (number h);
  parent <~ field_or "cannot decode parent hash" (parent_hash h);
  let a := anchor_block (genesis c) in
  let candidates := rev (seqZ a (latest_block c - a + 1)) in
  let is_parent n := match verified_headers c !! n with
                     | Some p => block_hash p =? parent
                     | None => false
                     end in
  match List.find is_parent candidates with
  | None => Fail (HeaderNotFound (saturating_sub block_num 1))
  | Some fork =>
      if match finalized_block c with Some (n, _) => fork <=? n | None => false end
      then Fail (BeforeFinalized fork) else
      let kept := filter (fun e => ~ (fork < e.1 <= latest_block c)) (verified_headers c) in
      Done (with_headers c (<[block_num := h]> kept) (Z.max fork block_num) (buffer c))
  end.

Section Keccak.
Context `{Keccak}.

Definition submit_header (c : EthLightClient) (h : EthHeader) :
    outcome LightClientError EthLightClient :=
  block_num <~ field_or "cannot decode block number" (number h);
  if block_num <=? anchor_block (genesis c) then Fail (BeforeAnchor block_num) else
  if is_verified c block_num then Fail (DuplicateHeader block_num) else
  if buffer_contains block_num (buffer c) then Fail (DuplicateHeader block_num) else
  let parent_num := saturating_sub block_num 1 in
  let full := MAX_BUFFER_SIZE <=? Z.of_nat (length (buffer c)) in
  let buffered := with_headers c (verified_headers c) (latest_block c)
                    (buffer_insert block_num h (buffer c)) in
  match verified_headers c !! parent_num with
  | Some parent =>
      actual_parent <~ field_or "cannot decode parent hash" (parent_hash h);
      if negb (actual_parent =? block_hash parent) then
        c <~ handle_reorg c h; flush_buffer c
      else if negb (keccak256 (rlp_bytes h) =? block_hash h)
      then Fail (InvalidHeader "block hash does not match RLP encoding")
      else flush_buffer (add_verified c block_num h)
  | None =>
      if buffer_contains parent_num (buffer c) then
        if full then Fail BufferFull else Done buffered
      else if full then Fail BufferFull
      else if block_num <=? wrap_u64 (latest_block c + MAX_BUFFER_SIZE) then Done buffered
      else Fail (HeaderNotVerified parent_num (latest_block c))
  end.

End Keccak.

(** ** Finality, anchors and pruning *)

Definition set_finalized_block (c : EthLightClient) (block hash : Z) : EthLightClient :=
  mkClient (genesis c) (verified_headers c) (latest_block c) (Some (block, hash)) (buffer c)
    (beacon_config c) (sync_committee c) (current_sync_period c).

Definition is_consensus_verified (c : EthLightClient) (block : Z) : bool :=
  match finalized_block c with Some (n, _) => block <=? n | None => false end.

(** The lowest block both pruning functions mean to keep. *)
Definition min_keep (c : EthLightClient) : Z :=
  Z.min (anchor_block (genesis c)) (match finalized_block c with Some (n, _) => n | None => U64_MAX end).

Definition keep_from (c : EthLightClient) (n : Z) : EthLightClient :=
  with_headers c (filter (fun e => n <= e.1) (verified_headers c)) (latest_block c) (buffer c).

Definition advance_anchor (c : EthLightClient) (block hash : Z) : result LightClientError EthLightClient :=
  if negb (is_verified c block) then Err (AnchorNotVerified block) else
  _ <-! match finalized_block c with
        | Some (n, _) => if block <=? n then Err (BeforeFinalized n) else Ok tt
        | None => Ok tt
        end;
  let c := mkClient (mkGenesis hash block (anchor_state_root (genesis c))) (verified_headers c)
             (latest_block c) (finalized_block c) (buffer c) (beacon_config c)
             (sync_committee c) (current_sync_period c) in
  Ok (keep_from c (min_keep c)).

Definition prune_headers (c : EthLightClient) (before_block : Z) : EthLightClient :=
  keep_from c (Z.max before_block (min_keep c + 1)).

(** ** Inclusion *)

Section Inclusion.
Context `{Keccak, RlpHeader}.

Definition verified_header (c : EthLightClient) (block_number : Z) :
    outcome LightClientError EthHeader :=
  match verified_headers c !! block_number with
  | Some h => Done h
  | None => Fail (HeaderNotFound block_number)
  end.

Definition verify_tx_inclusion (c : EthLightClient) (block_number tx_hash : Z)
    (nodes : list (list Z)) : outcome LightClientError unit :=
  header <~ verified_header c block_number;
  tx_root <~ field_or "no transactions root" (transactions_root header);
  if bool_decide (nodes = []) then Fail (EmptyProof "empty tx proof") else
  found <~ outcome_map_err MptProofError (verify_mpt_proof tx_root (be_bytes 32 tx_hash) nodes);
  match found with Some _ => Done tt | None => Fail TxNotFound end.

Definition verify_receipt_and_parse_bridge_event (c : EthLightClient) (block_number receipt_index : Z)
    (nodes : list (list Z)) : outcome LightClientError BridgeEvent :=
  header <~ verified_header c block_number;
  root <~ field_or "no receipts root" (receipts_root header);
  if bool_decide (nodes = []) then Fail (EmptyProof "empty receipt proof") else
  found <~ outcome_map_err MptProofError
             (verify_mpt_proof root (rlp_encode_u64 receipt_index) nodes);
  match found with
  | None => Fail ReceiptNotFound
  | Some receipt_rlp =>
      logs <~ outcome_map_err LogParseError (parse_receipt_logs receipt_rlp);
      outcome_map_err (fun _ => BridgeEventNotFound) (parse_bridge_event_from_logs logs)
  end.

End Inclusion.

(** ** Sync committees *)

Fixpoint count_ones (n : nat) (b : Z) : Z :=
  match n with
  | O => 0
  | S n => (if Z.testbit b (Z.of_nat n) then 1 else 0) + count_ones n b
  end.

Definition participant_count (a : SyncAggregate) : Z :=
  foldr (fun b s => count_ones 8 b + s) 0 (sync_committee_bits a).

(** [participant_pubkeys]: the keys at the positions of the set bits. *)
Definition participant_pubkeys (committee : SyncCommittee) (bits : list Z) :
    outcome LightClientError (list (list Z)) :=
  let set := List.filter (fun i => Z.testbit (default 0 (bits !! (i / 8)%nat)) (Z.of_nat (i mod 8)))
               (seq 0 (Nat.min SYNC_COMMITTEE_SIZE (8 * length bits))) in
  match mapM (fun i => pubkeys committee !! i) set with
  | Some keys => Done keys
  | None => Panic
  end.

Definition sync_period (slot : Z) : Z := slot / 8192.

Section Committees.
Context `{Keccak, BlsAggregate}.

Definition beacon_hash_tree_root (h : BeaconBlockHeader) : Z :=
  keccak256 (le_bytes 8 (bh_slot h) ++ le_bytes 8 (bh_proposer_index h) ++
             be_bytes 32 (bh_parent_root h) ++ be_bytes 32 (bh_state_root h) ++
             be_bytes 32 (bh_body_root h) ++ replicate 16 0).

Definition compute_domain_sync_committee (version : list Z) (root : Z) : list Z :=
  [7; 0; 0; 0] ++ take 28 (be_bytes 32 (keccak256 (version ++ be_bytes 32 root))).

Definition compute_sync_committee_signing_root (h : BeaconBlockHeader) (cfg : BeaconConfig) : Z :=
  keccak256 (be_bytes 32 (beacon_hash_tree_root h) ++
             compute_domain_sync_committee (fork_version cfg) (genesis_validators_root cfg)).

Definition verify_sync_aggregate (h : BeaconBlockHeader) (a : SyncAggregate)
    (committee : SyncCommittee) (cfg : BeaconConfig) : outcome LightClientError unit :=
  let signing_root := compute_sync_committee_signing_root h cfg in
  participants <~ participant_pubkeys committee (sync_committee_bits a);
  if bool_decide (participants = []) then Fail (SyncCommitteeSignatureInvalid "no participants") else
  match bls_verify_aggregate_beacon participants (be_bytes 32 signing_root)
          (sync_committee_signature a) with
  | Ok _ => Done tt
  | Err e => Fail (SyncCommitteeSignatureInvalid e)
  end.

Definition with_committee (c : EthLightClient) (committee : option SyncCommittee) (period : Z) :
    EthLightClient :=
  mkClient (genesis c) (verified_headers c) (latest_block c) (finalized_block c) (buffer c)
    (beacon_config c) committee period.

Definition bootstrap_sync_committee (c : EthLightClient) (period : Z) (committee : SyncCommittee) :
    result LightClientError EthLightClient :=
  match sync_committee c with
  | Some _ => Err AlreadyInitialized
  | None => Ok (with_committee c (Some committee) period)
  end.

Definition apply_light_client_update (c : EthLightClient) (u : LightClientUpdate) :
    outcome LightClientError (Z * Z * EthLightClient) :=
  match beacon_config c with
  | None => Fail NotInitialized
  | Some cfg =>
      let update_period := sync_period (saturating_sub (signature_slot u) 1) in
      let committee := match sync_committee c with
                       | Some current =>
                           if update_period =? current_sync_period c then current
                           else next_sync_committee u
                       | None => next_sync_committee u
                       end in
      _ <~ verify_sync_aggregate (attested_header u) (sync_aggregate u) committee cfg;
      let participation := participant_count (sync_aggregate u) in
      if participation <? MIN_SYNC_PARTICIPATION
      then Fail (InsufficientSyncParticipation participation MIN_SYNC_PARTICIPATION) else
      let c := if current_sync_period c <? update_period
               then with_committee c (Some (next_sync_committee u)) update_period else c in
      Done (bh_slot (finalized_header u), beacon_hash_tree_root (finalized_header u), c)
  end.

End Committees.

(** ** The invariant of the client *)

Record client_wf (c : EthLightClient) : Prop := {
  wf_anchor : is_Some (verified_headers c !! anchor_block (genesis c));
  wf_latest : is_Some (verified_headers c !! latest_block c);
  wf_below : forall n, is_Some (verified_headers c !! n) -> n <= latest_block c;
  wf_number : forall n h, verified_headers c !! n = Some h -> rlp_bytes h = [] \/ number h = Done n;
  wf_buffer : forall n h, (n, h) ∈ buffer c ->
    number h = Done n /\ verified_headers c !! n = None /\
    verified_headers c !! saturating_sub n 1 = None;
  wf_keys : NoDup (map fst (buffer c));
  wf_size : Z.of_nat (length (buffer c)) <= MAX_BUFFER_SIZE
}.

(** The invariant during a flush: a buffered header may have a verified parent. *)
Record flush_wf (c : EthLightClient) : Prop := {
  fw_anchor : is_Some (verified_headers c !! anchor_block (genesis c));
  fw_latest : is_Some (verified_headers c !! latest_block c);
  fw_below : forall n, is_Some (verified_headers c !! n) -> n <= latest_block c;
  fw_number : forall n h, verified_headers c !! n = Some h -> rlp_bytes h = [] \/ number h = Done n;
  fw_buffer : forall n h, (n, h) ∈ buffer c -> number h = Done n /\ verified_headers c !! n = None;
  fw_keys : NoDup (map fst (buffer c));
  fw_size : Z.of_nat (length (buffer c)) <= MAX_BUFFER_SIZE
}.

Lemma client_flush_wf c : client_wf c -> flush_wf c.
Proof.
  intros W. split; try apply W. intros n h Hn. by destruct (wf_buffer _ W n h Hn) as (? & ? & _).
Qed.

Lemma is_verified_spec c n : is_verified c n = true <-> is_Some (verified_headers c !! n).
Proof. unfold is_verified. apply bool_decide_eq_true. Qed.

Lemma is_verified_false c n : is_verified c n = false <-> verified_headers c !! n = None.
Proof. unfold is_verified. rewrite bool_decide_eq_false, eq_None_not_Some. done. Qed.

Lemma elem_of_lfilter {A} (f : A -> bool) l x : x ∈ List.filter f l <-> x ∈ l /\ f x = true.
Proof. rewrite !list_elem_of_In. apply List.filter_In. Qed.

Lemma NoDup_lfilter_keys (f : Z * EthHeader -> bool) l :
  NoDup (map fst l) -> NoDup (map fst (List.filter f l)).
Proof.
  induction l as [|x l IH]; cbn; [done|]. intros [Hn Hd]%NoDup_cons. destruct (f x); cbn; [|by apply IH].
  apply NoDup_cons. split; [|by apply IH]. intros Hin. apply Hn.
  apply list_elem_of_fmap in Hin as (y & -> & Hy). apply list_elem_of_fmap_2.
  by apply elem_of_lfilter in Hy as [? _].
Qed.

Lemma length_lfilter {A} (f : A -> bool) l : (length (List.filter f l) <= length l)%nat.
Proof. induction l as [|x l IH]; cbn; [done|]. destruct (f x); cbn; lia. Qed.

Lemma length_lfilter_lt {A} (f : A -> bool) l x :
  x ∈ l -> f x = false -> (length (List.filter f l) < length l)%nat.
Proof.
  intros Hx Hf. induction l as [|y l IH]; [by apply elem_of_nil in Hx|]. cbn.
  pose proof (length_lfilter f l).
  apply elem_of_cons in Hx as [<-|Hx]; [rewrite Hf; lia|]. specialize (IH Hx). destruct (f y); cbn; lia.
Qed.

(** Verifying a header with a new number. *)
Lemma flush_wf_add c n h :
  flush_wf c -> verified_headers c !! n = None -> number h = Done n ->
  (forall e, e ∈ buffer c -> e.1 <> n) -> flush_wf (add_verified c n h).
Proof.
  intros W Hn Hh Hb. split; cbn [add_verified with_headers verified_headers genesis latest_block buffer].
  - rewrite lookup_insert_is_Some. destruct (decide (n = anchor_block (genesis c))); [by left|].
    right. split; [done|apply W].
  - destruct (Z.max_spec (latest_block c) n) as [[? ->]|[? ->]]; [by rewrite lookup_insert_eq; eexists|].
    rewrite lookup_insert_ne; [apply W|]. intros ->. pose proof (fw_latest _ W) as [? E]. congruence.
  - intros m [->|[_ Hm]]%lookup_insert_is_Some; [lia|]. pose proof (fw_below _ W m Hm). lia.
  - intros m x [[<- <-]|[_ Hm]]%lookup_insert_Some; [by right|]. by apply (fw_number _ W).
  - intros m x Hm. destruct (fw_buffer _ W m x Hm) as [? Hv]. split; [done|].
    rewrite lookup_insert_ne; [done|]. intros ->. by apply (Hb _ Hm).
  - apply W.
  - apply W.
Qed.

Lemma flush_wf_remove c n :
  flush_wf c ->
  flush_wf (with_headers c (verified_headers c) (latest_block c)
              (List.filter (fun e => negb (e.1 =? n)) (buffer c))).
Proof.
  intros W. split; cbn [with_headers verified_headers genesis latest_block buffer]; try apply W.
  - intros m x [Hm _]%elem_of_lfilter. by apply (fw_buffer _ W).
  - apply NoDup_lfilter_keys, W.
  - pose proof (length_lfilter (fun e => negb (e.1 =? n)) (buffer c)). pose proof (fw_size _ W). lia.
Qed.

(** What a flush leaves: every verified header, and a well-formed client. *)
Definition extends (c c' : EthLightClient) : Prop :=
  genesis c' = genesis c /\ finalized_block c' = finalized_block c /\
  forall n h, verified_headers c !! n = Some h -> verified_headers c' !! n = Some h.

#[global] Instance extends_preorder : PreOrder extends.
Proof.
  split; [done|]. intros a b c (E1 & F1 & H1) (E2 & F2 & H2).
  split; [congruence|]. split; [congruence|auto].
Qed.

Lemma extends_add c n h : verified_headers c !! n = None -> extends c (add_verified c n h).
Proof.
  intros Hn. do 2 (split; [done|]). intros m x Hm. cbn. rewrite lookup_insert_ne; [done|]. congruence.
Qed.

Lemma flush_rounds_ok rounds : forall c,
  flush_wf c -> (length (buffer c) <= rounds)%nat ->
  exists c', flush_rounds rounds c = Done c' /\ client_wf c' /\ extends c c'.
Proof.
  induction rounds as [|rounds IH]; intros c W Hl.
  - exists c. split; [done|]. split; [|done]. split; try apply W.
    intros n h Hn. destruct (buffer c); [by apply elem_of_nil in Hn|cbn in Hl; lia].
  - cbn [flush_rounds]. destruct (List.find _ (buffer c)) as [[n h]|] eqn:Ef.
    + apply List.find_some in Ef as [Hin Hp]. apply list_elem_of_In in Hin.
      destruct (fw_buffer _ W n h Hin) as [Hh Hv].
      set (c1 := with_headers c _ _ _). assert (W1 : flush_wf c1) by by apply flush_wf_remove.
      unfold insert_verified_header, field_or. rewrite Hh. cbn [outcome_map_err outcome_bind].
      assert (E1 : is_verified c1 n = false) by by apply is_verified_false. rewrite E1.
      assert (W2 : flush_wf (add_verified c1 n h)).
      { apply flush_wf_add; [done|done|done|]. intros e [_ He]%elem_of_lfilter. cbn in He. lia. }
      destruct (IH (add_verified c1 n h) W2) as (c' & E' & W' & X').
      { cbn [buffer add_verified with_headers c1].
        enough (length (List.filter (fun e => negb (Z.eqb (fst e) n)) (buffer c)) < length (buffer c))%nat by lia.
        eapply length_lfilter_lt; [done|]. cbn. by rewrite Z.eqb_refl. }
      exists c'. split; [done|]. split; [done|]. transitivity (add_verified c1 n h); [|done].
      transitivity c1; [done|]. by apply extends_add.
    + exists c. split; [done|]. split; [|done]. split; try apply W.
      intros n h Hn. destruct (fw_buffer _ W n h Hn). split; [done|]. split; [done|].
      apply list_elem_of_In in Hn. eapply List.find_none in Ef; [|done]. by apply is_verified_false.
Qed.

Lemma flush_buffer_ok c :
  flush_wf c -> exists c', flush_buffer c = Done c' /\ client_wf c' /\ extends c c'.
Proof. intros W. by apply flush_rounds_ok. Qed.

(** Outcomes that keep the invariant and the headers up to [keep]. *)
Definition keeps_headers (keep : Z) (c c' : EthLightClient) : Prop :=
  genesis c' = genesis c /\ finalized_block c' = finalized_block c /\
  forall n h, n <= keep -> verified_headers c !! n = Some h -> verified_headers c' !! n = Some h.

Lemma extends_keeps keep c c' : extends c c' -> keeps_headers keep c c'.
Proof. intros (? & ? & E). split_and!; auto. Qed.

(** The blocks no reorganisation reaches: the anchor and the finalized block. *)
Definition protected (c : EthLightClient) : Z :=
  match finalized_block c with
  | Some (n, _) => Z.max (anchor_block (genesis c)) n
  | None => anchor_block (genesis c)
  end.

Lemma handle_reorg_ok c h c' n :
  client_wf c -> number h = Done n -> verified_headers c !! n = None ->
  (forall e, e ∈ buffer c -> e.1 <> n) -> anchor_block (genesis c) < n ->
  handle_reorg c h = Done c' -> flush_wf c' /\ keeps_headers (protected c) c c'.
Proof.
  intros W Hh Hv Hb Ha. unfold handle_reorg, field_or. rewrite Hh. cbn [outcome_map_err outcome_bind].
  destruct (parent_hash h) as [ph| | |]; cbn [outcome_map_err outcome_bind]; try discriminate.
  destruct (List.find _ _) as [fork|] eqn:Ef; [|discriminate].
  apply List.find_some in Ef as [Hin Hp]. apply List.in_rev, list_elem_of_In, elem_of_seqZ in Hin.
  destruct (verified_headers c !! fork) as [p|] eqn:Efk; [|discriminate].
  destruct (match finalized_block c with Some (m, _) => fork <=? m | None => false end) eqn:Efin;
    [discriminate|].
  intros [= <-].
  assert (Hkeep : forall m x, m <= fork -> verified_headers c !! m = Some x ->
    (<[n := h]> (filter (fun e => ~ (fork < e.1 <= latest_block c)) (verified_headers c)) : gmap Z EthHeader)
      !! m = Some x).
  { intros m x Hm Hx. rewrite lookup_insert_ne by congruence. apply map_lookup_filter_Some.
    split; [done|]. cbn. lia. }
  split.
  - split; cbn [with_headers verified_headers genesis latest_block buffer].
    + pose proof (wf_anchor _ W) as [x Hx]. exists x. apply Hkeep; [lia|done].
    + destruct (Z.max_spec fork n) as [[? ->]|[? ->]]; [by rewrite lookup_insert_eq; eexists|].
      exists p. by apply Hkeep.
    + intros m [->|[_ [x Hx]]]%lookup_insert_is_Some; [lia|].
      apply map_lookup_filter_Some in Hx as [Hx Hf]. cbn in Hf.
      pose proof (wf_below _ W m ltac:(by eexists)). lia.
    + intros m x [[<- <-]|[_ Hx]]%lookup_insert_Some; [by right|].
      apply map_lookup_filter_Some in Hx as [Hx _]. by apply (wf_number _ W).
    + intros m x Hm. destruct (wf_buffer _ W m x Hm) as (? & Hn & _). split; [done|].
      rewrite lookup_insert_ne by (intros ->; by apply (Hb _ Hm)).
      apply map_lookup_filter_None. by left.
    + apply W.
    + apply W.
  - do 2 (split; [done|]). intros m x Hm Hx. apply Hkeep; [|done]. unfold protected in Hm.
    destruct (finalized_block c) as [[f ?]|]; lia.
Qed.

Lemma buffer_contains_false n buf e : buffer_contains n buf = false -> e ∈ buf -> e.1 <> n.
Proof.
  unfold buffer_contains. intros Hf He <-. apply not_true_iff_false in Hf. apply Hf.
  apply List.existsb_exists. exists e. split; [by apply list_elem_of_In|lia].
Qed.

(** Buffering a header whose parent is not verified. *)
Lemma wf_buffer_insert c n h :
  client_wf c -> number h = Done n -> verified_headers c !! n = None ->
  buffer_contains n (buffer c) = false -> verified_headers c !! saturating_sub n 1 = None ->
  (MAX_BUFFER_SIZE <=? Z.of_nat (length (buffer c))) = false ->
  client_wf (with_headers c (verified_headers c) (latest_block c) (buffer_insert n h (buffer c))).
Proof.
  intros W Hh Hv Hb Hp Hs. pose proof (insert_by_perm fst (n, h) (buffer c)) as P.
  split; cbn [with_headers verified_headers genesis latest_block buffer]; try apply W.
  - intros m x Hm. unfold buffer_insert in Hm. rewrite P in Hm.
    apply elem_of_cons in Hm as [[= -> ->]|Hm]; [done|]. by apply (wf_buffer _ W).
  - unfold buffer_insert. rewrite P. cbn. apply NoDup_cons. split; [|apply W].
    intros (e & He & Hin)%list_elem_of_fmap. by apply (buffer_contains_false n (buffer c) e).
  - unfold buffer_insert. rewrite P. cbn [length]. lia.
Qed.

Section Steps.
Context `{Keccak, RlpHeader, BlsAggregate}.

(** Accepted headers keep the invariant and every protected header. *)
Lemma submit_header_ok c h c' :
  client_wf c -> submit_header c h = Done c' -> client_wf c' /\ keeps_headers (protected c) c c'.
Proof.
  intros W. unfold submit_header, field_or.
  destruct (number h) as [n| | |] eqn:Hh; cbn [outcome_map_err outcome_bind]; try discriminate.
  destruct (Z.leb_spec n (anchor_block (genesis c))) as [|Ha]; [discriminate|].
  destruct (is_verified c n) eqn:Hv; [discriminate|]. apply is_verified_false in Hv.
  destruct (buffer_contains n (buffer c)) eqn:Hb; [discriminate|].
  assert (Hne : forall e, e ∈ buffer c -> e.1 <> n) by (intros; by eapply buffer_contains_false).
  destruct (verified_headers c !! saturating_sub n 1) as [parent|] eqn:Hp.
  - destruct (parent_hash h) as [ph| | |]; cbn [outcome_map_err outcome_bind]; try discriminate.
    destruct (negb (ph =? block_hash parent)).
    + destruct (handle_reorg c h) as [c1| | |] eqn:Er; cbn [outcome_bind]; try discriminate.
      destruct (handle_reorg_ok c h c1 n W Hh Hv Hne Ha Er) as [W1 K1].
      destruct (flush_buffer_ok c1 W1) as (c2 & -> & W2 & X2). intros [= <-]. split; [done|].
      destruct K1 as (G1 & F1 & V1), X2 as (G2 & F2 & V2). split_and!; [congruence..|auto].
    + destruct (negb _); [discriminate|].
      destruct (flush_buffer_ok (add_verified c n h)) as (c2 & -> & W2 & X2).
      { apply flush_wf_add; [by apply client_flush_wf|done..]. }
      intros [= <-]. split; [done|]. apply extends_keeps.
      transitivity (add_verified c n h); [by apply extends_add|done].
  - destruct (MAX_BUFFER_SIZE <=? _) eqn:Hs;
      [by destruct (buffer_contains (saturating_sub n 1) (buffer c)); intros|].
    assert (G : client_wf (with_headers c (verified_headers c) (latest_block c)
                 (buffer_insert n h (buffer c)))) by by apply wf_buffer_insert.
    destruct (buffer_contains (saturating_sub n 1) (buffer c)); [intros [= <-]; by split|].
    destruct (n <=? wrap_u64 _); [intros [= <-]; by split|discriminate].
Qed.

Lemma advance_anchor_ok c block hash c' :
  client_wf c -> advance_anchor c block hash = Ok c' -> client_wf c'.
Proof.
  intros W. unfold advance_anchor. destruct (is_verified c block) eqn:Hv; cbn [negb]; [|discriminate].
  apply is_verified_spec in Hv. pose proof (wf_below _ W block Hv) as Hb.
  set (c1 := mkClient _ _ _ _ _ _ _ _).
  assert (Hm : match finalized_block c with
               | Some (n, _) => if block <=? n then Err (BeforeFinalized n) else Ok tt
               | None => Ok tt end = Ok tt -> min_keep c1 <= block) by (unfold min_keep; cbn; lia).
  destruct (match finalized_block c with Some (n, _) => _ | None => _ end) as [[]|]; cbn [result_bind];
    [|discriminate]. specialize (Hm eq_refl). intros [= <-].
  split; cbn [keep_from with_headers verified_headers genesis latest_block buffer anchor_block c1].
  - destruct Hv as [x Hx]. exists x. apply map_lookup_filter_Some. done.
  - pose proof (wf_latest _ W) as [x Hx]. exists x. apply map_lookup_filter_Some. split; [done|]. cbn. lia.
  - intros n [x Hx]. apply map_lookup_filter_Some in Hx as [Hx _]. apply (wf_below _ W). by eexists.
  - intros n x Hx. apply map_lookup_filter_Some in Hx as [Hx _]. by apply (wf_number _ W).
  - intros n x Hx. destruct (wf_buffer _ W n x Hx) as (? & ? & ?). split; [done|].
    split; apply map_lookup_filter_None; by left.
  - apply W.
  - apply W.
Qed.

(** The operations on a client. *)
Inductive client_step : EthLightClient -> EthLightClient -> Prop :=
| step_submit c h c' : submit_header c h = Done c' -> client_step c c'
| step_finalize c block hash : client_step c (set_finalized_block c block hash)
| step_bootstrap c period committee c' :
    bootstrap_sync_committee c period committee = Ok c' -> client_step c c'
| step_update c u slot root c' :
    apply_light_client_update c u = Done (slot, root, c') -> client_step c c'
| step_advance_anchor c block hash c' : advance_anchor c block hash = Ok c' -> client_step c c'.

(** The invariant does not depend on the committee and the finalized block. *)
Lemma wf_same_headers c c' :
  genesis c' = genesis c -> verified_headers c' = verified_headers c ->
  latest_block c' = latest_block c -> buffer c' = buffer c -> client_wf c -> client_wf c'.
Proof. intros Eg Ev El Eb W. split; rewrite ?Eg, ?Ev, ?El, ?Eb; apply W. Qed.

Lemma update_ok c u slot root c' :
  apply_light_client_update c u = Done (slot, root, c') ->
  c' = c \/ exists s p, c' = with_committee c s p.
Proof.
  unfold apply_light_client_update. destruct (beacon_config c); [|discriminate].
  destruct (verify_sync_aggregate _ _ _ _); cbn [outcome_bind]; try discriminate.
  destruct (_ <? MIN_SYNC_PARTICIPATION); [discriminate|].
  intros [= <- <- <-]. destruct (_ <? _); [right; eauto|by left].
Qed.

Lemma client_step_wf c c' : client_step c c' -> client_wf c -> client_wf c'.
Proof.
  destruct 1 as [c h c' E|c b x|c p s c' E|c u sl r c' E|c b x c' E]; intros W.
  - by apply (submit_header_ok c h).
  - by apply (wf_same_headers c).
  - unfold bootstrap_sync_committee in E. destruct (sync_committee c); [discriminate|].
    injection E as <-. by apply (wf_same_headers c).
  - apply update_ok in E as [->|(s & p & ->)]; [done|]. by apply (wf_same_headers c).
  - by apply (advance_anchor_ok c b x).
Qed.

Lemma init_wf g cfg : client_wf (init_with_beacon_config g cfg).
Proof.
  split; cbn [init_with_beacon_config verified_headers genesis latest_block buffer]; try done.
  - rewrite lookup_singleton_eq. by eexists.
  - rewrite lookup_singleton_eq. by eexists.
  - intros n [x Hx]. apply lookup_singleton_Some in Hx as [<- _]. lia.
  - intros n h Hx. apply lookup_singleton_Some in Hx as [_ <-]. by left.
  - intros n h Hx. by apply elem_of_nil in Hx.
  - constructor.
Qed.


(** C16: accepted headers displace nothing that is final.  Accepting a header
    keeps the trusted anchor and the finality mark, and every verified header
    up to them. *)
Theorem final_headers_survive c h c' :
  client_wf c -> submit_header c h = Done c' ->
  genesis c' = genesis c /\ finalized_block c' = finalized_block c /\
  forall n x, n <= protected c -> verified_headers c !! n = Some x -> verified_headers c' !! n = Some x.
Proof. intros W E. by apply (submit_header_ok c h). Qed.

(** Nothing above the latest block is verified. *)
Lemma above_latest c n : client_wf c -> latest_block c < n -> verified_headers c !! n = None.
Proof.
  intros W Hlt. apply eq_None_not_Some. intros Hs. apply (wf_below c W) in Hs. lia.
Qed.

Lemma anchor_below c : client_wf c -> anchor_block (genesis c) <= latest_block c.
Proof. intros W. apply (wf_below c W), W. Qed.

(** The header after the next one is buffered. *)
Lemma submit_ahead c h :
  client_wf c -> buffer c = [] -> 0 <= latest_block c -> latest_block c + 64 <= U64_MAX ->
  number h = Done (latest_block c + 2) ->
  submit_header c h =
    Done (with_headers c (verified_headers c) (latest_block c) [(latest_block c + 2, h)]).
Proof.
  intros W Hb Hp Hm N. pose proof (anchor_below c W).
  unfold submit_header, field_or. rewrite N. cbn [outcome_map_err outcome_bind].
  destruct (Z.leb_spec (latest_block c + 2) (anchor_block (genesis c))); [lia|].
  rewrite (proj2 (is_verified_false c (latest_block c + 2))) by (apply above_latest; [done|lia]).
  rewrite Hb. cbn [buffer_contains existsb].
  replace (saturating_sub (latest_block c + 2) 1) with (latest_block c + 1) by (unfold saturating_sub; lia).
  rewrite above_latest by (done || lia). cbn [length Z.of_nat]. change (MAX_BUFFER_SIZE <=? 0) with false.
  destruct (Z.leb_spec (latest_block c + 2) (wrap_u64 (latest_block c + MAX_BUFFER_SIZE))) as [|Hbad];
    [done|]. exfalso. revert Hbad. unfold wrap_u64, MAX_BUFFER_SIZE. unfold U64_MAX in *.
  rewrite Z.mod_small by lia. lia.
Qed.

(** A genuine next header is verified, and then the buffer is flushed. *)
Lemma submit_next c buf top h :
  client_wf c -> 0 <= latest_block c -> verified_headers c !! latest_block c = Some top ->
  number h = Done (latest_block c + 1) -> parent_hash h = Done (block_hash top) ->
  keccak256 (rlp_bytes h) = block_hash h ->
  buffer_contains (latest_block c + 1) buf = false ->
  let c1 := with_headers c (verified_headers c) (latest_block c) buf in
  submit_header c1 h = flush_buffer (add_verified c1 (latest_block c + 1) h).
Proof.
  intros W Hp Ht N P K Hb c1. pose proof (anchor_below c W).
  unfold submit_header, field_or. rewrite N. cbn [outcome_map_err outcome_bind].
  change (genesis c1) with (genesis c). change (buffer c1) with buf.
  change (is_verified c1) with (is_verified c). change (verified_headers c1) with (verified_headers c).
  destruct (Z.leb_spec (latest_block c + 1) (anchor_block (genesis c))); [lia|].
  rewrite (proj2 (is_verified_false c (latest_block c + 1))) by (apply above_latest; [done|lia]).
  rewrite Hb. replace (saturating_sub (latest_block c + 1) 1) with (latest_block c) by (unfold saturating_sub; lia).
  rewrite Ht, P. cbn [outcome_map_err outcome_bind]. by rewrite Z.eqb_refl, K, Z.eqb_refl.
Qed.

(** Flushing a buffer with one header whose parent is verified. *)
Lemma flush_single c n h :
  buffer c = [(n, h)] -> number h = Done n -> verified_headers c !! n = None ->
  is_Some (verified_headers c !! saturating_sub n 1) ->
  flush_buffer c = Done (add_verified (with_headers c (verified_headers c) (latest_block c) []) n h).
Proof.
  intros Hb N Hn Hp. unfold flush_buffer. rewrite Hb. cbn [length flush_rounds].
  rewrite Hb. cbn [List.find fst]. rewrite (proj2 (is_verified_spec _ _)) by done.
  cbn [List.filter fst]. rewrite Z.eqb_refl. cbn [negb].
  unfold insert_verified_header, field_or. rewrite N. cbn [outcome_map_err outcome_bind].
  by rewrite (proj2 (is_verified_false _ n)).
Qed.

(** A buffered header needs no hash.  On a client with an empty buffer,
    a header of any content with the number after the next one is accepted
    into the buffer, and becomes verified as soon as a genuine header for the
    next block arrives. *)
Theorem unchecked_header_verified c top h1 h2 :
  client_wf c -> buffer c = [] -> 0 <= latest_block c -> latest_block c + 64 <= U64_MAX ->
  verified_headers c !! latest_block c = Some top ->
  number h1 = Done (latest_block c + 1) -> parent_hash h1 = Done (block_hash top) ->
  keccak256 (rlp_bytes h1) = block_hash h1 ->
  number h2 = Done (latest_block c + 2) ->
  exists c1 c2, submit_header c h2 = Done c1 /\ submit_header c1 h1 = Done c2 /\
    verified_headers c2 !! (latest_block c + 2) = Some h2.
Proof.
  intros W Hb Hp Hm Ht N1 P1 K1 N2. eexists _, _.
  split; [by apply submit_ahead|].
  rewrite (submit_next c _ top) by (done || (unfold buffer_contains; cbn; lia)).
  rewrite (flush_single _ (latest_block c + 2) h2); [|done..| |].
  - split; [done|]. cbn. by rewrite lookup_insert_eq.
  - cbn. rewrite lookup_insert_ne by lia. apply above_latest; [done|lia].
  - cbn. replace (saturating_sub (latest_block c + 2) 1) with (latest_block c + 1)
      by (unfold saturating_sub; lia). rewrite lookup_insert_eq. by eexists.
Qed.

(** An update for a later period certifies itself.  If the aggregate of
    an update verifies under the committee that the update itself brings,
    the client accepts the update and trusts that committee from then on,
    whatever committee it trusted before and whatever the branches say. *)
Theorem later_update_self_certified c cfg u :
  beacon_config c = Some cfg ->
  let period := sync_period (saturating_sub (signature_slot u) 1) in
  current_sync_period c < period ->
  verify_sync_aggregate (attested_header u) (sync_aggregate u) (next_sync_committee u) cfg = Done tt ->
  MIN_SYNC_PARTICIPATION <= participant_count (sync_aggregate u) ->
  apply_light_client_update c u =
    Done (bh_slot (finalized_header u), beacon_hash_tree_root (finalized_header u),
          with_committee c (Some (next_sync_committee u)) period).
Proof.
  intros Hc period Hp Hv Hm. unfold apply_light_client_update. rewrite Hc. fold period.
  replace (period =? current_sync_period c) with false by lia.
  assert (E : (match sync_committee c with Some _ => next_sync_committee u
               | None => next_sync_committee u end) = next_sync_committee u) by by destruct (sync_committee c).
  rewrite E, Hv. cbn [outcome_bind].
  destruct (Z.ltb_spec (participant_count (sync_aggregate u)) MIN_SYNC_PARTICIPATION); [lia|].
  destruct (Z.ltb_spec (current_sync_period c) period); [done|lia].
Qed.

End Steps.

(** [prune_headers] removes the anchor's header, whatever block it is asked
    to prune before. *)
Lemma prune_drops_anchor c before :
  match finalized_block c with Some (n, _) => anchor_block (genesis c) <= n | None => True end ->
  anchor_block (genesis c) <= U64_MAX ->
  verified_headers (prune_headers c before) !! anchor_block (genesis c) = None.
Proof.
  intros Hf Ha. cbn. apply map_lookup_filter_None. right. intros h _. cbn. unfold min_keep.
  destruct (finalized_block c) as [[n ?]|]; lia.
Qed.

(** ** A concrete client *)

Module EthLightClientDemo.

#[local] Instance demo_keccak : Keccak := fun bs => from_be (1 :: bs).
#[local] Instance demo_header : RlpHeader := fun _ => true.
(** A signature scheme in which everybody's signature is the message. *)
#[local] Instance demo_bls : BlsAggregate := fun _ msg sig =>
  if bool_decide (sig = msg) then Ok tt else Err "verify failed"%string.

Definition cfg : BeaconConfig := mkBeaconConfig [4; 0; 0; 0] 5.
Definition start : EthLightClient := init_with_beacon_config (mkGenesis 7 10 0) (Some cfg).

(** Block 11, the child of the anchor, and a block 12 without parent. *)
Definition next : EthHeader := from_rlp (0xE9 :: 0xA0 :: be_bytes 32 7 ++ replicate 7 0x80 ++ [11]).
Definition junk : EthHeader := mkHeader (0xC9 :: replicate 8 0x80 ++ [12]) 0.

Lemma start_wf : client_wf start.
Proof. apply init_wf. Qed.

Definition both : EthLightClient :=
  match submit_header start junk with
  | Done c => match submit_header c next with Done c => c | _ => start end
  | _ => start
  end.


Lemma final_headers_survive_witness :
  exists c', submit_header start next = Done c' /\
  (genesis c' = genesis start /\ finalized_block c' = finalized_block start /\
   forall n x, n <= protected start ->
     verified_headers start !! n = Some x -> verified_headers c' !! n = Some x).
Proof.
  eexists. split; [vm_compute; reflexivity|].
  apply (final_headers_survive start next); [apply start_wf|vm_compute; reflexivity].
Defined.

Lemma unchecked_header_verified_witness :
  exists c1 c2, submit_header start junk = Done c1 /\ submit_header c1 next = Done c2 /\
    verified_headers c2 !! (latest_block start + 2) = Some junk.
Proof.
  apply (unchecked_header_verified start (mkHeader [] 7) next junk);
    [apply start_wf|vm_compute; congruence..].
Defined.

(** Block 13 claims the anchor as its parent: it replaces the verified
    blocks 11 and 12, and no parent of it is known. *)
Example reorg_leaves_a_gap :
  let h := mkHeader (0xE9 :: 0xA0 :: be_bytes 32 7 ++ replicate 7 0x80 ++ [13]) 0 in
  exists c, submit_header both h = Done c /\
    is_verified c 11 = false /\ is_verified c 12 = false /\ is_verified c 13 = true.
Proof. eexists. split; [vm_compute; reflexivity|]. by vm_compute. Qed.

(** A committee of 512 made-up keys. *)
Definition forged : SyncCommittee := mkCommittee (replicate 512 [1]) [1].
Definition attested : BeaconBlockHeader := mkBeacon 8192 0 0 0 0.
Definition update : LightClientUpdate :=
  mkUpdate attested forged [] attested []
    (mkAggregate (replicate 64 0xFF)
      (be_bytes 32 (compute_sync_committee_signing_root attested cfg))) 8193.
Definition honest : SyncCommittee := mkCommittee (replicate 512 [2]) [2].
Definition trusting : EthLightClient := with_committee start (Some honest) 0.

Lemma later_update_self_certified_witness :
  apply_light_client_update trusting update =
    Done (8192, beacon_hash_tree_root attested, with_committee trusting (Some forged) 1).
Proof.
  apply (later_update_self_certified trusting cfg update);
    [reflexivity|vm_compute; reflexivity|vm_compute; reflexivity|vm_compute; discriminate].
Defined.

End EthLightClientDemo.
