(* ===== verification/Bridge.v ===== *)
(** * Bridge: deposits, withdrawals and challenges

    Models [BridgeStorage] and the precompile of
    [crates/bridge/src/precompile.rs] at 0x103, with the default feature
    [light-client-bridge]: limits of deposits and withdrawals, the record of
    processed source transactions, challenges with their bonds, and the
    verification of fraud proofs with the verifier of [EthProof], over the
    asset ledger of [Asset] and the staking of [Validator].  The postcard
    codec of fraud proofs is the class [FraudProofCodec], the generated ABI
    codecs are the class [BridgeAbi]. *)

From stdpp Require Import base gmap list strings pretty.
From Stdlib Require Import ZArith Lia.
From S2P Require Import Prelude Provider World EvmProvider Refinement Dispatch Utils.
From S2P Require Import Asset AssetSpec Validator Keyed Rlp EthProof Trap.

Local Open Scope Z_scope.
Local Open Scope callnode_scope.

Definition MAX_PROOF_LEN : Z := 16 * 1024.
Definition DEFAULT_MAX_PER_TX : Z := 1000000000000000000000.
Definition DEFAULT_DAILY_LIMIT : Z := 10000000000000000000000.
Definition DEFAULT_BLOCKS_PER_DAY : Z := 345600.
Definition DEFAULT_MAX_WITHDRAW_PER_PERIOD : Z := 5000000000000000000000.
Definition DEFAULT_BRIDGE_FEE : Z := 0.
Definition DEFAULT_PROCESSED_RETENTION : Z := 4838400.
Definition DEFAULT_CHALLENGE_PERIOD : Z := 2419200.
Definition DEFAULT_WITHDRAW_PERIOD_BLOCKS : Z := 2419200.
Definition DEFAULT_CHALLENGE_BOND : Z := 1000.

Inductive BridgeError : Type :=
| AssetNotRegistered
| BridgePaused
| AssetZeroNotBridgeable
| AlreadyProcessed
| NotProcessed
| AlreadyChallenged
| ChallengePeriodExpired
| ChallengeNotPending
| ChallengeDeadlineNotReached
| NotChallenger
| ChallengeNotSuccessful
| BInsufficientBalance
| BBalanceOverflow
| BInvalidInput
| ExceedsMaxPerTx (asset_id amount limit : Z)
| ExceedsDailyLimit (asset_id used limit : Z)
| ExternalAssetNotAllowed (asset_id : Z)
| UnauthorizedBridgeContract (chain_id contract : Z)
| ExceedsWithdrawLimit (asset_id withdrawn limit : Z)
| BridgeFeeExceedsAmount (fee amount : Z)
| UnauthorizedResolver (addr : Z).

Definition bridge_error_to_string `{AddressDisplay} (e : BridgeError) : string :=
  match e with
  | AssetNotRegistered => "asset not registered"
  | BridgePaused => "bridge paused"
  | AssetZeroNotBridgeable => "asset 0 not bridgeable"
  | AlreadyProcessed => "source tx already processed"
  | NotProcessed => "source tx not processed"
  | AlreadyChallenged => "challenge already exists"
  | ChallengePeriodExpired => "challenge period expired"
  | ChallengeNotPending => "challenge not pending"
  | ChallengeDeadlineNotReached => "challenge deadline not reached"
  | NotChallenger => "not challenger"
  | ChallengeNotSuccessful => "challenge not successful"
  | BInsufficientBalance => "insufficient balance"
  | BBalanceOverflow => "balance overflow"
  | BInvalidInput => "invalid input"
  | ExceedsMaxPerTx id amount limit =>
      "exceeds max per tx: asset=" +:+ pretty id +:+ ", amount=" +:+ pretty amount +:+
      ", limit=" +:+ pretty limit
  | ExceedsDailyLimit id used limit =>
      "exceeds daily limit: asset=" +:+ pretty id +:+ ", daily_used=" +:+ pretty used +:+
      ", limit=" +:+ pretty limit
  | ExternalAssetNotAllowed id => "external bridge asset not allowed: " +:+ pretty id
  | UnauthorizedBridgeContract chain contract =>
      "unauthorized bridge contract: chain=" +:+ pretty chain +:+ ", contract=" +:+
      address_display contract
  | ExceedsWithdrawLimit id withdrawn limit =>
      "exceeds withdraw limit: asset=" +:+ pretty id +:+ ", period_withdrawn=" +:+
      pretty withdrawn +:+ ", limit=" +:+ pretty limit
  | BridgeFeeExceedsAmount fee amount =>
      "bridge fee exceeds amount: fee=" +:+ pretty fee +:+ ", amount=" +:+ pretty amount
  | UnauthorizedResolver addr => "unauthorized resolver: " +:+ address_display addr
  end.

(** [From<AssetError>]. *)
Definition bridge_error_of_asset (e : AssetError) : BridgeError :=
  match e with
  | InsufficientBalance => BInsufficientBalance
  | BalanceOverflow => BBalanceOverflow
  | _ => BInvalidInput
  end.

Abbreviation bres A := (result BridgeError A).

(** ** Storage slots

    A hash of the source chain is the number of its 32 bytes. *)

Inductive bridge_key : Type :=
| slot_bridge_total_deposits
| slot_bridge_total_withdrawals
| slot_bridge_paused
| slot_bridge_processed (tx_hash : Z)
| slot_bridge_challenge_status (tx_hash : Z)
| slot_bridge_challenge_challenger (tx_hash : Z)
| slot_bridge_challenge_deadline (tx_hash : Z)
| slot_bridge_challenge_bond (tx_hash : Z)
| slot_bridge_challenge_proof_hash (tx_hash : Z)
| slot_bridge_challenge_proof_len (tx_hash : Z)
| slot_bridge_challenge_original_validator (tx_hash : Z)
| slot_bridge_deposit_asset_id (tx_hash : Z)
| slot_bridge_deposit_recipient (tx_hash : Z)
| slot_bridge_deposit_amount (tx_hash : Z)
| slot_bridge_deposit_block_height (tx_hash : Z)
| slot_challenge_period
| slot_challenge_bond_amount
| slot_bridge_challenge_proof_chunk (tx_hash chunk_index : Z)
| slot_bridge_max_per_tx (asset_id : Z)
| slot_bridge_daily_limit (asset_id : Z)
| slot_bridge_daily_used (asset_id day : Z)
| slot_bridge_blocks_per_day
| slot_bridge_asset_allowed (asset_id : Z)
| slot_bridge_authorized_contract (chain_id contract : Z)
| slot_bridge_max_withdraw_per_period
| slot_bridge_period_withdrawn (asset_id : Z)
| slot_bridge_withdraw_period
| slot_bridge_bridge_fee
| slot_bridge_current_period_start
| slot_bridge_processed_retention.

#[global] Instance bridge_key_eq_dec : EqDecision bridge_key.
Proof. solve_decision. Defined.

Definition hash_bytes (h : Z) : list Z := be_bytes 32 h.

Definition bridge_parts (k : bridge_key) : list (list Z) :=
  match k with
  | slot_bridge_total_deposits | slot_bridge_total_withdrawals => []
  | slot_bridge_paused => [b_ "paused"]
  | slot_bridge_processed h => [b_ "processed"; hash_bytes h]
  | slot_bridge_challenge_status h => [b_ "challenge_status"; hash_bytes h]
  | slot_bridge_challenge_challenger h => [b_ "challenge_challenger"; hash_bytes h]
  | slot_bridge_challenge_deadline h => [b_ "challenge_deadline"; hash_bytes h]
  | slot_bridge_challenge_bond h => [b_ "challenge_bond"; hash_bytes h]
  | slot_bridge_challenge_proof_hash h => [b_ "challenge_proof_hash"; hash_bytes h]
  | slot_bridge_challenge_proof_len h => [b_ "challenge_proof_len"; hash_bytes h]
  | slot_bridge_challenge_original_validator h => [b_ "challenge_validator"; hash_bytes h]
  | slot_bridge_deposit_asset_id h => [b_ "deposit_asset_id"; hash_bytes h]
  | slot_bridge_deposit_recipient h => [b_ "deposit_recipient"; hash_bytes h]
  | slot_bridge_deposit_amount h => [b_ "deposit_amount"; hash_bytes h]
  | slot_bridge_deposit_block_height h => [b_ "deposit_block"; hash_bytes h]
  | slot_challenge_period => [b_ "challenge_period"]
  | slot_challenge_bond_amount => [b_ "challenge_bond"]
  | slot_bridge_challenge_proof_chunk h i => [b_ "challenge_proof"; hash_bytes h; u64_bytes i]
  | slot_bridge_max_per_tx id => [b_ "max_per_tx"; u64_bytes id]
  | slot_bridge_daily_limit id => [b_ "daily_limit"; u64_bytes id]
  | slot_bridge_daily_used id day => [b_ "daily_used"; u64_bytes id; u64_bytes day]
  | slot_bridge_blocks_per_day => [b_ "blocks_per_day"]
  | slot_bridge_asset_allowed id => [b_ "asset_allowed"; u64_bytes id]
  | slot_bridge_authorized_contract chain contract =>
      [b_ "authorized"; u64_bytes chain; addr_bytes contract]
  | slot_bridge_max_withdraw_per_period => [b_ "max_withdraw_period"]
  | slot_bridge_period_withdrawn id => [b_ "period_withdrawn"; u64_bytes id]
  | slot_bridge_withdraw_period => [b_ "withdraw_period"]
  | slot_bridge_bridge_fee => [b_ "bridge_fee"]
  | slot_bridge_current_period_start => [b_ "period_start"]
  | slot_bridge_processed_retention => [b_ "processed_retention"]
  end.

#[global] Instance bridge_keyed `{Keccak} : Keyed bridge_key := {|
  key_address := BRIDGE_ADDRESS;
  key_slot k := match k with
                | slot_bridge_total_deposits => 0
                | slot_bridge_total_withdrawals => 1
                | _ => storage_slot (bridge_parts k)
                end
|}.

Inductive ChallengeStatus : Type := NoChallenge | Pending | Successful | Failed | Withdrawn.

#[global] Instance ChallengeStatus_eq_dec : EqDecision ChallengeStatus.
Proof. solve_decision. Defined.

Definition status_of_word (v : Z) : ChallengeStatus :=
  match u256_to_u8 v with
  | 1 => Pending
  | 2 => Successful
  | 3 => Failed
  | 4 => Withdrawn
  | _ => NoChallenge
  end.

Inductive WithdrawLimitCheck : Type :=
| NewPeriod
| ExistingPeriod (new_total : Z).

(** [external/types.rs]. *)
Inductive FraudProofType : Type :=
| TxNonExistence
| ReceiptConflict (receipt_index : Z).

Record FraudProof : Type := mkFraudProof {
  header : EthHeader;
  proof_type : FraudProofType;
  mpt_nodes : list (list Z)
}.

(** [postcard::from_bytes]. *)
Class FraudProofCodec : Type := decode_fraud_proof : list Z -> option FraudProof.

Section Storage.
Context `{Keccak}.

(** ** Reads *)

Definition get_total_deposits : prog Z := kget u256_to_u128 slot_bridge_total_deposits.
Definition get_total_withdrawals : prog Z := kget u256_to_u128 slot_bridge_total_withdrawals.
Definition is_paused : prog bool := kget (fun v => negb (u256_to_u8 v =? 0)) slot_bridge_paused.

(** Configuration values are stored plus one; 0 means the default. *)
Definition load_u64_or_default (k : bridge_key) (default : Z) : prog Z :=
  kget (fun v => let stored := u256_to_u64 v in if stored =? 0 then default else stored - 1) k.
Definition load_u128_or_default (k : bridge_key) (default : Z) : prog Z :=
  kget (fun v => let stored := u256_to_u128 v in if stored =? 0 then default else stored - 1) k.

Definition read_challenge_period : prog Z :=
  load_u64_or_default slot_challenge_period DEFAULT_CHALLENGE_PERIOD.
Definition read_global_challenge_bond : prog Z :=
  load_u128_or_default slot_challenge_bond_amount DEFAULT_CHALLENGE_BOND.
Definition read_max_per_tx (asset_id : Z) : prog Z :=
  load_u128_or_default (slot_bridge_max_per_tx asset_id) DEFAULT_MAX_PER_TX.
Definition read_daily_limit (asset_id : Z) : prog Z :=
  load_u128_or_default (slot_bridge_daily_limit asset_id) DEFAULT_DAILY_LIMIT.
Definition read_blocks_per_day : prog Z :=
  load_u64_or_default slot_bridge_blocks_per_day DEFAULT_BLOCKS_PER_DAY.
Definition read_max_external_withdraw_per_period : prog Z :=
  load_u128_or_default slot_bridge_max_withdraw_per_period DEFAULT_MAX_WITHDRAW_PER_PERIOD.
Definition read_withdraw_period : prog Z :=
  load_u64_or_default slot_bridge_withdraw_period DEFAULT_WITHDRAW_PERIOD_BLOCKS.
Definition read_bridge_fee : prog Z := load_u128_or_default slot_bridge_bridge_fee DEFAULT_BRIDGE_FEE.
Definition read_processed_retention_blocks : prog Z :=
  load_u64_or_default slot_bridge_processed_retention DEFAULT_PROCESSED_RETENTION.

Definition is_processed (tx_hash current_block : Z) : prog bool :=
  stored <- kload (slot_bridge_processed tx_hash);
  if stored =? 0 then Ret false else
  let processed_at := u256_to_u64 stored in
  retention <- read_processed_retention_blocks;
  Ret (saturating_sub current_block processed_at <=? retention).

Definition read_challenge_status (tx_hash : Z) : prog ChallengeStatus :=
  kget status_of_word (slot_bridge_challenge_status tx_hash).
Definition read_challenge_deadline (tx_hash : Z) : prog Z :=
  kget u256_to_u64 (slot_bridge_challenge_deadline tx_hash).
Definition read_challenge_bond_for_tx (tx_hash : Z) : prog Z :=
  kget u256_to_u128 (slot_bridge_challenge_bond tx_hash).
Definition read_challenge_challenger (tx_hash : Z) : prog Z :=
  kget u256_to_address (slot_bridge_challenge_challenger tx_hash).
Definition read_deposit_asset_id (tx_hash : Z) : prog Z :=
  kget u256_to_u64 (slot_bridge_deposit_asset_id tx_hash).
Definition read_deposit_recipient (tx_hash : Z) : prog Z :=
  kget u256_to_address (slot_bridge_deposit_recipient tx_hash).
Definition read_deposit_amount (tx_hash : Z) : prog Z :=
  kget u256_to_u128 (slot_bridge_deposit_amount tx_hash).
Definition read_deposit_block_height (tx_hash : Z) : prog Z :=
  kget u256_to_u64 (slot_bridge_deposit_block_height tx_hash).

Definition read_asset_allowed (asset_id : Z) : prog bool :=
  kget (fun stored => if stored =? 0 then asset_id =? CALL_ASSET_ID
                      else negb (u256_to_u8 stored =? 0)) (slot_bridge_asset_allowed asset_id).
Definition read_authorized_contract (chain_id contract : Z) : prog bool :=
  kget (fun stored => if stored =? 0 then false else negb (u256_to_u8 stored =? 0))
    (slot_bridge_authorized_contract chain_id contract).
Definition read_daily_used (asset_id day : Z) : prog Z :=
  kget u256_to_u128 (slot_bridge_daily_used asset_id day).

(** ** Limits and totals *)

Definition check_limits (asset_id amount block_height : Z) : prog (bres Z) :=
  max_per_tx <- read_max_per_tx asset_id;
  if max_per_tx <? amount then Ret (Err (ExceedsMaxPerTx asset_id amount max_per_tx)) else
  blocks_per_day <- read_blocks_per_day;
  if blocks_per_day =? 0 then Ret (Err BInvalidInput) else
  let day := block_height / blocks_per_day in
  daily_limit <- read_daily_limit asset_id;
  daily_used <- read_daily_used asset_id day;
  new_daily_used <-? Ret (ok_or BBalanceOverflow (checked_add U128_MAX daily_used amount));
  if daily_limit <? new_daily_used
  then Ret (Err (ExceedsDailyLimit asset_id daily_used daily_limit))
  else Ret (Ok day).

Definition record_daily_used (asset_id amount day : Z) : prog unit :=
  daily_used <- read_daily_used asset_id day;
  kstore (slot_bridge_daily_used asset_id day)
    (u128_to_u256 (saturating_add U128_MAX daily_used amount)).

Definition asset_registered (asset_id : Z) : prog bool :=
  v <- load ASSET_ADDRESS (slot_asset_meta asset_id (b_ "issuer"));
  Ret (negb (u256_to_address v =? 0)).

Definition validate_basic (asset_id : Z) : prog (bres unit) :=
  if asset_id =? 0 then Ret (Err AssetZeroNotBridgeable) else
  registered <- asset_registered asset_id;
  if negb registered then Ret (Err AssetNotRegistered) else
  paused <- is_paused;
  if paused : bool then Ret (Err BridgePaused) else Ret (Ok tt).

Definition add_total_deposits (amount : Z) : prog (bres unit) :=
  total <- get_total_deposits;
  new_total <-? Ret (ok_or BBalanceOverflow (checked_add U128_MAX total amount));
  do kstore slot_bridge_total_deposits (u128_to_u256 new_total); Ret (Ok tt).
Definition add_total_withdrawals (amount : Z) : prog (bres unit) :=
  total <- get_total_withdrawals;
  new_total <-? Ret (ok_or BBalanceOverflow (checked_add U128_MAX total amount));
  do kstore slot_bridge_total_withdrawals (u128_to_u256 new_total); Ret (Ok tt).
Definition sub_total_deposits (amount : Z) : prog (bres unit) :=
  total <- get_total_deposits;
  new_total <-? Ret (ok_or BBalanceOverflow (checked_sub total amount));
  do kstore slot_bridge_total_deposits (u128_to_u256 new_total); Ret (Ok tt).

(** [?] on a ledger operation, and [map_err(|_| e)]. *)
Definition bledger {A} (p : prog (ares A)) : prog (bres A) := prog_map_err bridge_error_of_asset p.
Definition bledger_as {A} (e : BridgeError) (p : prog (ares A)) : prog (bres A) :=
  prog_map_err (fun _ => e) p.

(** ** Deposits and withdrawals *)

Definition external_deposit (source_chain source_contract source_tx_hash asset_id recipient amount
    validator block_height : Z) : prog (bres Z) :=
  if amount =? 0 then Ret (Err BInvalidInput) else
  if recipient =? 0 then Ret (Err BInvalidInput) else
  if source_tx_hash =? 0 then Ret (Err BInvalidInput) else
  processed <- is_processed source_tx_hash block_height;
  if processed : bool then Ret (Err AlreadyProcessed) else
  do? validate_basic asset_id;
  allowed <- read_asset_allowed asset_id;
  if negb allowed then Ret (Err (ExternalAssetNotAllowed asset_id)) else
  authorized <- read_authorized_contract source_chain source_contract;
  if negb authorized then Ret (Err (UnauthorizedBridgeContract source_chain source_contract)) else
  day <-? check_limits asset_id amount block_height;
  fee <- read_bridge_fee;
  if amount <=? fee then Ret (Err (BridgeFeeExceedsAmount fee amount)) else
  let net_amount := amount - fee in
  do? bledger (add_balance asset_id recipient net_amount);
  do? (if 0 <? fee then bledger (add_balance asset_id BRIDGE_ADDRESS fee) else Ret (Ok tt));
  do? add_total_deposits net_amount;
  do record_daily_used asset_id amount day;
  do kstore (slot_bridge_processed source_tx_hash) (u64_to_u256 block_height);
  do kstore (slot_bridge_deposit_asset_id source_tx_hash) (u64_to_u256 asset_id);
  do kstore (slot_bridge_deposit_recipient source_tx_hash) (address_to_u256 recipient);
  do kstore (slot_bridge_deposit_amount source_tx_hash) (u128_to_u256 net_amount);
  do kstore (slot_bridge_deposit_block_height source_tx_hash) (u64_to_u256 block_height);
  do kstore (slot_bridge_challenge_original_validator source_tx_hash) (address_to_u256 validator);
  Ret (Ok net_amount).

Definition check_withdraw_limit (asset_id amount current_block : Z) : prog (bres WithdrawLimitCheck) :=
  max_per_period <- read_max_external_withdraw_per_period;
  period_start <- kget u256_to_u64 slot_bridge_current_period_start;
  withdraw_period <- read_withdraw_period;
  if saturating_add U64_MAX period_start withdraw_period <=? current_block then
    if max_per_period <? amount
    then Ret (Err (ExceedsWithdrawLimit asset_id 0 max_per_period))
    else Ret (Ok NewPeriod)
  else
    period_withdrawn <- kget u256_to_u128 (slot_bridge_period_withdrawn asset_id);
    new_total <-? Ret (ok_or BBalanceOverflow (checked_add U128_MAX period_withdrawn amount));
    if max_per_period <? new_total
    then Ret (Err (ExceedsWithdrawLimit asset_id period_withdrawn max_per_period))
    else Ret (Ok (ExistingPeriod new_total)).

Definition record_withdraw_used (asset_id amount current_block : Z) (check : WithdrawLimitCheck) :
    prog unit :=
  match check with
  | NewPeriod =>
      do kstore slot_bridge_current_period_start (u64_to_u256 current_block);
      kstore (slot_bridge_period_withdrawn asset_id) (u128_to_u256 amount)
  | ExistingPeriod new_total =>
      kstore (slot_bridge_period_withdrawn asset_id) (u128_to_u256 new_total)
  end.

Definition external_withdraw (asset_id amount caller current_block : Z) : prog (bres Z) :=
  if amount =? 0 then Ret (Err BInvalidInput) else
  do? validate_basic asset_id;
  limit_check <-? check_withdraw_limit asset_id amount current_block;
  fee <- read_bridge_fee;
  if amount <=? fee then Ret (Err (BridgeFeeExceedsAmount fee amount)) else
  let net_amount := amount - fee in
  do? bledger (deduct_balance asset_id caller amount);
  do? (if 0 <? fee then bledger (add_balance asset_id BRIDGE_ADDRESS fee) else Ret (Ok tt));
  do? add_total_withdrawals net_amount;
  do record_withdraw_used asset_id amount current_block limit_check;
  Ret (Ok net_amount).

(** ** Challenges *)

Definition initiate_challenge (source_tx_hash : Z) (proof : list Z) (challenger current_block : Z) :
    prog (bres unit) :=
  deposit_height <- read_deposit_block_height source_tx_hash;
  if deposit_height =? 0 then Ret (Err NotProcessed) else
  status <- read_challenge_status source_tx_hash;
  if negb (bool_decide (status = NoChallenge)) then Ret (Err AlreadyChallenged) else
  challenge_period <- read_challenge_period;
  challenge_deadline <-? Ret (ok_or ChallengePeriodExpired
                                (checked_add U64_MAX deposit_height challenge_period));
  if challenge_deadline <=? current_block then Ret (Err ChallengePeriodExpired) else
  if (zlen proof <? 32) || (MAX_PROOF_LEN <? zlen proof) then Ret (Err BInvalidInput) else
  bond <- read_global_challenge_bond;
  do? bledger (deduct_balance CALL_ASSET_ID challenger bond);
  deadline <-? Ret (ok_or ChallengePeriodExpired (checked_add U64_MAX current_block challenge_period));
  do kstore (slot_bridge_challenge_status source_tx_hash) 1;
  do kstore (slot_bridge_challenge_challenger source_tx_hash) (address_to_u256 challenger);
  do kstore (slot_bridge_challenge_deadline source_tx_hash) (u64_to_u256 deadline);
  do kstore (slot_bridge_challenge_bond source_tx_hash) (u128_to_u256 bond);
  do kstore (slot_bridge_challenge_proof_hash source_tx_hash) (keccak256 proof);
  do kstore (slot_bridge_challenge_proof_len source_tx_hash) (u64_to_u256 (zlen proof));
  do kstore_chunks (slot_bridge_challenge_proof_chunk source_tx_hash) 0 (chunks proof);
  Ret (Ok tt).

Definition clear_challenge_metadata (source_tx_hash : Z) (keep_payout_info : bool) : prog unit :=
  proof_len <- kget u256_to_u64 (slot_bridge_challenge_proof_len source_tx_hash);
  let num_chunks := wrap_u64 (proof_len + 31) / 32 in
  do kclear_chunks (Z.to_nat num_chunks) (slot_bridge_challenge_proof_chunk source_tx_hash) 0;
  do (if negb keep_payout_info then
        do kstore (slot_bridge_challenge_challenger source_tx_hash) 0;
        kstore (slot_bridge_challenge_bond source_tx_hash) 0
      else Ret tt);
  do kstore (slot_bridge_challenge_deadline source_tx_hash) 0;
  do kstore (slot_bridge_challenge_proof_hash source_tx_hash) 0;
  do kstore (slot_bridge_challenge_proof_len source_tx_hash) 0;
  kstore (slot_bridge_challenge_original_validator source_tx_hash) 0.

Definition withdraw_challenge_bond (source_tx_hash caller : Z) : prog (bres Z) :=
  status <- read_challenge_status source_tx_hash;
  if negb (bool_decide (status = Successful)) then Ret (Err ChallengeNotSuccessful) else
  challenger <- read_challenge_challenger source_tx_hash;
  if negb (challenger =? caller) then Ret (Err NotChallenger) else
  bond <- read_challenge_bond_for_tx source_tx_hash;
  reward <-? Ret (ok_or BBalanceOverflow (checked_add U128_MAX bond (bond / 10)));
  do? bledger_as BBalanceOverflow (add_balance CALL_ASSET_ID challenger reward);
  do kstore (slot_bridge_challenge_status source_tx_hash) 4;
  do kstore (slot_bridge_challenge_bond source_tx_hash) 0;
  Ret (Ok reward).

End Storage.

(** ** Fraud proofs *)

Section Fraud.
Context `{Keccak, RlpHeader, FraudProofCodec}.

(** A failed check is [false]; the verifier's panics and loops are the caller's. *)
Definition or_false {E E'} (o : outcome E bool) : result (trap E') bool :=
  of_outcome (fun _ => Ok false) o.

Definition verify_fraud_proof_cryptographic {E} (source_tx_hash : Z) (proof_bytes : list Z) :
    prog (result (trap E) bool) :=
  match decode_fraud_proof proof_bytes with
  | None => Ret (Ok false)
  | Some fp =>
      if negb (keccak256 (rlp_bytes (header fp)) =? block_hash (header fp)) then Ret (Ok false) else
      match proof_type fp with
      | TxNonExistence =>
          Ret (or_false (E := unit)
            (tx_root <~ transactions_root (header fp);
             result <~ outcome_map_err (fun _ => tt)
                         (verify_mpt_proof tx_root (hash_bytes source_tx_hash) (mpt_nodes fp));
             Done (bool_decide (result = None))))
      | ReceiptConflict receipt_index =>
          let event :=
            (root <~ receipts_root (header fp);
             result <~ outcome_map_err (fun _ => tt)
                         (verify_mpt_proof root (rlp_encode_u64 receipt_index) (mpt_nodes fp));
             match result with
             | None => Fail tt
             | Some receipt_rlp =>
                 logs <~ outcome_map_err (fun _ => tt) (parse_receipt_logs receipt_rlp);
                 parse_bridge_event_from_logs logs
             end) in
          match event with
          | Done ev =>
              stored_asset_id <- read_deposit_asset_id source_tx_hash;
              stored_recipient <- read_deposit_recipient source_tx_hash;
              stored_amount <- read_deposit_amount source_tx_hash;
              Ret (Ok (negb (ev_asset_id ev =? stored_asset_id)
                       || negb (ev_recipient ev =? stored_recipient)
                       || negb (ev_amount ev =? stored_amount)))
          | Fail _ => Ret (Ok false)
          | Panic => Ret (Err Panicked)
          | Diverge => Ret (Err Diverged)
          end
      end
  end.

Definition verify_fraud_proof {E} (source_tx_hash : Z) : prog (result (trap E) bool) :=
  proof_hash <- kload (slot_bridge_challenge_proof_hash source_tx_hash);
  if proof_hash =? 0 then Ret (Ok false) else
  proof_len <- kget u256_to_u64 (slot_bridge_challenge_proof_len source_tx_hash);
  if proof_len <? 32 then Ret (Ok false) else
  let num_chunks := wrap_u64 (proof_len + 31) / 32 in
  proof_bytes <- kread_chunks (Z.to_nat num_chunks)
                   (slot_bridge_challenge_proof_chunk source_tx_hash) 0 (Z.to_nat proof_len) [];
  if negb (keccak256 proof_bytes =? proof_hash) then Ret (Ok false) else
  verify_fraud_proof_cryptographic source_tx_hash proof_bytes.

Definition resolve_challenge (source_tx_hash current_block resolver : Z) :
    prog (result (trap BridgeError) (bool * Z)) :=
  status <- read_challenge_status source_tx_hash;
  if negb (bool_decide (status = Pending)) then Ret (Err (Raised ChallengeNotPending)) else
  deadline <- read_challenge_deadline source_tx_hash;
  if current_block <? deadline then Ret (Err (Raised ChallengeDeadlineNotReached)) else
  challenger <- read_challenge_challenger source_tx_hash;
  validator <- kget u256_to_address (slot_bridge_challenge_original_validator source_tx_hash);
  if negb (resolver =? challenger) && negb (resolver =? validator)
  then Ret (Err (Raised (UnauthorizedResolver resolver))) else
  proof_valid <-? verify_fraud_proof source_tx_hash;
  bond <- read_challenge_bond_for_tx source_tx_hash;
  if proof_valid : bool then
    do? prog_map_err (fun _ => Raised BInvalidInput) (slash_stake validator);
    asset_id <- read_deposit_asset_id source_tx_hash;
    recipient <- read_deposit_recipient source_tx_hash;
    amount <- read_deposit_amount source_tx_hash;
    do? raising (bledger_as BInsufficientBalance (deduct_balance asset_id recipient amount));
    do? raising (sub_total_deposits amount);
    do kstore (slot_bridge_challenge_status source_tx_hash) 2;
    do kstore (slot_bridge_deposit_asset_id source_tx_hash) 0;
    do kstore (slot_bridge_deposit_recipient source_tx_hash) 0;
    do kstore (slot_bridge_deposit_amount source_tx_hash) 0;
    do kstore (slot_bridge_deposit_block_height source_tx_hash) 0;
    do clear_challenge_metadata source_tx_hash true;
    Ret (Ok (true, challenger))
  else
    do? raising (bledger_as BBalanceOverflow (add_balance CALL_ASSET_ID validator bond));
    do kstore (slot_bridge_challenge_status source_tx_hash) 3;
    do clear_challenge_metadata source_tx_hash false;
    Ret (Ok (false, validator)).

End Fraud.

(** ** Precompile *)

Record externalDepositCall := {
  ed_sourceChain : Z; ed_sourceContract : Z; ed_sourceTxHash : Z; ed_assetId : Z;
  ed_recipient : Z; ed_amount : Z
}.
Record externalWithdrawCall := {
  ew_targetChain : Z; ew_targetAddress : list Z; ew_assetId : Z; ew_amount : Z
}.
Record initiateChallengeCall := { ic_sourceTxHash : Z; ic_proof : list Z }.
Record sourceTxCall := { st_sourceTxHash : Z }.

Class BridgeAbi : Type := {
  dec_getTotalDeposits : list Z -> result string unit;
  dec_getTotalWithdrawals : list Z -> result string unit;
  dec_externalDeposit : list Z -> result string externalDepositCall;
  dec_externalWithdraw : list Z -> result string externalWithdrawCall;
  dec_initiateChallenge : list Z -> result string initiateChallengeCall;
  dec_resolveChallenge : list Z -> result string sourceTxCall;
  dec_getChallengeStatus : list Z -> result string sourceTxCall;
  dec_withdrawChallengeBond : list Z -> result string sourceTxCall;
  benc_u128 : Z -> list Z;
  benc_status : Z * Z * Z * Z -> list Z;
  sel_getTotalDeposits : list Z;
  sel_getTotalWithdrawals : list Z;
  sel_externalDeposit : list Z;
  sel_externalWithdraw : list Z;
  sel_initiateChallenge : list Z;
  sel_resolveChallenge : list Z;
  sel_getChallengeStatus : list Z;
  sel_withdrawChallengeBond : list Z
}.

Section Precompile.
Context `{Keccak, RlpHeader, FraudProofCodec, AddressDisplay, BridgeAbi} {S : Type} `{!StorageProvider S}.

Definition bridge_other (e : BridgeError) : precompile_error := Other (bridge_error_to_string e).
Definition bridge {A} (p : prog (bres A)) : prog (res A) := prog_map_err bridge_other p.

Definition word (v : Z) : list Z := be_bytes 32 v.

Definition external_deposit_handler (msg_sender : Z) (call : externalDepositCall) : prog (res unit) :=
  validator <-? Ret (require_caller msg_sender);
  ok <- is_validator validator;
  if negb ok then Ret (Err (Other "not a validator")) else
  do? check_compliance validator;
  do? check_compliance (ed_recipient call);
  block_height <- block_number;
  net_amount <-? bridge (external_deposit (ed_sourceChain call) (ed_sourceContract call)
                           (ed_sourceTxHash call) (ed_assetId call) (ed_recipient call)
                           (ed_amount call) validator block_height);
  do? emit_event BRIDGE_ADDRESS
        (mkLog [keccak256 (b_ "ExternalDeposit(bytes32,uint64,address,uint128,address,uint64,uint64,address)");
                ed_sourceTxHash call; address_to_u256 (ed_recipient call); address_to_u256 validator]
           (word (u64_to_u256 (ed_assetId call)) ++ word (address_to_u256 (ed_sourceContract call)) ++
            word (u128_to_u256 net_amount) ++ word (u64_to_u256 block_height) ++
            word (u64_to_u256 (ed_sourceChain call))));
  Ret (Ok tt).

Definition external_withdraw_handler (msg_sender : Z) (call : externalWithdrawCall) : prog (res unit) :=
  caller <-? Ret (require_caller msg_sender);
  do? check_compliance caller;
  height <- block_number;
  net_amount <-? bridge (external_withdraw (ew_assetId call) (ew_amount call) caller height);
  do? emit_event BRIDGE_ADDRESS
        (mkLog [keccak256 (b_ "ExternalWithdraw(address,uint64,uint128,uint64,bytes32)");
                address_to_u256 caller]
           (word (u64_to_u256 (ew_assetId call)) ++ word (u128_to_u256 net_amount) ++
            word (u64_to_u256 (ew_targetChain call)) ++ word (keccak256 (ew_targetAddress call))));
  Ret (Ok tt).

Definition initiate_challenge_handler (msg_sender : Z) (call : initiateChallengeCall) :
    prog (res unit) :=
  challenger <-? Ret (require_caller msg_sender);
  do? check_compliance challenger;
  height <- block_number;
  do? bridge (initiate_challenge (ic_sourceTxHash call) (ic_proof call) challenger height);
  deadline <- read_challenge_deadline (ic_sourceTxHash call);
  bond <- read_challenge_bond_for_tx (ic_sourceTxHash call);
  do? emit_event BRIDGE_ADDRESS
        (mkLog [keccak256 (b_ "ChallengeInitiated(bytes32,address,uint64,uint128)");
                ic_sourceTxHash call; address_to_u256 challenger]
           (word (u64_to_u256 deadline) ++ word (u128_to_u256 bond)));
  Ret (Ok tt).

Definition resolve_challenge_handler (msg_sender : Z) (call : sourceTxCall) :
    prog (result (trap precompile_error) unit) :=
  resolver <-? raising (Ret (require_caller msg_sender));
  do? raising (check_compliance resolver);
  height <- block_number;
  resolved <-? map_raised bridge_other (resolve_challenge (st_sourceTxHash call) height resolver);
  let (success, beneficiary) := (resolved : bool * Z) in
  do? raising (emit_event BRIDGE_ADDRESS
        (mkLog [keccak256 (b_ "ChallengeResolved(bytes32,bool,address)");
                st_sourceTxHash call; address_to_u256 beneficiary]
           (word (u64_to_u256 (if success then 1 else 0)))));
  Ret (Ok tt).

Definition get_challenge_status_handler (call : sourceTxCall) : prog (res (Z * Z * Z * Z)) :=
  status <- read_challenge_status (st_sourceTxHash call);
  deadline <- read_challenge_deadline (st_sourceTxHash call);
  bond <- read_challenge_bond_for_tx (st_sourceTxHash call);
  challenger <- read_challenge_challenger (st_sourceTxHash call);
  let code := match status with
              | Pending => 1 | Successful => 2 | Failed => 3 | Withdrawn => 4 | NoChallenge => 0
              end in
  Ret (Ok (code, deadline, bond, challenger)).

Definition withdraw_challenge_bond_handler (msg_sender : Z) (call : sourceTxCall) : prog (res unit) :=
  caller <-? Ret (require_caller msg_sender);
  do? check_compliance caller;
  reward <-? bridge (withdraw_challenge_bond (st_sourceTxHash call) caller);
  do? emit_event BRIDGE_ADDRESS
        (mkLog [keccak256 (b_ "ChallengeBondWithdrawn(bytes32,address,uint128)");
                st_sourceTxHash call; address_to_u256 caller]
           (word (u128_to_u256 reward)));
  Ret (Ok tt).

Definition precompile_get_total_deposits (calldata : list Z) (s : S) :=
  view dec_getTotalDeposits benc_u128 calldata 1500 (fun _ => ok_read get_total_deposits) s.
Definition precompile_get_total_withdrawals (calldata : list Z) (s : S) :=
  view dec_getTotalWithdrawals benc_u128 calldata 1500 (fun _ => ok_read get_total_withdrawals) s.
Definition precompile_external_deposit (calldata : list Z) (msg_sender : Z) (s : S) :=
  mutate_void dec_externalDeposit calldata 30000 (external_deposit_handler msg_sender) s.
Definition precompile_external_withdraw (calldata : list Z) (msg_sender : Z) (s : S) :=
  mutate_void dec_externalWithdraw calldata 30000 (external_withdraw_handler msg_sender) s.
Definition precompile_initiate_challenge (calldata : list Z) (msg_sender : Z) (s : S) :=
  mutate_void dec_initiateChallenge calldata 50000 (initiate_challenge_handler msg_sender) s.
Definition precompile_resolve_challenge (calldata : list Z) (msg_sender : Z) (s : S) :=
  mutate_trapping dec_resolveChallenge (fun _ : unit => []) calldata 150000
    (resolve_challenge_handler msg_sender) s.
Definition precompile_get_challenge_status (calldata : list Z) (s : S) :=
  view dec_getChallengeStatus benc_status calldata 1500 get_challenge_status_handler s.
Definition precompile_withdraw_challenge_bond (calldata : list Z) (msg_sender : Z) (s : S) :=
  mutate_void dec_withdrawChallengeBond calldata 5000 (withdraw_challenge_bond_handler msg_sender) s.

(** [StatefulPrecompile::call]: dispatch on the selector. *)
Definition bridge_call (calldata : list Z) (msg_sender : Z) (s : S) :
    outcome unit (res PrecompileOutput * S) :=
  if (length calldata <? 4)%nat then Done (Err (Other "invalid input"), s) else
  let selector := take 4 calldata in
  if bool_decide (selector = sel_getTotalDeposits)
  then Done (precompile_get_total_deposits calldata s)
  else if bool_decide (selector = sel_getTotalWithdrawals)
  then Done (precompile_get_total_withdrawals calldata s)
  else if bool_decide (selector = sel_externalDeposit)
  then Done (precompile_external_deposit calldata msg_sender s)
  else if bool_decide (selector = sel_externalWithdraw)
  then Done (precompile_external_withdraw calldata msg_sender s)
  else if bool_decide (selector = sel_initiateChallenge)
  then Done (precompile_initiate_challenge calldata msg_sender s)
  else if bool_decide (selector = sel_resolveChallenge)
  then precompile_resolve_challenge calldata msg_sender s
  else if bool_decide (selector = sel_getChallengeStatus)
  then Done (precompile_get_challenge_status calldata s)
  else if bool_decide (selector = sel_withdrawChallengeBond)
  then Done (precompile_withdraw_challenge_bond calldata msg_sender s)
  else Done (Err (Other "unknown selector"), s).

End Precompile.
