(* ===== verification/BridgeSpec.v ===== *)
(** * BridgeSpec: the bridge storage by keys

    The slots of the bridge do not overlap, the runs of its reads, and the
    effect of each successful operation of [Bridge] as writes of keys. *)

From stdpp Require Import base gmap list strings.
From Stdlib Require Import ZArith Lia.
From S2P Require Import Prelude Provider World EvmProvider Refinement Dispatch Utils.
From S2P Require Import Asset AssetSpec Validator Keyed Rlp EthProof Trap.
From S2P Require Import Bridge.

Local Open Scope Z_scope.
Local Open Scope callnode_scope.

(** ** Layout *)

(** Keys whose arguments have the width of their types. *)
Definition bridge_used (k : bridge_key) : Prop :=
  match k with
  | slot_bridge_processed h | slot_bridge_challenge_status h | slot_bridge_challenge_challenger h
  | slot_bridge_challenge_deadline h | slot_bridge_challenge_bond h
  | slot_bridge_challenge_proof_hash h | slot_bridge_challenge_proof_len h
  | slot_bridge_challenge_original_validator h | slot_bridge_deposit_asset_id h
  | slot_bridge_deposit_recipient h | slot_bridge_deposit_amount h
  | slot_bridge_deposit_block_height h => fits U256_MAX h
  | slot_bridge_challenge_proof_chunk h i => fits U256_MAX h /\ fits U64_MAX i
  | slot_bridge_max_per_tx id | slot_bridge_daily_limit id | slot_bridge_asset_allowed id
  | slot_bridge_period_withdrawn id => fits U64_MAX id
  | slot_bridge_daily_used id day => fits U64_MAX id /\ fits U64_MAX day
  | slot_bridge_authorized_contract chain contract => fits U64_MAX chain /\ fits ADDRESS_MAX contract
  | _ => True
  end.

Definition bridge_preimage (k : bridge_key) : list Z := concat (bridge_parts k).

Lemma hash_bytes_inj a b : fits U256_MAX a -> fits U256_MAX b -> hash_bytes a = hash_bytes b -> a = b.
Proof. intros Ha Hb. apply be_bytes_inj; unfold fits, U256_MAX in *; lia. Qed.

Lemma length_hash_bytes h : length (hash_bytes h) = 32%nat.
Proof. apply length_be_bytes. Qed.

Definition is_counter (k : bridge_key) : Prop :=
  k = slot_bridge_total_deposits \/ k = slot_bridge_total_withdrawals.

Lemma bridge_preimage_inj k k' :
  bridge_used k -> bridge_used k' -> bridge_preimage k = bridge_preimage k' ->
  ~ is_counter k -> ~ is_counter k' -> k = k'.
Proof.
  intros H1 H2 E N1 N2. pose proof (f_equal length E) as L. unfold bridge_preimage in *.
  destruct k, k'; try (exfalso; by (apply N1 || apply N2); unfold is_counter; auto);
    clear N1 N2; cbn [bridge_parts concat bridge_used] in *; try done; bytes_now; rewrite ?app_nil_r in *;
    cbn [app] in E; try discriminate E;
    rewrite ?length_app, ?length_cons, ?length_app, ?length_hash_bytes, ?length_u64_bytes, ?length_addr_bytes in L;
    cbn [length] in L; try discriminate L; same_tail E;
    repeat match goal with
    | E : hash_bytes _ ++ _ = hash_bytes _ ++ _ |- _ =>
        apply app_inj_len in E as [E ?]; [|by rewrite !length_hash_bytes]
    | E : hash_bytes _ = hash_bytes _ |- _ => apply hash_bytes_inj in E; [|tauto..]
    end; destruct_and?; take_apart; subst; done.
Qed.

Section Hash.
Context `{Keccak}.

(** The hash has no collision among the keys of the bridge and avoids the two
    slots that are not hashed. *)
Record bridge_collision_free : Prop := {
  bcf_inj : forall k k', bridge_used k -> bridge_used k' ->
    keccak256 (bridge_preimage k) = keccak256 (bridge_preimage k') -> bridge_preimage k = bridge_preimage k';
  bcf_low : forall k, bridge_used k -> ~ is_counter k -> 1 < keccak256 (bridge_preimage k)
}.

Lemma bridge_layout_holds : bridge_collision_free -> Layout bridge_used.
Proof.
  intros [Ci Cl] k k' Hk Hk' E.
  assert (Hs : forall k, ~ is_counter k -> key_slot k = keccak256 (bridge_preimage k)).
  { intros [] Hn; try done; exfalso; apply Hn; unfold is_counter; auto. }
  assert (D : forall k, is_counter k \/ ~ is_counter k).
  { intros []; unfold is_counter; auto; right; intros [?|?]; done. }
  assert (Hc : forall k, is_counter k -> key_slot k <= 1) by (intros ? [->| ->]; done).
  destruct (D k) as [C|C], (D k') as [C'|C'].
  - destruct C as [->| ->], C' as [->| ->]; done.
  - rewrite (Hs k') in E by done. apply Hc in C. pose proof (Cl k' Hk' C'). lia.
  - rewrite (Hs k) in E by done. apply Hc in C'. pose proof (Cl k Hk C). lia.
  - rewrite !Hs in E by done. apply bridge_preimage_inj; try done. by apply Ci.
Qed.

End Hash.

(** ** What the reads give *)

#[global] Arguments b_ : simpl never.

Section Reads.
Context `{Keccak}.
Implicit Types (w : world).

Definition cfg64 w (k : bridge_key) (d : Z) : Z :=
  let v := u256_to_u64 (krd w k) in if v =? 0 then d else v - 1.
Definition cfg128 w (k : bridge_key) (d : Z) : Z :=
  let v := u256_to_u128 (krd w k) in if v =? 0 then d else v - 1.

Definition retention w : Z := cfg64 w slot_bridge_processed_retention DEFAULT_PROCESSED_RETENTION.
Definition challenge_period w : Z := cfg64 w slot_challenge_period DEFAULT_CHALLENGE_PERIOD.
Definition bond_amount w : Z := cfg128 w slot_challenge_bond_amount DEFAULT_CHALLENGE_BOND.
Definition max_per_tx w id : Z := cfg128 w (slot_bridge_max_per_tx id) DEFAULT_MAX_PER_TX.
Definition daily_limit w id : Z := cfg128 w (slot_bridge_daily_limit id) DEFAULT_DAILY_LIMIT.
Definition blocks_per_day w : Z := cfg64 w slot_bridge_blocks_per_day DEFAULT_BLOCKS_PER_DAY.
Definition max_withdraw w : Z :=
  cfg128 w slot_bridge_max_withdraw_per_period DEFAULT_MAX_WITHDRAW_PER_PERIOD.
Definition withdraw_period w : Z := cfg64 w slot_bridge_withdraw_period DEFAULT_WITHDRAW_PERIOD_BLOCKS.
Definition bridge_fee w : Z := cfg128 w slot_bridge_bridge_fee DEFAULT_BRIDGE_FEE.
Definition period_start w : Z := u256_to_u64 (krd w slot_bridge_current_period_start).
Definition period_withdrawn w id : Z := u256_to_u128 (krd w (slot_bridge_period_withdrawn id)).
Definition daily_used w id day : Z := u256_to_u128 (krd w (slot_bridge_daily_used id day)).
Definition total_deposits w : Z := u256_to_u128 (krd w slot_bridge_total_deposits).
Definition total_withdrawals w : Z := u256_to_u128 (krd w slot_bridge_total_withdrawals).
Definition bpaused w : bool := negb (u256_to_u8 (krd w slot_bridge_paused) =? 0).
Definition asset_allowed w id : bool :=
  let v := krd w (slot_bridge_asset_allowed id) in
  if v =? 0 then id =? CALL_ASSET_ID else negb (u256_to_u8 v =? 0).
Definition contract_authorized w chain contract : bool :=
  let v := krd w (slot_bridge_authorized_contract chain contract) in
  if v =? 0 then false else negb (u256_to_u8 v =? 0).
Definition registered w id : bool :=
  negb (u256_to_address (wslot w ASSET_ADDRESS (slot_asset_meta id (b_ "issuer"))) =? 0).

Definition processed w h b : bool :=
  let stored := krd w (slot_bridge_processed h) in
  if stored =? 0 then false else saturating_sub b (u256_to_u64 stored) <=? retention w.
Definition cstatus w h : ChallengeStatus := status_of_word (krd w (slot_bridge_challenge_status h)).
Definition deadline w h : Z := u256_to_u64 (krd w (slot_bridge_challenge_deadline h)).
Definition bond w h : Z := u256_to_u128 (krd w (slot_bridge_challenge_bond h)).
Definition challenger w h : Z := u256_to_address (krd w (slot_bridge_challenge_challenger h)).
Definition attester w h : Z := u256_to_address (krd w (slot_bridge_challenge_original_validator h)).
Definition dep_asset w h : Z := u256_to_u64 (krd w (slot_bridge_deposit_asset_id h)).
Definition dep_recipient w h : Z := u256_to_address (krd w (slot_bridge_deposit_recipient h)).
Definition dep_amount w h : Z := u256_to_u128 (krd w (slot_bridge_deposit_amount h)).
Definition dep_height w h : Z := u256_to_u64 (krd w (slot_bridge_deposit_block_height h)).

Lemma run_is_processed h b w : run (is_processed h b) w = (processed w h b, w).
Proof.
  unfold is_processed, processed. rewrite run_bind, run_kload.
  by destruct (krd w (slot_bridge_processed h) =? 0).
Qed.

Definition basic_error w id : option BridgeError :=
  if id =? 0 then Some AssetZeroNotBridgeable
  else if negb (registered w id) then Some AssetNotRegistered
  else if bpaused w then Some BridgePaused else None.

Lemma run_validate_basic id w :
  run (validate_basic id) w = (match basic_error w id with Some e => Err e | None => Ok tt end, w).
Proof.
  unfold validate_basic, basic_error, asset_registered. destruct (id =? 0); [done|].
  rewrite !run_bind, w_run_load. change (run (Ret ?x) w) with (x, w). cbv iota beta.
  fold (registered w id). destruct (registered w id); cbn [negb]; [|done].
  rewrite run_bind. change (run is_paused w) with (bpaused w, w). by destruct (bpaused w).
Qed.

Lemma run_check_limits id amount b w :
  run (check_limits id amount b) w =
    (if max_per_tx w id <? amount then Err (ExceedsMaxPerTx id amount (max_per_tx w id))
     else if blocks_per_day w =? 0 then Err BInvalidInput
     else
       let day := b / blocks_per_day w in
       match checked_add U128_MAX (daily_used w id day) amount with
       | None => Err BBalanceOverflow
       | Some new =>
           if daily_limit w id <? new
           then Err (ExceedsDailyLimit id (daily_used w id day) (daily_limit w id)) else Ok day
       end, w).
Proof.
  unfold check_limits. rewrite run_bind. change (run (read_max_per_tx id) w) with (max_per_tx w id, w).
  cbv iota beta. destruct (max_per_tx w id <? amount); [done|].
  rewrite run_bind. change (run read_blocks_per_day w) with (blocks_per_day w, w). cbv iota beta.
  destruct (blocks_per_day w =? 0); [done|]. cbv zeta. rewrite !run_bind.
  change (run (read_daily_limit id) w) with (daily_limit w id, w). cbv iota beta. rewrite run_bind.
  change (run (read_daily_used id (b / blocks_per_day w)) w) with (daily_used w id (b / blocks_per_day w), w).
  cbv iota beta. rewrite run_try. destruct (checked_add _ _ _) as [new|]; [|done]. cbn [ok_or run].
  by destruct (daily_limit w id <? new).
Qed.

(** Reads at the granularity of the operations. *)
Lemma run_b_asset_allowed id w : run (read_asset_allowed id) w = (asset_allowed w id, w).
Proof. done. Qed.
Lemma run_b_authorized chain contract w : run (read_authorized_contract chain contract) w = (contract_authorized w chain contract, w).
Proof. done. Qed.
Lemma run_b_fee w : run (read_bridge_fee) w = (bridge_fee w, w).
Proof. done. Qed.
Lemma run_b_dep_height h w : run (read_deposit_block_height h) w = (dep_height w h, w).
Proof. done. Qed.
Lemma run_b_cstatus h w : run (read_challenge_status h) w = (cstatus w h, w).
Proof. done. Qed.
Lemma run_b_challenge_period w : run (read_challenge_period) w = (challenge_period w, w).
Proof. done. Qed.
Lemma run_b_bond_amount w : run (read_global_challenge_bond) w = (bond_amount w, w).
Proof. done. Qed.
Lemma run_b_deadline h w : run (read_challenge_deadline h) w = (deadline w h, w).
Proof. done. Qed.
Lemma run_b_bond h w : run (read_challenge_bond_for_tx h) w = (bond w h, w).
Proof. done. Qed.
Lemma run_b_challenger h w : run (read_challenge_challenger h) w = (challenger w h, w).
Proof. done. Qed.
Lemma run_b_attester h w : run (kget u256_to_address (slot_bridge_challenge_original_validator h)) w = (attester w h, w).
Proof. done. Qed.
Lemma run_b_dep_asset h w : run (read_deposit_asset_id h) w = (dep_asset w h, w).
Proof. done. Qed.
Lemma run_b_dep_recipient h w : run (read_deposit_recipient h) w = (dep_recipient w h, w).
Proof. done. Qed.
Lemma run_b_dep_amount h w : run (read_deposit_amount h) w = (dep_amount w h, w).
Proof. done. Qed.
Lemma run_b_total_deposits w : run (get_total_deposits) w = (total_deposits w, w).
Proof. done. Qed.
Lemma run_b_total_withdrawals w : run (get_total_withdrawals) w = (total_withdrawals w, w).
Proof. done. Qed.
Lemma run_b_daily_used id day w : run (read_daily_used id day) w = (daily_used w id day, w).
Proof. done. Qed.
Lemma run_b_max_withdraw w : run (read_max_external_withdraw_per_period) w = (max_withdraw w, w).
Proof. done. Qed.
Lemma run_b_withdraw_period w : run (read_withdraw_period) w = (withdraw_period w, w).
Proof. done. Qed.
Lemma run_b_period_start w : run (kget u256_to_u64 slot_bridge_current_period_start) w = (period_start w, w).
Proof. done. Qed.
Lemma run_b_period_withdrawn id w : run (kget u256_to_u128 (slot_bridge_period_withdrawn id)) w = (period_withdrawn w id, w).
Proof. done. Qed.

End Reads.

#[export] Hint Rewrite @run_is_processed @run_validate_basic @run_check_limits
  @run_b_asset_allowed @run_b_authorized @run_b_fee @run_b_dep_height @run_b_cstatus
  @run_b_challenge_period @run_b_bond_amount @run_b_deadline @run_b_bond @run_b_challenger
  @run_b_attester @run_b_dep_asset @run_b_dep_recipient @run_b_dep_amount @run_b_total_deposits
  @run_b_total_withdrawals @run_b_daily_used @run_b_max_withdraw @run_b_withdraw_period
  @run_b_period_start @run_b_period_withdrawn : krun.

(** ** Successful operations *)

Section Runs.
Context `{Keccak} `{!Layout bridge_used}.
Implicit Types (w : world).

Lemma same_reads w w' (k : bridge_key) : same_at BRIDGE_ADDRESS w w' -> krd w' k = krd w k.
Proof. intros Hs. apply Hs. Qed.

Lemma same_ledger {A} (p : prog (ares A)) (g : AssetError -> BridgeError) w r w' :
  (forall P, (forall s, P ASSET_ADDRESS s) -> writes P p) ->
  run (prog_map_err g p) w = (r, w') -> same_at BRIDGE_ADDRESS w w'.
Proof.
  intros Hp. apply run_elsewhere_eq. apply writes_map_err, Hp. intros s. done.
Qed.

Lemma ok_checked_add {E : Type} (e : E) m a b r :
  ok_or e (checked_add m a b) = Ok r -> r = a + b /\ a + b <= m.
Proof.
  destruct (checked_add m a b) as [x|] eqn:Ec; [|done]. intros [= <-].
  by apply checked_add_Some in Ec as [-> ?].
Qed.

Lemma add_total_deposits_ok v w u w' :
  run (add_total_deposits v) w = (Ok u, w') ->
  total_deposits w + v <= U128_MAX /\
  w' = kwr slot_bridge_total_deposits (u128_to_u256 (total_deposits w + v)) w.
Proof.
  intros E. unfold add_total_deposits in E. krun_inv E. injection E as _ <-.
  by apply ok_checked_add in Heqr as [-> ?].
Qed.

Lemma add_total_withdrawals_ok v w u w' :
  run (add_total_withdrawals v) w = (Ok u, w') ->
  w' = kwr slot_bridge_total_withdrawals (u128_to_u256 (total_withdrawals w + v)) w.
Proof.
  intros E. unfold add_total_withdrawals in E. krun_inv E. injection E as _ <-.
  by apply ok_checked_add in Heqr as [-> ?].
Qed.

Lemma sub_total_deposits_ok v w u w' :
  run (sub_total_deposits v) w = (Ok u, w') ->
  v <= total_deposits w /\
  w' = kwr slot_bridge_total_deposits (u128_to_u256 (total_deposits w - v)) w.
Proof.
  intros E. unfold sub_total_deposits in E. krun_inv E. injection E as _ <-.
  unfold checked_sub in Heqr. destruct (Z.leb_spec v (total_deposits w)); [|done].
  by injection Heqr as <-.
Qed.

Lemma run_record_daily_used id amount day w :
  run (record_daily_used id amount day) w =
    (tt, kwr (slot_bridge_daily_used id day)
           (u128_to_u256 (saturating_add U128_MAX (daily_used w id day) amount)) w).
Proof. done. Qed.

(** The fee is credited to the bridge. *)
Definition fee_credit id fee : prog (bres unit) :=
  if 0 <? fee then bledger (add_balance id BRIDGE_ADDRESS fee) else Ret (Ok tt).

Lemma same_fee id fee w r w' : run (fee_credit id fee) w = (r, w') -> same_at BRIDGE_ADDRESS w w'.
Proof.
  unfold fee_credit. destruct (0 <? fee); [|intros [= _ <-]; reflexivity].
  apply same_ledger. intros. by apply writes_add_balance.
Qed.

(** The record a deposit leaves. *)
Definition record_deposit h id recipient net b validator w : world :=
  kwr (slot_bridge_challenge_original_validator h) (address_to_u256 validator)
    (kwr (slot_bridge_deposit_block_height h) (u64_to_u256 b)
      (kwr (slot_bridge_deposit_amount h) (u128_to_u256 net)
        (kwr (slot_bridge_deposit_recipient h) (address_to_u256 recipient)
          (kwr (slot_bridge_deposit_asset_id h) (u64_to_u256 id)
            (kwr (slot_bridge_processed h) (u64_to_u256 b) w))))).

(** What a deposit was checked for. *)
Record deposit_checked (w : world) (chain contract h id recipient amount b : Z) : Prop := {
  dc_amount : amount <> 0 /\ recipient <> 0 /\ h <> 0;
  dc_fresh : processed w h b = false;
  dc_basic : basic_error w id = None;
  dc_allowed : asset_allowed w id = true;
  dc_authorized : contract_authorized w chain contract = true;
  dc_per_tx : amount <= max_per_tx w id;
  dc_day : blocks_per_day w <> 0;
  dc_daily : daily_used w id (b / blocks_per_day w) + amount <= Z.min U128_MAX (daily_limit w id);
  dc_fee : bridge_fee w < amount
}.

Lemma deposit_ok chain contract h id recipient amount validator b w net w' :
  fits U64_MAX id -> fits U64_MAX (b / blocks_per_day w) ->
  run (external_deposit chain contract h id recipient amount validator b) w = (Ok net, w') ->
  deposit_checked w chain contract h id recipient amount b /\
  net = amount - bridge_fee w /\ total_deposits w + net <= U128_MAX /\
  exists w1 w2,
    run (add_balance id recipient net) w = (Ok tt, w1) /\
    run (fee_credit id (bridge_fee w)) w1 = (Ok tt, w2) /\ same_at BRIDGE_ADDRESS w w2 /\
    let day := b / blocks_per_day w in
    w' = record_deposit h id recipient net b validator
           (kwr (slot_bridge_daily_used id day) (u128_to_u256 (daily_used w id day + amount))
             (kwr slot_bridge_total_deposits (u128_to_u256 (total_deposits w + net)) w2)).
Proof.
  intros Hid Hday E. unfold external_deposit in E.
  change (if 0 <? ?f then bledger (add_balance ?i BRIDGE_ADDRESS ?f) else Ret (Ok tt)) with (fee_credit i f) in E.
  krun_inv E. destruct (basic_error w id) eqn:Hbe; [done|]. cbv zeta in Heqr0.
  destruct (checked_add U128_MAX _ amount) as [new|] eqn:Ec; [|done].
  apply checked_add_Some in Ec as [-> Hmax]. destruct (daily_limit w id <? _) eqn:El; [done|].
  injection Heqr0 as <-. injection E as <- <-.
  apply run_map_err_ok in Heqp as Ha. destruct a1, a2.
  assert (S2 : same_at BRIDGE_ADDRESS w w1).
  { transitivity w0; [|by eapply same_fee]. revert Heqp. apply same_ledger. intros. by apply writes_add_balance. }
  apply add_total_deposits_ok in Heqp1 as [Ht ->].
  assert (Et : total_deposits w1 = total_deposits w) by (unfold total_deposits; by rewrite (same_reads w w1 _ S2)).
  rewrite run_record_daily_used in Heqp2. injection Heqp2 as _ <-.
  match goal with |- context [daily_used (kwr slot_bridge_total_deposits ?v w1) id ?d] =>
    replace (daily_used (kwr slot_bridge_total_deposits v w1) id d) with (daily_used w id d)
      by (unfold daily_used; rewrite (krd_kwr_ne bridge_used) by done; by rewrite (same_reads w w1 _ S2)) end.
  unfold saturating_add. rewrite Z.min_r by lia. rewrite Et in Ht |- *.
  apply negb_false_iff in Heqb4, Heqb5.
  split; [split; try done; lia|]. split; [done|]. split; [done|]. by exists w0, w1.
Qed.

(** Whether a withdrawal at block [b] starts a new period. *)
Definition period_over w b : bool := saturating_add U64_MAX (period_start w) (withdraw_period w) <=? b.

Definition record_withdraw id amount b (over : bool) (withdrawn : Z) w : world :=
  if over then kwr (slot_bridge_period_withdrawn id) (u128_to_u256 amount)
                 (kwr slot_bridge_current_period_start (u64_to_u256 b) w)
  else kwr (slot_bridge_period_withdrawn id) (u128_to_u256 (withdrawn + amount)) w.

Lemma run_check_withdraw_limit id amount b w :
  run (check_withdraw_limit id amount b) w =
    (if period_over w b then
       if max_withdraw w <? amount then Err (ExceedsWithdrawLimit id 0 (max_withdraw w)) else Ok NewPeriod
     else
       match checked_add U128_MAX (period_withdrawn w id) amount with
       | None => Err BBalanceOverflow
       | Some new =>
           if max_withdraw w <? new
           then Err (ExceedsWithdrawLimit id (period_withdrawn w id) (max_withdraw w))
           else Ok (ExistingPeriod new)
       end, w).
Proof.
  unfold check_withdraw_limit, period_over. autorewrite with krun. destruct (_ <=? b).
  - by destruct (_ <? _).
  - autorewrite with krun. destruct (checked_add _ _ _) as [new|]; [|done]. cbn [ok_or].
    by destruct (_ <? new).
Qed.

Lemma withdraw_ok id amount caller b w net w' :
  run (external_withdraw id amount caller b) w = (Ok net, w') ->
  amount <> 0 /\ basic_error w id = None /\ bridge_fee w < amount /\ net = amount - bridge_fee w /\
  (if period_over w b then amount else period_withdrawn w id + amount) <= max_withdraw w /\
  exists w1 w2,
    run (deduct_balance id caller amount) w = (Ok tt, w1) /\
    run (fee_credit id (bridge_fee w)) w1 = (Ok tt, w2) /\ same_at BRIDGE_ADDRESS w w2 /\
    w' = record_withdraw id amount b (period_over w b) (period_withdrawn w id)
           (kwr slot_bridge_total_withdrawals (u128_to_u256 (total_withdrawals w + net)) w2).
Proof using Type.
  intros E. unfold external_withdraw in E.
  change (if 0 <? ?f then bledger (add_balance ?i BRIDGE_ADDRESS ?f) else Ret (Ok tt)) with (fee_credit i f) in E.
  krun_inv E. destruct (basic_error w id) eqn:Hbe; [done|].
  rewrite run_check_withdraw_limit in Heqp. injection Heqp as Hc <-. injection E as <- <-.
  apply run_map_err_ok in Heqp0 as Hd. destruct a1, a2.
  assert (S2 : same_at BRIDGE_ADDRESS w w2).
  { transitivity w1; [|by eapply same_fee]. revert Heqp0. apply same_ledger.
    intros. by apply writes_deduct_balance. }
  apply add_total_withdrawals_ok in Heqp2 as ->.
  assert (Et : total_withdrawals w2 = total_withdrawals w)
    by (unfold total_withdrawals; by rewrite (same_reads w w2 _ S2)). rewrite Et in Heqp3.
  split; [lia|]. do 2 (split; [done || lia|]). split; [done|].
  assert (w4 = record_withdraw id amount b (period_over w b) (period_withdrawn w id)
           (kwr slot_bridge_total_withdrawals (u128_to_u256 (total_withdrawals w + (amount - bridge_fee w))) w2) /\
         (if period_over w b then amount else period_withdrawn w id + amount) <= max_withdraw w) as [-> Hm].
  { destruct (period_over w b).
    - destruct (max_withdraw w <? amount) eqn:Hl; [done|]. injection Hc as <-.
      injection Heqp3 as _ <-. split; [done|lia].
    - destruct (checked_add _ _ _) as [new|] eqn:Ec; [|done]. apply checked_add_Some in Ec as [-> Hmax].
      destruct (max_withdraw w <? _) eqn:Hl; [done|]. injection Hc as <-.
      injection Heqp3 as _ <-. split; [done|lia]. }
  split; [done|]. by exists w1, w2.
Qed.

(** ** Challenges *)

Definition open_challenge h who limit amount proof w : world :=
  (run (kstore_chunks (slot_bridge_challenge_proof_chunk h) 0 (chunks proof))
     (kwr (slot_bridge_challenge_proof_len h) (u64_to_u256 (zlen proof))
       (kwr (slot_bridge_challenge_proof_hash h) (keccak256 proof)
         (kwr (slot_bridge_challenge_bond h) (u128_to_u256 amount)
           (kwr (slot_bridge_challenge_deadline h) (u64_to_u256 limit)
             (kwr (slot_bridge_challenge_challenger h) (address_to_u256 who)
               (kwr (slot_bridge_challenge_status h) 1 w))))))).2.

Lemma initiate_ok h proof who b w w' :
  run (initiate_challenge h proof who b) w = (Ok tt, w') ->
  dep_height w h <> 0 /\ cstatus w h = NoChallenge /\
  b < dep_height w h + challenge_period w /\ b + challenge_period w <= U64_MAX /\
  32 <= zlen proof <= MAX_PROOF_LEN /\
  exists w1, run (deduct_balance CALL_ASSET_ID who (bond_amount w)) w = (Ok tt, w1) /\
    same_at BRIDGE_ADDRESS w w1 /\
    w' = open_challenge h who (b + challenge_period w) (bond_amount w) proof w1.
Proof using Type.
  intros E. unfold initiate_challenge in E. krun_inv E.
  case_bool_decide as Hs; [|done].
  apply ok_checked_add in Heqr as [-> Hd], Heqr1 as [-> Hm]. injection E as <-. destruct a0.
  apply run_map_err_ok in Heqp as Hr. apply orb_false_iff in Heqb2 as [? ?].
  split; [lia|]. split; [done|]. split; [lia|]. split; [done|]. split; [lia|].
  exists w0. split; [done|]. split.
  - revert Heqp. apply same_ledger. intros. by apply writes_deduct_balance.
  - unfold open_challenge. by rewrite Heqp0.
Qed.

Lemma bond_ok h caller w reward w' :
  run (withdraw_challenge_bond h caller) w = (Ok reward, w') ->
  cstatus w h = Successful /\ challenger w h = caller /\ reward = bond w h + bond w h / 10 /\
  exists w1, run (add_balance CALL_ASSET_ID caller reward) w = (Ok tt, w1) /\
    same_at BRIDGE_ADDRESS w w1 /\
    w' = kwr (slot_bridge_challenge_bond h) 0 (kwr (slot_bridge_challenge_status h) 4 w1).
Proof using Type.
  intros E. unfold withdraw_challenge_bond in E. krun_inv E.
  case_bool_decide as Hs; [|done]. apply negb_false_iff, Z.eqb_eq in Heqb0.
  apply ok_checked_add in Heqr as [-> Hm]. injection E as <- <-. destruct a0.
  apply run_map_err_ok in Heqp as Hr. rewrite Heqb0 in Hr.
  split; [done|]. split; [done|]. split; [done|]. exists w0. split; [done|]. split; [|done].
  revert Heqp. apply same_ledger. intros. by apply writes_add_balance.
Qed.

End Runs.

Section Resolve.
Context `{Keccak, RlpHeader, FraudProofCodec} `{!Layout bridge_used}.
Implicit Types (w : world).

Lemma kread_chunks_pure `{Keyed K} m (key : Z -> K) i len acc w :
  (run (kread_chunks m key i len acc) w).2 = w.
Proof using Type.
  revert i acc. induction m as [|m IH]; intros; cbn [kread_chunks]; [done|].
  rewrite run_bind, run_kload. apply IH.
Qed.

(** Verification only reads. *)
Lemma verify_pure E h w : (run (verify_fraud_proof (E := E) h) w).2 = w.
Proof using Type.
  unfold verify_fraud_proof. rewrite run_bind, run_kload. destruct (_ =? 0); [done|].
  rewrite run_bind, run_kget. destruct (_ <? 32); [done|]. cbv zeta. rewrite run_bind.
  pose proof (kread_chunks_pure
    (Z.to_nat (wrap_u64 (u256_to_u64 (krd w (slot_bridge_challenge_proof_len h)) + 31) / 32))
    (slot_bridge_challenge_proof_chunk h) 0
    (Z.to_nat (u256_to_u64 (krd w (slot_bridge_challenge_proof_len h)))) [] w) as Ep.
  destruct (run (kread_chunks _ _ _ _ _) w) as [bytes w1]. cbn [snd] in Ep. subst w1.
  destruct (negb _); [done|]. unfold verify_fraud_proof_cryptographic.
  destruct (decode_fraud_proof bytes) as [fp|]; [|done]. destruct (negb _); [done|].
  destruct (proof_type fp); [done|]. by destruct (root <~ _; _)%cn as [ev| | |].
Qed.

(** Slashing touches only stakes and balances. *)
Lemma slash_elsewhere v : writes (elsewhere BRIDGE_ADDRESS) (slash_stake v).
Proof using Type.
  assert (Hf : forall n i id, writes (elsewhere BRIDGE_ADDRESS) (find_unbonding n i id)).
  { intros n. induction n as [|n IH]; intros i id; cbn [find_unbonding]; [constructor|].
    apply writes_bind; [apply writes_load|]. intros r. destruct (_ =? _); [constructor|apply IH]. }
  unfold slash_stake, remove_from_unbonding_queue, clear_validator_state, read_validator_id, read_stake,
    read_val_status, read_active_validator_count, read_unbonding_count, vload, vstore, ledger.
  writes_prog; try (by apply Hf); try (by apply writes_deduct_balance); done.
Qed.

Definition close_challenge h w : world :=
  kwr (slot_bridge_deposit_block_height h) 0
    (kwr (slot_bridge_deposit_amount h) 0
      (kwr (slot_bridge_deposit_recipient h) 0
        (kwr (slot_bridge_deposit_asset_id h) 0
          (kwr (slot_bridge_challenge_status h) 2 w)))).

Lemma resolve_ok h b resolver w success who w' :
  run (resolve_challenge h b resolver) w = (Ok (success, who), w') ->
  cstatus w h = Pending /\ deadline w h <= b /\
  (resolver = challenger w h \/ resolver = attester w h) /\
  run (verify_fraud_proof (E := BridgeError) h) w = (Ok success, w) /\
  if success : bool then
    who = challenger w h /\ dep_amount w h <= total_deposits w /\
    exists stake w1 w2,
      run (slash_stake (attester w h)) w = (Ok stake, w1) /\
      run (deduct_balance (dep_asset w h) (dep_recipient w h) (dep_amount w h)) w1 = (Ok tt, w2) /\
      same_at BRIDGE_ADDRESS w w2 /\
      w' = (run (clear_challenge_metadata h true) (close_challenge h
             (kwr slot_bridge_total_deposits (u128_to_u256 (total_deposits w - dep_amount w h)) w2))).2
  else
    who = attester w h /\
    exists w1, run (add_balance CALL_ASSET_ID (attester w h) (bond w h)) w = (Ok tt, w1) /\
      same_at BRIDGE_ADDRESS w w1 /\
      w' = (run (clear_challenge_metadata h false) (kwr (slot_bridge_challenge_status h) 3 w1)).2.
Proof using Type.
  intros E. unfold resolve_challenge in E.
  pose proof (verify_pure BridgeError h w) as Pv. krun_inv E; cbn [snd] in Pv; subst w0; injection E as <- <- <-.
  all: apply negb_false_iff, bool_decide_eq_true in Heqb0.
  all: split; [done|]; split; [lia|]; split; [fold (attester w h) in Heqb2; lia|]; split; [done|].
  all: fold (attester w h) in *.
  - destruct (run (slash_stake (attester w h)) w) as [[stake|] w0] eqn:Es; [|done]. cbn [fst snd map_err] in *.
    apply run_map_err_ok in Heqp0, Heqp1. apply run_map_err_ok in Heqp0. destruct a1.
    assert (S0 : same_at BRIDGE_ADDRESS w w0) by (eapply run_elsewhere_eq; [apply slash_elsewhere|done]).
    assert (S1 : same_at BRIDGE_ADDRESS w w1).
    { transitivity w0; [done|]. eapply run_elsewhere_eq; [|done]. by apply writes_deduct_balance. }
    apply sub_total_deposits_ok in Heqp1 as [Hle ->].
    assert (Ed : dep_amount w0 h = dep_amount w h /\ dep_asset w0 h = dep_asset w h /\
                 dep_recipient w0 h = dep_recipient w h).
    { unfold dep_amount, dep_asset, dep_recipient. by rewrite !(same_reads w w0 _ S0). }
    destruct Ed as (Ed1 & Ed2 & Ed3). rewrite Ed1, Ed2, Ed3 in *.
    assert (Et : total_deposits w1 = total_deposits w)
      by (unfold total_deposits; by rewrite (same_reads w w1 _ S1)). rewrite Et in *.
    split; [done|]. split; [done|]. exists stake, w0, w1. split; [done|]. split; [done|].
    split; [done|]. unfold close_challenge. by rewrite Heqp2.
  - apply run_map_err_ok, run_map_err_ok in Heqp0. destruct a0. split; [done|]. exists w1. split; [done|].
    split; [eapply run_elsewhere_eq; [|done]; by apply writes_add_balance|]. by rewrite Heqp1.
Qed.

End Resolve.

(** ** Frames of the challenge operations *)

Section Frames.
Context `{Keccak} `{!Layout bridge_used}.
Implicit Types (w : world).

Definition proof_key h (k : bridge_key) : Prop := exists i, k = slot_bridge_challenge_proof_chunk h i.

Lemma chunk_used h i : fits U256_MAX h -> fits U64_MAX i -> bridge_used (slot_bridge_challenge_proof_chunk h i).
Proof using Type. done. Qed.

Lemma chunk_inj h i j :
  slot_bridge_challenge_proof_chunk h i = slot_bridge_challenge_proof_chunk h j -> i = j.
Proof using Type. congruence. Qed.

Lemma krd_store_proof h proof w k :
  fits U256_MAX h -> zlen proof <= MAX_PROOF_LEN -> bridge_used k -> ~ proof_key h k ->
  krd (run (kstore_chunks (slot_bridge_challenge_proof_chunk h) 0 (chunks proof)) w).2 k = krd w k.
Proof using All.
  intros Hh Hl Hk Hn. apply (run_kframe bridge_used (proof_key h)); [|done..].
  apply (writes_kstore_chunks bridge_used); [intros; by apply chunk_used|done|].
  apply chunks_fit. unfold zlen, MAX_PROOF_LEN, U64_MAX in *. lia.
Qed.

(** The keys [clear_challenge_metadata] resets. *)
Definition cleared h (keep : bool) (k : bridge_key) : Prop :=
  proof_key h k \/ (keep = false /\ (k = slot_bridge_challenge_challenger h \/ k = slot_bridge_challenge_bond h)) \/
  k = slot_bridge_challenge_deadline h \/ k = slot_bridge_challenge_proof_hash h \/
  k = slot_bridge_challenge_proof_len h \/ k = slot_bridge_challenge_original_validator h.

Lemma writes_clear h keep :
  fits U256_MAX h -> writes (kwrites bridge_used (cleared h keep)) (clear_challenge_metadata h keep).
Proof using Type.
  intros Hh. unfold clear_challenge_metadata.
  apply writes_bind; [apply writes_bind; [apply writes_kload|constructor]|intros len]. cbv zeta.
  assert (Hs : forall k v, bridge_used k -> cleared h keep k -> writes (kwrites bridge_used (cleared h keep)) (kstore k v)).
  { intros k v. by apply writes_kstore. }
  apply writes_bind; [|intros _].
  { eapply writes_impl; [|apply (writes_kclear_chunks bridge_used (slot_bridge_challenge_proof_chunk h))];
      [| intros; by apply chunk_used|done|].
    - intros a s Hw Ha. destruct (Hw Ha) as (k & Hk & [i ->] & ->). exists (slot_bridge_challenge_proof_chunk h i).
      split; [done|]. split; [left; by exists i|done].
    - unfold wrap_u64, U64_MAX. pose proof (Z.mod_pos_bound (len + 31) 18446744073709551616 ltac:(lia)).
      assert (0 <= (len + 31) mod 18446744073709551616 / 32 <= 18446744073709551615).
      { split; [apply Z.div_pos; lia|]. apply Z.div_le_upper_bound; lia. }
      change (18446744073709551615 + 1) with 18446744073709551616. lia. }
  apply writes_bind; [destruct keep; [constructor|]; apply writes_bind; [|intros _]|intros _];
    [apply Hs; [done|unfold cleared; tauto]..|].
  repeat (apply writes_bind; [apply Hs; [done|unfold cleared; tauto]|intros _]).
  apply Hs; [done|unfold cleared; tauto].
Qed.

Lemma krd_clear h keep w k :
  fits U256_MAX h -> bridge_used k -> ~ cleared h keep k ->
  krd (run (clear_challenge_metadata h keep) w).2 k = krd w k.
Proof using All. intros Hh Hk Hn. apply (run_kframe bridge_used (cleared h keep)); [by apply writes_clear|done..]. Qed.

End Frames.

(** Tells keys apart. *)
Ltac keys_apart :=
  unfold cleared, proof_key in *; intros; try match goal with |- ~ _ => intro end;
  repeat match goal with
  | Hx : _ \/ _ |- _ => destruct Hx
  | Hx : _ /\ _ |- _ => destruct Hx
  | Hx : exists _, _ |- _ => destruct Hx
  end; simplify_eq; first [done | lia].

(** Reads through writes: the same key, or another one. *)
Ltac kread :=
  repeat first [rewrite krd_kwr_same
               | rewrite (krd_kwr_ne bridge_used) by first [done | congruence | naive_solver]].
