(* ===== verification/BridgeDemo.v ===== *)
(** * BridgeDemo: a bridge scenario

    On a concrete storage a validator credits a deposit, somebody challenges
    it with a proof that shows nothing, wins, and collects the bond and the
    reward.  The examples of the bridge files run on it. *)

From stdpp Require Import base gmap list strings.
From Stdlib Require Import ZArith Lia.
From S2P Require Import Prelude Provider World EvmProvider Refinement Dispatch Utils.
From S2P Require Import Asset AssetSpec AssetPrecompile SimpleJournal HashDemo Validator.
From S2P Require Import Keyed Rlp EthProof Trap Bridge BridgeSpec.

Local Open Scope Z_scope.
Local Open Scope callnode_scope.

Module BridgeDemo.
Import Demo HashDemo.

Lemma bridge_preimage_bytes k : Forall is_byte (bridge_preimage k).
Proof.
  unfold bridge_preimage. destruct k; cbn [bridge_parts concat]; rewrite ?Forall_app; split_and?;
    first [by constructor | apply b_bytes | apply be_bytes_is_byte].
Qed.

#[global] Instance bridge_demo_layout : Layout bridge_used.
Proof.
  apply bridge_layout_holds. split.
  - intros k k' _ _ E. apply hash_inj; [apply bridge_preimage_bytes..|done].
  - intros k _ Hk. apply hash_above; [apply bridge_preimage_bytes|].
    destruct k; cbv -[be_bytes]; try done; exfalso; apply Hk; unfold is_counter; auto.
Qed.

#[global] Instance rlp_header : RlpHeader := fun _ => true.

(** A header whose fifth field is a hash of 32 bytes. *)
Definition hdr : EthHeader := from_rlp (0xE5 :: replicate 4 0x80 ++ 0xA0 :: be_bytes 32 99).
Definition proof : list Z := replicate 32 7.

(** The only byte string that decodes as a fraud proof. *)
#[global] Instance codec : FraudProofCodec := fun bs =>
  if bool_decide (bs = proof) then Some (mkFraudProof hdr TxNonExistence []) else None.

Definition carol : Z := 0xCA401.
Definition gateway : Z := 0x6A7E.
Definition tx : Z := 77.

Definition at_height (b : Z) (m : wstate) : world := mkWorld m (mkEnv 1000000 false 1 1000 b 0) [].
Definition set (k : bridge_key) (v : Z) (m : wstate) : wstate := put_slot BRIDGE_ADDRESS (key_slot k) v m.
Definition set_balance (a v : Z) (m : wstate) : wstate :=
  put_slot ASSET_ADDRESS (slot_balance CALL_ASSET_ID a) v m.

(** [alice] is a validator with a stake of 500 in escrow; [carol] can pay the bond. *)
Definition start : world := at_height 10
  (set (slot_bridge_authorized_contract 1 gateway) 1
  (set_balance carol 5000
  (set_balance STAKING_ESCROW 500
  (put_meta "issuer" alice
  (put_slot VALIDATOR_ADDRESS (slot_validator_by_addr alice) 1
  (put_slot VALIDATOR_ADDRESS (slot_validator_stake alice) 500
  (put_slot VALIDATOR_ADDRESS (slot_validator_status alice) 1
  (put_slot VALIDATOR_ADDRESS slot_active_validator_count 1 w0)))))))).

Definition deposit (b : Z) : prog (bres Z) := external_deposit 1 gateway tx 1 bob 400 alice b.
Definition challenge : prog (bres unit) := initiate_challenge tx proof carol 20.
Definition late : Z := 2500000.
Definition resolve : prog (result (trap BridgeError) (bool * Z)) := resolve_challenge tx late carol.
Definition payout : prog (bres Z) := withdraw_challenge_bond tx carol.
Definition after {A} (p : prog A) (w : world) : world := (run p w).2.

Definition deposited_w : world := after (deposit 10) start.
Definition challenged_w : world := after challenge deposited_w.
Definition resolved_w : world := after resolve challenged_w.
Definition paid_w : world := after payout resolved_w.

Lemma bridge_ran {E A} (p : prog (result E A)) (a : A) w :
  (run p w).1 = Ok a -> run p w = (Ok a, after p w).
Proof. intros Er. rewrite <- Er. apply surjective_pairing. Qed.

Lemma deposit_runs : run (deposit 10) start = (Ok 400, deposited_w).
Proof. apply (bridge_ran (deposit 10) 400 start). vm_compute. reflexivity. Qed.
Lemma initiate_runs : run challenge deposited_w = (Ok tt, challenged_w).
Proof. apply (bridge_ran challenge tt deposited_w). vm_compute. reflexivity. Qed.
Lemma resolve_runs : run resolve challenged_w = (Ok (true, carol), resolved_w).
Proof. apply (bridge_ran resolve (true, carol) challenged_w). vm_compute. reflexivity. Qed.
Lemma payout_runs : run payout resolved_w = (Ok 1100, paid_w).
Proof. apply (bridge_ran payout 1100 resolved_w). vm_compute. reflexivity. Qed.

(** [carol] has won a tenth of the bond, [bob] and [alice] have lost
    everything, although nothing was wrong with the deposit. *)
Example challenge_scenario :
  bal deposited_w 1 bob = 400 /\ bal paid_w 1 bob = 0 /\ bal paid_w 1 carol = 5100 /\
  wslot paid_w VALIDATOR_ADDRESS (slot_validator_by_addr alice) = 0 /\ cstatus paid_w tx = Withdrawn.
Proof. vm_compute. done. Qed.

(** After the retention the same source transaction is credited again, and
    the second deposit cannot be challenged. *)
Example redeposit_after_retention :
  exists w', run (deposit 5000000) paid_w = (Ok 400, w') /\
    bal w' 1 bob = 400 /\ (run (initiate_challenge tx proof carol 5000001) w').1 = Err AlreadyChallenged.
Proof. exists (after (deposit 5000000) paid_w). split; [apply (bridge_ran (deposit 5000000) 400 paid_w); vm_compute; reflexivity|]. vm_compute. done. Qed.

(** A recipient that has spent the deposit makes the resolution fail. *)
Example spent_deposit_blocks_resolution :
  let w := after (deduct_balance 1 bob 1) challenged_w in
  (run resolve w).1 = Err (Raised BInsufficientBalance).
Proof. vm_compute. done. Qed.

(** A new period that another asset starts keeps the old counter: asset 1
    cannot be withdrawn although the period is new. *)
Example stale_period_counter :
  let w := at_height 3000000 (set slot_bridge_max_withdraw_per_period 101 (set_balance alice 500
             (put_slot ASSET_ADDRESS (slot_balance 2 bob) 10
             (put_slot ASSET_ADDRESS (slot_asset_meta 2 (b_ "issuer")) bob (w_cur start))))) in
  let w1 := after (external_withdraw 1 100 alice 2419200) w in
  let w2 := after (external_withdraw 2 10 bob 4838400) w1 in
  (run (external_withdraw 1 1 alice 4838401) w2).1 = Err (ExceedsWithdrawLimit 1 100 100) /\
  period_start w2 = 4838400.
Proof. vm_compute. done. Qed.

(** A deposit creates units without changing the recorded supply. *)
Example deposit_leaves_supply :
  bal deposited_w 1 bob - bal start 1 bob = 400 /\ supply_of deposited_w 1 = supply_of start 1.
Proof. vm_compute. done. Qed.

End BridgeDemo.
