(* ===== verification/BridgeProps.v ===== *)
(** * BridgeProps: limits, replays and challenges

    Histories of bridge operations: deposits respect the daily limit,
    withdrawals the limit of their period, a source transaction is not
    credited twice while it is remembered, and a deposit is challenged, a
    challenge resolved and a bond paid at most once.  Also what a fraud proof
    is worth: a proof without nodes wins every challenge. *)

From stdpp Require Import base gmap list strings.
From Stdlib Require Import ZArith Lia.
From S2P Require Import Prelude Provider World EvmProvider Refinement Dispatch Utils.
From S2P Require Import Asset AssetSpec Validator Keyed Rlp EthProof Trap.
From S2P Require Import Bridge BridgeSpec SimpleJournal HashDemo BridgeDemo.

Local Open Scope Z_scope.
Local Open Scope callnode_scope.

(** ** Histories *)

Inductive bridge_op : Type :=
| BDeposit (chain contract h id recipient amount validator : Z)
| BWithdraw (id amount caller : Z)
| BInitiate (h : Z) (proof : list Z) (who : Z)
| BResolve (h resolver : Z)
| BBond (h caller : Z).

(** The arguments have the width of their types. *)
Definition op_fits (o : bridge_op) : Prop :=
  match o with
  | BDeposit chain contract h id recipient amount validator =>
      fits U64_MAX chain /\ fits ADDRESS_MAX contract /\ fits U256_MAX h /\ fits U64_MAX id /\
      fits ADDRESS_MAX recipient /\ fits U128_MAX amount /\ fits ADDRESS_MAX validator
  | BWithdraw id amount caller => fits U64_MAX id /\ fits U128_MAX amount /\ fits ADDRESS_MAX caller
  | BInitiate h proof who => fits U256_MAX h /\ fits ADDRESS_MAX who /\ Forall is_byte proof
  | BResolve h resolver => fits U256_MAX h /\ fits ADDRESS_MAX resolver
  | BBond h caller => fits U256_MAX h /\ fits ADDRESS_MAX caller
  end.

(** The keys an operation may write. *)
Definition op_keys (o : bridge_op) (k : bridge_key) : Prop :=
  match o with
  | BDeposit _ _ h id _ _ _ =>
      k = slot_bridge_total_deposits \/ (exists day, k = slot_bridge_daily_used id day) \/
      k = slot_bridge_processed h \/ k = slot_bridge_deposit_asset_id h \/
      k = slot_bridge_deposit_recipient h \/ k = slot_bridge_deposit_amount h \/
      k = slot_bridge_deposit_block_height h \/ k = slot_bridge_challenge_original_validator h
  | BWithdraw id _ _ =>
      k = slot_bridge_total_withdrawals \/ k = slot_bridge_current_period_start \/
      k = slot_bridge_period_withdrawn id
  | BInitiate h _ _ =>
      k = slot_bridge_challenge_status h \/ k = slot_bridge_challenge_challenger h \/
      k = slot_bridge_challenge_deadline h \/ k = slot_bridge_challenge_bond h \/
      k = slot_bridge_challenge_proof_hash h \/ k = slot_bridge_challenge_proof_len h \/ proof_key h k
  | BResolve h _ =>
      k = slot_bridge_total_deposits \/ k = slot_bridge_challenge_status h \/
      k = slot_bridge_deposit_asset_id h \/ k = slot_bridge_deposit_recipient h \/
      k = slot_bridge_deposit_amount h \/ k = slot_bridge_deposit_block_height h \/ cleared h false k
  | BBond h _ => k = slot_bridge_challenge_status h \/ k = slot_bridge_challenge_bond h
  end.

Section Props.
Context `{Keccak, RlpHeader, FraudProofCodec} `{!Layout bridge_used}.
Implicit Types (w : world).

(** A successful operation at block [b]. *)
Definition bridge_run (b : Z) (o : bridge_op) (w w' : world) : Prop :=
  match o with
  | BDeposit chain contract h id recipient amount validator =>
      exists net, run (external_deposit chain contract h id recipient amount validator b) w = (Ok net, w')
  | BWithdraw id amount caller => exists net, run (external_withdraw id amount caller b) w = (Ok net, w')
  | BInitiate h proof who => run (initiate_challenge h proof who b) w = (Ok tt, w')
  | BResolve h resolver =>
      exists success who, run (resolve_challenge h b resolver) w = (Ok (success, who), w')
  | BBond h caller => exists reward, run (withdraw_challenge_bond h caller) w = (Ok reward, w')
  end.

(** Operations in the order of their blocks, newest first, between changes
    that leave the bridge's storage alone. *)
Inductive bridge_history (w : world) : list (Z * bridge_op) -> world -> Prop :=
| bh_start : bridge_history w [] w
| bh_other es w1 w2 :
    bridge_history w es w1 -> same_at BRIDGE_ADDRESS w1 w2 -> bridge_history w es w2
| bh_op es w1 b o w2 :
    bridge_history w es w1 -> Forall (fun e => e.1 <= b) es -> fits U64_MAX b -> op_fits o ->
    bridge_run b o w1 w2 -> bridge_history w ((b, o) :: es) w2.

Lemma day_fits w b : fits U64_MAX b -> fits U64_MAX (b / blocks_per_day w).
Proof using Type.
  intros Hb. assert (0 <= blocks_per_day w).
  { unfold blocks_per_day, cfg64. pose proof (u256_to_u64_fits (krd w slot_bridge_blocks_per_day)).
    destruct (Z.eqb_spec (u256_to_u64 (krd w slot_bridge_blocks_per_day)) 0); [done|fit]. }
  destruct (Z.eq_dec (blocks_per_day w) 0) as [->|]; [rewrite Zdiv_0_r; fit|].
  split; [apply Z.div_pos; fit|]. apply Z.div_le_upper_bound; [lia|]. unfold fits in *. nia.
Qed.

(** An operation changes nothing but its keys. *)
Lemma bridge_op_frame b o w w' k :
  bridge_run b o w w' -> fits U64_MAX b -> op_fits o -> bridge_used k -> ~ op_keys o k ->
  krd w' k = krd w k.
Proof using All.
  intros Hr Hb Ho Hk Hn.
  destruct o as [chain contract h id recipient amount validator|id amount caller|h proof who|h resolver|h caller];
    cbn [op_fits op_keys bridge_run] in *; destruct_and?.
  - destruct Hr as [net E]. apply deposit_ok in E as (_ & _ & _ & w1 & w2 & _ & _ & S & ->); [|done|by apply day_fits].
    pose proof (day_fits w b Hb). unfold record_deposit. kread. by apply same_reads.
  - destruct Hr as [net E]. apply withdraw_ok in E as (_ & _ & _ & _ & _ & w1 & w2 & _ & _ & S & ->).
    unfold record_withdraw. destruct (period_over w b); kread; by apply same_reads.
  - apply initiate_ok in Hr as (_ & _ & _ & _ & Hl & w1 & _ & S & ->). unfold open_challenge.
    rewrite krd_store_proof by (done || lia || naive_solver). kread. by apply same_reads.
  - destruct Hr as (success & who & E). apply resolve_ok in E as (_ & _ & _ & _ & E). destruct success.
    + destruct E as (_ & _ & stake & w1 & w2 & _ & _ & S & ->).
      rewrite krd_clear; [|done|done|unfold cleared in *; naive_solver].
      unfold close_challenge. kread. by apply same_reads.
    + destruct E as (_ & w1 & _ & S & ->). rewrite krd_clear; [|done|done|naive_solver].
      kread. by apply same_reads.
  - destruct Hr as [reward E]. apply bond_ok in E as (_ & _ & _ & w1 & _ & S & ->). kread. by apply same_reads.
Qed.

(** What no operation writes stays as it was along a history. *)
Lemma history_constant w es w' k :
  bridge_history w es w' -> bridge_used k -> (forall o, ~ op_keys o k) -> krd w' k = krd w k.
Proof using All.
  intros Hh Hk Hn. induction Hh as [|es w1 w2 _ IH S|es w1 b o w2 _ IH Hb Hf Ho Hr]; [done| |].
  - by rewrite (same_reads w1 w2 k S).
  - by rewrite (bridge_op_frame b o w1 w2 k Hr Hf Ho Hk (Hn o)).
Qed.

Ltac never_written := intros []; cbn [op_keys]; keys_apart.

Lemma history_config64 w es w' k d :
  bridge_history w es w' -> bridge_used k -> (forall o, ~ op_keys o k) -> cfg64 w' k d = cfg64 w k d.
Proof using All. intros Hh Hk Hn. unfold cfg64. by rewrite (history_constant w es w' k Hh Hk Hn). Qed.
Lemma history_config128 w es w' k d :
  bridge_history w es w' -> bridge_used k -> (forall o, ~ op_keys o k) -> cfg128 w' k d = cfg128 w k d.
Proof using All. intros Hh Hk Hn. unfold cfg128. by rewrite (history_constant w es w' k Hh Hk Hn). Qed.

Lemma u128_round v : 0 <= v <= U128_MAX -> u256_to_u128 (u128_to_u256 v) = v.
Proof using Type. intros. rewrite (u128_to_u256_id v) by fit. apply u256_to_u128_id. fit. Qed.
Lemma u64_round v : fits U64_MAX v -> u256_to_u64 (u64_to_u256 v) = v.
Proof using Type. intros. rewrite (u64_to_u256_id v) by done. by apply u256_to_u64_id. Qed.
Lemma u256_to_u128_nonneg v : 0 <= u256_to_u128 v.
Proof using Type. rewrite u256_to_u128_mod. by apply Z.mod_pos_bound. Qed.

(** ** The daily limit *)

(** What was deposited of an asset on a day. *)
Definition deposited (es : list (Z * bridge_op)) (id day bpd : Z) : Z :=
  sum_of (fun e => match e.2 with
                   | BDeposit _ _ _ id' _ amount _ => if (id' =? id) && (e.1 / bpd =? day) then amount else 0
                   | _ => 0
                   end) es.

Lemma deposit_daily chain contract h id' recipient amount validator b w w' id day :
  bridge_run b (BDeposit chain contract h id' recipient amount validator) w w' ->
  fits U64_MAX b -> op_fits (BDeposit chain contract h id' recipient amount validator) ->
  fits U64_MAX id -> fits U64_MAX day ->
  daily_used w' id day =
    daily_used w id day + (if (id' =? id) && (b / blocks_per_day w =? day) then amount else 0) /\
  (id' = id -> b / blocks_per_day w = day -> daily_used w' id day <= daily_limit w id).
Proof using All.
  intros [net E] Hb (_ & _ & Hh & Hid' & _ & Ha & _) Hid Hday.
  apply deposit_ok in E as (C & _ & _ & w1 & w2 & _ & _ & S & ->); [|done|by apply day_fits].
  pose proof (dc_daily _ _ _ _ _ _ _ _ C) as Hl. unfold record_deposit, daily_used.
  pose proof (day_fits w b Hb). pose proof (u256_to_u128_nonneg (krd w (slot_bridge_daily_used id' (b / blocks_per_day w)))).
  destruct (Z.eqb_spec id' id) as [->|]; cbn [andb]; [destruct (Z.eqb_spec (b / blocks_per_day w) day) as [<-|]|].
  - kread. unfold daily_used in *. rewrite u128_round by (unfold fits in *; lia). split; [done|lia].
  - split; [|done]. kread. rewrite (same_reads w w2 _ S). lia.
  - split; [|done]. kread. rewrite (same_reads w w2 _ S). lia.
Qed.

Lemma history_daily w es w' id day :
  bridge_history w es w' -> fits U64_MAX id -> fits U64_MAX day ->
  daily_used w' id day = daily_used w id day + deposited es id day (blocks_per_day w) /\
  (0 < deposited es id day (blocks_per_day w) -> daily_used w' id day <= daily_limit w id).
Proof using All.
  intros Hh Hid Hday. induction Hh as [|es w1 w2 Hh IH S|es w1 b o w2 Hh IH Hb Hf Ho Hr].
  - cbn. split; lia.
  - unfold daily_used in *. by rewrite (same_reads w1 w2 _ S).
  - destruct o as [chain contract h id' recipient amount validator| | | |].
    2-5: assert (daily_used w2 id day = daily_used w1 id day) as E
      by (unfold daily_used; erewrite bridge_op_frame; [done|done|done|done|done|cbn [op_keys] in *; keys_apart]);
      rewrite E; unfold deposited; cbn [sum_of snd]; exact IH.
    destruct IH as [E1 L1].
    destruct (deposit_daily chain contract h id' recipient amount validator b w1 w2 id day Hr Hf Ho Hid Hday) as [E2 L2].
    assert (Eb : blocks_per_day w1 = blocks_per_day w) by (apply (history_config64 w es); [done|done|never_written]).
    assert (El : daily_limit w1 id = daily_limit w id) by (apply (history_config128 w es); [done|done|never_written]).
    rewrite Eb in *. rewrite El in L2. unfold deposited in *. cbn [sum_of fst snd] in *.
    split; [lia|]. intros Hpos.
    destruct (Z.eqb_spec id' id) as [->|], (Z.eqb_spec (b / blocks_per_day w) day) as [Ed|]; cbn [andb] in *;
      [by apply L2|lia..].
Qed.

(** C10: the daily limit holds.  Along any history of bridge operations and of
    other changes, the recorded use of an asset on a day grows by exactly
    what was deposited of it on that day, and as soon as anything is deposited
    the recorded use is within the daily limit. *)
Theorem deposits_within_daily_limit w es w' id day :
  bridge_history w es w' -> fits U64_MAX id -> fits U64_MAX day ->
  daily_used w' id day = daily_used w id day + deposited es id day (blocks_per_day w) /\
  (0 < deposited es id day (blocks_per_day w) ->
   daily_used w id day + deposited es id day (blocks_per_day w) <= daily_limit w id).
Proof using All.
  intros Hh Hid Hday. destruct (history_daily w es w' id day Hh Hid Hday) as [E L].
  split; [done|]. intros Hp. rewrite <- E. auto.
Qed.

(** ** Replays *)

(** A deposit that was made is remembered with its block or a later one. *)
Lemma history_processed w es w' h b1 chain contract id recipient amount validator :
  bridge_history w es w' -> fits U256_MAX h ->
  (b1, BDeposit chain contract h id recipient amount validator) ∈ es ->
  exists b, b1 <= b /\ fits U64_MAX b /\ krd w' (slot_bridge_processed h) = b.
Proof using All.
  intros Hh Hfit. induction Hh as [|es w1 w2 Hh IH S|es w1 b o w2 Hh IH Hb Hf Ho Hr]; intros Hin.
  - by apply elem_of_nil in Hin.
  - rewrite (same_reads w1 w2 _ S). auto.
  - destruct o as [chain' contract' h' id' recipient' amount' validator'| | | |].
    2-5: apply elem_of_cons in Hin as [?|Hin]; [done|]; destruct (IH Hin) as (b' & ? & ? & E);
      exists b'; split; [done|]; split; [done|];
      rewrite <- E; apply (bridge_op_frame _ _ _ _ _ Hr); [done..|cbn [op_keys] in *; keys_apart].
    destruct (decide (h' = h)) as [->|Hne].
    + exists b. split; [|split; [done|]].
      * apply elem_of_cons in Hin as [[= -> _]|Hin]; [lia|]. rewrite Forall_forall in Hb.
        by specialize (Hb _ Hin).
      * destruct Hr as [net E]. destruct Ho as (_ & _ & _ & Hid & _).
        apply deposit_ok in E as (_ & _ & _ & wa & wb & _ & _ & S & ->); [|done|by apply day_fits].
        unfold record_deposit. kread. by apply u64_to_u256_id.
    + apply elem_of_cons in Hin as [[= ? ? ? <-]|Hin]; [done|]. destruct (IH Hin) as (b' & ? & ? & E).
      exists b'. split; [done|]. split; [done|]. rewrite <- E.
      apply (bridge_op_frame _ _ _ _ _ Hr); [done..|cbn; naive_solver].
Qed.

(** C11: a source transaction is credited once while it is remembered.  If a
    history with a deposit for a source transaction goes on with another
    deposit for it, more blocks than the retention lie between the two. *)
Theorem deposits_not_replayed w es w' h b1 b2 chain contract id recipient amount validator
    chain' contract' id' recipient' amount' validator' :
  bridge_history w ((b2, BDeposit chain' contract' h id' recipient' amount' validator') :: es) w' ->
  fits U256_MAX h -> 0 < b1 ->
  (b1, BDeposit chain contract h id recipient amount validator) ∈ es ->
  retention w < b2 - b1.
Proof using All.
  intros Hh Hfit Hpos Hin. remember (_ :: es) as es' eqn:Ees. revert es Ees Hin.
  induction Hh as [|es' w1 w2 _ IH S|es' w1 b o w2 Hh _ Hb Hf Ho Hr]; intros es Ees Hin; [done|eauto|].
  injection Ees as -> -> ->.
  destruct (history_processed w es w1 h b1 chain contract id recipient amount validator Hh Hfit Hin)
    as (b & Hge & Hbf & Ek).
  destruct Hr as [net E]. destruct Ho as (_ & _ & _ & Hid' & _).
  apply deposit_ok in E as (C & _); [|done|by apply day_fits].
  pose proof (dc_fresh _ _ _ _ _ _ _ _ C) as Hfresh. unfold processed in Hfresh. rewrite Ek in Hfresh.
  destruct (Z.eqb_spec b 0); [lia|]. rewrite u256_to_u64_id in Hfresh by done.
  assert (retention w1 = retention w) as Er by (apply (history_config64 w es); [done|done|never_written]).
  rewrite Er in Hfresh. unfold saturating_sub in Hfresh. apply Z.leb_gt in Hfresh.
  assert (0 <= retention w).
  { unfold retention, cfg64. pose proof (u256_to_u64_fits (krd w slot_bridge_processed_retention)).
    destruct (Z.eqb_spec (u256_to_u64 (krd w slot_bridge_processed_retention)) 0); [done|fit]. }
  lia.
Qed.

(** ** The withdrawal limit *)

(** What was withdrawn of an asset after block [from]. *)
Definition withdrawn (es : list (Z * bridge_op)) (id from : Z) : Z :=
  sum_of (fun e => match e.2 with
                   | BWithdraw id' amount _ => if (id' =? id) && (from <? e.1) then amount else 0
                   | _ => 0
                   end) es.

Lemma withdrawn_none es id from : Forall (fun e => e.1 <= from) es -> withdrawn es id from = 0.
Proof using Type.
  unfold withdrawn. induction 1 as [|[b o] es Hb _ IH]; [done|]. cbn [sum_of fst snd] in *. rewrite IH.
  destruct o; try done. destruct (Z.ltb_spec from b); [lia|]. by rewrite andb_false_r.
Qed.

Lemma history_withdrawn w es w' id :
  bridge_history w es w' -> fits U64_MAX id ->
  withdrawn es id (period_start w') <= period_withdrawn w' id /\
  (0 < withdrawn es id (period_start w') -> period_withdrawn w' id <= max_withdraw w).
Proof using All.
  intros Hh Hid. induction Hh as [|es w1 w2 Hh IH S|es w1 b o w2 Hh IH Hb Hf Ho Hr].
  - cbn. split; [apply u256_to_u128_nonneg|lia].
  - unfold period_withdrawn, period_start in *. by rewrite !(same_reads w1 w2 _ S).
  - destruct o as [|id' amount caller| | |].
    1, 3-5: assert (period_start w2 = period_start w1 /\ period_withdrawn w2 id = period_withdrawn w1 id) as [-> ->]
      by (unfold period_start, period_withdrawn; split; f_equal;
          (apply (bridge_op_frame _ _ _ _ _ Hr); [done..|cbn [op_keys] in *; keys_apart]));
      unfold withdrawn in *; cbn [sum_of snd]; exact IH.
    destruct Hr as [net E]. destruct Ho as (Hid' & Ha & _).
    apply withdraw_ok in E as (_ & _ & _ & _ & Hm & wa & wb & _ & _ & S & ->).
    assert (Em : max_withdraw w1 = max_withdraw w) by (apply (history_config128 w es); [done|done|never_written]).
    rewrite Em in Hm. pose proof (u256_to_u128_nonneg (krd w1 (slot_bridge_period_withdrawn id))) as Hnn.
    unfold record_withdraw, period_start, period_withdrawn in *. destruct (period_over w1 b).
    + assert (Ep : u256_to_u64 (krd (kwr (slot_bridge_period_withdrawn id') (u128_to_u256 amount)
          (kwr slot_bridge_current_period_start (u64_to_u256 b) (kwr slot_bridge_total_withdrawals
             (u128_to_u256 (total_withdrawals w1 + net)) wb))) slot_bridge_current_period_start) = b)
        by (kread; by apply u64_round).
      rewrite Ep, withdrawn_none; [split; [apply u256_to_u128_nonneg|lia]|].
      constructor; [cbn; lia|done].
    + assert (Hmax : max_withdraw w <= U128_MAX).
      { unfold max_withdraw, cfg128. rewrite u256_to_u128_mod. unfold U128_MAX.
        pose proof (Z.mod_pos_bound (krd w slot_bridge_max_withdraw_per_period) (2 ^ 128) ltac:(lia)).
        destruct (_ =? 0); [vm_compute; discriminate|lia]. }
      kread. rewrite (same_reads w1 wb _ S). unfold withdrawn. cbn [sum_of fst snd].
      fold (withdrawn es id (u256_to_u64 (krd w1 slot_bridge_current_period_start))).
      destruct (Z.eqb_spec id' id) as [->|]; cbn [andb].
      * kread. rewrite u128_round by (unfold fits in *; lia). destruct (_ <? b); unfold fits in *; lia.
      * kread. rewrite (same_reads w1 wb _ S). exact IH.
Qed.

(** The withdrawal limit holds.  Along any history, what was withdrawn of
    an asset after the block in which the current period began is within the
    limit of a period. *)
Theorem withdrawals_within_period_limit w es w' id :
  bridge_history w es w' -> fits U64_MAX id -> withdrawn es id (period_start w') <= max_withdraw w.
Proof using All.
  intros Hh Hid. destruct (history_withdrawn w es w' id Hh Hid) as [H1' H2'].
  destruct (Z.leb_spec (withdrawn es id (period_start w')) 0); [|lia].
  assert (0 <= max_withdraw w); [|lia]. unfold max_withdraw, cfg128.
  pose proof (u256_to_u128_nonneg (krd w slot_bridge_max_withdraw_per_period)).
  destruct (Z.eqb_spec (u256_to_u128 (krd w slot_bridge_max_withdraw_per_period)) 0); [vm_compute; discriminate|lia].
Qed.

(** ** The life of a challenge *)

Definition is_initiate h (e : Z * bridge_op) : bool :=
  match e.2 with BInitiate h' _ _ => h' =? h | _ => false end.
Definition is_resolve h (e : Z * bridge_op) : bool :=
  match e.2 with BResolve h' _ => h' =? h | _ => false end.
Definition is_payout h (e : Z * bridge_op) : bool :=
  match e.2 with BBond h' _ => h' =? h | _ => false end.
Definition times (f : Z * bridge_op -> bool) (es : list (Z * bridge_op)) : nat := length (List.filter f es).

Definition life h (es : list (Z * bridge_op)) : nat * nat * nat :=
  (times (is_initiate h) es, times (is_resolve h) es, times (is_payout h) es).

(** The counts that go with a status. *)
Definition life_of (s : ChallengeStatus) : nat * nat * nat :=
  match s with
  | NoChallenge => (0, 0, 0)
  | Pending => (1, 0, 0)
  | Successful | Failed => (1, 1, 0)
  | Withdrawn => (1, 1, 1)
  end%nat.

(** The status of a deposit after an operation on it. *)
Lemma initiate_status h proof who b w w' :
  bridge_run b (BInitiate h proof who) w w' -> fits U256_MAX h ->
  cstatus w h = NoChallenge /\ cstatus w' h = Pending.
Proof using All.
  intros E Hh. apply initiate_ok in E as (_ & Hs & _ & _ & Hl & w1 & _ & S & ->). split; [done|].
  unfold cstatus, open_challenge. rewrite krd_store_proof; [|done|lia|done|keys_apart]. by kread.
Qed.

Lemma resolve_status h b resolver w success who w' :
  run (resolve_challenge h b resolver) w = (Ok (success, who), w') -> fits U256_MAX h ->
  cstatus w h = Pending /\ cstatus w' h = if success then Successful else Failed.
Proof using All.
  intros E Hh. apply resolve_ok in E as (Hs & _ & _ & _ & E). split; [done|]. unfold cstatus. destruct success.
  - destruct E as (_ & _ & ? & w1 & w2 & _ & _ & S & ->).
    rewrite krd_clear; [|done|done|cbn [op_keys] in *; keys_apart]. unfold close_challenge. by kread.
  - destruct E as (_ & w1 & _ & S & ->).
    rewrite krd_clear; [|done|done|cbn [op_keys] in *; keys_apart]. by kread.
Qed.

Lemma bond_status h caller b w w' :
  bridge_run b (BBond h caller) w w' -> fits U256_MAX h ->
  cstatus w h = Successful /\ cstatus w' h = Withdrawn.
Proof using All.
  intros [reward E] Hh. apply bond_ok in E as (Hs & _ & _ & w1 & _ & S & ->). split; [done|].
  unfold cstatus. by kread.
Qed.

Lemma other_status b o w w' h :
  bridge_run b o w w' -> fits U64_MAX b -> op_fits o -> fits U256_MAX h ->
  is_initiate h (b, o) = false -> is_resolve h (b, o) = false -> is_payout h (b, o) = false ->
  cstatus w' h = cstatus w h.
Proof using All.
  intros Hr Hb Ho Hh H1' H2' H3'. unfold cstatus. f_equal. apply (bridge_op_frame _ _ _ _ _ Hr); [done..|].
  destruct o; cbn [op_keys is_initiate is_resolve is_payout snd] in *; unfold cleared, proof_key;
    keys_apart.
Qed.

(** C12: a deposit is challenged, a challenge resolved and a bond paid at most
    once.  Along any history, the status of a deposit that was not challenged
    at the start says exactly how often each of the three has happened. *)
Theorem challenge_life_cycle w es w' h :
  bridge_history w es w' -> fits U256_MAX h -> cstatus w h = NoChallenge -> life h es = life_of (cstatus w' h).
Proof using All.
  intros Hh Hfit H0'. induction Hh as [|es w1 w2 Hh IH S|es w1 b o w2 Hh IH Hb Hf Ho Hr].
  - by rewrite H0'.
  - rewrite IH. unfold cstatus. by rewrite (same_reads w1 w2 _ S).
  - unfold life, times in *. cbn [List.filter].
    destruct (is_initiate h (b, o)) eqn:Hi.
    { destruct o as [| |h' proof who| |]; try done. cbn in Hi. apply Z.eqb_eq in Hi as ->.
      destruct (initiate_status h proof who b w1 w2 Hr Hfit) as [Es1 ->]. rewrite Es1 in IH. cbn in IH.
      injection IH as E1 E2 E3. cbn. by rewrite E1, E2, E3. }
    destruct (is_resolve h (b, o)) eqn:Hv.
    { destruct o as [| | |h' resolver|]; try done. cbn in Hv. apply Z.eqb_eq in Hv as ->.
      destruct Hr as (success & who & E). destruct (resolve_status _ _ _ _ _ _ _ E Hfit) as [Es1 ->].
      rewrite Es1 in IH. injection IH as E1 E2 E3. cbn. rewrite E1, E2, E3. by destruct success. }
    destruct (is_payout h (b, o)) eqn:Hp.
    { destruct o as [| | | |h' caller]; try done. cbn in Hp. apply Z.eqb_eq in Hp as ->.
      destruct (bond_status h caller b w1 w2 Hr Hfit) as [Es1 ->]. rewrite Es1 in IH.
      injection IH as E1 E2 E3. cbn. by rewrite E1, E2, E3. }
    by rewrite (other_status b o w1 w2 h).
Qed.

End Props.

(** ** A concrete history *)

Module BridgePropsDemo.
Import Demo BridgeDemo.

Ltac decided := refine (bool_decide_eq_true_1 _ _); vm_compute; reflexivity.

Definition op_deposit : bridge_op := BDeposit 1 gateway tx 1 bob 400 alice.

Lemma op_deposit_fits : op_fits op_deposit.
Proof. repeat split; decided. Qed.
Lemma challenge_fits : op_fits (BInitiate tx proof carol).
Proof. split; [decided|]. split; [decided|]. apply Forall_replicate. by split. Qed.
Lemma resolve_fits : op_fits (BResolve tx carol).
Proof. split; decided. Qed.

(** The deposit, its challenge and the resolution. *)
Lemma deposit_history : bridge_history start [(10, op_deposit)] deposited_w.
Proof.
  eapply bh_op; [apply bh_start|constructor|decided|apply op_deposit_fits|].
  exists 400. exact deposit_runs.
Qed.

Lemma challenge_history :
  bridge_history start [(late, BResolve tx carol); (20, BInitiate tx proof carol); (10, op_deposit)] resolved_w.
Proof.
  eapply bh_op; [eapply bh_op; [apply deposit_history|..]|..].
  - by repeat constructor.
  - decided.
  - apply challenge_fits.
  - exact initiate_runs.
  - by repeat constructor.
  - decided.
  - apply resolve_fits.
  - exists true, carol. exact resolve_runs.
Qed.

Lemma deposits_within_daily_limit_witness :
  daily_used deposited_w 1 0 =
    daily_used start 1 0 + deposited [(10, op_deposit)] 1 0 (blocks_per_day start) /\
  (0 < deposited [(10, op_deposit)] 1 0 (blocks_per_day start) ->
   daily_used start 1 0 + deposited [(10, op_deposit)] 1 0 (blocks_per_day start) <= daily_limit start 1).
Proof. apply (deposits_within_daily_limit start _ deposited_w); [apply deposit_history|decided|decided]. Defined.

(** The same source transaction, once it is forgotten. *)
Definition again_w : world := after (deposit 5000000) deposited_w.
Lemma again_runs : run (deposit 5000000) deposited_w = (Ok 400, again_w).
Proof. apply (BridgeDemo.bridge_ran (deposit 5000000) 400 deposited_w). vm_compute. reflexivity. Qed.

Lemma deposits_not_replayed_witness : retention start < 5000000 - 10.
Proof.
  apply (deposits_not_replayed start [(10, op_deposit)] again_w tx 10 5000000
    1 gateway 1 bob 400 alice 1 gateway 1 bob 400 alice); [|decided|lia|by constructor].
  eapply bh_op; [apply deposit_history|by repeat constructor|decided|apply op_deposit_fits|].
  exists 400. exact again_runs.
Defined.

Definition leave : prog (bres Z) := external_withdraw 1 100 carol 2419200.
Lemma leave_runs : run leave start = (Ok 100, after leave start).
Proof. apply (BridgeDemo.bridge_ran leave 100 start). vm_compute. reflexivity. Qed.

Lemma withdrawals_within_period_limit_witness :
  withdrawn [(2419200, BWithdraw 1 100 carol)] 1 (period_start (after leave start)) <= max_withdraw start.
Proof.
  apply (withdrawals_within_period_limit start _ (after leave start)); [|decided].
  eapply bh_op; [apply bh_start|constructor|decided|repeat split; decided|].
  exists 100. exact leave_runs.
Defined.

Lemma challenge_life_cycle_witness :
  life tx [(late, BResolve tx carol); (20, BInitiate tx proof carol); (10, op_deposit)] =
    life_of (cstatus resolved_w tx).
Proof.
  apply (challenge_life_cycle start _ resolved_w); [apply challenge_history|decided|vm_compute; reflexivity].
Defined.

End BridgePropsDemo.
