(* ===== verification/BridgeFraud.v ===== *)
(** * BridgeFraud: what a challenge proves and what it pays

    The proof that is verified is the one that was submitted; the bond goes
    from the challenger to the winner; and a proof without trie nodes wins
    the challenge of every deposit. *)

From stdpp Require Import base gmap list strings.
From Stdlib Require Import ZArith Lia.
From S2P Require Import Prelude Provider World EvmProvider Refinement Dispatch Utils.
From S2P Require Import Asset AssetSpec Validator Keyed Rlp EthProof Trap.
From S2P Require Import Bridge BridgeSpec SimpleJournal HashDemo BridgeDemo BridgeProps.

Local Open Scope Z_scope.
Local Open Scope callnode_scope.

(** Writes of the bridge leave other storages alone. *)
Ltac other_storage := repeat (etransitivity; [|by apply same_at_kwr]); reflexivity.

Section Bond.
Context `{Keccak, RlpHeader, FraudProofCodec} `{!Layout bridge_used}.
Implicit Types (w : world).

Lemma bal_same w w' id a : same_at ASSET_ADDRESS w w' -> bal w' id a = bal w id a.
Proof using Type. intros S. apply S. Qed.

Lemma bal_put_same w id a v : bal (put (slot_balance id a) v w) id a = v.
Proof using Type. unfold bal. rewrite wslot_put. by case_decide. Qed.

Lemma store_chunks_elsewhere (key : Z -> bridge_key) i cs :
  writes (elsewhere ASSET_ADDRESS) (kstore_chunks key i cs).
Proof using Type.
  revert i. induction cs as [|c cs IH]; intros i; cbn [kstore_chunks]; [constructor|].
  apply writes_bind; [by apply writes_store|]. intros _. apply IH.
Qed.

Lemma clear_other a h keep : a <> BRIDGE_ADDRESS -> writes (elsewhere a) (clear_challenge_metadata h keep).
Proof using Type.
  intros Ha. assert (Hc : forall n (key : Z -> bridge_key) i, writes (elsewhere a) (kclear_chunks n key i)).
  { intros n key. induction n as [|n IH]; intros i; cbn [kclear_chunks]; [constructor|].
    apply writes_bind; [by apply writes_store|]. intros _. apply IH. }
  unfold clear_challenge_metadata, kget, kload, kstore.
  repeat first [apply Hc | progress writes_prog]; done.
Qed.


Lemma initiate_money h proof who b w w' :
  fits U256_MAX h -> 0 <= bal w CALL_ASSET_ID who ->
  run (initiate_challenge h proof who b) w = (Ok tt, w') ->
  bal w' CALL_ASSET_ID who = bal w CALL_ASSET_ID who - bond_amount w /\ bond w' h = bond_amount w.
Proof using All.
  intros Hh Hb E. apply initiate_ok in E as (_ & _ & _ & _ & Hl & w1 & Ed & S & ->).
  assert (Hba : 0 <= bond_amount w <= U128_MAX).
  { unfold bond_amount, cfg128. rewrite u256_to_u128_mod. unfold U128_MAX.
    pose proof (Z.mod_pos_bound (krd w slot_challenge_bond_amount) (2 ^ 128) ltac:(lia)).
    destruct (Z.eqb_spec (krd w slot_challenge_bond_amount mod 2 ^ 128) 0); [vm_compute; split; discriminate|lia]. }
  apply deduct_balance_ok in Ed as [_ ->]; [|done|lia]. split.
  - unfold open_challenge. rewrite (bal_same _ _ _ _ (run_elsewhere _ _ _ (store_chunks_elsewhere _ _ _))).
    etransitivity; [apply bal_same; other_storage|]. apply bal_put_same.
  - unfold bond, open_challenge. rewrite krd_store_proof; [|done|lia|done|keys_apart].
    kread. by apply u128_round.
Qed.

Lemma failed_money h b resolver w who w' :
  fits U256_MAX h -> 0 <= bal w CALL_ASSET_ID (attester w h) ->
  run (resolve_challenge h b resolver) w = (Ok (false, who), w') ->
  who = attester w h /\ bal w' CALL_ASSET_ID who = bal w CALL_ASSET_ID who + bond w h.
Proof using All.
  intros Hh Hb E. apply resolve_ok in E as (_ & _ & _ & _ & -> & w1 & Ea & S & ->). split; [done|].
  apply add_balance_ok in Ea as [_ ->]; [|done|apply u256_to_u128_nonneg].
  rewrite (bal_same _ _ _ _ (run_elsewhere _ _ _ (clear_other ASSET_ADDRESS _ _ ltac:(done)))).
  etransitivity; [apply bal_same; other_storage|]. apply bal_put_same.
Qed.

Lemma payout_money h caller w reward w' :
  fits U256_MAX h -> 0 <= bal w CALL_ASSET_ID caller ->
  run (withdraw_challenge_bond h caller) w = (Ok reward, w') ->
  bal w' CALL_ASSET_ID caller = bal w CALL_ASSET_ID caller + bond w h + bond w h / 10 /\ bond w' h = 0.
Proof using All.
  intros Hh Hb E. apply bond_ok in E as (_ & _ & -> & w1 & Ea & S & ->).
  pose proof (u256_to_u128_nonneg (krd w (slot_bridge_challenge_bond h))) as Hn. fold (bond w h) in Hn.
  apply add_balance_ok in Ea as [_ ->]; [|done|]. 2: { pose proof (Z.div_pos (bond w h) 10). lia. }
  split; [|unfold bond; by kread].
  etransitivity; [apply bal_same; other_storage|]. rewrite bal_put_same. lia.
Qed.

(** The bond follows the challenge.  Opening a challenge takes exactly the
    configured bond from the challenger and records it; a failed challenge
    pays the recorded bond to the validator of the deposit; the winner of a
    successful one gets the recorded bond and a tenth of it, and nothing is
    left to pay. *)
Theorem bond_follows_challenge h :
  fits U256_MAX h ->
  (forall proof who b w w', 0 <= bal w CALL_ASSET_ID who ->
    run (initiate_challenge h proof who b) w = (Ok tt, w') ->
    bal w' CALL_ASSET_ID who = bal w CALL_ASSET_ID who - bond_amount w /\ bond w' h = bond_amount w) /\
  (forall b resolver w who w', 0 <= bal w CALL_ASSET_ID (attester w h) ->
    run (resolve_challenge h b resolver) w = (Ok (false, who), w') ->
    who = attester w h /\ bal w' CALL_ASSET_ID who = bal w CALL_ASSET_ID who + bond w h) /\
  (forall caller w reward w', 0 <= bal w CALL_ASSET_ID caller ->
    run (withdraw_challenge_bond h caller) w = (Ok reward, w') ->
    bal w' CALL_ASSET_ID caller = bal w CALL_ASSET_ID caller + bond w h + bond w h / 10 /\ bond w' h = 0).
Proof using All.
  intros Hh. split_and!; intros.
  - eapply initiate_money; eauto.
  - eapply failed_money; eauto.
  - eapply payout_money; eauto.
Qed.

End Bond.

Section Proofs.
Context `{Keccak, RlpHeader, FraudProofCodec} `{!Layout bridge_used}.
Implicit Types (w : world).

(** The submitted proof is in the storage. *)
Record proof_stored w h (proof : list Z) : Prop := {
  ps_hash : krd w (slot_bridge_challenge_proof_hash h) = keccak256 proof;
  ps_len : krd w (slot_bridge_challenge_proof_len h) = zlen proof;
  ps_chunks : kchunks_stored (slot_bridge_challenge_proof_chunk h) w proof
}.

Lemma initiate_stores h proof who b w w' :
  fits U256_MAX h -> run (initiate_challenge h proof who b) w = (Ok tt, w') ->
  proof_stored w' h proof /\ 32 <= zlen proof <= MAX_PROOF_LEN.
Proof using All.
  intros Hh E. apply initiate_ok in E as (_ & _ & _ & _ & Hl & w1 & _ & S & ->). split; [|done].
  unfold open_challenge. split.
  - rewrite krd_store_proof; [|done|lia|done|keys_apart]. by kread.
  - rewrite krd_store_proof; [|done|lia|done|keys_apart]. kread.
    apply u64_to_u256_id. unfold MAX_PROOF_LEN, U64_MAX in *. fit.
  - apply (kstore_chunks_stored bridge_used (slot_bridge_challenge_proof_chunk h));
      [intros; by apply chunk_used|apply chunk_inj|]. unfold zlen, MAX_PROOF_LEN, U64_MAX in *. lia.
Qed.

Lemma initiate_fields h proof who b w w' :
  fits U256_MAX h -> fits ADDRESS_MAX who -> run (initiate_challenge h proof who b) w = (Ok tt, w') ->
  cstatus w' h = Pending /\ challenger w' h = who /\ (fits U64_MAX b -> deadline w' h = b + challenge_period w).
Proof using All.
  intros Hh Hw E. apply initiate_ok in E as (_ & _ & _ & Hd & Hl & w1 & _ & S & ->).
  unfold cstatus, challenger, deadline, open_challenge.
  rewrite !krd_store_proof by (done || lia || (keys_apart)). kread. split; [done|]. split.
  - rewrite (address_to_u256_id who) by done. by apply u256_to_address_id.
  - intros Hb. apply u64_round. split; [|done]. assert (0 <= challenge_period w); [|fit].
    unfold challenge_period, cfg64. pose proof (u256_to_u64_fits (krd w slot_challenge_period)).
    destruct (Z.eqb_spec (u256_to_u64 (krd w slot_challenge_period)) 0); [done|fit].
Qed.

Lemma proof_stored_same w w' h proof :
  same_at BRIDGE_ADDRESS w w' -> proof_stored w h proof -> proof_stored w' h proof.
Proof using Type.
  intros S [P1 P2 P3]. split; [by rewrite (same_reads w w' _ S)..|].
  intros i Hi. rewrite (same_reads w w' _ S). by apply P3.
Qed.

(** No operation but the resolution of the challenge touches the proof. *)
Lemma proof_stored_op b o w w' h proof :
  bridge_run b o w w' -> fits U64_MAX b -> op_fits o -> fits U256_MAX h ->
  is_initiate h (b, o) = false -> is_resolve h (b, o) = false ->
  zlen proof <= MAX_PROOF_LEN -> proof_stored w h proof -> proof_stored w' h proof.
Proof using All.
  intros Hr Hb Ho Hh Hi Hv Hl [P1 P2 P3].
  assert (Hf : forall k, bridge_used k -> k = slot_bridge_challenge_proof_hash h \/
    k = slot_bridge_challenge_proof_len h \/ proof_key h k -> krd w' k = krd w k).
  { intros k Hk Hcase. apply (bridge_op_frame _ _ _ _ _ Hr Hb Ho Hk).
    destruct o; cbn [op_keys is_initiate is_resolve snd] in *; keys_apart. }
  split; [by rewrite Hf by auto..|]. intros i Hin. rewrite Hf; [by apply P3| |].
  - split; [done|]. pose proof (length_chunks proof). pose proof (length_chunks_le proof).
    unfold zlen, MAX_PROOF_LEN, U64_MAX in *. fit.
  - right; right. by eexists.
Qed.

Lemma verify_stored E w h proof :
  proof_stored w h proof -> Forall is_byte proof -> 32 <= zlen proof <= MAX_PROOF_LEN ->
  keccak256 proof <> 0 ->
  run (verify_fraud_proof (E := E) h) w = run (verify_fraud_proof_cryptographic h proof) w.
Proof using Type.
  intros [P1 P2 P3] Hb Hl Hk. unfold verify_fraud_proof. rewrite run_bind, run_kload, P1.
  destruct (Z.eqb_spec (keccak256 proof) 0); [done|]. rewrite run_bind, run_kget, P2.
  assert (Hf : fits U64_MAX (zlen proof)) by (unfold MAX_PROOF_LEN, U64_MAX in *; fit).
  rewrite (u256_to_u64_id _ Hf). destruct (Z.ltb_spec (zlen proof) 32); [lia|]. cbv zeta.
  unfold wrap_u64. rewrite Z.mod_small by (unfold MAX_PROOF_LEN, U64_MAX in *; lia).
  unfold zlen in *. rewrite Nat2Z.id, chunk_count, <- length_chunks, run_bind.
  rewrite (kread_chunks_stored (slot_bridge_challenge_proof_chunk h) w proof) by done.
  rewrite Z.eqb_refl. done.
Qed.

(** The proof that is verified is the one that was submitted.  After a
    challenge was opened, whatever operations other than its resolution and
    whatever other changes follow, the fraud proof of the challenge is judged
    on exactly the submitted bytes. *)
Theorem fraud_proof_round_trip h proof who b w w1 es w2 :
  fits U256_MAX h -> Forall is_byte proof -> keccak256 proof <> 0 ->
  run (initiate_challenge h proof who b) w = (Ok tt, w1) ->
  bridge_history w1 es w2 -> times (is_initiate h) es = 0%nat -> times (is_resolve h) es = 0%nat ->
  run (verify_fraud_proof (E := BridgeError) h) w2 = run (verify_fraud_proof_cryptographic h proof) w2.
Proof using All.
  intros Hh Hb Hk E Hist Hi Hv. destruct (initiate_stores h proof who b w w1 Hh E) as [P Hl].
  apply verify_stored; [|done..]. unfold times in *.
  induction Hist as [|es w2 w3 Hist IH S|es w2 b' o w3 Hist IH Hord Hf Ho Hr]; [done| |].
  - apply (proof_stored_same w2); auto.
  - cbn [List.filter] in *.
    destruct (is_initiate h (b', o)) eqn:E1; [done|]. destruct (is_resolve h (b', o)) eqn:E2; [done|].
    apply (proof_stored_op b' o w2 w3 h proof Hr); auto. lia.
Qed.

(** A header of its own making and no trie nodes. *)
Definition empty_proof (hdr : EthHeader) : FraudProof := mkFraudProof hdr TxNonExistence [].

Lemma empty_proof_verifies E h proof hdr root w :
  decode_fraud_proof proof = Some (empty_proof hdr) ->
  keccak256 (rlp_bytes hdr) = block_hash hdr -> transactions_root hdr = Done root ->
  run (verify_fraud_proof_cryptographic (E := E) h proof) w = (Ok true, w).
Proof using Type.
  intros Hd Hh Hr. unfold verify_fraud_proof_cryptographic. rewrite Hd. cbn [empty_proof header proof_type mpt_nodes].
  by rewrite Hh, Z.eqb_refl, Hr.
Qed.

(** The run of a resolution whose proof is valid. *)
Lemma run_resolve_true h b resolver w stake w1 w2 :
  cstatus w h = Pending -> deadline w h <= b -> resolver = challenger w h ->
  run (verify_fraud_proof (E := BridgeError) h) w = (Ok true, w) ->
  run (slash_stake (attester w h)) w = (Ok stake, w1) -> same_at BRIDGE_ADDRESS w w1 ->
  run (deduct_balance (dep_asset w h) (dep_recipient w h) (dep_amount w h)) w1 = (Ok tt, w2) ->
  same_at BRIDGE_ADDRESS w w2 -> dep_amount w h <= total_deposits w ->
  run (resolve_challenge h b resolver) w =
    (Ok (true, challenger w h),
     (run (clear_challenge_metadata h true) (close_challenge h
        (kwr slot_bridge_total_deposits (u128_to_u256 (total_deposits w - dep_amount w h)) w2))).2).
Proof using Type.
  intros Hs Hd -> Hv Hsl S1 Hdd S2 Ht. unfold resolve_challenge.
  rewrite run_bind, run_b_cstatus, bool_decide_eq_true_2 by done. cbn [negb]. rewrite run_bind, run_b_deadline.
  destruct (Z.ltb_spec b (deadline w h)); [lia|]. rewrite run_bind, run_b_challenger, run_bind, run_b_attester.
  rewrite Z.eqb_refl. cbn [negb andb]. rewrite run_try, Hv, run_bind, run_b_bond.
  rewrite run_try, run_map_err, Hsl. cbn [map_err fst snd].
  rewrite run_bind, run_b_dep_asset, run_bind, run_b_dep_recipient, run_bind, run_b_dep_amount.
  unfold dep_asset, dep_recipient, dep_amount. rewrite !(same_reads w w1 _ S1).
  fold (dep_asset w h) (dep_recipient w h) (dep_amount w h).
  rewrite run_try. unfold raising at 1, bledger_as at 1. rewrite !run_map_err, Hdd. cbn [map_err fst snd].
  rewrite run_try. unfold raising at 1, sub_total_deposits. rewrite run_map_err, run_bind, run_b_total_deposits.
  unfold total_deposits. rewrite (same_reads w w2 _ S2). fold (total_deposits w).
  rewrite run_try. unfold checked_sub. rewrite (proj2 (Z.leb_le _ _) Ht). cbn [ok_or run].
  rewrite run_bind, run_kstore. cbn [run map_err fst snd].
  do 5 rewrite run_bind, run_kstore. rewrite run_bind. fold (close_challenge h
    (kwr slot_bridge_total_deposits (u128_to_u256 (total_deposits w - dep_amount w h)) w2)).
  by destruct (run (clear_challenge_metadata h true) _).
Qed.

(** A proof without nodes wins.  Whoever holds the bond and submits a
    self-made header with a transactions root and an empty list of trie nodes
    can, once the deadline has passed, resolve the challenge of any deposit
    as successful: the validator of the deposit is slashed and the amount is
    taken from its recipient. *)
Theorem empty_proof_wins_challenge h proof hdr root who b b2 w w1 w2 stake w3 w4 :
  fits U256_MAX h -> fits ADDRESS_MAX who -> Forall is_byte proof -> keccak256 proof <> 0 ->
  decode_fraud_proof proof = Some (empty_proof hdr) ->
  keccak256 (rlp_bytes hdr) = block_hash hdr -> transactions_root hdr = Done root -> fits U64_MAX b ->
  run (initiate_challenge h proof who b) w = (Ok tt, w1) ->
  same_at BRIDGE_ADDRESS w1 w2 -> b + challenge_period w <= b2 ->
  run (slash_stake (attester w2 h)) w2 = (Ok stake, w3) ->
  run (deduct_balance (dep_asset w2 h) (dep_recipient w2 h) (dep_amount w2 h)) w3 = (Ok tt, w4) ->
  dep_amount w2 h <= total_deposits w2 ->
  exists w5, run (resolve_challenge h b2 who) w2 = (Ok (true, who), w5) /\ cstatus w5 h = Successful /\
    same_at VALIDATOR_ADDRESS w3 w5 /\ same_at ASSET_ADDRESS w4 w5.
Proof using All.
  intros Hh Hw Hbytes Hk Hdec Hhdr Hroot Hb E S Hb2 Hsl Hdd Ht.
  destruct (initiate_stores h proof who b w w1 Hh E) as [P Hl].
  destruct (initiate_fields h proof who b w w1 Hh Hw E) as (Es & Ec & Edl).
  assert (Hs2 : same_at BRIDGE_ADDRESS w2 w3) by (eapply run_elsewhere_eq; [apply slash_elsewhere|done]).
  assert (Hs3 : same_at BRIDGE_ADDRESS w2 w4).
  { transitivity w3; [done|]. eapply run_elsewhere_eq; [|done]. by apply writes_deduct_balance. }
  assert (R := run_resolve_true h b2 who w2 stake w3 w4).
  assert (challenger w2 h = who /\ cstatus w2 h = Pending /\ deadline w2 h = b + challenge_period w) as (Ec2 & Es2 & Ed2).
  { unfold challenger, cstatus, deadline in *. rewrite !(same_reads w1 w2 _ S). auto. }
  rewrite Ec2 in R. eexists. split; [apply R; try done; [lia|]|].
  - rewrite (verify_stored BridgeError w2 h proof); [|by eapply proof_stored_same|done..].
    by eapply empty_proof_verifies.
  - split; [|split].
    + unfold cstatus. rewrite krd_clear; [|done|done|cbn [op_keys] in *; keys_apart].
      unfold close_challenge. by kread.
    + etransitivity; [|by apply run_elsewhere, clear_other].
      unfold close_challenge. etransitivity; [|other_storage].
      eapply run_elsewhere_eq; [|done]. by apply writes_deduct_balance.
    + etransitivity; [|by apply run_elsewhere, clear_other]. unfold close_challenge. other_storage.
Qed.

End Proofs.

(** ** The scenario of [BridgeDemo] *)

Module BridgeFraudDemo.
Import Demo BridgeDemo BridgePropsDemo.

Lemma proof_bytes : Forall is_byte proof.
Proof. apply Forall_replicate. by split. Qed.

Lemma bond_follows_challenge_witness :
  bal challenged_w CALL_ASSET_ID carol = bal deposited_w CALL_ASSET_ID carol - bond_amount deposited_w /\
  bond challenged_w tx = bond_amount deposited_w /\
  bal paid_w CALL_ASSET_ID carol =
    bal resolved_w CALL_ASSET_ID carol + bond resolved_w tx + bond resolved_w tx / 10.
Proof.
  assert (Ht : fits U256_MAX tx) by decided.
  destruct (bond_follows_challenge tx Ht) as (B1 & _ & B3).
  destruct (B1 proof carol 20 deposited_w challenged_w) as [-> ->]; [decided|exact initiate_runs|].
  split; [reflexivity|]. split; [reflexivity|].
  apply (B3 carol resolved_w 1100 paid_w); [decided|exact payout_runs].
Defined.

Lemma fraud_proof_round_trip_witness :
  run (verify_fraud_proof (E := BridgeError) tx) challenged_w =
  run (verify_fraud_proof_cryptographic tx proof) challenged_w.
Proof.
  apply (fraud_proof_round_trip tx proof carol 20 deposited_w challenged_w [] challenged_w);
    [decided|apply proof_bytes|decided|exact initiate_runs|apply bh_start|reflexivity|reflexivity].
Defined.

Lemma slash_runs : (run (slash_stake (attester challenged_w tx)) challenged_w).1 = Ok 500.
Proof. vm_compute. reflexivity. Qed.

Lemma empty_proof_wins_challenge_witness :
  exists w5, run (resolve_challenge tx late carol) challenged_w = (Ok (true, carol), w5) /\
    cstatus w5 tx = Successful /\
    same_at VALIDATOR_ADDRESS (after (slash_stake (attester challenged_w tx)) challenged_w) w5 /\
    same_at ASSET_ADDRESS
      (after (deduct_balance (dep_asset challenged_w tx) (dep_recipient challenged_w tx) (dep_amount challenged_w tx))
         (after (slash_stake (attester challenged_w tx)) challenged_w)) w5.
Proof.
  apply (empty_proof_wins_challenge tx proof hdr 99 carol 20 late deposited_w challenged_w challenged_w 500).
  - decided.
  - decided.
  - apply proof_bytes.
  - decided.
  - vm_compute. reflexivity.
  - reflexivity.
  - vm_compute. reflexivity.
  - decided.
  - exact initiate_runs.
  - reflexivity.
  - decided.
  - apply BridgeDemo.bridge_ran. exact slash_runs.
  - apply BridgeDemo.bridge_ran. vm_compute. reflexivity.
  - decided.
Defined.

End BridgeFraudDemo.
