(* ===== verification/BridgeCall.v ===== *)
(** * BridgeCall: the bridge precompile on the production provider

    A call of the bridge precompile on [EvmStorageProvider] fails or is a view
    and leaves the storage as it was, or has exactly the effect of the handler
    its calldata requests; only a resolution can trap. *)

From stdpp Require Import base gmap list strings.
From Stdlib Require Import ZArith Lia.
From S2P Require Import Prelude Provider World EvmProvider Refinement Dispatch Utils.
From S2P Require Import Asset AssetSpec AssetPrecompile AssetPrecompileSpec Validator Keyed Rlp.
From S2P Require Import EthProof Trap CallSpec Bridge SimpleJournal BridgeDemo.
From S2P Require Import ValidatorProps.

Local Open Scope Z_scope.
Local Open Scope callnode_scope.

Section Handlers.
Context `{Keccak, RlpHeader, FraudProofCodec, AddressDisplay}.

Lemma benign_kstore_chunks (key : Z -> bridge_key) i cs : benign true (kstore_chunks key i cs).
Proof using Type.
  revert i. induction cs as [|c cs IH]; intros i; cbn [kstore_chunks]; [constructor|].
  apply benign_bind; [apply benign_store|]. intros. apply IH.
Qed.

Lemma benign_kclear_chunks n (key : Z -> bridge_key) i : benign true (kclear_chunks n key i).
Proof using Type.
  revert i. induction n as [|n IH]; intros i; cbn [kclear_chunks]; [constructor|].
  apply benign_bind; [apply benign_store|]. intros. apply IH.
Qed.

Lemma benign_kread_chunks wr n (key : Z -> bridge_key) i len acc : benign wr (kread_chunks n key i len acc).
Proof using Type.
  revert i acc. induction n as [|n IH]; intros i acc; cbn [kread_chunks]; [constructor|].
  apply benign_bind; [apply benign_load|]. intros. apply IH.
Qed.

Ltac bridge_benign :=
  benign_follow calling (first [apply benign_kstore_chunks | apply benign_kclear_chunks
    | apply benign_kread_chunks | apply benign_find_unbonding]).

Lemma benign_deposit chain contract h id r a v b : benign true (external_deposit chain contract h id r a v b).
Proof using Type. bridge_benign. Qed.
Lemma benign_withdraw id a c b : benign true (external_withdraw id a c b).
Proof using Type. bridge_benign. Qed.
Lemma benign_initiate h p c b : benign true (initiate_challenge h p c b).
Proof using Type. bridge_benign. Qed.
Lemma benign_payout h c : benign true (withdraw_challenge_bond h c).
Proof using Type. bridge_benign. Qed.
Lemma benign_slash v : benign true (slash_stake v).
Proof using Type. bridge_benign. Qed.
Lemma benign_resolve h b r : benign true (resolve_challenge h b r).
Proof using Type. bridge_benign. Qed.

Ltac handler :=
  repeat lazymatch goal with
  | |- guarded _ (Ret _) => constructor
  | |- guarded _ (check_compliance _) => apply guarded_check_compliance
  | |- guarded _ (emit_event _ _) => apply guarded_emit
  | |- guarded _ (raising _) => apply guarded_map_err
  | |- guarded _ (try_ _ _) => apply guarded_try; [|intros]
  | |- guarded _ (if ?b then _ else _) => destruct b
  | |- guarded _ (let (_, _) := ?x in _) => destruct x
  | |- guarded _ (prog_bind (is_validator _) _) => apply g_sload; intros
  | |- guarded _ (prog_bind _ _) => apply guarded_benign_bind; [bridge_benign|intros]
  | |- guarded _ (bridge _) => apply benign_guarded; bridge_benign
  | |- guarded _ (map_raised _ _) => apply benign_guarded; apply benign_map_err; apply benign_resolve
  end; cbn [prog_bind].

Lemma guarded_deposit m c : guarded true (external_deposit_handler m c).
Proof using Type. unfold external_deposit_handler. handler. Qed.
Lemma guarded_withdraw m c : guarded true (external_withdraw_handler m c).
Proof using Type. unfold external_withdraw_handler. handler. Qed.
Lemma guarded_initiate m c : guarded true (initiate_challenge_handler m c).
Proof using Type. unfold initiate_challenge_handler. handler. Qed.
Lemma guarded_resolve m c : guarded true (resolve_challenge_handler m c).
Proof using Type. unfold resolve_challenge_handler. handler. Qed.
Lemma guarded_payout m c : guarded true (withdraw_challenge_bond_handler m c).
Proof using Type. unfold withdraw_challenge_bond_handler. handler. Qed.

End Handlers.

(** ** The entry point *)

Section Entry.
Context `{Keccak, RlpHeader, FraudProofCodec, AddressDisplay, BridgeAbi}.
Context {J : Type} `{HJ : JournalTr J} `{HL : !JournalLaws J}.
Implicit Types (s : EvmStorageProvider J).

(** The operation calldata requests, as a relation on storages. *)
Definition bridge_request (calldata : list Z) (m : Z) : option (world -> world -> Prop) :=
  let sel := take 4 calldata in
  if bool_decide (sel = sel_getTotalDeposits) then None
  else if bool_decide (sel = sel_getTotalWithdrawals) then None
  else if bool_decide (sel = sel_externalDeposit)
  then request_of (dec_externalDeposit calldata) (fun c => runs_to (external_deposit_handler m c))
  else if bool_decide (sel = sel_externalWithdraw)
  then request_of (dec_externalWithdraw calldata) (fun c => runs_to (external_withdraw_handler m c))
  else if bool_decide (sel = sel_initiateChallenge)
  then request_of (dec_initiateChallenge calldata) (fun c => runs_to (initiate_challenge_handler m c))
  else if bool_decide (sel = sel_resolveChallenge)
  then request_of (dec_resolveChallenge calldata) (fun c => runs_to (resolve_challenge_handler m c))
  else if bool_decide (sel = sel_getChallengeStatus) then None
  else if bool_decide (sel = sel_withdrawChallengeBond)
  then request_of (dec_withdrawChallengeBond calldata) (fun c => runs_to (withdraw_challenge_bond_handler m c))
  else None.

(** C9: the bridge precompile implements its operations.  On the production
    provider, outside a static call, a call that returns fails or is a view
    and leaves the storage as it was, or performs the one operation its
    calldata requests, with exactly the effect of its handler; and only the
    resolution of a challenge can fail to return. *)
Theorem bridge_call_refines_handler calldata m s :
  e_is_static (evm_env s) = false ->
  match bridge_call calldata m s with
  | Done x => call_effect (bridge_request calldata m) s x
  | _ => take 4 calldata = sel_resolveChallenge
  end.
Proof using HL.
  intros Hst. unfold bridge_call, bridge_request. destruct (length calldata <? 4)%nat; [done|]. cbv zeta.
  case_bool_decide; [apply view_effect; intros; unfold ok_read, get_total_deposits, kget, kload; readonly_prog|].
  case_bool_decide; [apply view_effect; intros; unfold ok_read, get_total_withdrawals, kget, kload; readonly_prog|].
  case_bool_decide; [apply mutate_effect; [apply guarded_deposit|done|done]|].
  case_bool_decide; [apply mutate_effect; [apply guarded_withdraw|done|done]|].
  case_bool_decide; [apply mutate_effect; [apply guarded_initiate|done|done]|].
  case_bool_decide.
  { pose proof (trapping_effect dec_resolveChallenge (resolve_challenge_handler m) 150000 calldata s
      (guarded_resolve m) Hst ltac:(done)) as E. unfold precompile_resolve_challenge.
    by destruct (mutate_trapping dec_resolveChallenge _ calldata _ _ s). }
  case_bool_decide.
  { apply view_effect; intros. unfold get_challenge_status_handler, read_challenge_status,
      read_challenge_deadline, read_challenge_bond_for_tx, read_challenge_challenger, kget, kload. readonly_prog. }
  case_bool_decide; [apply mutate_effect; [apply guarded_payout|done|done]|]. done.
Qed.

End Entry.

(** ** A call *)

Module BridgeCallDemo.
Import Demo BridgeDemo.

Definition dec_tx (d : list Z) : result string sourceTxCall :=
  match decode_bytes32 d 4 with
  | Some h => Ok {| st_sourceTxHash := from_be h |}
  | None => Err "short calldata"%string
  end.

#[local] Instance demo_abi : BridgeAbi := {|
  dec_getTotalDeposits := fun _ => Ok tt;
  dec_getTotalWithdrawals := fun _ => Ok tt;
  dec_externalDeposit := fun d => need (
    c ← decode_u64 d 4; k ← decode_address d 36; h ← decode_bytes32 d 68; i ← decode_u64 d 100;
    r ← decode_address d 132; a ← decode_u128 d 164;
    Some {| ed_sourceChain := c; ed_sourceContract := k; ed_sourceTxHash := from_be h; ed_assetId := i;
            ed_recipient := r; ed_amount := a |});
  dec_externalWithdraw := fun _ => Err "dynamic"%string;
  dec_initiateChallenge := fun _ => Err "dynamic"%string;
  dec_resolveChallenge := dec_tx;
  dec_getChallengeStatus := dec_tx;
  dec_withdrawChallengeBond := dec_tx;
  benc_u128 := encode_u128;
  benc_status := fun _ => [];
  sel_getTotalDeposits := [0; 0; 0; 1];
  sel_getTotalWithdrawals := [0; 0; 0; 2];
  sel_externalDeposit := [0; 0; 0; 3];
  sel_externalWithdraw := [0; 0; 0; 4];
  sel_initiateChallenge := [0; 0; 0; 5];
  sel_resolveChallenge := [0; 0; 0; 6];
  sel_getChallengeStatus := [0; 0; 0; 7];
  sel_withdrawChallengeBond := [0; 0; 0; 8]
|}.

Definition calldata : list Z :=
  [0; 0; 0; 3] ++ be_bytes 32 1 ++ be_bytes 32 gateway ++ be_bytes 32 tx ++ be_bytes 32 1 ++
  be_bytes 32 bob ++ be_bytes 32 400.
Definition s0 : EvmStorageProvider SimpleJournal := provider (w_cur start) 400000 false.

(** The call succeeds and credits [bob]. *)
Example deposit_call_runs :
  match bridge_call calldata alice s0 with
  | Done (Ok _, s') => slot (vw s') ASSET_ADDRESS (slot_balance 1 bob) = 400
  | _ => False
  end.
Proof. vm_compute. done. Qed.

Lemma bridge_call_refines_handler_witness :
  match bridge_call calldata alice s0 with
  | Done x => call_effect (bridge_request calldata alice) s0 x
  | _ => take 4 calldata = sel_resolveChallenge
  end.
Proof. apply (bridge_call_refines_handler calldata alice s0). reflexivity. Defined.

End BridgeCallDemo.
