(* ===== verification/BridgeExternal.v ===== *)
(** * BridgeExternal: deposits with validator signatures or light-client proofs

    Models [crates/bridge/src/external/types.rs] and [deposit.rs]: the event
    hash the validators sign, the verification of their signatures, the
    registry of bridge contracts, and the two functions that queue a deposit
    in the storage of the bridge, one checked by signatures and one by the
    light client of [EthLightClient]; with the signer recovery of
    [crates/crypto/src/secp256k1.rs].  The curve operations of k256 are the
    class [K256].  Shows what a quorum of signatures means. *)

From stdpp Require Import base gmap list strings.
From Stdlib Require Import ZArith Lia.
From S2P Require Import Prelude Provider World EvmProvider Refinement Utils Keyed Rlp.
From S2P Require Import EthProof EthLightClient Trap Validator SimpleJournal.

Local Open Scope Z_scope.
Local Open Scope callnode_scope.

(** ** Signer recovery *)

Inductive Secp256k1Error : Type := InvalidSignatureBytes | RecoveryFailed.

(** k256: parsing of a signature and recovery of the key, as the 64 bytes of
    its uncompressed point. *)
Class K256 : Type := {
  k256_parses : list Z -> bool;
  k256_recover : list Z -> list Z -> Z -> option (list Z)
}.

Section Signatures.
Context `{Keccak, K256}.

Definition recover_secp256k1_signer (msg_hash : Z) (signature : list Z) : result Secp256k1Error Z :=
  if negb (k256_parses (take 64 signature)) then Err InvalidSignatureBytes else
  let id := default 0 (signature !! 64%nat) in
  if 3 <? id then Err RecoveryFailed else
  match k256_recover (be_bytes 32 msg_hash) (take 64 signature) id with
  | None => Err RecoveryFailed
  | Some point => Ok (from_be (slice (be_bytes 32 (keccak256 point)) 12 20))
  end.

(** ** Operations *)

Inductive ExternalChain : Type := EthereumMainnet | Arbitrum.

Definition chain_id (c : ExternalChain) : Z :=
  match c with EthereumMainnet => 1 | Arbitrum => 42161 end.

Record BridgeSignature : Type := mkSig { validator_index : Z; signature : list Z }.

Inductive ExternalBridgeOp : Type :=
| Deposit (source_chain : ExternalChain) (source_tx_hash source_block_number : Z) (sender : list Z)
    (recipient asset_id amount : Z) (signatures : list BridgeSignature)
| Withdraw (target_chain : ExternalChain) (target_address : list Z) (asset_id sender amount : Z)
| LightClientDeposit (source_chain : ExternalChain) (header : EthHeader) (tx_proof : list (list Z))
    (receipt_index : Z) (receipt_proof : list (list Z)) (recipient asset_id amount : Z).

(** The errors these functions return; texts that quote another error carry it. *)
Inductive ExternalError : Type :=
| ExternalBridgePaused
| XExceedsMaxPerTx (asset_id amount limit : Z)
| XExceedsDailyLimit (asset_id used limit : Z)
| InsufficientSignatures (got required : Z)
| DuplicateValidator (i : Z)
| BadSignature (i : Z) (e : Secp256k1Error)
| SignerNotValidator (i : Z)
| XExternalAssetNotAllowed (asset_id : Z)
| XUnauthorizedBridgeContract (chain contract : Z)
| XBridgeFeeExceedsAmount (fee amount : Z)
| XBalanceOverflow
| EvmExecutionFailed (msg : string)
| XMptProofError (e : LightClientError)
| Mismatch (what : string)
| NotConsensusVerified (block : Z).

Record BridgeConfig : Type := mkBridgeConfig {
  max_per_tx : Z;
  daily_limit_per_asset : Z;
  eth_min_confirmations : Z;
  bridge_fee : Z;
  allowed_assets : list Z;
  signature_timeout_secs : Z;
  min_validator_signatures : Z;
  challenge_period_blocks : Z;
  withdraw_period_blocks : Z;
  max_external_withdraw_per_period : Z;
  blocks_per_day : Z;
  processed_tx_retention_blocks : Z;
  challenge_bond : Z;
  authorized_contracts : gmap Z (list Z)
}.

Definition bridge_config_default : BridgeConfig :=
  mkBridgeConfig 1000000000000000000000 10000000000000000000000 12 0 [1] 300 14 2419200 2419200
    5000000000000000000000 345600 4838400 1000 ∅.

Definition verify_bridge_contract (config : BridgeConfig) (chain contract : Z) :
    result ExternalError unit :=
  match authorized_contracts config !! chain with
  | Some (c :: cs) =>
      if bool_decide (contract ∈ c :: cs) then Ok tt else Err (XUnauthorizedBridgeContract chain contract)
  | _ => Ok tt
  end.

(** [BridgeContractRegistry]. *)
Definition registry : Type := gmap Z (list Z).
Definition authorize (r : registry) (chain contract : Z) : registry :=
  <[chain := default [] (r !! chain) ++ [contract]]> r.
Definition revoke (r : registry) (chain contract : Z) : registry :=
  match r !! chain with
  | Some l => <[chain := List.filter (fun c => negb (c =? contract)) l]> r
  | None => r
  end.
Definition is_authorized (r : registry) (chain contract : Z) : bool :=
  match r !! chain with Some l => bool_decide (contract ∈ l) | None => false end.

Definition bridge_event_hash (source_chain : ExternalChain) (source_tx_hash source_block_number : Z)
    (sender : list Z) (recipient asset_id amount : Z) : Z :=
  keccak256 (be_bytes 8 (chain_id source_chain) ++ be_bytes 32 source_tx_hash ++
             be_bytes 8 source_block_number ++ sender ++ addr_bytes recipient ++
             u64_bytes asset_id ++ be_bytes 16 amount).

(** The loop over the signatures: [seen] is the set of the claimed indices. *)
Fixpoint check_signatures (validators : list Z) (event_hash i : Z) (seen : list Z)
    (sigs : list BridgeSignature) : result ExternalError (list Z) :=
  match sigs with
  | [] => Ok seen
  | s :: sigs =>
      if bool_decide (validator_index s ∈ seen) then Err (DuplicateValidator i) else
      match recover_secp256k1_signer event_hash (signature s) with
      | Err e => Err (BadSignature i e)
      | Ok recovered =>
          if bool_decide (recovered ∈ validators)
          then check_signatures validators event_hash (i + 1) (validator_index s :: seen) sigs
          else Err (SignerNotValidator i)
      end
  end.

Definition verify_bridge_signatures (op : ExternalBridgeOp) (validators : list Z) (min_signatures : Z) :
    result ExternalError unit :=
  match op with
  | Deposit chain tx block sender recipient asset amount signatures =>
      let n := Z.of_nat (length signatures) in
      if n <? min_signatures then Err (InsufficientSignatures n min_signatures) else
      let event_hash := bridge_event_hash chain tx block sender recipient asset amount in
      seen <-! check_signatures validators event_hash 0 [] signatures;
      let m := Z.of_nat (length seen) in
      if m <? min_signatures then Err (InsufficientSignatures m min_signatures) else Ok tt
  | _ => Ok tt
  end.

End Signatures.

(** ** The queue of deposits *)

Section Queue.
Context `{Keccak}.

(** Slots at [BRIDGE_ADDRESS]; the slot of a processed transaction is the
    one of the precompile. *)
Definition xload (k : Z) : prog Z := load BRIDGE_ADDRESS k.
Definition xstore (k v : Z) : prog unit := store BRIDGE_ADDRESS k v.

Definition slot_processed (h : Z) : Z := storage_slot [b_ "processed"; be_bytes 32 h].
Definition slot_pending_count : Z := storage_slot [b_ "pending_count"].
Definition slot_pending_hash (index : Z) : Z := u256_add (storage_slot [b_ "pending_list"]) index.
Definition slot_pending_status (h : Z) : Z := storage_slot [b_ "pending_status"; be_bytes 32 h].
Definition slot_pending_recipient (h : Z) : Z := storage_slot [b_ "pending_recipient"; be_bytes 32 h].
Definition slot_pending_asset (h : Z) : Z := storage_slot [b_ "pending_asset"; be_bytes 32 h].
Definition slot_pending_amount (h : Z) : Z := storage_slot [b_ "pending_amount"; be_bytes 32 h].
Definition slot_pending_block (h : Z) : Z := storage_slot [b_ "pending_block"; be_bytes 32 h].
Definition slot_daily_used (asset_id : Z) : Z := storage_slot [u64_bytes asset_id; b_ "daily"].
Definition slot_daily_day (asset_id : Z) : Z := storage_slot [u64_bytes asset_id; b_ "daily_day"].
Definition slot_external_paused : Z := storage_slot [b_ "external_paused"].

Definition read_bridge_processed (h : Z) : prog bool :=
  v <- xload (slot_processed h); Ret (negb (v =? 0)).
Definition read_bridge_pending_count : prog Z :=
  v <- xload slot_pending_count; Ret (u256_to_u64 v).
Definition read_bridge_daily_used (asset_id : Z) : prog Z :=
  v <- xload (slot_daily_used asset_id); Ret (u256_to_u128 v).
Definition read_bridge_daily_day (asset_id : Z) : prog Z :=
  v <- xload (slot_daily_day asset_id); Ret (u256_to_u64 v).
Definition read_bridge_external_paused : prog bool :=
  v <- xload slot_external_paused; Ret (negb (v =? 0)).

Definition seed_bridge_pending (h recipient asset_id amount block : Z) : prog unit :=
  count <- read_bridge_pending_count;
  do xstore (slot_pending_hash count) h;
  do xstore slot_pending_count (u64_to_u256 (wrap_u64 (count + 1)));
  do xstore (slot_pending_status h) 1;
  do xstore (slot_pending_recipient h) (address_to_u256 recipient);
  do xstore (slot_pending_asset h) (u64_to_u256 asset_id);
  do xstore (slot_pending_amount h) (u128_to_u256 amount);
  xstore (slot_pending_block h) (u64_to_u256 block).

Definition seed_bridge_processed (h block_height : Z) : prog unit :=
  xstore (slot_processed h) (u64_to_u256 block_height).

Definition update_bridge_daily (asset_id used day : Z) : prog unit :=
  do xstore (slot_daily_used asset_id) (u128_to_u256 used);
  xstore (slot_daily_day asset_id) (u64_to_u256 day).

Definition check_and_update_daily_limit (asset_id amount daily_limit current_block blocks_per_day : Z) :
    prog (result ExternalError unit) :=
  reset_at <- read_bridge_daily_day asset_id;
  let over := saturating_add U64_MAX reset_at blocks_per_day <=? current_block in
  used <- (if over then Ret 0 else read_bridge_daily_used asset_id);
  new_used <-? Ret (ok_or XBalanceOverflow (checked_add U128_MAX used amount));
  if daily_limit <? new_used then Ret (Err (XExceedsDailyLimit asset_id used daily_limit)) else
  do update_bridge_daily asset_id new_used (if over then current_block else reset_at);
  Ret (Ok tt).

(** [ExternalDepositResult::Queued]. *)
Record Queued : Type := mkQueued {
  q_source_tx_hash : Z;
  q_challenge_period_blocks : Z;
  q_finalized_at_block : Z
}.

Definition queued_result (config : BridgeConfig) (h current_block : Z) : result ExternalError Queued :=
  match checked_add U64_MAX current_block (challenge_period_blocks config) with
  | Some at_block => Ok (mkQueued h (challenge_period_blocks config) at_block)
  | None => Err XBalanceOverflow
  end.

Definition process_external_deposit_evm `{K256} (op : ExternalBridgeOp) (config : BridgeConfig)
    (validators : list Z) (current_block : Z) (source_contract : option Z) :
    prog (result ExternalError Queued) :=
  match op with
  | Deposit chain h _ _ recipient asset_id amount _ =>
      paused <- read_bridge_external_paused;
      if paused : bool then Ret (Err ExternalBridgePaused) else
      do? Ret (match source_contract with
               | Some contract => verify_bridge_contract config (chain_id chain) contract
               | None => Ok tt
               end);
      if negb (bool_decide (asset_id ∈ allowed_assets config))
      then Ret (Err (XExternalAssetNotAllowed asset_id)) else
      processed <- read_bridge_processed h;
      if processed : bool then Ret (Err (EvmExecutionFailed "source tx already processed")) else
      do? Ret (verify_bridge_signatures op validators (min_validator_signatures config));
      if max_per_tx config <? amount
      then Ret (Err (XExceedsMaxPerTx asset_id amount (max_per_tx config))) else
      do? check_and_update_daily_limit asset_id amount (daily_limit_per_asset config) current_block
            (blocks_per_day config);
      if amount <=? bridge_fee config
      then Ret (Err (XBridgeFeeExceedsAmount (bridge_fee config) amount)) else
      do seed_bridge_pending h recipient asset_id (amount - bridge_fee config) current_block;
      do seed_bridge_processed h current_block;
      Ret (queued_result config h current_block)
  | _ => Ret (Err (EvmExecutionFailed "not a deposit op"))
  end.

End Queue.

(** ** Deposits proved by the light client *)

Section LightClient.
Context `{Keccak, RlpHeader}.

(** The storage part, after the light client has accepted the proofs. *)
Definition queue_light_client_deposit (config : BridgeConfig) (ev : BridgeEvent)
    (recipient asset_id amount current_block : Z) : prog (result ExternalError Queued) :=
  if negb (ev_recipient ev =? recipient) then Ret (Err (Mismatch "recipient mismatch")) else
  if negb (ev_asset_id ev =? asset_id) then Ret (Err (Mismatch "asset_id mismatch")) else
  if negb (ev_amount ev =? amount) then Ret (Err (Mismatch "amount mismatch")) else
  let h := ev_source_tx_hash ev in
  if negb (bool_decide (asset_id ∈ allowed_assets config))
  then Ret (Err (XExternalAssetNotAllowed asset_id)) else
  processed <- read_bridge_processed h;
  if processed : bool then Ret (Err (EvmExecutionFailed "source tx already processed")) else
  if max_per_tx config <? amount
  then Ret (Err (XExceedsMaxPerTx asset_id amount (max_per_tx config))) else
  do? check_and_update_daily_limit asset_id amount (daily_limit_per_asset config) current_block
        (blocks_per_day config);
  do seed_bridge_pending h recipient asset_id amount current_block;
  do seed_bridge_processed h current_block;
  Ret (queued_result config h current_block).

(** The checks of the light client: the client after the header, and the
    event of the receipt. *)
Definition light_client_checks (c : EthLightClient) (header : EthHeader) (tx_proof : list (list Z))
    (receipt_index : Z) (receipt_proof : list (list Z)) :
    outcome ExternalError EthLightClient * outcome ExternalError BridgeEvent :=
  let submitted := outcome_map_err XMptProofError (submit_header c header) in
  (submitted,
   c <~ submitted;
   block_number <~ outcome_map_err (fun _ => XMptProofError (InvalidHeader "header missing block number"))
                     (number header);
   _ <~ outcome_map_err XMptProofError
          (verify_tx_inclusion c block_number (block_hash header) tx_proof);
   ev <~ outcome_map_err XMptProofError
           (verify_receipt_and_parse_bridge_event c block_number receipt_index receipt_proof);
   if is_consensus_verified c block_number then Done ev else Fail (NotConsensusVerified block_number)).

(** The light client afterwards and the program on the storage: a header that
    was accepted stays, whatever fails after it. *)
Definition process_light_client_deposit_evm (c : EthLightClient) (op : ExternalBridgeOp)
    (config : BridgeConfig) (current_block : Z) :
    EthLightClient * prog (result (trap ExternalError) Queued) :=
  match op with
  | LightClientDeposit _ header tx_proof receipt_index receipt_proof recipient asset_id amount =>
      let (submitted, event) := light_client_checks c header tx_proof receipt_index receipt_proof in
      (match submitted with Done c' => c' | _ => c end,
       ev <-? Ret (of_outcome (fun e => Err (Raised e)) event);
       raising (queue_light_client_deposit config ev recipient asset_id amount current_block))
  | _ => (c, Ret (Err (Raised (EvmExecutionFailed "not a light client deposit op"))))
  end.

End LightClient.

(** ** What the signatures show *)

Section Quorum.
Context `{Keccak, K256}.

Lemma check_signatures_sound validators hash sigs : forall i seen out,
  NoDup seen -> check_signatures validators hash i seen sigs = Ok out ->
  out = rev (map validator_index sigs) ++ seen /\ NoDup out /\
  Forall (fun s => exists v, recover_secp256k1_signer hash (signature s) = Ok v /\ v ∈ validators) sigs.
Proof.
  induction sigs as [|s sigs IH]; intros i seen out Hn E; cbn [check_signatures] in E.
  { injection E as <-. split; [done|]. by split; [|constructor]. }
  case_bool_decide as Hin; [done|]. destruct (recover_secp256k1_signer hash (signature s)) as [v|] eqn:Er; [|done].
  case_bool_decide as Hv; [|done].
  destruct (IH (i + 1) (validator_index s :: seen) out) as (-> & Hd & Hf); [by constructor|done|].
  split; [cbn [map rev]; by rewrite <- app_assoc|]. split; [done|]. constructor; [by exists v|done].
Qed.

Lemma check_signatures_one validators hash v sig : recover_secp256k1_signer hash sig = Ok v -> v ∈ validators ->
  forall indices i seen, NoDup indices -> (forall x, x ∈ indices -> x ∉ seen) ->
  check_signatures validators hash i seen (map (fun n => mkSig n sig) indices) = Ok (rev indices ++ seen).
Proof.
  intros Hr Hv indices. induction indices as [|n indices IH]; intros i seen Hd Hs; [done|].
  apply NoDup_cons in Hd as [Hn Hd]. cbn [map check_signatures validator_index signature].
  rewrite bool_decide_eq_false_2 by (apply Hs; constructor). rewrite Hr, bool_decide_eq_true_2 by done.
  rewrite IH; [cbn [rev]; by rewrite <- app_assoc|done|].
  intros x Hx. apply not_elem_of_cons. split; [by intros ->|]. apply Hs. by constructor.
Qed.

(** Accepted signatures are signatures of validators.  When the
    verification of a deposit succeeds, there are at least as many signatures
    as required, with distinct claimed indices, and each one recovers to a
    member of the validator set. *)
Theorem signatures_from_validators chain tx block sender recipient asset amount sigs validators min :
  verify_bridge_signatures (Deposit chain tx block sender recipient asset amount sigs) validators min = Ok tt ->
  min <= Z.of_nat (length sigs) /\ NoDup (map validator_index sigs) /\
  Forall (fun s => exists v,
    recover_secp256k1_signer (bridge_event_hash chain tx block sender recipient asset amount) (signature s) = Ok v /\
    v ∈ validators) sigs.
Proof.
  cbn [verify_bridge_signatures]. destruct (Z.ltb_spec (Z.of_nat (length sigs)) min) as [|Hm]; [done|].
  destruct (check_signatures _ _ _ _ _) as [seen|] eqn:Ec; [|done]. intros _.
  destruct (check_signatures_sound _ _ _ _ _ _ ltac:(constructor) Ec) as (-> & Hd & Hf).
  rewrite app_nil_r in Hd. split; [done|]. split; [|done]. revert Hd. apply NoDup_Permutation_proper, Permutation_rev.
Qed.

(** One validator is a quorum.  Whatever number of signatures is
    required, copies of one validator's signature under different claimed
    indices are accepted. *)
Theorem one_signer_meets_quorum chain tx block sender recipient asset amount validators v sig (min : nat) :
  recover_secp256k1_signer (bridge_event_hash chain tx block sender recipient asset amount) sig = Ok v ->
  v ∈ validators ->
  verify_bridge_signatures
    (Deposit chain tx block sender recipient asset amount (map (fun n => mkSig (Z.of_nat n) sig) (seq 0 min)))
    validators (Z.of_nat min) = Ok tt.
Proof.
  intros Hr Hv. cbn [verify_bridge_signatures]. rewrite length_map, length_seq, Z.ltb_irrefl.
  replace (map (fun n => mkSig (Z.of_nat n) sig) (seq 0 min))
    with (map (fun n => mkSig n sig) (map Z.of_nat (seq 0 min))) by (by rewrite map_map).
  rewrite (check_signatures_one validators _ v sig Hr Hv); [|apply NoDup_fmap; [apply _|apply NoDup_seq]|set_solver].
  cbn [result_bind]. rewrite app_nil_r, length_rev, length_map, length_seq, Z.ltb_irrefl. done.
Qed.

(** Success leaves the transaction marked as processed. *)
Lemma process_marks op config validators b contract w q w' :
  run (process_external_deposit_evm op config validators b contract) w = (Ok q, w') ->
  wslot w' BRIDGE_ADDRESS (slot_processed (q_source_tx_hash q)) = u64_to_u256 b.
Proof.
  unfold process_external_deposit_evm. destruct op as [chain h block sender recipient asset amount sigs| |]; [|done..].
  intros E. krun_inv E. injection E as E <-. unfold queued_result in E.
  destruct (checked_add _ _ _); [|done]. injection E as <-. cbn [q_source_tx_hash].
  match goal with Hp : run (seed_bridge_processed _ _) _ = _ |- _ => injection Hp as _ <- end.
  cbn. apply slot_put_same.
Qed.

(** A signed deposit is queued once.  After a deposit was queued at a
    block after genesis, no deposit with the same source transaction hash is
    queued in any later storage that keeps its mark, whatever its other
    fields, signatures and configuration are. *)
Theorem signed_deposit_queued_once op config validators b contract w q w1 :
  run (process_external_deposit_evm op config validators b contract) w = (Ok q, w1) -> 0 < b <= U64_MAX ->
  forall w2 op' config' validators' b' contract' q' w3,
  wslot w2 BRIDGE_ADDRESS (slot_processed (q_source_tx_hash q)) =
    wslot w1 BRIDGE_ADDRESS (slot_processed (q_source_tx_hash q)) ->
  run (process_external_deposit_evm op' config' validators' b' contract') w2 = (Ok q', w3) ->
  q_source_tx_hash q' <> q_source_tx_hash q.
Proof.
  intros E Hb w2 op' config' validators' b' contract' q' w3 Hs E' Heq.
  rewrite (process_marks _ _ _ _ _ _ _ _ E), u64_to_u256_id in Hs by fit. rewrite <- Heq in Hs. clear E Heq.
  unfold process_external_deposit_evm in E'. destruct op' as [chain h block sender recipient asset amount sigs| |];
    [|done..].
  assert (q_source_tx_hash q' = h) as Eh.
  { krun_inv E'. injection E' as E' _. unfold queued_result in E'. destruct (checked_add _ _ _); [|done].
    by injection E' as <-. }
  rewrite Eh in Hs. rewrite run_bind in E'. destruct (run read_bridge_external_paused w2) as [p w2'] eqn:Ep.
  unfold read_bridge_external_paused, xload in Ep. autorewrite with krun callnode_rw in Ep. injection Ep as <- <-.
  destruct (negb _); [done|]. rewrite run_try in E'. cbn [run] in E'.
  destruct (match contract' with Some c => _ | None => _ end); [|done].
  destruct (negb _); [done|]. rewrite run_bind in E'. unfold read_bridge_processed, xload in E'.
  rewrite run_bind, w_run_load, Hs in E'. cbn [run] in E'. destruct (Z.eqb_spec b 0); [lia|]. done.
Qed.

End Quorum.

(** ** Concrete deposits *)

Module ExternalDemo.
Import Demo.

(** A curve on which the signature names the signer: the last 20 of its 64
    bytes are the address. *)
#[local] Instance demo_k256 : K256 := {|
  k256_parses := fun _ => true;
  k256_recover := fun _ sig _ => Some sig
|}.

Definition sig_of (a : Z) : list Z := be_bytes 64 a ++ [0].
Definition signed (h : Z) (sigs : list BridgeSignature) : ExternalBridgeOp :=
  Deposit EthereumMainnet h 100 [1; 2; 3] bob 1 400 sigs.
Definition copies : list BridgeSignature := map (fun n => mkSig (Z.of_nat n) (sig_of alice)) (seq 0 14).
Definition empty_w : world := mkWorld w0 (mkEnv 1000000 false 1 1000 7 0) [].

Lemma one_signer_meets_quorum_witness :
  verify_bridge_signatures (signed 77 copies) [bob; alice] (Z.of_nat 14) = Ok tt.
Proof.
  apply (one_signer_meets_quorum EthereumMainnet 77 100 [1; 2; 3] bob 1 400 [bob; alice] alice (sig_of alice) 14);
    [vm_compute; reflexivity|by right; left].
Defined.

Lemma signatures_from_validators_witness :
  let sigs := [mkSig 0 (sig_of alice); mkSig 1 (sig_of bob)] in
  2 <= Z.of_nat (length sigs) /\ NoDup (map validator_index sigs) /\
  Forall (fun s => exists v,
    recover_secp256k1_signer (bridge_event_hash EthereumMainnet 77 100 [1; 2; 3] bob 1 400) (signature s) = Ok v /\
    v ∈ [bob; alice]) sigs.
Proof.
  intros sigs.
  apply (signatures_from_validators EthereumMainnet 77 100 [1; 2; 3] bob 1 400 sigs [bob; alice] 2).
  vm_compute. reflexivity.
Defined.

Definition enqueue (h : Z) : prog (result ExternalError Queued) :=
  process_external_deposit_evm (signed h copies) bridge_config_default [bob; alice] 5 None.

Definition once_w : world := (run (enqueue 77) empty_w).2.

Lemma first_queued : run (enqueue 77) empty_w = (Ok (mkQueued 77 2419200 2419205), once_w).
Proof. apply (run_to (enqueue 77)). vm_compute. reflexivity. Qed.
Lemma second_queued : run (enqueue 78) once_w = (Ok (mkQueued 78 2419200 2419205), (run (enqueue 78) once_w).2).
Proof. apply (run_to (enqueue 78)). vm_compute. reflexivity. Qed.

Lemma signed_deposit_queued_once_witness : 78 <> 77.
Proof.
  apply (signed_deposit_queued_once (signed 77 copies) bridge_config_default [bob; alice] 5 None empty_w
    (mkQueued 77 2419200 2419205) once_w first_queued ltac:(by split; vm_compute)
    once_w (signed 78 copies) bridge_config_default [bob; alice] 5 None
    (mkQueued 78 2419200 2419205) (run (enqueue 78) once_w).2 eq_refl second_queued).
Defined.

(** A deposit that fails for its fee has used up the daily limit. *)
Example failed_deposit_uses_limit :
  let config := mkBridgeConfig 1000 400 12 500 [1] 300 1 100 100 1000 1000 200 10 ∅ in
  let p := process_external_deposit_evm (signed 77 copies) config [alice] 2000 None in
  (run p empty_w).1 = Err (XBridgeFeeExceedsAmount 500 400) /\
  (run p (run p empty_w).2).1 = Err (XExceedsDailyLimit 1 400 400).
Proof. vm_compute. done. Qed.

End ExternalDemo.
