(* ===== verification/OracleTracker.v ===== *)
(** * OracleTracker: aggregation of price submissions

    Models [OracleTracker] of [crates/oracle/src/tracker.rs] with the constants
    and the signed message of the crate: the buffer of submissions per pair,
    the quorum, the median with the detection of outliers, strikes and the
    division of the reward pool.  The iteration order of a [HashMap] is not
    specified: it is the class [HashMapOrder].  Ed25519 is a parameter. *)

From stdpp Require Import base gmap list strings.
From Stdlib Require Import ZArith Lia.
From S2P Require Import Prelude Rlp.

Local Open Scope Z_scope.
Local Open Scope callnode_scope.

(** The order in which [HashMap::values] yields the values: any order. *)
Class HashMapOrder : Type := values : forall {V : Type}, gmap Z V -> list V.
Class HashMapOrderLaws `{HashMapOrder} : Prop :=
  values_perm : forall {V : Type} (m : gmap Z V), values m ≡ₚ (map_to_list m).*2.

Definition ORACLE_UPDATE_INTERVAL : Z := 1000.
Definition ORACLE_OUTLIER_THRESHOLD_BPS : Z := 500.
Definition ORACLE_OUTLIER_TOLERANCE : Z := 10.
Definition ORACLE_TWAP_WINDOW_SECS : Z := 86400.
Definition ORACLE_STALENESS_SECS : Z := 900.
Definition ORACLE_MIN_DATA_SOURCES : Z := 2.
Definition MAX_PENDING_PER_PAIR : nat := 256.

Definition oracle_quorum (active_count : nat) : nat :=
  if (active_count =? 0)%nat then 0%nat
  else Nat.max (Nat.min ((2 * active_count + 2) / 3) active_count) 1.

Record PricePair : Type := mkPair { base : Z; quote : Z }.
#[global] Instance PricePair_eq_dec : EqDecision PricePair.
Proof. solve_decision. Defined.
#[global] Instance PricePair_countable : Countable PricePair.
Proof. refine (inj_countable' (fun p => (base p, quote p)) (fun '(b, q) => mkPair b q) _). by intros []. Defined.

Record OracleSubmission : Type := mkSubmission {
  os_validator_id : Z;
  os_pair : PricePair;
  os_price : Z;
  os_block_number : Z;
  os_timestamp : Z;
  os_signature : list Z;
  os_sources : list string
}.

Record AggregatedPrice : Type := mkAggregated {
  ag_pair : PricePair;
  median_price : Z;
  ag_block_number : Z;
  ag_timestamp : Z;
  submission_count : Z;
  ag_outlier_count : Z
}.

Record OracleValidatorInfo : Type := mkOracleValidator {
  ov_validator_id : Z;
  ov_address : Z;
  ov_public_key : list Z;
  ov_is_active : bool;
  ov_outlier_count : Z;
  ov_last_submission_block : Z;
  ov_submission_count : Z
}.

Record OracleConfig : Type := mkOracleConfig {
  update_interval : Z;
  outlier_threshold_bps : Z;
  outlier_tolerance : Z;
  twap_window_secs : Z;
  staleness_secs : Z;
  min_data_sources : Z;
  allowed_sources : list string
}.

Definition oracle_config_default : OracleConfig :=
  mkOracleConfig ORACLE_UPDATE_INTERVAL ORACLE_OUTLIER_THRESHOLD_BPS ORACLE_OUTLIER_TOLERANCE
    ORACLE_TWAP_WINDOW_SECS ORACLE_STALENESS_SECS ORACLE_MIN_DATA_SOURCES [].

Inductive OracleError : Type :=
| OValidatorNotFound
| OValidatorDisabled
| WrongPeriod
| OInvalidSignature
| InsufficientDataSources (got need : Z)
| DisallowedSource (source : string).

Record OracleTracker : Type := mkTracker {
  pending : gmap PricePair (gmap Z OracleSubmission);
  current_contributors : list Z;
  last_outliers : list Z;
  outlier_counts : gmap Z Z;
  disabled_validators : gset Z
}.

Definition tracker_new : OracleTracker := mkTracker ∅ [] [] ∅ ∅.

(** ** The signed message *)

Definition oracle_message_hash (validator_id : Z) (pair : PricePair) (price block_number timestamp : Z) :
    list Z :=
  b_ "CALL_ORACLE_V1" ++ le_bytes 4 validator_id ++ le_bytes 8 (base pair) ++ le_bytes 8 (quote pair) ++
  le_bytes 16 price ++ le_bytes 8 block_number ++ le_bytes 8 timestamp.

(** ** Aggregation *)

(** The deviation from the median in basis points, in [u128]. *)
Definition deviation_bps (median price : Z) : Z :=
  if median <? price then wrap_u128 ((price - median) * 10000) / median
  else wrap_u128 ((median - price) * 10000) / median.

Definition is_outlier (config : OracleConfig) (median price : Z) : bool :=
  if median =? 0 then false else outlier_threshold_bps config <? deviation_bps median price.

Definition outliers_of (config : OracleConfig) (median : Z) (prices : list (Z * Z)) : list Z :=
  map fst (List.filter (fun '(_, price) => is_outlier config median price) prices).

(** [submissions] are the values in the order of iteration; [None] is the
    panic of the index into an empty list. *)
Definition aggregate_submissions (submissions : list OracleSubmission) (config : OracleConfig) :
    option (AggregatedPrice * list Z * list Z) :=
  let prices := sort_by snd (map (fun s => (os_validator_id s, os_price s)) submissions) in
  '(_, median) ← prices !! (length prices / 2)%nat;
  let outlier_validators := outliers_of config median prices in
  let first_ts := match map os_timestamp submissions with
                  | [] => 0
                  | t :: ts => fold_left Z.min ts t
                  end in
  let block := match submissions with [] => 0 | s :: _ => os_block_number s end in
  let pair := match submissions with [] => mkPair 0 0 | s :: _ => os_pair s end in
  let aggregated := mkAggregated pair median block first_ts (Z.of_nat (length submissions))
                      (Z.of_nat (length outlier_validators)) in
  let contributors := List.filter (fun v => negb (bool_decide (v ∈ outlier_validators))) (map fst prices) in
  Some (aggregated, outlier_validators, contributors).

(** ** Submission *)

(** [u64::is_multiple_of]. *)
Definition is_multiple_of (a b : Z) : bool := if b =? 0 then a =? 0 else a mod b =? 0.

Definition first_disallowed (allowed sources : list string) : option string :=
  if bool_decide (allowed = []) then None
  else List.find (fun s => negb (bool_decide (s ∈ allowed))) sources.

Notation validator_map := (gmap Z OracleValidatorInfo).

Definition with_submission (block_number : Z) (v : OracleValidatorInfo) : OracleValidatorInfo :=
  mkOracleValidator (ov_validator_id v) (ov_address v) (ov_public_key v) (ov_is_active v)
    (ov_outlier_count v) (Z.max (ov_last_submission_block v) block_number)
    (wrap_u64 (ov_submission_count v + 1)).

Definition with_strikes (count : Z) (active : bool) (v : OracleValidatorInfo) : OracleValidatorInfo :=
  mkOracleValidator (ov_validator_id v) (ov_address v) (ov_public_key v) active count
    (ov_last_submission_block v) (ov_submission_count v).

(** One round of the loop over the outliers. *)
Definition punish (config : OracleConfig) (st : gmap Z Z * gset Z * validator_map) (vid : Z) :
    gmap Z Z * gset Z * validator_map :=
  let '(counts, disabled, validators) := st in
  let count := wrap_u32 (default 0 (counts !! vid) + 1) in
  let counts := <[vid := count]> counts in
  match validators !! vid with
  | Some v =>
      if outlier_tolerance config <=? count
      then (counts, {[vid]} ∪ disabled, <[vid := with_strikes count false v]> validators)
      else (counts, disabled, <[vid := with_strikes count (ov_is_active v) v]> validators)
  | None => (counts, disabled, validators)
  end.

Definition active_count (validators : validator_map) : nat :=
  size (filter (fun kv => ov_is_active kv.2 = true) validators).

Section Submit.
Context `{HashMapOrder}.
Variable ed25519_verify : list Z -> list Z -> list Z -> bool.

(** The checks before a submission is accepted. *)
Definition check_submission (t : OracleTracker) (config : OracleConfig) (validators : validator_map)
    (submission : OracleSubmission) : result OracleError unit :=
  validator <-! ok_or OValidatorNotFound (validators !! os_validator_id submission);
  if negb (ov_is_active validator) || bool_decide (os_validator_id submission ∈ disabled_validators t)
  then Err OValidatorDisabled else
  if negb (is_multiple_of (os_block_number submission) (update_interval config)) then Err WrongPeriod else
  let message := oracle_message_hash (os_validator_id submission) (os_pair submission)
                   (os_price submission) (os_block_number submission) (os_timestamp submission) in
  if negb (ed25519_verify (ov_public_key validator) (os_signature submission) message)
  then Err OInvalidSignature else
  let got := Z.of_nat (length (os_sources submission)) in
  if got <? min_data_sources config then Err (InsufficientDataSources got (min_data_sources config)) else
  match first_disallowed (allowed_sources config) (os_sources submission) with
  | Some source => Err (DisallowedSource source)
  | None => Ok tt
  end.

(** What happens once the submissions of the pair include the new one. *)
Definition tally (config : OracleConfig) (pair : PricePair) (submissions : gmap Z OracleSubmission)
    (t : OracleTracker) (validators : validator_map) :
    outcome unit (result OracleError (option AggregatedPrice) * OracleTracker * validator_map) :=
  if (oracle_quorum (active_count validators) <=? size submissions)%nat then
    match aggregate_submissions (values submissions) config with
    | None => Panic
    | Some (aggregated, outliers, contributors) =>
        let '(counts, disabled, validators) :=
          fold_left (punish config) outliers (outlier_counts t, disabled_validators t, validators) in
        Done (Ok (Some aggregated),
              mkTracker (delete pair (pending t)) contributors outliers counts disabled, validators)
    end
  else
    let t := if (MAX_PENDING_PER_PAIR <=? size submissions)%nat
             then mkTracker (delete pair (pending t)) (current_contributors t) (last_outliers t)
                    (outlier_counts t) (disabled_validators t)
             else t in
    Done (Ok None, t, validators).

Definition submit_price (submission : OracleSubmission) (config : OracleConfig)
    (validators : validator_map) (t : OracleTracker) :
    outcome unit (result OracleError (option AggregatedPrice) * OracleTracker * validator_map) :=
  match check_submission t config validators submission with
  | Err e => Done (Err e, t, validators)
  | Ok _ =>
    let pair := os_pair submission in
    let submissions := <[os_validator_id submission := submission]> (default ∅ (pending t !! pair)) in
    let t := mkTracker (<[pair := submissions]> (pending t)) (current_contributors t) (last_outliers t)
               (outlier_counts t) (disabled_validators t) in
    let validators := alter (with_submission (os_block_number submission))
                        (os_validator_id submission) validators in
    tally config pair submissions t validators
  end.

End Submit.

Definition distribute_rewards (reward_pool : Z) (t : OracleTracker) : list (Z * Z) :=
  if (reward_pool =? 0) || bool_decide (current_contributors t = []) then [] else
  let count := Z.of_nat (length (current_contributors t)) in
  let per_validator := reward_pool / count in
  let remainder := reward_pool mod count in
  imap (fun i vid => (vid, per_validator + (if Z.of_nat i <? remainder then 1 else 0)))
    (current_contributors t).

Definition clear_tracking (t : OracleTracker) : OracleTracker :=
  mkTracker (pending t) [] [] (outlier_counts t) (disabled_validators t).

Definition clear_pending (t : OracleTracker) : OracleTracker :=
  mkTracker ∅ (current_contributors t) (last_outliers t) (outlier_counts t) (disabled_validators t).

(** The node rebuilds the set of validators for each submission and injects
    the strikes the tracker remembers ([node/src/network_handler.rs]). *)
Definition inject_strikes (t : OracleTracker) (validators : validator_map) : validator_map :=
  map_imap (fun vid v =>
    Some (with_strikes (default (ov_outlier_count v) (outlier_counts t !! vid))
            (ov_is_active v && negb (bool_decide (vid ∈ disabled_validators t))) v)) validators.
