(* ===== verification/OracleTrackerProps.v ===== *)
(** * OracleTrackerProps: what the aggregation of prices guarantees

    The median of a quorum stays within the prices of honest validators, it
    does not depend on the iteration order of a hash map, the reward pool is
    paid out exactly, and the reachable states of the tracker are well formed;
    and where the detection of outliers fails. *)

From stdpp Require Import base gmap list strings sorting.
From Stdlib Require Import ZArith Lia.
From S2P Require Import Prelude Rlp OracleTracker.

Local Open Scope Z_scope.
Local Open Scope callnode_scope.

(** ** Sorted lists *)

Lemma sorted_split {A} (R : A -> A -> Prop) `{!Reflexive R} l i x :
  StronglySorted R l -> l !! i = Some x ->
  Forall (fun y => R y x) (take (S i) l) /\ Forall (R x) (drop i l).
Proof.
  intros Hs. revert i. induction Hs as [|y l Hs IH Hy]; intros i Hi; [done|].
  destruct i as [|i]; cbn in Hi.
  - injection Hi as ->. split; [by repeat constructor|by constructor].
  - destruct (IH i Hi) as [H1 H2]. split; [|done]. cbn [take]. constructor; [|done].
    apply list_elem_of_lookup_2 in Hi. by apply (proj1 (Forall_forall _ _) Hy).
Qed.

(** Fewer bad elements than elements: one is good. *)
Lemma some_good {A} (bad : A -> bool) l :
  (length (List.filter bad l) < length l)%nat -> exists x, x ∈ l /\ bad x = false.
Proof.
  induction l as [|y l IH]; cbn; [lia|]. destruct (bad y) eqn:E; cbn.
  - intros Hl. destruct IH as (x & Hx & Hb); [lia|]. exists x. split; [by constructor|done].
  - intros _. exists y. split; [constructor|done].
Qed.

Lemma filter_sublist_length {A} (f : A -> bool) l l' :
  l `sublist_of` l' -> (length (List.filter f l) <= length (List.filter f l'))%nat.
Proof. induction 1; cbn; [lia|destruct (f x); cbn; lia|destruct (f x); cbn; lia]. Qed.

#[global] Instance by_key_refl {A} (key : A -> Z) : Reflexive (by_key key).
Proof. intros x. unfold by_key. lia. Qed.

(** The upper median of a list with a minority of bad elements lies between
    good ones. *)
Lemma median_between {A} (key : A -> Z) (bad : A -> bool) l x lo hi :
  StronglySorted (by_key key) l -> l !! (length l / 2)%nat = Some x ->
  (2 * length (List.filter bad l) < length l)%nat ->
  (forall y, y ∈ l -> bad y = false -> lo <= key y <= hi) -> lo <= key x <= hi.
Proof.
  intros Hs Hx Hb Hg. destruct (sorted_split _ _ _ _ Hs Hx) as [Hle Hge].
  pose proof (Nat.div_mod_eq (length l) 2). pose proof (Nat.mod_upper_bound (length l) 2).
  split.
  - destruct (some_good bad (take (S (length l / 2)) l)) as (y & Hy & Eb).
    { pose proof (filter_sublist_length bad (take (S (length l / 2)) l) l (sublist_take _ _)).
      rewrite length_take. lia. }
    rewrite Forall_forall in Hle. apply Hle in Hy as Hk. unfold by_key in Hk.
    apply (subseteq_take (S (length l / 2)) l) in Hy. apply Hg in Hy; [lia|done].
  - destruct (some_good bad (drop (length l / 2) l)) as (y & Hy & Eb).
    { pose proof (filter_sublist_length bad (drop (length l / 2) l) l (sublist_drop _ _)).
      rewrite length_drop. lia. }
    rewrite Forall_forall in Hge. apply Hge in Hy as Hk. unfold by_key in Hk.
    apply (subseteq_drop (length l / 2) l) in Hy. apply Hg in Hy; [lia|done].
Qed.

Lemma sorted_map_key {A} (key : A -> Z) l : StronglySorted (by_key key) l -> StronglySorted Z.le (map key l).
Proof. induction 1; cbn; constructor; [done|by apply Forall_map]. Qed.

(** Sorting orders the keys the same way, whatever the input order. *)
Lemma sorted_keys_unique {A} (key : A -> Z) l1 l2 :
  StronglySorted (by_key key) l1 -> StronglySorted (by_key key) l2 -> l1 ≡ₚ l2 -> map key l1 = map key l2.
Proof.
  intros S1 S2 P. apply (StronglySorted_unique Z.le); [by apply sorted_map_key..|by apply Permutation_map].
Qed.

(** ** The quorum *)

Lemma quorum_two_thirds n : (0 < n)%nat -> (2 * n <= 3 * oracle_quorum n <= 3 * n)%nat.
Proof.
  intros Hn. unfold oracle_quorum. destruct (Nat.eqb_spec n 0); [lia|].
  pose proof (Nat.div_mod_eq (2 * n + 2) 3). pose proof (Nat.mod_upper_bound (2 * n + 2) 3). lia.
Qed.

(** ** Aggregation of one quorum *)

(** Submissions filed under the validators that sent them. *)
Definition filed (m : gmap Z OracleSubmission) : Prop := forall k s, m !! k = Some s -> os_validator_id s = k.

Definition priced (s : OracleSubmission) : Z * Z := (os_validator_id s, os_price s).

Section Values.
Context `{HashMapOrder, !HashMapOrderLaws}.

Lemma elem_of_values {V} (m : gmap Z V) s : s ∈ values m <-> exists k, m !! k = Some s.
Proof.
  rewrite (values_perm m), list_elem_of_fmap. split.
  - intros ([k v] & -> & Hkv). apply elem_of_map_to_list in Hkv. by exists k.
  - intros (k & Hk). exists (k, s). split; [done|by apply elem_of_map_to_list].
Qed.

Lemma length_values {V} (m : gmap Z V) : length (values m) = size m.
Proof. by rewrite (values_perm m), length_fmap, length_map_to_list. Qed.

Lemma filed_ids m : filed m -> map os_validator_id (values m) ≡ₚ (map_to_list m).*1.
Proof.
  intros Hm. rewrite (values_perm m). change (map os_validator_id) with (fmap (M := list) os_validator_id).
  rewrite <- list_fmap_compose. apply reflexive_eq, list_fmap_ext. intros i [k s] Hi. cbn.
  apply Hm. by apply list_elem_of_lookup_2, elem_of_map_to_list in Hi.
Qed.

Lemma filed_NoDup m : filed m -> NoDup (map os_validator_id (values m)).
Proof. intros Hm. rewrite filed_ids by done. apply NoDup_fst_map_to_list. Qed.

End Values.

(** The prices in order. *)
Definition sorted_prices (l : list OracleSubmission) : list (Z * Z) := sort_by snd (map priced l).

Lemma sorted_prices_perm l : sorted_prices l ≡ₚ map priced l.
Proof. apply sort_by_perm. Qed.

Lemma length_sorted_prices l : length (sorted_prices l) = length l.
Proof. by rewrite sorted_prices_perm, length_map. Qed.

Lemma sorted_prices_sorted l : StronglySorted (by_key snd) (sorted_prices l).
Proof. apply sort_by_sorted. Qed.

(** What an aggregation that returns is. *)
Lemma aggregate_inv l config ag out con :
  aggregate_submissions l config = Some (ag, out, con) ->
  exists v, sorted_prices l !! (length l / 2)%nat = Some (v, median_price ag) /\
    out = outliers_of config (median_price ag) (sorted_prices l) /\
    con = List.filter (fun v => negb (bool_decide (v ∈ out))) (map fst (sorted_prices l)) /\
    match l with [] => True | s :: _ => ag_pair ag = os_pair s end.
Proof.
  unfold aggregate_submissions.
  change (sort_by snd (map (fun s => (os_validator_id s, os_price s)) l)) with (sorted_prices l).
  rewrite length_sorted_prices.
  destruct (sorted_prices l !! _) as [[v m]|]; [|done]. cbn. intros [= <- <- <-].
  exists v. by destruct l.
Qed.

(** A nonempty quorum has a median: the index is in range. *)
Lemma aggregate_returns l config : l <> [] -> exists r, aggregate_submissions l config = Some r.
Proof.
  intros Hl. unfold aggregate_submissions.
  change (sort_by snd (map (fun s => (os_validator_id s, os_price s)) l)) with (sorted_prices l).
  rewrite length_sorted_prices.
  destruct (lookup_lt_is_Some_2 (sorted_prices l) (length l / 2)) as [[v m] ->]; [|by eexists].
  rewrite length_sorted_prices. apply Nat.div_lt; [|lia]. destruct l; [done|cbn; lia].
Qed.

Definition in_set (X : gset Z) (p : Z * Z) : bool := bool_decide (p.1 ∈ X).

Lemma few_in_set (X : gset Z) l : NoDup (map fst l) -> (length (List.filter (in_set X) l) <= size X)%nat.
Proof.
  intros Hn. assert (Hs : NoDup (map fst (List.filter (in_set X) l))).
  { induction l as [|p l IH]; cbn in *; [constructor|]. apply NoDup_cons in Hn as [Hp Hn].
    destruct (in_set X p); [|auto]. cbn. apply NoDup_cons. split; [|auto]. contradict Hp.
    apply list_elem_of_fmap in Hp as (q & -> & Hq). apply list_elem_of_fmap. exists q.
    split; [done|]. apply list_elem_of_In, filter_In in Hq as [Hq _]. by apply list_elem_of_In. }
  rewrite <- (length_map fst), <- (size_list_to_set (C := gset Z)) by done.
  apply subseteq_size. intros v Hv. apply elem_of_list_to_set, list_elem_of_fmap in Hv as (q & -> & Hq).
  apply list_elem_of_In, filter_In in Hq as [_ Hq]. unfold in_set in Hq. by apply bool_decide_eq_true in Hq.
Qed.

Section Honest.
Context `{HashMapOrder, !HashMapOrderLaws}.

Lemma prices_NoDup m : filed m -> NoDup (map fst (sorted_prices (values m))).
Proof.
  intros Hm. rewrite sorted_prices_perm. change (map fst (map priced ?l)) with (fst <$> (priced <$> l)).
  rewrite <- list_fmap_compose. by apply filed_NoDup.
Qed.

Lemma elem_of_prices m v p :
  filed m -> (v, p) ∈ sorted_prices (values m) <-> exists s, m !! v = Some s /\ os_price s = p.
Proof.
  intros Hm. rewrite sorted_prices_perm, list_elem_of_fmap. split.
  - intros (s & [= -> ->] & Hs). apply elem_of_values in Hs as (k & Hk). exists s.
    by rewrite (Hm _ _ Hk).
  - intros (s & Hs & <-). exists s. unfold priced. rewrite (Hm _ _ Hs). split; [done|].
    apply elem_of_values. by exists v.
Qed.

(** With less than half of the submissions from faulty validators, the median
    is between prices of the others. *)
Lemma aggregate_honest m config ag out con (faulty : gset Z) lo hi :
  filed m -> aggregate_submissions (values m) config = Some (ag, out, con) ->
  (2 * size faulty < size m)%nat ->
  (forall v s, m !! v = Some s -> v ∉ faulty -> lo <= os_price s <= hi) ->
  lo <= median_price ag <= hi.
Proof.
  intros Hm Ha Hf Hp. apply aggregate_inv in Ha as (v & Hv & _).
  apply (median_between snd (in_set faulty) (sorted_prices (values m)) (v, median_price ag)).
  - apply sorted_prices_sorted.
  - by rewrite length_sorted_prices.
  - rewrite length_sorted_prices, length_values.
    pose proof (few_in_set faulty _ (prices_NoDup m Hm)). lia.
  - intros [u p] Hu Hb. cbn. apply elem_of_prices in Hu as (s & Hs & <-); [|done].
    apply (Hp u s Hs). unfold in_set in Hb. by apply bool_decide_eq_false in Hb.
Qed.

End Honest.

(** ** The order of iteration *)

Lemma min_fold l x : fold_left Z.min l x = foldr Z.min x l.
Proof.
  revert x. induction l as [|y l IH]; intros x; cbn; [done|]. rewrite IH. clear IH.
  revert x y. induction l as [|z l IH]; intros x y; cbn; [lia|]. rewrite IH. lia.
Qed.

Lemma min_fold_perm l1 l2 x1 x2 :
  x1 :: l1 ≡ₚ x2 :: l2 -> fold_left Z.min l1 x1 = fold_left Z.min l2 x2.
Proof.
  intros P. assert (G : forall l x, (forall y, y ∈ x :: l -> fold_left Z.min l x <= y) /\
                                     fold_left Z.min l x ∈ x :: l).
  { clear. intros l x. rewrite min_fold. split.
    - intros y Hy. apply elem_of_cons in Hy as [->|Hy]; induction l as [|z l IH]; cbn in *;
        [lia|lia|by apply elem_of_nil in Hy|]. apply elem_of_cons in Hy as [->|Hy]; [lia|]. specialize (IH Hy). lia.
    - induction l as [|z l IH]; cbn; [constructor|]. destruct (Z.min_spec z (foldr Z.min x l)) as [[_ ->]|[_ ->]]; set_solver. }
  destruct (G l1 x1) as [L1 M1], (G l2 x2) as [L2 M2].
  apply Z.le_antisymm; [apply L1; by rewrite P|apply L2; by rewrite <- P].
Qed.

Lemma filter_perm {A} (f : A -> bool) l1 l2 : l1 ≡ₚ l2 -> List.filter f l1 ≡ₚ List.filter f l2.
Proof.
  induction 1 as [|x l1 l2 P IH|x y l|l1 l2 l3 P1 IH1 P2 IH2]; cbn; [done| | |by rewrite IH1].
  - by destruct (f x); rewrite IH.
  - destruct (f x), (f y); try done. apply Permutation_swap.
Qed.

(** The aggregated price does not depend on the order in which a hash map
    yields the submissions, which Rust leaves open: two iterations of the same
    submissions give the same median, timestamp and counts, and the same
    validators as outliers and as contributors. *)
Theorem aggregate_order_independent l1 l2 config ag1 out1 con1 ag2 out2 con2 :
  l1 ≡ₚ l2 ->
  aggregate_submissions l1 config = Some (ag1, out1, con1) ->
  aggregate_submissions l2 config = Some (ag2, out2, con2) ->
  median_price ag1 = median_price ag2 /\ ag_timestamp ag1 = ag_timestamp ag2 /\
  submission_count ag1 = submission_count ag2 /\ ag_outlier_count ag1 = ag_outlier_count ag2 /\
  out1 ≡ₚ out2 /\ con1 ≡ₚ con2.
Proof.
  intros P E1 E2. pose proof (aggregate_inv _ _ _ _ _ E1) as (v1 & M1 & O1 & C1 & _).
  pose proof (aggregate_inv _ _ _ _ _ E2) as (v2 & M2 & O2 & C2 & _).
  assert (PS : sorted_prices l1 ≡ₚ sorted_prices l2).
  { rewrite !sorted_prices_perm. by apply Permutation_map. }
  assert (Em : median_price ag1 = median_price ag2).
  { pose proof (sorted_keys_unique snd _ _ (sorted_prices_sorted l1) (sorted_prices_sorted l2) PS) as K.
    apply (f_equal (lookup (length l1 / 2)%nat)) in K.
    change (map snd ?l) with (snd <$> l) in K. rewrite !list_lookup_fmap, M1 in K.
    rewrite (Permutation_length P), M2 in K. by injection K. }
  assert (PO : out1 ≡ₚ out2).
  { subst out1 out2. unfold outliers_of. rewrite Em. by apply Permutation_map, filter_perm. }
  split; [done|]. revert E1 E2. unfold aggregate_submissions.
  change (sort_by snd (map (fun s => (os_validator_id s, os_price s)) ?l)) with (sorted_prices l).
  rewrite !length_sorted_prices, M1, M2. cbn. intros [= <- _ _] [= <- _ _]. cbn [ag_timestamp submission_count ag_outlier_count median_price].
  split; [|split; [|split; [|split; [done|]]]].
  - pose proof (Permutation_map os_timestamp P) as PT.
    destruct (map os_timestamp l1) as [|t1 r1], (map os_timestamp l2) as [|t2 r2]; [done|..].
    + by apply Permutation_nil_l in PT.
    + by apply Permutation_nil_r in PT.
    + by apply min_fold_perm.
  - by rewrite P.
  - subst out1 out2. by rewrite PO.
  - subst con1 con2. rewrite (filter_perm _ _ _ (Permutation_map fst PS)).
    apply reflexive_eq, filter_ext. intros v. f_equal. apply bool_decide_ext. by rewrite PO.
Qed.

(** ** Outliers *)

(** Without overflow an outlier is a price that deviates from the median by at
    least [threshold + 1] basis points. *)
Lemma outlier_exact config median price :
  0 < median -> 0 <= price -> Z.abs (price - median) * 10000 <= U128_MAX ->
  is_outlier config median price = true <->
    (outlier_threshold_bps config + 1) * median <= Z.abs (price - median) * 10000.
Proof.
  intros Hm Hp Ho. unfold is_outlier, deviation_bps. destruct (Z.eqb_spec median 0); [lia|].
  assert (E : (if median <? price then wrap_u128 ((price - median) * 10000) / median
               else wrap_u128 ((median - price) * 10000) / median) = Z.abs (price - median) * 10000 / median).
  { unfold wrap_u128. destruct (Z.ltb_spec median price); rewrite Z.mod_small by lia; f_equal; lia. }
  rewrite E, Z.ltb_lt. split; intros Hl.
  - assert (outlier_threshold_bps config + 1 <= Z.abs (price - median) * 10000 / median) as Hq by lia.
    apply (Z.mul_le_mono_nonneg_r _ _ median) in Hq; [|lia].
    pose proof (Z.mul_div_le (Z.abs (price - median) * 10000) median). lia.
  - apply Z.lt_le_trans with (outlier_threshold_bps config + 1); [lia|].
    apply Z.div_le_lower_bound; lia.
Qed.

(** ** Rewards *)

Lemma sum_shares q r k (l : list Z) :
  0 <= k ->
  foldr Z.add 0 (map snd (imap (fun i v => (v, q + (if k + Z.of_nat i <? r then 1 else 0))) l)) =
    q * Z.of_nat (length l) + Z.max 0 (Z.min (r - k) (Z.of_nat (length l))).
Proof.
  revert k. induction l as [|v l IH]; intros k Hk; [cbn; lia|].
  cbn [imap map foldr snd length]. rewrite Z.add_0_r.
  rewrite (imap_ext _ (fun i v => (v, q + (if (k + 1) + Z.of_nat i <? r then 1 else 0)))).
  2: { intros i x _. by replace (k + 1 + Z.of_nat i) with (k + Z.of_nat (S i)) by lia. }
  rewrite IH by lia. destruct (Z.ltb_spec k r); lia.
Qed.

(** The reward pool is paid out exactly.  If anybody contributed to the
    last quorum, the shares add up to the pool, go to the contributors in
    order, and differ by at most one unit. *)
Theorem rewards_sum_to_pool pool t :
  0 < pool -> current_contributors t <> [] ->
  foldr Z.add 0 (map snd (distribute_rewards pool t)) = pool /\
  map fst (distribute_rewards pool t) = current_contributors t /\
  forall v a, (v, a) ∈ distribute_rewards pool t ->
    pool / Z.of_nat (length (current_contributors t)) <= a <=
    pool / Z.of_nat (length (current_contributors t)) + 1.
Proof.
  intros Hp Hc. unfold distribute_rewards. rewrite bool_decide_eq_false_2 by done.
  destruct (Z.eqb_spec pool 0); [lia|]. cbn [orb]. set (l := current_contributors t) in *.
  assert (0 < Z.of_nat (length l)) as Hl by (destruct l; [done|cbn; lia]).
  set (q := pool / Z.of_nat (length l)). set (r := pool mod Z.of_nat (length l)).
  pose proof (Z.div_mod pool (Z.of_nat (length l)) ltac:(lia)). pose proof (Z.mod_pos_bound pool (Z.of_nat (length l)) Hl).
  split; [|split].
  - pose proof (sum_shares q r 0 l ltac:(lia)) as E. etransitivity; [exact E|]. fold q r in H, H0. lia.
  - change (map fst ?x) with (fst <$> x). rewrite fmap_imap.
    transitivity (imap (const id) l); [by apply imap_ext|by rewrite imap_const, list_fmap_id].
  - intros v a Hin. apply list_elem_of_lookup in Hin as (i & Hi). rewrite list_lookup_imap in Hi.
    destruct (l !! i); [|done]. injection Hi as _ <-. case_match; lia.
Qed.

(** ** Histories *)

Definition pair_wf (p : PricePair) (m : gmap Z OracleSubmission) : Prop :=
  filed m /\ (forall v s, m !! v = Some s -> os_pair s = p) /\ (size m < MAX_PENDING_PER_PAIR)%nat.

Record tracker_wf (t : OracleTracker) : Prop := {
  wf_pending : map_Forall pair_wf (pending t);
  wf_contributors : NoDup (current_contributors t);
  wf_outliers : NoDup (last_outliers t);
  wf_disjoint : forall v, v ∈ current_contributors t -> v ∈ last_outliers t -> False
}.

Lemma punish_fold config l counts disabled vs counts' disabled' vs' :
  NoDup l -> fold_left (punish config) l (counts, disabled, vs) = (counts', disabled', vs') ->
  (forall v, counts' !! v = if decide (v ∈ l) then Some (wrap_u32 (default 0 (counts !! v) + 1)) else counts !! v) /\
  (forall v, v ∈ disabled' <-> v ∈ disabled \/
     (v ∈ l /\ vs !! v <> None /\ outlier_tolerance config <= wrap_u32 (default 0 (counts !! v) + 1))).
Proof.
  revert counts disabled vs. induction l as [|x l IH]; intros counts disabled vs Hn E; cbn [fold_left] in E.
  { injection E as <- <- <-. split; [done|]. intros v. set_solver. }
  apply NoDup_cons in Hn as [Hx Hn].
  assert (S : exists vs1, punish config (counts, disabled, vs) x =
      (<[x := wrap_u32 (default 0 (counts !! x) + 1)]> counts,
       if bool_decide (vs !! x <> None /\ outlier_tolerance config <= wrap_u32 (default 0 (counts !! x) + 1))
       then {[x]} ∪ disabled else disabled, vs1) /\ forall v, v <> x -> vs1 !! v = vs !! v).
  { unfold punish. destruct (vs !! x) as [i|]; [destruct (Z.leb_spec (outlier_tolerance config) (wrap_u32 (default 0 (counts !! x) + 1)))|].
    - rewrite bool_decide_eq_true_2 by done. eexists. split; [done|]. intros. by rewrite lookup_insert_ne.
    - rewrite bool_decide_eq_false_2 by (intros []; lia). eexists. split; [done|]. intros. by rewrite lookup_insert_ne.
    - rewrite bool_decide_eq_false_2 by (intros []; done). by eexists. }
  destruct S as (vs1 & S & Hvs). rewrite S in E. apply IH in E as [H1 H2]; [|done]. split.
  - intros v. rewrite H1. destruct (decide (v = x)) as [->|Hne].
    + rewrite !decide_False by done. rewrite lookup_insert_eq, decide_True by set_solver. done.
    + rewrite lookup_insert_ne by done. repeat case_decide; set_solver.
  - intros v. rewrite H2. destruct (decide (v = x)) as [->|Hne].
    + case_bool_decide; set_solver.
    + rewrite Hvs, lookup_insert_ne by done. case_bool_decide; set_solver.
Qed.

Lemma active_count_alter f k (vs : validator_map) :
  (forall v, ov_is_active (f v) = ov_is_active v) -> active_count (alter f k vs) = active_count vs.
Proof.
  intros Hf. unfold active_count. rewrite <- !(size_dom (D := gset Z)). f_equal. apply set_eq. intros j.
  rewrite !elem_of_dom. split; intros [v Hv]; apply map_lookup_filter_Some in Hv as [Hj Ha]; cbn in Ha.
  - destruct (decide (k = j)) as [->|Hne].
    + rewrite lookup_alter_eq in Hj. destruct (vs !! j) as [u|] eqn:Eu; [|done]. injection Hj as <-.
      exists u. apply map_lookup_filter_Some. rewrite Hf in Ha. done.
    + rewrite lookup_alter_ne in Hj by done. exists v. by apply map_lookup_filter_Some.
  - destruct (decide (k = j)) as [->|Hne].
    + exists (f v). apply map_lookup_filter_Some. rewrite lookup_alter_eq, Hj. cbn. by rewrite Hf.
    + exists v. apply map_lookup_filter_Some. by rewrite lookup_alter_ne.
Qed.

Section Histories.
Context `{HashMapOrder, !HashMapOrderLaws}.
Variable verify : list Z -> list Z -> list Z -> bool.
Variable config : OracleConfig.
Implicit Types (t : OracleTracker) (vs : validator_map).

(** The submissions of a pair with a new one. *)
Definition with_new t (s : OracleSubmission) : gmap Z OracleSubmission :=
  <[os_validator_id s := s]> (default ∅ (pending t !! os_pair s)).

Lemma with_new_filed t s : tracker_wf t -> filed (with_new t s) /\
  (forall v u, with_new t s !! v = Some u -> os_pair u = os_pair s).
Proof using Type.
  intros W. unfold with_new. split; intros v u Hu; apply lookup_insert_Some in Hu as [[<- <-]|[Hne Hu]]; try done;
    destruct (pending t !! os_pair s) as [m|] eqn:Em; cbn in Hu; try (by rewrite lookup_empty in Hu);
    apply (wf_pending t W) in Em as (F & P & _); eauto.
Qed.

Lemma with_new_nonempty t s : values (with_new t s) <> [].
Proof using All.
  intros E. assert (Hs : s ∈ values (with_new t s)).
  { apply elem_of_values. exists (os_validator_id s). apply lookup_insert_eq. }
  rewrite E in Hs. by apply elem_of_nil in Hs.
Qed.

Definition accepted t (s : OracleSubmission) : OracleTracker :=
  mkTracker (<[os_pair s := with_new t s]> (pending t)) (current_contributors t) (last_outliers t)
    (outlier_counts t) (disabled_validators t).

Definition closed t (s : OracleSubmission) : OracleTracker :=
  mkTracker (delete (os_pair s) (pending t)) (current_contributors t) (last_outliers t)
    (outlier_counts t) (disabled_validators t).

(** The three ways a submission can end. *)
Inductive submitted t vs (s : OracleSubmission) : result OracleError (option AggregatedPrice) -> OracleTracker -> Prop :=
| sub_rejected e : check_submission verify t config vs s = Err e -> submitted t vs s (Err e) t
| sub_pending :
    check_submission verify t config vs s = Ok tt ->
    (size (with_new t s) < oracle_quorum (active_count vs))%nat ->
    (size (with_new t s) < MAX_PENDING_PER_PAIR)%nat -> submitted t vs s (Ok None) (accepted t s)
| sub_dropped :
    check_submission verify t config vs s = Ok tt ->
    (size (with_new t s) < oracle_quorum (active_count vs))%nat -> submitted t vs s (Ok None) (closed t s)
| sub_aggregated ag out con counts disabled :
    check_submission verify t config vs s = Ok tt ->
    (oracle_quorum (active_count vs) <= size (with_new t s))%nat ->
    aggregate_submissions (values (with_new t s)) config = Some (ag, out, con) ->
    (exists vs0 vs', dom vs0 = dom vs /\
      fold_left (punish config) out (outlier_counts t, disabled_validators t, vs0) = (counts, disabled, vs')) ->
    submitted t vs s (Ok (Some ag)) (mkTracker (delete (os_pair s) (pending t)) con out counts disabled).

Lemma tracker_submit_cases s vs t :
  exists r t' vs', submit_price verify s config vs t = Done (r, t', vs') /\ submitted t vs s r t'.
Proof using All.
  unfold submit_price. destruct (check_submission verify t config vs s) as [[]|e] eqn:Ec.
  2: { do 3 eexists. split; [done|]. by constructor. }
  fold (with_new t s). cbv zeta. unfold tally.
  rewrite active_count_alter by done. cbn [pending current_contributors last_outliers outlier_counts disabled_validators].
  destruct (Nat.leb_spec (oracle_quorum (active_count vs)) (size (with_new t s))) as [Hq|Hq].
  - destruct (aggregate_returns (values (with_new t s)) config (with_new_nonempty t s)) as [[[ag out] con] Ea].
    rewrite Ea. destruct (fold_left (punish config) out _) as [[counts disabled] vs'] eqn:Ef.
    do 3 eexists. split; [done|]. rewrite delete_insert_eq.
    eapply sub_aggregated; [done..|]. do 2 eexists. split; [|exact Ef]. apply dom_alter_L.
  - destruct (Nat.leb_spec MAX_PENDING_PER_PAIR (size (with_new t s))) as [Hm|Hm].
    + do 3 eexists. split; [done|]. rewrite delete_insert_eq. by apply sub_dropped.
    + do 3 eexists. split; [done|]. by apply sub_pending.
Qed.

Lemma submit_inv s vs t r t' vs' :
  submit_price verify s config vs t = Done (r, t', vs') -> submitted t vs s r t'.
Proof using All.
  intros E. destruct (tracker_submit_cases s vs t) as (r0 & t0 & vs0 & E0 & S). rewrite E in E0. by injection E0 as <- <- <-.
Qed.

Lemma outliers_sub median l v : v ∈ outliers_of config median l -> v ∈ map fst l.
Proof using Type.
  unfold outliers_of. intros Hv. apply list_elem_of_fmap in Hv as (p & -> & Hp). apply list_elem_of_fmap.
  exists p. split; [done|]. apply list_elem_of_In, filter_In in Hp as [Hp _]. by apply list_elem_of_In.
Qed.

Lemma outliers_NoDup median l : NoDup (map fst l) -> NoDup (outliers_of config median l).
Proof using Type.
  unfold outliers_of. induction l as [|[v p] l IH]; cbn; [constructor|]. intros Hn.
  apply NoDup_cons in Hn as [Hv Hn]. case_match; [|auto]. cbn. apply NoDup_cons. split; [|auto].
  contradict Hv. by apply outliers_sub in Hv.
Qed.

Lemma submitted_wf t vs s r t' : tracker_wf t -> submitted t vs s r t' -> tracker_wf t'.
Proof using All.
  intros W S. pose proof (with_new_filed t s W) as [F P]. destruct W as [Wp Wc Wo Wd].
  destruct S as [e| Hc Hq Hm|Hc Hq|ag out con counts disabled Hc Hq Ha Hf]; [done|split; try done..|].
  - cbn. apply map_Forall_insert_2; [done|done].
  - cbn. by apply map_Forall_delete.
  - apply aggregate_inv in Ha as (v & _ & -> & -> & _). pose proof (prices_NoDup _ F) as Np. split; cbn.
    + by apply map_Forall_delete.
    + apply NoDup_ListNoDup, List.NoDup_filter, NoDup_ListNoDup. done.
    + by apply outliers_NoDup.
    + intros u Hu Ho. apply list_elem_of_In, filter_In in Hu as [_ Hu].
      by rewrite bool_decide_eq_true_2 in Hu.
Qed.

(** The outliers a step strikes. *)
Definition struck (r : result OracleError (option AggregatedPrice)) t' : list Z :=
  match r with Ok (Some _) => last_outliers t' | _ => [] end.

(** The life of a tracker: submissions against whatever set of validators the
    node rebuilt, and the resets at the boundaries of periods; [strikes v]
    counts the rounds in which [v] was an outlier. *)
Inductive tracker_reach : OracleTracker -> (Z -> Z) -> Prop :=
| tr_new : tracker_reach tracker_new (fun _ => 0)
| tr_submit t strikes s vs r t' vs' :
    tracker_reach t strikes ->
    submit_price verify s config (inject_strikes t vs) t = Done (r, t', vs') ->
    tracker_reach t' (fun v => strikes v + (if bool_decide (v ∈ struck r t') then 1 else 0))
| tr_clear_tracking t strikes : tracker_reach t strikes -> tracker_reach (clear_tracking t) strikes
| tr_clear_pending t strikes : tracker_reach t strikes -> tracker_reach (clear_pending t) strikes.

Lemma reach_wf t strikes : tracker_reach t strikes -> tracker_wf t.
Proof using All.
  induction 1 as [|t strikes s vs r t' vs' _ IH E|t strikes _ [W1 W2 W3 W4]|t strikes _ [W1 W2 W3 W4]].
  - split; [done|by constructor..|by intros v ?%elem_of_nil].
  - apply submit_inv in E. by eapply submitted_wf.
  - split; cbn; [done|constructor..|by intros v ?%elem_of_nil].
  - by split.
Qed.

Lemma submitted_strikes t vs s r t' v :
  tracker_wf t -> submitted t vs s r t' ->
  default 0 (outlier_counts t' !! v) =
    (if bool_decide (v ∈ struck r t') then wrap_u32 (default 0 (outlier_counts t !! v) + 1)
     else default 0 (outlier_counts t !! v)) /\
  (v ∈ disabled_validators t' <-> v ∈ disabled_validators t \/
     (v ∈ struck r t' /\ vs !! v <> None /\
      outlier_tolerance config <= wrap_u32 (default 0 (outlier_counts t !! v) + 1))).
Proof using All.
  intros W S. pose proof (submitted_wf _ _ _ _ _ W S) as [_ _ Hn _].
  destruct S as [e| Hc Hq Hm|Hc Hq|ag out con counts disabled Hc Hq Ha (vs0 & vs' & Hd & Hf)];
    [cbn; split; [done|set_solver]..|]. cbn in *.
  apply punish_fold in Hf as [H1 H2]; [|done]. split.
  - rewrite H1. case_decide; [by rewrite bool_decide_eq_true_2|by rewrite bool_decide_eq_false_2].
  - rewrite H2. assert (vs0 !! v <> None <-> vs !! v <> None) as ->; [|done].
    by rewrite !not_eq_None_Some, <- !(elem_of_dom (D := gset Z)), Hd.
Qed.

Lemma reach_strikes t strikes v :
  tracker_reach t strikes ->
  0 <= strikes v /\ default 0 (outlier_counts t !! v) = wrap_u32 (strikes v) /\
  (v ∈ disabled_validators t -> outlier_tolerance config <= strikes v).
Proof using All.
  induction 1 as [|t strikes s vs r t' vs' R (I1 & I2 & I3) E| |]; [|..|done|done].
  { split; [done|]. split; [done|]. by intros ?%not_elem_of_empty. }
  apply submit_inv in E. destruct (submitted_strikes _ _ _ _ _ v (reach_wf _ _ R) E) as [C D].
  assert (Hw : wrap_u32 (wrap_u32 (strikes v) + 1) = wrap_u32 (strikes v + 1))
    by (unfold wrap_u32; by rewrite Zplus_mod_idemp_l).
  assert (wrap_u32 (strikes v + 1) <= strikes v + 1) by (apply Z.mod_le; unfold U32_MAX; lia).
  rewrite C, I2. split; [case_bool_decide; lia|]. split.
  - case_bool_decide; [done|by rewrite Z.add_0_r].
  - rewrite D, I2, Hw. intros [Hd|(Hs & _ & Ht)]; [specialize (I3 Hd); case_bool_decide; lia|].
    rewrite bool_decide_eq_true_2 by done. lia.
Qed.

(** C26: a quorum cannot be moved by a minority.  When a submission completes
    the quorum of a pair, and fewer than a third of the active validators are
    faulty, the price that is published for the pair lies between prices that
    the other validators submitted. *)
Theorem quorum_price_is_honest t strikes s vs ag t' vs' (faulty : gset Z) lo hi :
  tracker_reach t strikes ->
  submit_price verify s config (inject_strikes t vs) t = Done (Ok (Some ag), t', vs') ->
  (3 * size faulty < active_count (inject_strikes t vs))%nat ->
  (forall u, u = s \/ (exists m v, pending t !! os_pair s = Some m /\ m !! v = Some u) ->
    os_validator_id u ∉ faulty -> lo <= os_price u <= hi) ->
  ag_pair ag = os_pair s /\ lo <= median_price ag <= hi.
Proof using All.
  intros R E Hf Hp. pose proof (reach_wf _ _ R) as W. apply submit_inv in E.
  destruct (with_new_filed t s W) as [F P]. inversion E as [| | |? out con counts disabled Hc Hq Ha Hd]; subst. clear E.
  split.
  - pose proof (aggregate_inv _ _ _ _ _ Ha) as (_ & _ & _ & _ & Hl). pose proof (with_new_nonempty t s) as Hne.
    assert (He : forall u, u ∈ values (with_new t s) -> os_pair u = os_pair s)
      by (intros u (k & Hk)%elem_of_values; eauto).
    destruct (values (with_new t s)) as [|u l]; [done|]. rewrite Hl. apply He. constructor.
  - apply (aggregate_honest _ _ _ _ _ faulty _ _ F Ha).
    + pose proof (quorum_two_thirds (active_count (inject_strikes t vs))). lia.
    + intros v u Hu Hv. rewrite <- (F v u Hu) in Hv. apply (Hp u); [|done]. unfold with_new in Hu.
      apply lookup_insert_Some in Hu as [[_ <-]|[_ Hu]]; [by left|right].
      destruct (pending t !! os_pair s) as [m|]; cbn in Hu; [by eauto|by rewrite lookup_empty in Hu].
Qed.


End Histories.

(** ** A round of four validators *)

Module TrackerDemo.

#[local] Instance order : HashMapOrder := fun V m => (map_to_list m).*2.
#[local] Instance order_laws : HashMapOrderLaws.
Proof. by intros V m. Qed.

Definition verify (key signature message : list Z) : bool := true.
(** The default configuration with a tolerance of one strike. *)
Definition config : OracleConfig := mkOracleConfig 1000 500 1 86400 900 2 [].
Definition pair : PricePair := mkPair 1 0.
Definition info (v : Z) : OracleValidatorInfo := mkOracleValidator v v [] true 0 0 0.
Definition vs : validator_map := list_to_map (map (fun v => (v, info v)) [1; 2; 3; 4]).
Definition submission (v price : Z) : OracleSubmission :=
  mkSubmission v pair price 1000 (50 + v) [] ["binance"; "coinbase"]%string.

Definition next (s : OracleSubmission) (t : OracleTracker) : OracleTracker :=
  match submit_price verify s config (inject_strikes t vs) t with Done (_, t', _) => t' | _ => t end.

Definition t1 : OracleTracker := next (submission 1 100) tracker_new.
Definition t2 : OracleTracker := next (submission 2 101) t1.
Definition t3 : OracleTracker := next (submission 3 900) t2.
Definition aggregated : AggregatedPrice := mkAggregated pair 101 1000 51 3 1.

Definition strikes0 (v : Z) : Z := 0.
Definition strikes1 : Z -> Z := fun v => strikes0 v + (if bool_decide (v ∈ struck (Ok None) t1) then 1 else 0).
Definition strikes2 : Z -> Z := fun v => strikes1 v + (if bool_decide (v ∈ struck (Ok None) t2) then 1 else 0).

Lemma first_submission : submit_price verify (submission 1 100) config (inject_strikes tracker_new vs) tracker_new =
  Done (Ok None, t1, alter (with_submission 1000) 1 (inject_strikes tracker_new vs)).
Proof. vm_compute. reflexivity. Qed.

Lemma second_submission : submit_price verify (submission 2 101) config (inject_strikes t1 vs) t1 =
  Done (Ok None, t2, alter (with_submission 1000) 2 (inject_strikes t1 vs)).
Proof. vm_compute. reflexivity. Qed.

Lemma reach_t2 : tracker_reach verify config t2 strikes2.
Proof.
  exact (tr_submit verify config t1 strikes1 _ _ _ _ _
    (tr_submit verify config tracker_new strikes0 _ _ _ _ _ (tr_new verify config) first_submission) second_submission).
Qed.

Lemma third_submission :
  exists vs', submit_price verify (submission 3 900) config (inject_strikes t2 vs) t2 =
    Done (Ok (Some aggregated), t3, vs').
Proof. eexists. vm_compute. reflexivity. Qed.

(** The third submission completes the quorum of four validators; its own
    price is an outlier. *)
Example outlier_found : last_outliers t3 = [3] /\ current_contributors t3 = [1; 2].
Proof. vm_compute. done. Qed.

(** What is pending has been submitted at 100 or 101. *)
Lemma pending_prices m v u :
  pending t2 !! pair = Some m -> m !! v = Some u -> 100 <= os_price u <= 101.
Proof.
  intros Hm Hu. assert (F : Forall (fun kv => 100 <= os_price kv.2 <= 101) (map_to_list m)).
  { assert (E : fmap map_to_list (pending t2 !! pair) = Some [(2, submission 2 101); (1, submission 1 100)])
      by (vm_compute; reflexivity).
    rewrite Hm in E. cbn [fmap option_fmap option_map] in E. injection E as ->. by repeat constructor. }
  rewrite Forall_forall in F. apply (F (v, u)). by apply elem_of_map_to_list.
Qed.

Lemma quorum_price_is_honest_witness :
  ag_pair aggregated = pair /\ 100 <= median_price aggregated <= 101.
Proof.
  destruct third_submission as [vs' E].
  apply (quorum_price_is_honest verify config t2 strikes2 (submission 3 900) vs aggregated t3 vs' {[3]} 100 101
           reach_t2 E).
  - apply Nat.ltb_lt. vm_compute. reflexivity.
  - intros u [->|(m & v & Hm & Hu)] Hn; [exfalso; apply Hn; by apply elem_of_singleton|].
    exact (pending_prices m v u Hm Hu).
Defined.


Lemma rewards_sum_to_pool_witness :
  foldr Z.add 0 (map snd (distribute_rewards 7 t3)) = 7.
Proof. apply (rewards_sum_to_pool 7 t3); [lia|by vm_compute]. Defined.

(** The same submissions in another order: only the block may differ. *)
Definition round (l : list OracleSubmission) := aggregate_submissions l config.
Definition first : list OracleSubmission := [submission 1 100; submission 2 101; submission 3 900].
Definition result_of (l : list OracleSubmission) : AggregatedPrice * list Z * list Z :=
  default (aggregated, [], []) (round l).

Lemma aggregate_order_independent_witness :
  median_price (result_of first).1.1 = median_price (result_of (rev first)).1.1.
Proof.
  apply (aggregate_order_independent first (rev first) config _ (result_of first).1.2 (result_of first).2
           _ (result_of (rev first)).1.2 (result_of (rev first)).2).
  - apply Permutation_rev.
  - vm_compute. reflexivity.
  - vm_compute. reflexivity.
Defined.

(** A price whose deviation overflows [u128] counts as a contribution: the
    deviation is computed modulo 2^128. *)
Definition huge : Z := 101 + 34028236692093846346337460743176822.

Example overflow_hides_outlier :
  exists ag, round [submission 1 100; submission 2 101; submission 3 huge] = Some (ag, [], [1; 2; 3]).
Proof. eexists. vm_compute. reflexivity. Qed.

End TrackerDemo.
