(* ===== verification/Oracle.v ===== *)
(** * Oracle: tracked assets and prices on chain

    Models [OracleStorage] and the precompile of
    [crates/oracle/src/precompile.rs] at 0x101: the list of tracked assets
    with a flag for each of them, the last price with its average over the
    submissions, and the entry points.  The batch reads do not go through
    [Dispatch]: they build their output themselves.  A timestamp that does not
    fit 64 bits is a panic.  The generated ABI codecs are the class
    [OracleAbi]. *)

From stdpp Require Import base gmap list strings pretty.
From Stdlib Require Import ZArith Lia.
From S2P Require Import Prelude Provider World EvmProvider Refinement Dispatch Utils.
From S2P Require Import Asset AssetSpec Validator Keyed Rlp Trap.

Local Open Scope Z_scope.
Local Open Scope callnode_scope.

Definition STALE_THRESHOLD_SECS : Z := 900.
Definition MAX_TWAP_COUNT : Z := 10000.
Definition MAX_TRACKED_ASSETS : Z := 1000.
Definition MIN_PRICE : Z := 1.
Definition MAX_PRICE : Z := 1000000000000000000.

(** ** Slots *)

Inductive oracle_key : Type :=
| slot_oracle_price (asset_id : Z)
| slot_oracle_twap (asset_id : Z)
| slot_oracle_timestamp (asset_id : Z)
| slot_oracle_block (asset_id : Z)
| slot_oracle_count (asset_id : Z)
| slot_oracle_tracked_count
| slot_oracle_tracked_asset (index : Z)
| slot_oracle_tracked_flag (asset_id : Z).

#[global] Instance oracle_key_eq_dec : EqDecision oracle_key.
Proof. solve_decision. Defined.

Definition oracle_parts (k : oracle_key) : list (list Z) :=
  match k with
  | slot_oracle_price id => [u64_bytes id; b_ "price"]
  | slot_oracle_twap id => [u64_bytes id; b_ "twap"]
  | slot_oracle_timestamp id => [u64_bytes id; b_ "ts"]
  | slot_oracle_block id => [u64_bytes id; b_ "block"]
  | slot_oracle_count id => [u64_bytes id; b_ "count"]
  | slot_oracle_tracked_count => [b_ "tracked_count"]
  | slot_oracle_tracked_asset i => [b_ "tracked"; u64_bytes i]
  | slot_oracle_tracked_flag id => [u64_bytes id; b_ "flag"]
  end.

#[global] Instance oracle_keyed `{Keccak} : Keyed oracle_key := {|
  key_address := ORACLE_ADDRESS;
  key_slot k := storage_slot (oracle_parts k)
|}.

(** ** [OracleStorage] *)

Section Storage.
Context `{Keccak}.

Definition read_price (asset_id : Z) : prog Z := kget u256_to_u128 (slot_oracle_price asset_id).
Definition read_twap (asset_id : Z) : prog Z := kget u256_to_u128 (slot_oracle_twap asset_id).
Definition read_timestamp (asset_id : Z) : prog Z := kget u256_to_u64 (slot_oracle_timestamp asset_id).
Definition read_block (asset_id : Z) : prog Z := kget u256_to_u64 (slot_oracle_block asset_id).
Definition read_count (asset_id : Z) : prog Z := kget u256_to_u64 (slot_oracle_count asset_id).

Definition is_stale (asset_id current_ts : Z) : prog bool :=
  stored_ts <- read_timestamp asset_id;
  Ret (saturating_add U64_MAX stored_ts STALE_THRESHOLD_SECS <? current_ts).

Definition read_tracked_count : prog Z := kget u256_to_u64 slot_oracle_tracked_count.
Definition read_tracked_asset (index : Z) : prog Z :=
  kget u256_to_u64 (slot_oracle_tracked_asset index).

Definition is_asset_tracked (asset_id : Z) : prog bool :=
  kget (fun flag => negb (flag =? 0)) (slot_oracle_tracked_flag asset_id).

(** The loops of [set_tracked_assets]: reading the old list, writing the new
    one with its flags, zeroing the entries past its end, and clearing the
    flags of the assets that are gone. *)
Fixpoint read_old_assets (n : nat) (i : Z) : prog (list Z) :=
  match n with
  | O => Ret []
  | S n => a <- read_tracked_asset i; rest <- read_old_assets n (i + 1); Ret (a :: rest)
  end.

Fixpoint store_assets (i : Z) (ids : list Z) : prog unit :=
  match ids with
  | [] => Ret tt
  | id :: ids =>
      do kstore (slot_oracle_tracked_asset i) (u64_to_u256 id);
      do kstore (slot_oracle_tracked_flag id) 1;
      store_assets (i + 1) ids
  end.

Fixpoint clear_flags (ids old : list Z) : prog unit :=
  match old with
  | [] => Ret tt
  | a :: old =>
      do (if bool_decide (a ∈ ids) then Ret tt else kstore (slot_oracle_tracked_flag a) 0);
      clear_flags ids old
  end.

Definition set_tracked_assets (asset_ids : list Z) : prog unit :=
  old_count <- read_tracked_count;
  old_assets <- read_old_assets (Z.to_nat old_count) 0;
  let len := Z.of_nat (length asset_ids) in
  do kstore slot_oracle_tracked_count (u64_to_u256 len);
  do store_assets 0 asset_ids;
  do kclear_chunks (Z.to_nat (old_count - len)) slot_oracle_tracked_asset len;
  clear_flags asset_ids old_assets.

(** The average after one more price. *)
Definition next_twap (count old_twap price : Z) : Z :=
  if count =? 0 then price else
  let result := (old_twap * count + price) / (count + 1) in
  if U128_MAX <? result then U128_MAX else result.

Definition next_count (count : Z) : Z :=
  if MAX_TWAP_COUNT <=? count then MAX_TWAP_COUNT / 2 else count + 1.

Definition submit_price (asset_id price timestamp block_number : Z) : prog unit :=
  do kstore (slot_oracle_price asset_id) (u128_to_u256 price);
  do kstore (slot_oracle_timestamp asset_id) (u64_to_u256 timestamp);
  do kstore (slot_oracle_block asset_id) (u64_to_u256 block_number);
  count <- read_count asset_id;
  old_twap <- read_twap asset_id;
  do kstore (slot_oracle_twap asset_id) (u128_to_u256 (next_twap count old_twap price));
  kstore (slot_oracle_count asset_id) (u64_to_u256 (next_count count)).

End Storage.

(** ** The precompile *)

Record submitPriceCall : Type := mkSubmitPrice {
  sp_assetId : Z; sp_price : Z; sp_timestamp : Z; sp_blockNumber : Z
}.

(** The codecs and selectors the [sol!] macro generates. *)
Class OracleAbi : Type := {
  dec_getPrice : list Z -> result string Z;
  dec_getTWAP : list Z -> result string Z;
  dec_isStale : list Z -> result string Z;
  dec_submitPrice : list Z -> result string submitPriceCall;
  dec_setTrackedAssets : list Z -> result string (list Z);
  dec_getPrices : list Z -> result string (list Z);
  dec_getTWAPs : list Z -> result string (list Z);
  oenc_uint : Z -> list Z;
  sel_getPrice : list Z;
  sel_getTWAP : list Z;
  sel_isStale : list Z;
  sel_submitPrice : list Z;
  sel_setTrackedAssets : list Z;
  sel_getPrices : list Z;
  sel_getTWAPs : list Z
}.

Section Precompile.
Context `{Keccak, OracleAbi} {S : Type} `{!StorageProvider S}.

Definition oerr {A} (msg : string) : prog (res A) := Ret (Err (Other msg)).
Definition oraise {A} (msg : string) : prog (result (trap precompile_error) A) :=
  Ret (Err (Raised (Other msg))).

Definition get_price_handler (asset_id : Z) : prog (res Z) :=
  tracked <- is_asset_tracked asset_id;
  if negb tracked then oerr "oracle: asset not tracked" else
  price <- read_price asset_id;
  if price =? 0 then oerr "oracle: price not initialized" else Ret (Ok price).

Definition get_twap_handler (asset_id : Z) : prog (res Z) :=
  tracked <- is_asset_tracked asset_id;
  if negb tracked then oerr "oracle: asset not tracked" else
  twap <- read_twap asset_id;
  if twap =? 0 then oerr "oracle: twap not initialized" else Ret (Ok twap).

Definition is_stale_handler (current_ts asset_id : Z) : prog (res Z) :=
  tracked <- is_asset_tracked asset_id;
  if negb tracked then oerr "oracle: asset not tracked" else
  stale <- is_stale asset_id current_ts;
  Ret (Ok (if stale : bool then 1 else 0)).

(** The loop of the batch reads. *)
Fixpoint read_batch (read : Z -> prog Z) (asset_ids : list Z) : prog (res (list Z)) :=
  match asset_ids with
  | [] => Ret (Ok [])
  | id :: ids =>
      tracked <- is_asset_tracked id;
      if negb tracked then oerr "oracle: asset not tracked" else
      v <- read id;
      vs <-? read_batch read ids;
      Ret (Ok (v :: vs))
  end.

(** [uint128[]] encoded by hand. *)
Definition encode_array (vs : list Z) : list Z :=
  be_bytes 32 32 ++ be_bytes 32 (Z.of_nat (length vs)) ++ concat (map (be_bytes 32) vs).

(** [storage.timestamp().to::<u64>()]. *)
Definition timestamp_u64 {E} : prog (result (trap E) Z) :=
  ts <- timestamp; Ret (if U64_MAX <? ts then Err Panicked else Ok ts).

Definition TS_FUTURE_GRACE : Z := 60.
Definition TS_MAX_AGE : Z := 300.
Definition BLOCK_MAX_DELTA : Z := 10.

Definition submit_price_handler (msg_sender : Z) (call : submitPriceCall) :
    prog (result (trap precompile_error) unit) :=
  caller <-? raising (Ret (require_caller msg_sender));
  validator_id <- read_validator_id caller;
  if validator_id =? 0 then oraise "oracle submit: caller is not a validator" else
  if (sp_price call <? MIN_PRICE) || (MAX_PRICE <? sp_price call)
  then oraise "oracle submit: price out of range" else
  current_ts <-? timestamp_u64;
  current_block <- block_number;
  if wrap_u64 (current_ts + TS_FUTURE_GRACE) <? sp_timestamp call
  then oraise "oracle submit: timestamp in the future" else
  if wrap_u64 (sp_timestamp call + TS_MAX_AGE) <? current_ts
  then oraise "oracle submit: timestamp too old" else
  if current_block <? sp_blockNumber call
  then oraise "oracle submit: blockNumber in the future" else
  if wrap_u64 (sp_blockNumber call + BLOCK_MAX_DELTA) <? current_block
  then oraise "oracle submit: blockNumber too old" else
  tracked <- is_asset_tracked (sp_assetId call);
  if negb tracked then oraise "oracle submit: asset not tracked" else
  do submit_price (sp_assetId call) (sp_price call) (sp_timestamp call) (sp_blockNumber call);
  do emit_event ORACLE_ADDRESS
       (mkLog [keccak256 (b_ "PriceSubmitted(address,uint64,uint128,uint64,uint64)");
               address_to_u256 caller; u64_to_u256 (sp_assetId call)]
          (be_bytes 32 (u128_to_u256 (sp_price call)) ++ be_bytes 32 (u64_to_u256 (sp_timestamp call)) ++
           be_bytes 32 (u64_to_u256 (sp_blockNumber call))));
  Ret (Ok tt).

Definition set_tracked_assets_handler (msg_sender : Z) (asset_ids : list Z) : prog (res unit) :=
  caller <-? Ret (require_caller msg_sender);
  if negb (caller =? GOVERNANCE_ADDRESS)
  then oerr "oracle setTrackedAssets: caller is not governance" else
  if MAX_TRACKED_ASSETS <? Z.of_nat (length asset_ids)
  then oerr ("oracle setTrackedAssets: too many assets, max " +:+ pretty MAX_TRACKED_ASSETS) else
  do set_tracked_assets asset_ids;
  do emit_event ORACLE_ADDRESS
       (mkLog [keccak256 (b_ "TrackedAssetsUpdated(uint64[])")]
          (be_bytes 32 32 ++ be_bytes 32 (Z.of_nat (length asset_ids)) ++
           concat (map (fun id => be_bytes 32 (u64_to_u256 id)) asset_ids)));
  Ret (Ok tt).

Definition precompile_get_price (calldata : list Z) (s : S) :=
  view dec_getPrice oenc_uint calldata 1000 get_price_handler s.
Definition precompile_get_twap (calldata : list Z) (s : S) :=
  view dec_getTWAP oenc_uint calldata 1000 get_twap_handler s.

(** The batch reads: no base gas is charged and nothing is filled in. *)
Definition batch_view (decode : list Z -> result string (list Z)) (read : Z -> prog Z)
    (calldata : list Z) (s : S) : res PrecompileOutput * S :=
  match decode calldata with
  | Err _ => (Err (Other "decode failed"), s)
  | Ok asset_ids =>
      match run (read_batch read asset_ids) s with
      | (Err e, s) => (Err e, s)
      | (Ok vs, s) =>
          (Ok (mkOut (1000 + 500 * Z.max (Z.of_nat (length asset_ids)) 1) 0 (encode_array vs) false), s)
      end
  end.

Definition get_prices := batch_view dec_getPrices read_price.
Definition get_twap_batch := batch_view dec_getTWAPs read_twap.

Definition precompile_is_stale (calldata : list Z) (s : S) : outcome unit (res PrecompileOutput * S) :=
  match run (timestamp_u64 (E := precompile_error)) s with
  | (Ok current_ts, s) => Done (view dec_isStale oenc_uint calldata 1000 (is_stale_handler current_ts) s)
  | _ => Panic
  end.

Definition precompile_submit_price (calldata : list Z) (msg_sender : Z) (s : S) :=
  mutate_trapping dec_submitPrice (fun _ : unit => []) calldata 30000 (submit_price_handler msg_sender) s.
Definition precompile_set_tracked_assets (calldata : list Z) (msg_sender : Z) (s : S) :=
  mutate_void dec_setTrackedAssets calldata 50000 (set_tracked_assets_handler msg_sender) s.

(** [StatefulPrecompile::call]: dispatch on the selector. *)
Definition oracle_call (calldata : list Z) (msg_sender : Z) (s : S) :
    outcome unit (res PrecompileOutput * S) :=
  if (length calldata <? 4)%nat then Done (Err (Other "invalid input"), s) else
  let selector := take 4 calldata in
  if bool_decide (selector = sel_getPrice) then Done (precompile_get_price calldata s)
  else if bool_decide (selector = sel_getTWAP) then Done (precompile_get_twap calldata s)
  else if bool_decide (selector = sel_getPrices) then Done (get_prices calldata s)
  else if bool_decide (selector = sel_getTWAPs) then Done (get_twap_batch calldata s)
  else if bool_decide (selector = sel_isStale) then precompile_is_stale calldata s
  else if bool_decide (selector = sel_submitPrice)
  then precompile_submit_price calldata msg_sender s
  else if bool_decide (selector = sel_setTrackedAssets)
  then Done (precompile_set_tracked_assets calldata msg_sender s)
  else Done (Err (Other "unknown selector"), s).

End Precompile.
