(* ===== verification/OracleProps.v ===== *)
(** * OracleProps: tracked assets and prices

    The flag of an asset says whether it is in the list of tracked assets, a
    price reads back as the last submission, and the average stays between the
    submitted prices; the slots overlap for one asset id, and a batch read can
    stop the node. *)

From stdpp Require Import base gmap list strings.
From Stdlib Require Import ZArith Lia.
From S2P Require Import Prelude Provider World EvmProvider Refinement Dispatch Utils.
From S2P Require Import Asset AssetSpec Validator Keyed Rlp Trap.
From S2P Require Import Oracle SimpleJournal HashDemo.

Local Open Scope Z_scope.
Local Open Scope callnode_scope.

(** ** Layout *)

(** The asset id whose eight bytes spell [tracked_]: its sample counter is in
    the slot of the number of tracked assets. *)
Definition TRACKED_ID : Z := 0x747261636b65645f.

Definition asset_ok (id : Z) : Prop := fits U64_MAX id /\ id <> TRACKED_ID.

Definition oracle_used (k : oracle_key) : Prop :=
  match k with
  | slot_oracle_price id | slot_oracle_twap id | slot_oracle_timestamp id | slot_oracle_block id
  | slot_oracle_tracked_flag id => fits U64_MAX id
  | slot_oracle_count id => asset_ok id
  | slot_oracle_tracked_count => True
  | slot_oracle_tracked_asset i => fits U64_MAX i
  end.

Definition oracle_preimage (k : oracle_key) : list Z := concat (oracle_parts k).

Lemma tracked_count_collides : oracle_preimage (slot_oracle_count TRACKED_ID) = oracle_preimage slot_oracle_tracked_count.
Proof. vm_compute. reflexivity. Qed.

Lemma tracked_id_bytes id : fits U64_MAX id -> u64_bytes id = b_ "tracked_" -> id = TRACKED_ID.
Proof.
  intros Hid E. apply u64_bytes_inj; [done|by split|]. rewrite E. by vm_compute.
Qed.

(** An id followed by a suffix. *)
Lemma id_suffix id id' s s' :
  u64_bytes id ++ s = u64_bytes id' ++ s' -> u64_bytes id = u64_bytes id' /\ s = s'.
Proof. apply app_inj_len. by rewrite !length_u64_bytes. Qed.

Lemma oracle_preimage_inj k k' :
  oracle_used k -> oracle_used k' -> oracle_preimage k = oracle_preimage k' -> k = k'.
Proof.
  intros H1 H2 E. pose proof (f_equal length E) as L. unfold oracle_preimage in *.
  destruct k, k'; cbn [oracle_used] in *; try unfold asset_ok in *; destruct_and?; cbn [oracle_parts concat] in *;
    change (b_ "tracked_count") with (b_ "tracked_" ++ b_ "count") in *;
    rewrite ?app_nil_r, ?length_app, ?length_u64_bytes in *; try done;
    try (apply app_inj_len in E as [E1 E2]; [|by rewrite ?length_u64_bytes]); try discriminate;
    try (apply tracked_id_bytes in E1; [|done]); try (symmetry in E1; apply tracked_id_bytes in E1; [|done]);
    try done; f_equal; by apply u64_bytes_inj.
Qed.

Section Hash.
Context `{Keccak}.

Definition oracle_collision_free : Prop :=
  forall k k', oracle_used k -> oracle_used k' ->
    keccak256 (oracle_preimage k) = keccak256 (oracle_preimage k') -> oracle_preimage k = oracle_preimage k'.

Lemma oracle_layout_holds : oracle_collision_free -> Layout oracle_used.
Proof. intros C k k' Hk Hk' E. apply oracle_preimage_inj; [done..|]. by apply C. Qed.

End Hash.

(** ** The tracked assets *)

Section Tracked.
Context `{Keccak} `{!Layout oracle_used}.
Implicit Types (w : world).

Definition entry w (i : Z) : Z := u256_to_u64 (krd w (slot_oracle_tracked_asset i)).
Definition tracked_count w : Z := u256_to_u64 (krd w slot_oracle_tracked_count).
Definition flag w (id : Z) : bool := negb (krd w (slot_oracle_tracked_flag id) =? 0).

(** The list that the slots hold. *)
Definition tracked w : list Z := map (entry w) (seqZ 0 (tracked_count w)).

Lemma run_read_old n i w : run (read_old_assets n i) w = (map (entry w) (seqZ i (Z.of_nat n)), w).
Proof using Type.
  revert i. induction n as [|n IH]; intros i; cbn [read_old_assets]; [done|].
  rewrite run_bind. unfold read_tracked_asset at 1. rewrite run_kget. cbv iota beta. rewrite run_bind, IH. cbn [run].
  rewrite (seqZ_cons i) by lia. cbn [map]. do 4 f_equal; lia.
Qed.

Definition list_key (k : oracle_key) : Prop :=
  match k with slot_oracle_tracked_asset _ | slot_oracle_tracked_flag _ | slot_oracle_tracked_count => True | _ => False end.

Ltac other_key := rewrite (krd_kwr_ne oracle_used) by (cbn [oracle_used]; done || fit || congruence).

Lemma store_assets_spec ids : forall i w,
  Forall (fits U64_MAX) ids -> 0 <= i -> i + Z.of_nat (length ids) <= U64_MAX ->
  let w' := (run (store_assets i ids) w).2 in
  (forall j id, ids !! j = Some id -> krd w' (slot_oracle_tracked_asset (i + Z.of_nat j)) = u64_to_u256 id) /\
  (forall j, 0 <= j < i -> krd w' (slot_oracle_tracked_asset j) = krd w (slot_oracle_tracked_asset j)) /\
  (forall id, fits U64_MAX id -> krd w' (slot_oracle_tracked_flag id) =
     if bool_decide (id ∈ ids) then 1 else krd w (slot_oracle_tracked_flag id)) /\
  (forall k, oracle_used k -> ~ list_key k \/ k = slot_oracle_tracked_count -> krd w' k = krd w k).
Proof using All.
  induction ids as [|id ids IH]; intros i w Hids Hi Hl; cbn [store_assets length] in *.
  { cbn. split; [done|]. by split. }
  apply Forall_cons in Hids as [Hid Hids]. rewrite !run_bind, !run_kstore. cbv iota beta. rewrite !run_bind, !run_kstore. cbv iota beta.
  set (w1 := kwr (slot_oracle_tracked_flag id) 1 (kwr (slot_oracle_tracked_asset i) (u64_to_u256 id) w)).
  destruct (IH (i + 1) w1 Hids ltac:(lia) ltac:(lia)) as (E1 & E2 & E3 & E4). split_and!.
  - intros [|j] a Ha; cbn in Ha.
    + injection Ha as ->. rewrite Z.add_0_r, E2 by lia. unfold w1. other_key. apply krd_kwr_same.
    + replace (i + Z.of_nat (S j)) with (i + 1 + Z.of_nat j) by lia. by apply E1.
  - intros j Hj. rewrite E2 by lia. unfold w1. other_key.
    apply (krd_kwr_ne oracle_used); [cbn; fit..|]. intros [= ->]. lia.
  - intros a Ha. rewrite E3 by done. case_bool_decide as Hin; [by rewrite bool_decide_eq_true_2 by set_solver|].
    unfold w1. destruct (decide (a = id)) as [->|Hne].
    + rewrite krd_kwr_same, bool_decide_eq_true_2 by set_solver. done.
    + rewrite bool_decide_eq_false_2 by set_solver.
      rewrite (krd_kwr_ne oracle_used) by (done || congruence). by other_key.
  - intros k Hk Hc. rewrite E4 by done. unfold w1.
    rewrite !(krd_kwr_ne oracle_used); try done; try (cbn; fit); destruct Hc as [Hc| ->]; try done; intros <-; by apply Hc.
Qed.

Lemma clear_flags_spec ids old : forall w,
  Forall (fits U64_MAX) old ->
  let w' := (run (clear_flags ids old) w).2 in
  (forall id, fits U64_MAX id -> krd w' (slot_oracle_tracked_flag id) =
     if bool_decide (id ∈ old /\ id ∉ ids) then 0 else krd w (slot_oracle_tracked_flag id)) /\
  (forall k, oracle_used k -> (forall id, k <> slot_oracle_tracked_flag id) -> krd w' k = krd w k).
Proof using All.
  induction old as [|a old IH]; intros w Hold; cbn [clear_flags].
  { cbn. split; [|done]. intros id _. rewrite bool_decide_eq_false_2 by set_solver. done. }
  apply Forall_cons in Hold as [Ha Hold]. rewrite run_bind.
  set (w1 := (run (if bool_decide (a ∈ ids) then Ret tt else kstore (slot_oracle_tracked_flag a) 0) w).2).
  assert (E : run (if bool_decide (a ∈ ids) then Ret tt else kstore (slot_oracle_tracked_flag a) 0) w = (tt, w1)).
  { unfold w1. by case_bool_decide. }
  assert (W : forall k, oracle_used k -> krd w1 k =
    if bool_decide (k = slot_oracle_tracked_flag a /\ a ∉ ids) then 0 else krd w k).
  { intros k Hk. unfold w1. destruct (decide (a ∈ ids)) as [Hai|Hai].
    - rewrite (bool_decide_eq_true_2 (a ∈ ids)), bool_decide_eq_false_2 by (done || intros []; done). done.
    - rewrite (bool_decide_eq_false_2 (a ∈ ids)), run_kstore by done. cbn [snd].
      rewrite (krd_kwr oracle_used) by done. destruct (decide (slot_oracle_tracked_flag a = k)) as [<-|Hne].
      + by rewrite bool_decide_eq_true_2.
      + rewrite bool_decide_eq_false_2; [done|]. intros [-> _]. done. }
  rewrite E. destruct (IH w1 Hold) as [E1 E2]. split.
  - intros id Hid. rewrite E1, W by done. repeat case_bool_decide; try done; naive_solver set_solver.
  - intros k Hk Hn. rewrite E2, W by done. rewrite bool_decide_eq_false_2; [done|]. intros [E' _]. by apply (Hn a).
Qed.

Lemma clear_entries_spec n : forall i w k,
  0 <= i -> i + Z.of_nat n <= U64_MAX -> oracle_used k -> (forall j, i <= j -> k <> slot_oracle_tracked_asset j) ->
  krd (run (kclear_chunks n slot_oracle_tracked_asset i) w).2 k = krd w k.
Proof using All.
  induction n as [|n IH]; intros i w k Hi Hn Hk Hne; [done|]. cbn [kclear_chunks].
  rewrite run_bind, run_kstore. cbv iota beta. rewrite IH; [|lia|lia|done|intros j Hj; apply Hne; lia].
  apply (krd_kwr_ne oracle_used); [cbn; fit|done|]. intros E. by apply (Hne i).
Qed.

Lemma tracked_fits w : Forall (fits U64_MAX) (tracked w).
Proof using Type. apply Forall_map, Forall_forall. intros i _. apply u256_to_u64_fits. Qed.

(** What setting the list does. *)
Lemma set_tracked_spec ids w :
  Forall (fits U64_MAX) ids -> Z.of_nat (length ids) <= U64_MAX ->
  let w' := (run (set_tracked_assets ids) w).2 in
  tracked w' = ids /\
  (forall id, fits U64_MAX id -> flag w' id = if bool_decide (id ∈ ids) then true
                                           else if bool_decide (id ∈ tracked w) then false else flag w id) /\
  (forall k, oracle_used k -> ~ list_key k -> krd w' k = krd w k).
Proof using All.
  intros Hids Hl. pose proof (tracked_fits w) as Hold. unfold set_tracked_assets. rewrite run_bind. unfold read_tracked_count. rewrite run_kget. cbv iota beta.
  fold (tracked_count w). pose proof (u256_to_u64_fits (krd w slot_oracle_tracked_count)) as Hc. fold (tracked_count w) in Hc.
  rewrite run_bind, run_read_old, Z2Nat.id by fit. cbv iota beta zeta. fold (tracked w).
  set (len := Z.of_nat (length ids)). assert (Hlen : fits U64_MAX len) by (unfold len; fit). rewrite !run_bind, run_kstore. cbv iota beta.
  set (w1 := kwr slot_oracle_tracked_count (u64_to_u256 len) w).
  rewrite run_bind. destruct (run (store_assets 0 ids) w1) as [[] w2] eqn:E2.
  destruct (store_assets_spec ids 0 w1 Hids ltac:(lia) ltac:(lia)) as (S1 & _ & S3 & S4). rewrite E2 in S1, S3, S4. cbn [snd] in S1, S3, S4.
  rewrite run_bind. set (n := Z.to_nat (tracked_count w - len)).
  destruct (run (kclear_chunks n slot_oracle_tracked_asset len) w2) as [[] w3] eqn:E3.
  assert (C : forall k, oracle_used k -> (forall i, len <= i -> k <> slot_oracle_tracked_asset i) -> krd w3 k = krd w2 k).
  { intros k Hk Hn. pose proof (clear_entries_spec n len w2 k) as F. rewrite E3 in F. apply F; try done; unfold n, len, fits in *; lia. }
  destruct (clear_flags_spec ids (tracked w) w3 Hold) as [F1 F2].
  set (w4 := (run (clear_flags ids (tracked w)) w3).2) in *.
  assert (Ec : tracked_count w4 = len).
  { unfold tracked_count. rewrite F2, C, S4 by (done || auto). unfold w1. rewrite krd_kwr_same, (u64_to_u256_id len) by done.
    by apply u256_to_u64_id. }
  split_and!.
  - unfold tracked. rewrite Ec. apply list_eq. intros j. destruct (ids !! j) as [id|] eqn:Ej.
    + change (map ?f ?l) with (f <$> l). rewrite list_lookup_fmap. pose proof (lookup_lt_Some _ _ _ Ej).
      rewrite lookup_seqZ_lt by lia. cbn [fmap option_fmap option_map]. f_equal. unfold entry.
      pose proof (S1 j id Ej) as Es. cbn [Z.add] in Es |- *.
      rewrite F2, C, Es; [|cbn; fit|intros i Hi [= <-]; lia|cbn; fit|done].
      rewrite Forall_lookup in Hids. pose proof (Hids _ _ Ej) as Hid. rewrite (u64_to_u256_id id) by done. by apply u256_to_u64_id.
    + apply lookup_ge_None in Ej. apply lookup_ge_None. rewrite length_map, length_seqZ. unfold len. lia.
  - intros id Hid. unfold flag. rewrite F1, C, S3 by done. unfold w1. rewrite (krd_kwr_ne oracle_used) by done.
    repeat case_bool_decide; try done; naive_solver.
  - intros k Hk Hn. rewrite F2, C, S4; try done; try auto.
    + unfold w1. apply (krd_kwr_ne oracle_used); [done..|]. intros <-. by apply Hn.
    + intros i _ ->. by apply Hn.
    + intros id ->. by apply Hn.
Qed.

(** ** Prices *)

Definition price w (id : Z) : Z := u256_to_u128 (krd w (slot_oracle_price id)).
Definition twap w (id : Z) : Z := u256_to_u128 (krd w (slot_oracle_twap id)).
Definition price_ts w (id : Z) : Z := u256_to_u64 (krd w (slot_oracle_timestamp id)).
Definition samples w (id : Z) : Z := u256_to_u64 (krd w (slot_oracle_count id)).

Lemma next_twap_between count old p lo hi :
  0 <= count -> (count <> 0 -> lo <= old <= hi) -> lo <= p <= hi -> hi <= U128_MAX ->
  lo <= next_twap count old p <= hi.
Proof using Type.
  intros Hc Ho Hp Hh. unfold next_twap. destruct (Z.eqb_spec count 0) as [|Hne]; [done|].
  specialize (Ho Hne). cbv zeta.
  assert (lo <= (old * count + p) / (count + 1) <= hi).
  { split; [apply Z.div_le_lower_bound; nia|]. apply Z.lt_succ_r, Z.div_lt_upper_bound; nia. }
  destruct (Z.ltb_spec U128_MAX ((old * count + p) / (count + 1))); lia.
Qed.

Lemma next_count_bound count : 0 <= count <= MAX_TWAP_COUNT -> 1 <= next_count count <= MAX_TWAP_COUNT.
Proof using Type.
  unfold next_count, MAX_TWAP_COUNT. intros Hc. destruct (Z.leb_spec 10000 count); [|lia].
  change (10000 / 2) with 5000. lia.
Qed.

Definition price_key (id : Z) (k : oracle_key) : Prop :=
  k = slot_oracle_price id \/ k = slot_oracle_timestamp id \/ k = slot_oracle_block id \/
  k = slot_oracle_twap id \/ k = slot_oracle_count id.

Definition put_price (id p ts b : Z) w : world :=
  kwr (slot_oracle_count id) (u64_to_u256 (next_count (samples w id)))
  (kwr (slot_oracle_twap id) (u128_to_u256 (next_twap (samples w id) (twap w id) p))
  (kwr (slot_oracle_block id) (u64_to_u256 b) (kwr (slot_oracle_timestamp id) (u64_to_u256 ts)
  (kwr (slot_oracle_price id) (u128_to_u256 p) w)))).

Lemma run_submit id p ts b w : asset_ok id -> run (submit_price id p ts b) w = (tt, put_price id p ts b w).
Proof using All.
  intros [Hid Hne]. unfold submit_price. rewrite !run_bind, run_kstore. cbv iota beta.
  rewrite !run_bind, run_kstore. cbv iota beta. rewrite !run_bind, run_kstore. cbv iota beta.
  rewrite !run_bind. unfold read_count, read_twap. rewrite run_kget. cbv iota beta. rewrite run_bind, run_kget. cbv iota beta.
  rewrite !(krd_kwr_ne oracle_used) by (done || congruence). rewrite run_bind, !run_kstore. done.
Qed.

Lemma put_price_reads id p ts b w :
  asset_ok id -> fits U128_MAX p -> fits U64_MAX ts -> 0 <= samples w id <= MAX_TWAP_COUNT ->
  let w' := put_price id p ts b w in
  price w' id = p /\ price_ts w' id = ts /\ samples w' id = next_count (samples w id) /\
  twap w' id = next_twap (samples w id) (twap w id) p /\
  forall k, oracle_used k -> ~ price_key id k -> krd w' k = krd w k.
Proof using All.
  intros [Hid Hne] Hp Hts Hs. cbv zeta. unfold put_price. set (n := next_count _). set (t := next_twap _ _ _).
  assert (Hn : fits U64_MAX n).
  { pose proof (next_count_bound _ Hs) as B. fold n in B. unfold MAX_TWAP_COUNT in *. unfold U64_MAX. fit. }
  assert (Ht : fits U128_MAX t).
  { pose proof (u256_to_u128_fits (krd w (slot_oracle_twap id))).
    apply next_twap_between; [lia|intros _; unfold twap; fit|fit|lia]. }
  unfold price, price_ts, samples, twap. split_and!.
  - rewrite !(krd_kwr_ne oracle_used) by (done || congruence). rewrite krd_kwr_same, (u128_to_u256_id p) by done.
    by apply u256_to_u128_id.
  - rewrite !(krd_kwr_ne oracle_used _ _ _ (slot_oracle_timestamp id)) by (done || congruence).
    rewrite krd_kwr_same, (u64_to_u256_id ts) by done. by apply u256_to_u64_id.
  - rewrite krd_kwr_same, (u64_to_u256_id n) by done. by apply u256_to_u64_id.
  - rewrite (krd_kwr_ne oracle_used) by (done || congruence). rewrite krd_kwr_same, (u128_to_u256_id t) by done.
    by apply u256_to_u128_id.
  - intros k Hk Hnk. unfold price_key in Hnk. rewrite !(krd_kwr_ne oracle_used); try done; try naive_solver.
Qed.

(** What a successful submission has passed. *)
Lemma submit_handler_ok m c w w' :
  run (submit_price_handler m c) w = (Ok tt, w') ->
  MIN_PRICE <= sp_price c <= MAX_PRICE /\ flag w (sp_assetId c) = true /\
  run (read_validator_id m) w <> (0, w) /\
  wrap_u64 (sp_timestamp c + TS_MAX_AGE) >= e_timestamp (w_env w) /\
  sp_timestamp c <= wrap_u64 (e_timestamp (w_env w) + TS_FUTURE_GRACE) /\
  exists ev, w' = w_upd (put_log ORACLE_ADDRESS ev)
                    (run (submit_price (sp_assetId c) (sp_price c) (sp_timestamp c) (sp_blockNumber c)) w).2.
Proof using Type.
  unfold submit_price_handler, require_caller. rewrite run_try.
  destruct (m =? 0); [done|]. cbn [raising prog_map_err prog_bind map_err run]. rewrite run_bind.
  destruct (run (read_validator_id m) w) as [vid w1] eqn:Ev.
  assert (w1 = w) as -> by (unfold read_validator_id, vload in Ev; rewrite run_bind, w_run_load in Ev; by injection Ev).
  destruct (Z.eqb_spec vid 0) as [|Hv]; [done|].
  destruct ((sp_price c <? MIN_PRICE) || (MAX_PRICE <? sp_price c)) eqn:Ep; [done|]. apply orb_false_elim in Ep as [P1 P2].
  apply Z.ltb_ge in P1, P2. rewrite run_try. change (run timestamp_u64 w) with
    ((if U64_MAX <? e_timestamp (w_env w) then Err Panicked else Ok (e_timestamp (w_env w))) : result (trap precompile_error) Z, w).
  destruct (U64_MAX <? e_timestamp (w_env w)); [done|]. rewrite run_bind. change (run block_number w) with (e_block_number (w_env w), w).
  cbv iota beta. destruct (Z.ltb_spec (wrap_u64 (e_timestamp (w_env w) + TS_FUTURE_GRACE)) (sp_timestamp c)); [done|].
  destruct (Z.ltb_spec (wrap_u64 (sp_timestamp c + TS_MAX_AGE)) (e_timestamp (w_env w))); [done|].
  destruct (_ <? sp_blockNumber c); [done|]. destruct (wrap_u64 (sp_blockNumber c + BLOCK_MAX_DELTA) <? _); [done|].
  rewrite run_bind. change (run (is_asset_tracked (sp_assetId c)) w) with (flag w (sp_assetId c), w). cbv iota beta.
  destruct (flag w (sp_assetId c)); cbn [negb]; [|done]. rewrite run_bind.
  destruct (run (submit_price _ _ _ _) w) as [[] w2]. rewrite run_bind, w_run_emit. cbv iota beta. cbn [run snd]. intros [= <-].
  split; [done|]. split; [done|]. split; [by intros [= ->]|]. split; [lia|]. split; [done|]. by eexists.
Qed.

Lemma track_handler_ok m ids w w' :
  run (set_tracked_assets_handler m ids) w = (Ok tt, w') ->
  m = GOVERNANCE_ADDRESS /\ Z.of_nat (length ids) <= MAX_TRACKED_ASSETS /\
  exists ev, w' = w_upd (put_log ORACLE_ADDRESS ev) (run (set_tracked_assets ids) w).2.
Proof using Type.
  unfold set_tracked_assets_handler, require_caller. rewrite run_try.
  destruct (m =? 0); [done|]. cbn [run]. destruct (Z.eqb_spec m GOVERNANCE_ADDRESS) as [->|]; cbn [negb]; [|done].
  destruct (Z.ltb_spec MAX_TRACKED_ASSETS (Z.of_nat (length ids))); [done|]. rewrite run_bind.
  destruct (run (set_tracked_assets ids) w) as [[] w1]. rewrite run_bind, w_run_emit. cbv iota beta. cbn [run snd]. intros [= <-].
  split; [done|]. split; [done|]. by eexists.
Qed.

(** ** Histories *)

Definition call_fits (c : submitPriceCall) : Prop :=
  fits U64_MAX (sp_assetId c) /\ fits U64_MAX (sp_timestamp c) /\ fits U64_MAX (sp_blockNumber c).

(** Successful calls, newest submission first, between changes that leave the
    oracle's storage alone. *)
Inductive oracle_history w : list submitPriceCall -> world -> Prop :=
| oh_start : oracle_history w [] w
| oh_other es w1 w2 : oracle_history w es w1 -> same_at ORACLE_ADDRESS w1 w2 -> oracle_history w es w2
| oh_submit es w1 m c w2 :
    oracle_history w es w1 -> call_fits c -> run (submit_price_handler m c) w1 = (Ok tt, w2) ->
    oracle_history w (c :: es) w2
| oh_track es w1 m ids w2 :
    oracle_history w es w1 -> Forall (fits U64_MAX) ids -> TRACKED_ID ∉ ids ->
    run (set_tracked_assets_handler m ids) w1 = (Ok tt, w2) -> oracle_history w es w2.

Lemma history_positive w es w' : oracle_history w es w' -> Forall (fun c => MIN_PRICE <= sp_price c) es.
Proof using Type.
  induction 1 as [|es w1 w2 _ IH S|es w1 m c w2 _ IH Hc E|es w1 m ids w2 _ IH Hi Hn E]; try done.
  constructor; [|done]. apply submit_handler_ok in E as (? & _). lia.
Qed.

(** An oracle that nobody has used. *)
Definition fresh w : Prop := forall s, wslot w ORACLE_ADDRESS s = 0.

Definition of_asset (id : Z) (c : submitPriceCall) : bool := sp_assetId c =? id.
Definition last_for (id : Z) (es : list submitPriceCall) : option submitPriceCall := List.find (of_asset id) es.

(** What the storage holds after a history. *)
Record oracle_inv (es : list submitPriceCall) w : Prop := {
  oi_flags : forall id, fits U64_MAX id -> flag w id = bool_decide (id ∈ tracked w);
  oi_safe : TRACKED_ID ∉ tracked w;
  oi_samples : forall id, asset_ok id -> 0 <= samples w id <= MAX_TWAP_COUNT /\
    (samples w id = 0 <-> last_for id es = None);
  oi_price : forall id, asset_ok id -> price w id = from_option sp_price 0 (last_for id es);
  oi_twap : forall id lo hi, asset_ok id -> hi <= U128_MAX ->
    Forall (fun c => sp_assetId c = id -> lo <= sp_price c <= hi) es ->
    samples w id <> 0 -> lo <= twap w id <= hi
}.

Lemma same_views w w' :
  (forall k, oracle_used k -> krd w' k = krd w k) -> forall es, oracle_inv es w -> oracle_inv es w'.
Proof using Type.
  intros S es [I1 I2 I3 I4 I5].
  assert (T : tracked w' = tracked w).
  { unfold tracked, tracked_count. rewrite S by done. apply map_ext_in. intros i Hi. unfold entry. rewrite S; [done|].
    apply list_elem_of_In, elem_of_seqZ in Hi. pose proof (u256_to_u64_fits (krd w slot_oracle_tracked_count)). cbn. fit. }
  split.
  - intros id Hid. rewrite T, <- I1 by done. unfold flag. by rewrite S.
  - by rewrite T.
  - intros id Hid. unfold samples. rewrite S by done. by apply I3.
  - intros id Hid. unfold price. rewrite S by apply Hid. by apply I4.
  - intros id lo hi Hid. unfold samples, twap. rewrite !S by (done || apply Hid). by apply I5.
Qed.

Lemma tracked_same w w' :
  (forall k, oracle_used k -> list_key k -> krd w' k = krd w k) -> tracked w' = tracked w.
Proof using Type.
  intros S. unfold tracked, tracked_count. rewrite S by done. apply map_ext_in. intros i Hi. unfold entry. rewrite S; [done| |done].
  apply list_elem_of_In, elem_of_seqZ in Hi. pose proof (u256_to_u64_fits (krd w slot_oracle_tracked_count)). cbn. fit.
Qed.

Lemma fresh_inv w : fresh w -> oracle_inv [] w.
Proof using Type.
  intros F. assert (Z0 : forall k : oracle_key, krd w k = 0) by (intros k; apply F).
  assert (T : tracked w = []) by (unfold tracked, tracked_count; by rewrite Z0).
  split.
  - intros id _. unfold flag. rewrite T, Z0. by rewrite bool_decide_eq_false_2 by apply not_elem_of_nil.
  - rewrite T. apply not_elem_of_nil.
  - intros id _. unfold samples. rewrite Z0. done.
  - intros id _. unfold price. rewrite Z0. done.
  - intros id lo hi _ _ _ Hs. unfold samples in Hs. by rewrite Z0 in Hs.
Qed.

Lemma price_submit_inv m c es w w' :
  oracle_inv es w -> call_fits c -> run (submit_price_handler m c) w = (Ok tt, w') -> oracle_inv (c :: es) w'.
Proof using All.
  intros [I1 I2 I3 I4 I5] (F1 & F2 & F3) E. apply submit_handler_ok in E as (Hp & Hf & _ & _ & _ & ev & ->).
  assert (Ha : asset_ok (sp_assetId c)).
  { split; [done|]. intros E. rewrite I1 in Hf by done. apply bool_decide_eq_true in Hf. by rewrite E in Hf. }
  rewrite run_submit by done. cbn [snd].
  assert (Hp' : fits U128_MAX (sp_price c)) by (unfold MIN_PRICE, MAX_PRICE, U128_MAX in *; fit).
  destruct (put_price_reads (sp_assetId c) (sp_price c) (sp_timestamp c) (sp_blockNumber c) w Ha Hp' F2) as (R1 & _ & R3 & R4 & R5).
  { by apply I3. }
  apply (same_views (put_price (sp_assetId c) (sp_price c) (sp_timestamp c) (sp_blockNumber c) w)); [done|].
  set (w1 := put_price _ _ _ _ w) in *.
  assert (T : tracked w1 = tracked w).
  { apply tracked_same. intros k Hk Hl. apply R5; [done|]. intros [-> | [-> | [-> | [-> | ->]]]]; done. }
  assert (O : forall id, asset_ok id -> id <> sp_assetId c ->
    samples w1 id = samples w id /\ price w1 id = price w id /\ twap w1 id = twap w id).
  { intros id Hid Hne. unfold samples, price, twap. rewrite !R5; try done; try apply Hid; unfold price_key; naive_solver. }
  split.
  - intros id Hid. rewrite T, <- I1 by done. unfold flag. rewrite R5; [done|done|unfold price_key; naive_solver].
  - by rewrite T.
  - intros id Hid. unfold last_for. cbn [List.find]. unfold of_asset at 1. destruct (Z.eqb_spec (sp_assetId c) id) as [<-|Hne].
    + rewrite R3. pose proof (next_count_bound (samples w (sp_assetId c)) (proj1 (I3 _ Ha))) as B. split; [lia|]. split; [lia|done].
    + destruct (O id Hid) as [-> _]; [done|]. by apply I3.
  - intros id Hid. unfold last_for. cbn [List.find]. unfold of_asset at 1. destruct (Z.eqb_spec (sp_assetId c) id) as [<-|Hne].
    + done.
    + destruct (O id Hid) as (_ & -> & _); [done|]. by apply I4.
  - intros id lo hi Hid Hhi Hall Hs. apply Forall_cons in Hall as [Hc Hall]. destruct (decide (id = sp_assetId c)) as [->|Hne].
    + rewrite R4. apply next_twap_between; [apply I3, Ha|by apply I5|by apply Hc|done].
    + destruct (O id Hid Hne) as (Es & _ & ->). apply I5; try done. by rewrite Es in Hs.
Qed.

Lemma track_inv m ids es w w' :
  oracle_inv es w -> Forall (fits U64_MAX) ids -> TRACKED_ID ∉ ids ->
  run (set_tracked_assets_handler m ids) w = (Ok tt, w') -> oracle_inv es w' /\ tracked w' = ids.
Proof using All.
  intros [I1 I2 I3 I4 I5] Hids Hn E. apply track_handler_ok in E as (_ & Hl & ev & ->).
  destruct (set_tracked_spec ids w Hids) as (T & F & R); [unfold MAX_TRACKED_ASSETS, U64_MAX in *; lia|].
  set (w1 := (run (set_tracked_assets ids) w).2) in *.
  split; [|exact T]. apply (same_views w1); [done|]. split.
  - intros id Hid. rewrite F, T by done. case_bool_decide; [done|]. rewrite I1 by done. by case_bool_decide.
  - by rewrite T.
  - intros id Hid. unfold samples. rewrite R by (done || auto). by apply I3.
  - intros id Hid. unfold price. rewrite R by (apply Hid || auto). by apply I4.
  - intros id lo hi Hid. unfold samples, twap. rewrite !R by (done || apply Hid || auto). by apply I5.
Qed.

Lemma history_inv w es w' : fresh w -> oracle_history w es w' -> oracle_inv es w'.
Proof using All.
  intros Hf Hh. induction Hh as [|es w1 w2 _ IH S|es w1 m c w2 _ IH Hc E|es w1 m ids w2 _ IH Hi Hn E].
  - by apply fresh_inv.
  - apply (same_views w1); [|done]. intros k _. by apply same_at_krd.
  - by eapply price_submit_inv.
  - by eapply track_inv.
Qed.

(** C28: the flag of an asset is its membership in the list.  After any history
    of successful calls from an unused oracle in which governance does not
    track the asset whose id spells [tracked_], the constant-time check gives
    the same answer for every asset as a search through the stored list. *)
Theorem tracked_flag_matches_list w es w' id :
  fresh w -> oracle_history w es w' -> fits U64_MAX id ->
  run (is_asset_tracked id) w' =
    (bool_decide (id ∈ (run (read_old_assets (Z.to_nat (run read_tracked_count w').1) 0) w').1), w').
Proof using All.
  intros Hf Hh Hid. apply history_inv in Hh as [I _ _ _ _]; [|done].
  change (run (is_asset_tracked id) w') with (flag w' id, w'). rewrite I by done.
  change (run read_tracked_count w').1 with (tracked_count w'). rewrite run_read_old. cbn [fst].
  pose proof (u256_to_u64_fits (krd w' slot_oracle_tracked_count)). fold (tracked_count w') in H0.
  by rewrite Z2Nat.id by fit.
Qed.

(** A price reads back.  After such a history, reading the price of an
    asset fails if the asset is not tracked or nobody has submitted a price
    for it, and else gives exactly the price of the last submission for it. *)
Theorem price_reads_back w es w' id :
  fresh w -> oracle_history w es w' -> asset_ok id ->
  run (get_price_handler id) w' =
    (if bool_decide (id ∈ tracked w') then
       match last_for id es with
       | Some c => Ok (sp_price c)
       | None => Err (Other "oracle: price not initialized")
       end
     else Err (Other "oracle: asset not tracked"), w').
Proof using All.
  intros Hf Hh Ha. pose proof (history_positive w es w' Hh) as Hpos. apply history_inv in Hh as [I _ _ P _]; [|done].
  unfold get_price_handler. rewrite run_bind. change (run (is_asset_tracked id) w') with (flag w' id, w'). cbv iota beta.
  rewrite I by apply Ha. case_bool_decide; cbn [negb]; [|done]. rewrite run_bind.
  change (run (read_price id) w') with (price w' id, w'). cbv iota beta. rewrite P by done.
  destruct (last_for id es) as [c|] eqn:El; [|done]. cbn [from_option].
  apply find_some in El as [El _]. apply list_elem_of_In in El. rewrite Forall_forall in Hpos. apply Hpos in El.
  destruct (Z.eqb_spec (sp_price c) 0); [unfold MIN_PRICE in El; lia|done].
Qed.

(** C29: the average stays within the prices.  After such a history in which
    every submission for an asset lies between two bounds, at least one of
    them, the average of the asset lies between them as well, and the weight
    of the past is at most 10,000 samples. *)
Theorem twap_within_prices w es w' id lo hi c :
  fresh w -> oracle_history w es w' -> asset_ok id -> hi <= U128_MAX ->
  Forall (fun c => sp_assetId c = id -> lo <= sp_price c <= hi) es -> last_for id es = Some c ->
  lo <= (run (read_twap id) w').1 <= hi /\ 1 <= (run (read_count id) w').1 <= MAX_TWAP_COUNT.
Proof using All.
  intros Hf Hh Ha Hhi Hall Hl. apply history_inv in Hh as [_ _ S _ T]; [|done].
  destruct (S id Ha) as [B E]. assert (Hs : samples w' id <> 0) by (rewrite E; by rewrite Hl).
  split; [by apply T|]. change (run (read_count id) w').1 with (samples w' id). lia.
Qed.

(** A submission is not stale for ten minutes. *)
Theorem submission_stays_fresh m c w w' now t :
  asset_ok (sp_assetId c) -> call_fits c -> run (submit_price_handler m c) w = (Ok tt, w') ->
  0 <= samples w (sp_assetId c) <= MAX_TWAP_COUNT ->
  now = e_timestamp (w_env w) -> now + 1000 <= U64_MAX -> now <= t <= now + 600 ->
  (run (is_stale (sp_assetId c) t) w').1 = false.
Proof using All.
  intros Ha (_ & F2 & F3) E Hs -> Hn Ht. apply submit_handler_ok in E as (Hp & _ & _ & H1 & H2 & ev & ->).
  rewrite run_submit by done. cbn [snd].
  assert (Hp' : fits U128_MAX (sp_price c)) by (unfold MIN_PRICE, MAX_PRICE, U128_MAX in *; fit).
  destruct (put_price_reads (sp_assetId c) (sp_price c) (sp_timestamp c) (sp_blockNumber c) w Ha Hp' F2 Hs) as (_ & R & _).
  unfold is_stale. rewrite run_bind. change (run (read_timestamp ?i) ?w) with (price_ts w i, w).
  cbv iota beta. cbn [run fst]. change (price_ts (w_upd (put_log ORACLE_ADDRESS ev) ?w) ?i) with (price_ts w i).
  rewrite R. apply Z.ltb_ge. unfold saturating_add, STALE_THRESHOLD_SECS, TS_MAX_AGE, TS_FUTURE_GRACE, wrap_u64 in *.
  assert (0 <= e_timestamp (w_env w) + 60 \/ e_timestamp (w_env w) + 60 < 0) as [Hz|Hz] by lia;
    [rewrite (Z.mod_small (_ + 60)) in H2 by lia; rewrite Z.mod_small in H1 by fit; lia|fit].
Qed.

End Tracked.

(** ** Batch reads *)

Section Batch.
Context `{Keccak, OracleAbi} {S : Type} `{!StorageProvider S}.

(** A batch read of no assets stops the node.  The output of the batch
    reads claims 1500 gas that nobody charges, so a call with an empty list
    and less gas succeeds with more gas used than there was, and the
    assertion of the precompile runner fails. *)
Theorem batch_read_panics calldata m (s : S) gas_limit :
  (4 <= length calldata)%nat -> take 4 calldata = sel_getPrices -> dec_getPrices calldata = Ok [] ->
  sel_getPrices <> sel_getPrice -> sel_getPrices <> sel_getTWAP -> gas_limit < 1500 ->
  exists o, oracle_call calldata m s = Done (Ok o, s) /\ custom_result gas_limit (Ok o) = None.
Proof using Type.
  intros Hl Hsel Hd N1 N2 Hg. unfold oracle_call. destruct (Nat.ltb_spec (length calldata) 4); [lia|]. cbv zeta.
  rewrite Hsel, !bool_decide_eq_false_2, bool_decide_eq_true_2 by done.
  unfold get_prices, batch_view. rewrite Hd. cbn [read_batch run].
  eexists. split; [done|]. unfold custom_result.
  change (out_gas_used _) with 1500. assert (checked_sub gas_limit 1500 = None) as -> by (by apply checked_sub_None). done.
Qed.

End Batch.

(** ** Two assets *)

Module OracleDemo.
Import Demo HashDemo.

#[local] Instance layout : Layout oracle_used.
Proof.
  apply oracle_layout_holds. intros k k' _ _ E. apply hash_inj; [..|done];
    unfold oracle_preimage; [destruct k|destruct k']; cbn [oracle_parts concat]; rewrite ?Forall_app; split_and?;
    first [by constructor | apply b_bytes | apply be_bytes_is_byte].
Qed.

Definition start : world :=
  mkWorld (put_slot VALIDATOR_ADDRESS (slot_validator_by_addr alice) 1 w0) (mkEnv 1000000 false 1 1000 100 0) [].
Definition offer (id p : Z) : submitPriceCall := mkSubmitPrice id p 990 99.
Definition after {A} (p : prog A) (w : world) : world := (run p w).2.

Definition track : prog (res unit) := set_tracked_assets_handler GOVERNANCE_ADDRESS [7; 8].
Definition submit (p : Z) : prog (result (trap precompile_error) unit) := submit_price_handler alice (offer 7 p).
Definition tracked_w : world := after track start.
Definition once_w : world := after (submit 1000) tracked_w.
Definition twice_w : world := after (submit 3001) once_w.

Lemma track_runs : run track start = (Ok tt, tracked_w).
Proof. apply (run_to track). vm_compute. reflexivity. Qed.
Lemma first_runs : run (submit 1000) tracked_w = (Ok tt, once_w).
Proof. apply (run_to (submit 1000)). vm_compute. reflexivity. Qed.
Lemma second_runs : run (submit 3001) once_w = (Ok tt, twice_w).
Proof. apply (run_to (submit 3001)). vm_compute. reflexivity. Qed.

Lemma start_fresh : fresh start.
Proof. intros s. cbn. apply slot_put_ne. discriminate. Qed.

Lemma history : oracle_history start [offer 7 3001; offer 7 1000] twice_w.
Proof.
  apply (oh_submit start [offer 7 1000] once_w alice (offer 7 3001)); [|by repeat split|exact second_runs].
  apply (oh_submit start [] tracked_w alice (offer 7 1000)); [|by repeat split|exact first_runs].
  apply (oh_track start [] start GOVERNANCE_ADDRESS [7; 8]); [constructor|by repeat constructor| |exact track_runs].
  rewrite !elem_of_cons, elem_of_nil. by intros [?|[?|?]].
Qed.

Lemma tracked_flag_matches_list_witness : run (is_asset_tracked 8) twice_w = (true, twice_w).
Proof.
  rewrite (tracked_flag_matches_list start [offer 7 3001; offer 7 1000] twice_w 8 start_fresh history); [|done].
  apply (f_equal (fun r => (r, twice_w))). vm_compute. reflexivity.
Defined.

Lemma price_reads_back_witness : run (get_price_handler 7) twice_w = (Ok 3001, twice_w).
Proof.
  rewrite (price_reads_back start [offer 7 3001; offer 7 1000] twice_w 7 start_fresh history); [|done].
  apply (f_equal (fun r => (r, twice_w))). vm_compute. reflexivity.
Defined.

Lemma twap_within_prices_witness : 1000 <= (run (read_twap 7) twice_w).1 <= 3001.
Proof.
  apply (twap_within_prices start [offer 7 3001; offer 7 1000] twice_w 7 1000 3001 (offer 7 3001) start_fresh history);
    [done|done| |done].
  repeat constructor; done.
Defined.

(** Tracking the asset whose id spells [tracked_] and submitting a price
    for it turns the list of one asset into a list of two. *)
Example submission_changes_tracked_count :
  let w1 := after (set_tracked_assets_handler GOVERNANCE_ADDRESS [TRACKED_ID]) start in
  let w2 := after (submit_price_handler alice (offer TRACKED_ID 5)) w1 in
  tracked w1 = [TRACKED_ID] /\ tracked w2 = [TRACKED_ID; 0].
Proof. vm_compute. done. Qed.

(** Any single validator moves the price as far as it likes. *)
Example one_validator_sets_price :
  run (get_price_handler 7) (after (submit MAX_PRICE) twice_w) = (Ok MAX_PRICE, after (submit MAX_PRICE) twice_w).
Proof. vm_compute. reflexivity. Qed.

#[local] Instance demo_abi : OracleAbi := {|
  dec_getPrice := fun _ => Ok 7;
  dec_getTWAP := fun _ => Ok 7;
  dec_isStale := fun _ => Ok 7;
  dec_submitPrice := fun _ => Err "static"%string;
  dec_setTrackedAssets := fun _ => Err "dynamic"%string;
  dec_getPrices := fun d => Ok (if (length d =? 4)%nat then [] else [7]);
  dec_getTWAPs := fun _ => Ok [7];
  oenc_uint := encode_u128;
  sel_getPrice := [0; 0; 0; 1];
  sel_getTWAP := [0; 0; 0; 2];
  sel_isStale := [0; 0; 0; 3];
  sel_submitPrice := [0; 0; 0; 4];
  sel_setTrackedAssets := [0; 0; 0; 5];
  sel_getPrices := [0; 0; 0; 6];
  sel_getTWAPs := [0; 0; 0; 7]
|}.

Definition s0 (gas : Z) : EvmStorageProvider SimpleJournal := provider (w_cur twice_w) gas false.

Lemma batch_read_panics_witness :
  exists o, oracle_call [0; 0; 0; 6] 0 (s0 1000) = Done (Ok o, s0 1000) /\ custom_result 1000 (Ok o) = None.
Proof. apply (batch_read_panics [0; 0; 0; 6] 0 (s0 1000) 1000); [cbn; lia|done|done|done|done|lia]. Defined.

(** With too little gas for the second read, a batch read reports the price 0
    as a success. *)
Example starved_batch_reads_zero :
  match oracle_call [0; 0; 0; 6; 7] 0 (s0 2600) with
  | Done (Ok o, _) => out_bytes o = encode_array [0] /\ exists r, custom_result 2600 (Ok o) = Some (Ok r)
  | _ => False
  end.
Proof. vm_compute. split; [reflexivity|by eexists]. Qed.

End OracleDemo.
