(* ===== verification/NestedEvm.v ===== *)
(** * NestedEvm: contracts called from precompiles

    Models [crates/precompile/src/evm_caller.rs]: a precompile runs a call of
    a contract in a fresh revm instance that reads the live storage, pays for
    its gas, and writes the changes back.  The execution itself is revm's: it
    is the class [NestedEvm], a program that reads the storage through the
    database adapter, with the law that it does nothing but read. *)

From stdpp Require Import base list strings.
From Stdlib Require Import ZArith Lia.
From S2P Require Import Prelude Provider World EvmProvider Refinement.

Local Open Scope Z_scope.
Local Open Scope callnode_scope.

Definition NESTED_CALL_GAS_LIMIT : Z := 100000.

(** revm's [ExecutionResult], with the gas spent; a reason to halt is its
    debug text. *)
Inductive ExecutionResult : Type :=
| Success (gas_spent : N) (output : list Z)
| Reverted (gas_spent : N) (output : list Z)
| Halt (gas_spent : N) (reason : string).

Definition gas_spent (r : ExecutionResult) : N :=
  match r with Success g _ | Reverted g _ | Halt g _ => g end.

(** revm's [EvmState]: accounts with slots of original and present value. *)
Record StorageSlot : Type := mkSlot { sl_index : Z; original_value : Z; present_value : Z }.

Record Account : Type := mkAccount {
  ac_address : Z;
  is_touched : bool;
  ac_storage : list StorageSlot;
  original_balance : Z;
  info_balance : Z
}.

(** [StorageProviderDb]: the answers of the database adapter. *)
Definition db_basic (address : Z) : prog (res (Z * list Z)) :=
  balance <-? Call (ORawBalanceGet address) Ret;
  code <-? Call (ORawCodeGet address) Ret;
  Ret (Ok (balance, code)).

Definition db_storage (address index : Z) : prog (res Z) := Call (ORawSload address index) Ret.

(** A transaction of the nested EVM: caller, contract, calldata, block number
    and timestamp, at the gas limit above and without value. *)
Class NestedEvm : Type :=
  evm_transact : Z -> Z -> list Z -> Z -> Z -> prog (result string (ExecutionResult * list Account)).

(** It only reads, through the adapter. *)
Inductive reads_db {A} : prog A -> Prop :=
| rdb_ret a : reads_db (Ret a)
| rdb_sload a k c : (forall r, reads_db (c r)) -> reads_db (Call (ORawSload a k) c)
| rdb_balance a c : (forall r, reads_db (c r)) -> reads_db (Call (ORawBalanceGet a) c)
| rdb_code a c : (forall r, reads_db (c r)) -> reads_db (Call (ORawCodeGet a) c).

Class NestedEvmLaws `{NestedEvm} : Prop :=
  evm_transact_reads : forall caller contract data block ts, reads_db (evm_transact caller contract data block ts).

Section Calls.
Context `{NestedEvm}.

Definition execute_evm_call (caller contract : Z) (data : list Z) :
    prog (res (ExecutionResult * list Account)) :=
  block <- block_number;
  ts <- timestamp;
  result <-? prog_map_err (fun e => Other ("evm call: " +:+ e)) (evm_transact caller contract data block ts);
  do? charge_gas (gas_spent result.1);
  Ret (Ok result).

Fixpoint apply_slots (address : Z) (slots : list StorageSlot) : prog (res unit) :=
  match slots with
  | [] => Ret (Ok tt)
  | s :: slots =>
      do? (if negb (present_value s =? original_value s)
           then Call (ORawSstore address (sl_index s) (present_value s)) Ret
           else Ret (Ok tt));
      apply_slots address slots
  end.

Definition apply_balance (a : Account) : prog (res unit) :=
  if original_balance a =? info_balance a then Ret (Ok tt)
  else if original_balance a <? info_balance a
  then balance_add (ac_address a) (info_balance a - original_balance a)
  else balance_sub (ac_address a) (original_balance a - info_balance a).

Fixpoint apply_state_changes (state : list Account) : prog (res unit) :=
  match state with
  | [] => Ret (Ok tt)
  | a :: state =>
      if negb (is_touched a) then apply_state_changes state else
      do? apply_slots (ac_address a) (ac_storage a);
      do? apply_balance a;
      apply_state_changes state
  end.

End Calls.

(** ** On the abstract storage *)

Lemma run_reads_db {A} (p : prog A) (w : world) : reads_db p -> (run p w).2 = w.
Proof. induction 1 as [a|a k c _ IH|a c _ IH|a c _ IH]; cbn [run]; [done|apply IH..]. Qed.

Lemma reads_db_benign {E A} wr (p : prog (result E A)) : reads_db p -> guarded wr p.
Proof. induction 1; constructor; auto. Qed.

Section Spec.
Context `{HN : NestedEvm} `{!NestedEvmLaws}.
Implicit Types (w : world).

(** The outcome of a transaction on a storage. *)
Definition transacts (caller contract : Z) (data : list Z) w : result string (ExecutionResult * list Account) :=
  (run (evm_transact caller contract data (e_block_number (w_env w)) (e_timestamp (w_env w))) w).1.

Lemma run_execute_evm_call caller contract data w :
  run (execute_evm_call caller contract data) w =
    (map_err (fun e => Other ("evm call: " +:+ e)) (transacts caller contract data w), w).
Proof using All.
  unfold execute_evm_call, transacts. rewrite run_bind. change (run block_number w) with (e_block_number (w_env w), w).
  cbv iota beta. rewrite run_bind. change (run timestamp w) with (e_timestamp (w_env w), w). cbv iota beta.
  rewrite run_try, run_map_err.
  pose proof (run_reads_db _ w (evm_transact_reads caller contract data (e_block_number (w_env w)) (e_timestamp (w_env w)))) as E.
  destruct (run (evm_transact _ _ _ _ _) w) as [[r|e] w1]; cbn [map_err fst snd] in *; subst w1; done.
Qed.

Lemma guarded_execute_evm_call wr caller contract data : guarded wr (execute_evm_call caller contract data).
Proof using All.
  unfold execute_evm_call. apply guarded_benign_bind; [apply benign_block_number|intros b].
  apply guarded_benign_bind; [apply benign_timestamp|intros ts]. apply guarded_try; [|intros r].
  - apply guarded_map_err, reads_db_benign, evm_transact_reads.
  - apply guarded_try; [apply guarded_charge|constructor].
Qed.

Lemma guarded_apply_slots a slots : guarded true (apply_slots a slots).
Proof using Type.
  induction slots as [|s slots IH]; cbn [apply_slots]; [constructor|]. apply guarded_try; [|intros _; apply IH].
  destruct (negb _); [constructor; [done|constructor]|constructor].
Qed.

Lemma guarded_apply_balance a : guarded true (apply_balance a).
Proof using Type.
  unfold apply_balance. destruct (_ =? _); [constructor|].
  destruct (_ <? _); [apply guarded_balance_add|apply guarded_balance_sub].
Qed.

Lemma guarded_apply_state state : guarded true (apply_state_changes state).
Proof using Type.
  induction state as [|a state IH]; cbn [apply_state_changes]; [constructor|]. destruct (negb _); [done|].
  apply guarded_try; [apply guarded_apply_slots|intros _]. apply guarded_try; [apply guarded_apply_balance|intros _]. done.
Qed.

End Spec.

(** ** Applying a state *)

Section Apply.
Implicit Types (w : world).

Definition state_slot (state : list Account) (a s : Z) : Prop :=
  exists acc sl, acc ∈ state /\ is_touched acc = true /\ ac_address acc = a /\ sl ∈ ac_storage acc /\
    sl_index sl = s /\ present_value sl <> original_value sl.

Lemma writes_apply_slots P a slots :
  (forall sl, sl ∈ slots -> present_value sl <> original_value sl -> P a (sl_index sl)) -> writes P (apply_slots a slots).
Proof.
  induction slots as [|s slots IH]; intros HP; cbn [apply_slots]; [constructor|]. apply writes_try.
  - destruct (Z.eqb_spec (present_value s) (original_value s)) as [|Hne]; cbn [negb]; [constructor|].
    constructor; [|constructor]. cbn. apply HP; [constructor|done].
  - intros _. apply IH. intros sl Hsl. apply HP. by constructor.
Qed.

(** Only the slots the state changes are written. *)
Lemma writes_apply_state state : writes (state_slot state) (apply_state_changes state).
Proof.
  assert (G : forall l, (forall x, x ∈ l -> x ∈ state) -> writes (state_slot state) (apply_state_changes l)).
  { induction l as [|acc l IH]; intros Hl; cbn [apply_state_changes]; [constructor|].
    destruct (is_touched acc) eqn:Et; cbn [negb]; [|apply IH; intros; apply Hl; by constructor].
    apply writes_try; [|intros _; apply writes_try; [|intros _; apply IH; intros; apply Hl; by constructor]].
    - apply writes_apply_slots. intros sl Hsl Hne. exists acc, sl. split; [apply Hl; constructor|]. by split_and!.
    - unfold apply_balance. destruct (_ =? _); [constructor|]. destruct (_ <? _); constructor; done || constructor. }
  by apply G.
Qed.

End Apply.
