(* ===== verification/Switch.v ===== *)
(** * Switch: moving assets between the protocol and the EVM

    Models [crates/switch/src/precompile.rs] at 0x207: protocol balances
    against native balances for CALL, and against ERC-20 contracts for other
    assets, by escrow or, for assets the protocol dominates, by minting and
    burning.  The contracts run in [NestedEvm].  The generated ABI codecs are
    the class [SwitchAbi]; the text of an error of the provider is the class
    [ErrorDisplay]. *)

From stdpp Require Import base gmap list strings.
From Stdlib Require Import ZArith Lia.
From S2P Require Import Prelude Provider World EvmProvider Refinement Dispatch Utils.
From S2P Require Import Asset Rlp NestedEvm.

Local Open Scope Z_scope.
Local Open Scope callnode_scope.

Class ErrorDisplay : Type := error_display : precompile_error -> string.

Definition SELECTOR_TRANSFER : list Z := [0xa9; 0x05; 0x9c; 0xbb].
Definition SELECTOR_TRANSFER_FROM : list Z := [0x23; 0xb8; 0x72; 0xdd].
Definition SELECTOR_BRIDGE_MINT : list Z := [0x8c; 0x2a; 0x99; 0x3e].
Definition SELECTOR_BRIDGE_BURN : list Z := [0x74; 0xf4; 0xf5; 0x47].

Inductive SwitchError : Type :=
| AssetNotActive
| AssetHasNoErc20Bridge
| EvmContractNotRegistered
| InsufficientProtocolBalance
| InsufficientEvmBalance
| ProtocolBalanceOverflow
| ProtocolBalanceUnderflow
| AmountMustBePositive
| ToCannotBeZero.

Definition switch_error_to_string (e : SwitchError) : string :=
  match e with
  | AssetNotActive => "asset not active"
  | AssetHasNoErc20Bridge => "asset has no ERC-20 bridge; use protocol-only operations"
  | EvmContractNotRegistered => "EVM contract not registered for asset"
  | InsufficientProtocolBalance => "insufficient protocol balance"
  | InsufficientEvmBalance => "insufficient EVM balance"
  | ProtocolBalanceOverflow => "protocol balance overflow"
  | ProtocolBalanceUnderflow => "protocol balance underflow"
  | AmountMustBePositive => "amount must be > 0"
  | ToCannotBeZero => "to cannot be zero address"
  end.

Definition sres (A : Type) : Type := result SwitchError A.

(** [From<SwitchError> for PrecompileError]. *)
Definition switching {A} (p : prog (sres A)) : prog (res A) :=
  prog_map_err (fun e => Other (switch_error_to_string e)) p.

(** ** [SwitchStorage] *)

Section Storage.
Context `{Keccak}.

Definition load_protocol_bal (asset_id addr : Z) : prog (sres Z) :=
  raw <- load ASSET_ADDRESS (slot_balance asset_id addr);
  Ret (if U128_MAX <? raw then Err ProtocolBalanceOverflow else Ok (u256_to_u128 raw)).

Definition save_protocol_bal (asset_id addr amount : Z) : prog unit :=
  store ASSET_ADDRESS (slot_balance asset_id addr) (u128_to_u256 amount).

Definition add_protocol_bal (asset_id addr amount : Z) : prog (sres unit) :=
  cur <-? load_protocol_bal asset_id addr;
  bal <-? Ret (ok_or ProtocolBalanceOverflow (checked_add U128_MAX cur amount));
  do save_protocol_bal asset_id addr bal;
  Ret (Ok tt).

Definition sub_protocol_bal (asset_id addr amount : Z) : prog (sres unit) :=
  cur <-? load_protocol_bal asset_id addr;
  bal <-? Ret (ok_or InsufficientProtocolBalance (checked_sub cur amount));
  do save_protocol_bal asset_id addr bal;
  Ret (Ok tt).

Definition read_evm_contract (asset_id : Z) : prog (sres Z) :=
  v <- load ASSET_ADDRESS (slot_evm_contract asset_id);
  let addr := u256_to_address v in
  Ret (if addr =? 0 then Err EvmContractNotRegistered else Ok addr).

(** A byte of the metadata of an asset. *)
Definition meta_byte (asset_id : Z) (key : string) : prog Z :=
  v <- load ASSET_ADDRESS (slot_asset_meta asset_id (b_ key)); Ret (u256_to_u8 v).

Definition check_asset_active (asset_id : Z) : prog (sres unit) :=
  status <- meta_byte asset_id "status";
  Ret (if negb (status =? 0) then Err AssetNotActive else Ok tt).

Definition check_has_erc20 (asset_id : Z) : prog (sres unit) :=
  if asset_id =? CALL_ASSET_ID then Ret (Ok tt) else
  has_erc20 <- meta_byte asset_id "has_erc20";
  Ret (if negb (has_erc20 =? 1) then Err AssetHasNoErc20Bridge else Ok tt).

Definition switch_dominance (asset_id : Z) : prog Z :=
  if asset_id =? CALL_ASSET_ID then Ret 0 else meta_byte asset_id "dominance".

End Storage.

(** ** Calldata of the ERC-20 contracts *)

Definition abi_address (a : Z) : list Z := replicate 12 0 ++ addr_bytes a.

Definition encode_transfer (to amount : Z) : list Z :=
  SELECTOR_TRANSFER ++ abi_address to ++ be_bytes 32 amount.
Definition encode_transfer_from (from to amount : Z) : list Z :=
  SELECTOR_TRANSFER_FROM ++ abi_address from ++ abi_address to ++ be_bytes 32 amount.
Definition encode_bridge_mint (to amount : Z) : list Z :=
  SELECTOR_BRIDGE_MINT ++ abi_address to ++ be_bytes 32 amount.
Definition encode_bridge_burn (from amount : Z) : list Z :=
  SELECTOR_BRIDGE_BURN ++ abi_address from ++ be_bytes 32 amount.

Definition decode_abi_bool (output : list Z) : bool :=
  (32 <=? length output)%nat && (default 0 (output !! 31%nat) =? 1).

(** ** The precompile *)

Record switchCall : Type := mkSwitch { sw_assetId : Z; sw_to : Z; sw_amount : Z }.

(** The codecs and selectors the [sol!] macro generates. *)
Class SwitchAbi : Type := {
  dec_switchToEvm : list Z -> result string switchCall;
  dec_switchToProtocol : list Z -> result string switchCall;
  dec_getEvmContract : list Z -> result string Z;
  dec_canSwitch : list Z -> result string Z;
  dec_getDominance : list Z -> result string Z;
  senc_address : Z -> list Z;
  senc_bool : bool -> list Z;
  senc_uint : Z -> list Z;
  sel_switchToEvm : list Z;
  sel_switchToProtocol : list Z;
  sel_getEvmContract : list Z;
  sel_canSwitch : list Z;
  sel_getDominance : list Z
}.

Section Precompile.
Context `{Keccak, NestedEvm, ErrorDisplay, SwitchAbi} {S : Type} `{!StorageProvider S}.

Definition SWITCHED_TO_EVM_TOPIC : Z := keccak256 (b_ "SwitchedToEvm(uint64,address,address,uint128)").
Definition SWITCHED_TO_PROTOCOL_TOPIC : Z := keccak256 (b_ "SwitchedToProtocol(uint64,address,address,uint128)").

Definition emit_switch_event (topic0 asset_id from to amount : Z) : prog (res unit) :=
  emit_event SWITCH_ADDRESS
    (mkLog [topic0; u64_to_u256 asset_id; address_to_u256 from; address_to_u256 to] (encode_u128 amount)).

Definition swerr {A} (msg : string) : prog (res A) := Ret (Err (Other msg)).

(** The call of the ERC-20 contract of an asset, the same in both directions:
    [minting] and [escrow] are the calldata for an asset that the protocol
    dominates and for one it does not. *)
Definition call_erc20 (asset_id : Z) (minting escrow : list Z) : prog (res unit) :=
  contract <-? switching (read_evm_contract asset_id);
  code <-? code_get contract;
  if bool_decide (code = []) then swerr "no code at ERC-20 contract" else
  dominance <- switch_dominance asset_id;
  let data := if dominance =? 1 then minting else escrow in
  executed <-? execute_evm_call SWITCH_ADDRESS contract data;
  let (result, state) := (executed : ExecutionResult * list Account) in
  match result with
  | Success _ output =>
      if negb (dominance =? 1) && negb (decode_abi_bool output)
      then swerr "ERC-20 call returned false"
      else apply_state_changes state
  | Reverted _ output => swerr ("ERC-20 reverted: " +:+ foldr (fun b s => hex_byte b +:+ s) "" output)
  | Halt _ reason => swerr ("ERC-20 halted: " +:+ reason)
  end.

(** The checks both directions start with. *)
Definition switch_checks (msg_sender : Z) (call : switchCall) : prog (res Z) :=
  caller <-? Ret (require_caller msg_sender);
  do? check_compliance caller;
  do? check_compliance (sw_to call);
  if sw_amount call =? 0 then swerr "amount must be > 0" else
  if sw_to call =? 0 then swerr "to cannot be zero address" else
  do? switching (check_asset_active (sw_assetId call));
  do? switching (check_has_erc20 (sw_assetId call));
  Ret (Ok caller).

Definition switch_to_evm_handler (msg_sender : Z) (call : switchCall) : prog (res unit) :=
  caller <-? switch_checks msg_sender call;
  do? switching (sub_protocol_bal (sw_assetId call) caller (sw_amount call));
  do? (if sw_assetId call =? CALL_ASSET_ID
       then prog_map_err (fun e => Other ("native balance add: " +:+ error_display e))
              (balance_add (sw_to call) (sw_amount call))
       else call_erc20 (sw_assetId call) (encode_bridge_mint (sw_to call) (sw_amount call))
              (encode_transfer (sw_to call) (sw_amount call)));
  do? emit_switch_event SWITCHED_TO_EVM_TOPIC (sw_assetId call) caller (sw_to call) (sw_amount call);
  Ret (Ok tt).

Definition switch_to_protocol_handler (msg_sender : Z) (call : switchCall) : prog (res unit) :=
  caller <-? switch_checks msg_sender call;
  do? (if sw_assetId call =? CALL_ASSET_ID
       then prog_map_err (fun e => Other ("native balance sub: " +:+ error_display e))
              (balance_sub caller (sw_amount call))
       else call_erc20 (sw_assetId call) (encode_bridge_burn caller (sw_amount call))
              (encode_transfer_from caller SWITCH_ADDRESS (sw_amount call)));
  do? switching (add_protocol_bal (sw_assetId call) (sw_to call) (sw_amount call));
  do? emit_switch_event SWITCHED_TO_PROTOCOL_TOPIC (sw_assetId call) caller (sw_to call) (sw_amount call);
  Ret (Ok tt).

Definition get_evm_contract_handler (asset_id : Z) : prog (res Z) :=
  r <- read_evm_contract asset_id;
  Ret (match r with
       | Ok addr => Ok addr
       | Err EvmContractNotRegistered => Ok 0
       | Err e => Err (Other (switch_error_to_string e))
       end).

Definition can_switch_handler (asset_id : Z) : prog (res bool) :=
  active <- check_asset_active asset_id;
  if negb (is_ok active) then Ret (Ok false) else
  bridged <- check_has_erc20 asset_id;
  Ret (Ok (is_ok bridged)).

Definition get_dominance_handler (asset_id : Z) : prog (res Z) :=
  d <- switch_dominance asset_id; Ret (Ok d).

Definition precompile_switch_to_evm (calldata : list Z) (msg_sender : Z) (s : S) :=
  mutate_void dec_switchToEvm calldata 20000 (switch_to_evm_handler msg_sender) s.
Definition precompile_switch_to_protocol (calldata : list Z) (msg_sender : Z) (s : S) :=
  mutate_void dec_switchToProtocol calldata 20000 (switch_to_protocol_handler msg_sender) s.
Definition precompile_get_evm_contract (calldata : list Z) (s : S) :=
  view dec_getEvmContract senc_address calldata 800 get_evm_contract_handler s.
Definition precompile_can_switch (calldata : list Z) (s : S) :=
  view dec_canSwitch senc_bool calldata 800 can_switch_handler s.
Definition precompile_get_dominance (calldata : list Z) (s : S) :=
  view dec_getDominance senc_uint calldata 600 get_dominance_handler s.

(** [StatefulPrecompile::call]: dispatch on the selector. *)
Definition switch_call (calldata : list Z) (msg_sender : Z) (s : S) : res PrecompileOutput * S :=
  if (length calldata <? 4)%nat then (Err (Other "invalid input"), s) else
  let selector := take 4 calldata in
  if bool_decide (selector = sel_switchToEvm) then precompile_switch_to_evm calldata msg_sender s
  else if bool_decide (selector = sel_switchToProtocol)
  then precompile_switch_to_protocol calldata msg_sender s
  else if bool_decide (selector = sel_getEvmContract) then precompile_get_evm_contract calldata s
  else if bool_decide (selector = sel_canSwitch) then precompile_can_switch calldata s
  else if bool_decide (selector = sel_getDominance) then precompile_get_dominance calldata s
  else (Err (Other "unknown selector"), s).

End Precompile.
