(* ===== verification/SwitchSpec.v ===== *)
(** * SwitchSpec: what a switch does

    The effect of the two directions of [Switch] on protocol balances, native
    balances and the tokens of ERC-20 contracts: switches create and destroy
    nothing, escrowed assets stay backed, CALL comes back unchanged from a
    round trip, and the precompile implements its handlers on the production
    provider.  What is assumed of an ERC-20 contract is the record [erc20]. *)

From stdpp Require Import base gmap list strings.
From Stdlib Require Import ZArith Lia.
From S2P Require Import Prelude Provider World EvmProvider Refinement Dispatch Utils.
From S2P Require Import Asset AssetSpec AssetPrecompile AssetPrecompileSpec Keyed Rlp Trap.
From S2P Require Import CallSpec NestedEvm Switch.

Local Open Scope Z_scope.
Local Open Scope callnode_scope.

Section Effects.
Context `{Keccak, HN : NestedEvm, !NestedEvmLaws, ErrorDisplay}.
Implicit Types (w : world).

Definition nat_bal w (a : Z) : Z := native (w_cur w) a.
Definition put_nat (a v : Z) w : world := w_upd (put_native a v) w.

Definition meta8 w (id : Z) (key : string) : Z := u256_to_u8 (meta_word w id key).
Definition contract_of w (id : Z) : Z := u256_to_address (wslot w ASSET_ADDRESS (slot_evm_contract id)).
Definition restricted w (a : Z) : bool := negb (u256_to_u8 (wslot w COMPLIANCE_ADDRESS (slot_compliance a)) =? 0).

Lemma run_restricted a w :
  run (check_compliance a) w = (if restricted w a then Err (Other "compliance check failed") else Ok tt, w).
Proof using Type.
  unfold check_compliance, restricted. rewrite run_bind, w_run_sload. cbn [run unwrap_or].
  by destruct (u256_to_u8 _ =? 0).
Qed.

(** The conditions of both directions. *)
Definition switchable w (m : Z) (c : switchCall) : bool :=
  negb (m =? 0) && negb (restricted w m) && negb (restricted w (sw_to c)) && negb (sw_amount c =? 0) &&
  negb (sw_to c =? 0) && (meta8 w (sw_assetId c) "status" =? 0) &&
  ((sw_assetId c =? CALL_ASSET_ID) || (meta8 w (sw_assetId c) "has_erc20" =? 1)).

Lemma run_switch_checks m c w :
  exists r, run (switch_checks m c) w = (r, w) /\ (r = Ok m <-> switchable w m c = true) /\
    (forall a, r = Ok a -> a = m).
Proof using Type.
  unfold switch_checks, switchable, require_caller. rewrite run_try. destruct (m =? 0); cbn [run negb andb]; [by eexists|].
  rewrite run_try, run_restricted. destruct (restricted w m); cbn [negb andb]; [by eexists|].
  rewrite run_try, run_restricted. destruct (restricted w (sw_to c)); cbn [negb andb]; [by eexists|].
  destruct (sw_amount c =? 0); cbn [negb andb]; [by eexists|]. destruct (sw_to c =? 0); cbn [negb andb]; [by eexists|].
  rewrite run_try. unfold switching at 1. rewrite run_map_err. unfold check_asset_active, meta_byte. rewrite !run_bind, w_run_load.
  cbv iota beta. cbn [run]. fold (meta_slot (sw_assetId c) "status"). fold (meta_word w (sw_assetId c) "status").
  fold (meta8 w (sw_assetId c) "status"). destruct (meta8 w (sw_assetId c) "status" =? 0); cbn [negb map_err fst snd andb]; [|by eexists].
  rewrite run_try. unfold switching at 1. rewrite run_map_err. unfold check_has_erc20, meta_byte.
  destruct (sw_assetId c =? CALL_ASSET_ID); cbn [orb run map_err fst snd]; [eexists; split; [done|]; split; [done|congruence]|].
  rewrite !run_bind, w_run_load. cbv iota beta. cbn [run].
  fold (meta_slot (sw_assetId c) "has_erc20"). fold (meta_word w (sw_assetId c) "has_erc20").
  fold (meta8 w (sw_assetId c) "has_erc20").
  destruct (meta8 w (sw_assetId c) "has_erc20" =? 1); cbn [negb map_err fst snd]; [eexists; split; [done|]; split; [done|congruence]|by eexists].
Qed.

Lemma sub_protocol_ok id a v w :
  0 <= bal w id a -> 0 <= v ->
  run (switching (sub_protocol_bal id a v)) w =
    if U128_MAX <? bal w id a then (Err (Other "protocol balance overflow"), w)
    else if bal w id a <? v then (Err (Other "insufficient protocol balance"), w)
    else (Ok tt, put (slot_balance id a) (bal w id a - v) w).
Proof using Type.
  intros Hb Hv. unfold switching. rewrite run_map_err. unfold sub_protocol_bal, load_protocol_bal.
  rewrite run_try, run_bind, w_run_load. cbv iota beta. cbn [run]. fold (bal w id a).
  destruct (Z.ltb_spec U128_MAX (bal w id a)); [done|]. rewrite (u256_to_u128_id (bal w id a)) by fit.
  rewrite run_try. unfold checked_sub. destruct (Z.leb_spec v (bal w id a)), (Z.ltb_spec (bal w id a) v); try lia; cbn [ok_or run]; [|done].
  rewrite run_bind. unfold save_protocol_bal. rewrite w_run_store. cbv iota beta. cbn [run map_err fst snd].
  by rewrite (u128_to_u256_id (bal w id a - v)) by fit.
Qed.

Lemma add_protocol_ok id a v w :
  0 <= bal w id a -> 0 <= v ->
  run (switching (add_protocol_bal id a v)) w =
    if U128_MAX <? bal w id a + v then (Err (Other "protocol balance overflow"), w)
    else (Ok tt, put (slot_balance id a) (bal w id a + v) w).
Proof using Type.
  intros Hb Hv. unfold switching. rewrite run_map_err. unfold add_protocol_bal, load_protocol_bal.
  rewrite run_try, run_bind, w_run_load. cbv iota beta. cbn [run]. fold (bal w id a).
  destruct (Z.ltb_spec U128_MAX (bal w id a)), (Z.ltb_spec U128_MAX (bal w id a + v)); try lia; try done;
    rewrite (u256_to_u128_id (bal w id a)) by fit; rewrite run_try; unfold checked_add;
    destruct (Z.leb_spec (bal w id a + v) U128_MAX); try lia; cbn [ok_or run]; [done|].
  rewrite run_bind. unfold save_protocol_bal. rewrite w_run_store. cbv iota beta. cbn [run map_err fst snd].
  by rewrite (u128_to_u256_id (bal w id a + v)) by fit.
Qed.

Lemma run_balance_add a v w :
  run (balance_add a v) w =
    match checked_add U256_MAX (nat_bal w a) v with
    | Some b => (Ok tt, put_nat a b w)
    | None => (Err (Other "balance overflow"), w)
    end.
Proof using Type.
  unfold balance_add. cbn [run]. unfold sp_exec. cbn [World_provider w_exec]. unfold nat_bal, put_nat.
  by destruct (checked_add U256_MAX (native (w_cur w) a) v).
Qed.

Lemma run_balance_sub a v w :
  run (balance_sub a v) w =
    match checked_sub (nat_bal w a) v with
    | Some b => (Ok tt, put_nat a b w)
    | None => (Err (Other "insufficient native balance"), w)
    end.
Proof using Type.
  unfold balance_sub. cbn [run]. unfold sp_exec. cbn [World_provider w_exec]. unfold nat_bal, put_nat.
  by destruct (checked_sub (native (w_cur w) a) v).
Qed.

Lemma nat_put a v w b : nat_bal (put_nat a v w) b = if decide (a = b) then v else nat_bal w b.
Proof using Type.
  unfold nat_bal, put_nat, native. cbn. case_decide as E; [subst; by rewrite lookup_insert_eq|by rewrite lookup_insert_ne].
Qed.

Lemma nat_put_slot k v w a : nat_bal (put k v w) a = nat_bal w a.
Proof using Type. done. Qed.
Lemma bal_put_nat a v w id b : bal (put_nat a v w) id b = bal w id b.
Proof using Type. done. Qed.

(** ** The contract of an asset *)

(** The call of the contract: the storage after it. *)
Definition token_call w (id : Z) (data : list Z) (void : bool) w' : Prop :=
  exists g out st, transacts SWITCH_ADDRESS (contract_of w id) data w = Ok (Success g out, st) /\
    (void = true \/ decode_abi_bool out = true) /\ run (apply_state_changes st) w = (Ok tt, w').

Lemma call_erc20_ok id minting escrow w w' :
  id <> CALL_ASSET_ID -> run (call_erc20 id minting escrow) w = (Ok tt, w') ->
  token_call w id (if meta8 w id "dominance" =? 1 then minting else escrow) (meta8 w id "dominance" =? 1) w'.
Proof using All.
  intros Hid. unfold call_erc20, switching. rewrite run_try, run_map_err. unfold read_evm_contract.
  rewrite run_bind, w_run_load. cbv iota beta zeta. cbn [run fst snd]. fold (contract_of w id).
  destruct (contract_of w id =? 0); cbn [map_err]; [done|]. rewrite run_try. change (run (code_get ?a) w) with (Ok (code_of (w_cur w) a) : res (list Z), w).
  cbv iota beta. case_bool_decide; [done|]. rewrite run_bind. unfold switch_dominance, meta_byte.
  destruct (Z.eqb_spec id CALL_ASSET_ID) as [|_]; [done|]. rewrite run_bind, w_run_load. cbv iota beta. cbn [run].
  fold (meta_slot id "dominance"). fold (meta_word w id "dominance"). fold (meta8 w id "dominance"). cbv zeta.
  rewrite run_try, run_execute_evm_call.
  destruct (transacts _ _ _ w) as [[[g out|g out|g reason] st]|e] eqn:Et; cbn [map_err]; try done.
  destruct (negb (meta8 w id "dominance" =? 1) && negb (decode_abi_bool out)) eqn:Eb; [done|]. intros Ea.
  exists g, out, st. split; [done|]. split; [|done].
  destruct (meta8 w id "dominance" =? 1); [by left|right]. by destruct (decode_abi_bool out).
Qed.

(** ** Successful switches *)

Definition with_log ev w : world := w_upd (put_log SWITCH_ADDRESS ev) w.

Lemma to_evm_ok m c w w' :
  0 <= bal w (sw_assetId c) m -> 0 <= sw_amount c ->
  run (switch_to_evm_handler m c) w = (Ok tt, w') ->
  switchable w m c = true /\ sw_amount c <= bal w (sw_assetId c) m <= U128_MAX /\
  exists w2 ev, w' = with_log ev w2 /\
    let w1 := put (slot_balance (sw_assetId c) m) (bal w (sw_assetId c) m - sw_amount c) w in
    if sw_assetId c =? CALL_ASSET_ID
    then nat_bal w (sw_to c) + sw_amount c <= U256_MAX /\ w2 = put_nat (sw_to c) (nat_bal w (sw_to c) + sw_amount c) w1
    else run (call_erc20 (sw_assetId c) (encode_bridge_mint (sw_to c) (sw_amount c))
                (encode_transfer (sw_to c) (sw_amount c))) w1 = (Ok tt, w2).
Proof using Type.
  intros Hb Hv. unfold switch_to_evm_handler. rewrite run_try.
  destruct (run_switch_checks m c w) as (r & -> & Hr & Ha). destruct r as [a|e]; [|done].
  rewrite (Ha a) in * by done. rewrite run_try, sub_protocol_ok by done.
  destruct (Z.ltb_spec U128_MAX (bal w (sw_assetId c) m)); [done|].
  destruct (Z.ltb_spec (bal w (sw_assetId c) m) (sw_amount c)); [done|].
  set (w1 := put _ _ w). intros E. split; [by apply Hr|]. split; [lia|]. cbv zeta. revert E.
  destruct (sw_assetId c =? CALL_ASSET_ID); rewrite run_try.
  - rewrite run_map_err, run_balance_add. change (nat_bal w1 (sw_to c)) with (nat_bal w (sw_to c)).
    destruct (checked_add U256_MAX (nat_bal w (sw_to c)) (sw_amount c)) as [b|] eqn:Eb; [|done].
    apply checked_add_Some in Eb as [-> Hle]. cbn [map_err fst snd].
    rewrite run_try. unfold emit_switch_event. rewrite w_run_emit. cbn [run]. intros [= <-]. by do 2 eexists.
  - destruct (run (call_erc20 _ _ _) w1) as [[[]|e] w2]; [|done].
    rewrite run_try. unfold emit_switch_event. rewrite w_run_emit. cbn [run]. intros [= <-]. by do 2 eexists.
Qed.

Lemma to_protocol_ok m c w w' :
  0 <= bal w (sw_assetId c) (sw_to c) ->
  (forall w1, sw_assetId c <> CALL_ASSET_ID -> run (call_erc20 (sw_assetId c) (encode_bridge_burn m (sw_amount c))
      (encode_transfer_from m SWITCH_ADDRESS (sw_amount c))) w = (Ok tt, w1) -> 0 <= bal w1 (sw_assetId c) (sw_to c)) ->
  0 <= sw_amount c -> run (switch_to_protocol_handler m c) w = (Ok tt, w') ->
  switchable w m c = true /\
  exists w1 ev, bal w1 (sw_assetId c) (sw_to c) + sw_amount c <= U128_MAX /\
    w' = with_log ev (put (slot_balance (sw_assetId c) (sw_to c)) (bal w1 (sw_assetId c) (sw_to c) + sw_amount c) w1) /\
    if sw_assetId c =? CALL_ASSET_ID
    then sw_amount c <= nat_bal w m /\ w1 = put_nat m (nat_bal w m - sw_amount c) w
    else run (call_erc20 (sw_assetId c) (encode_bridge_burn m (sw_amount c))
                (encode_transfer_from m SWITCH_ADDRESS (sw_amount c))) w = (Ok tt, w1).
Proof using Type.
  intros Hb Hb1 Hv. unfold switch_to_protocol_handler. rewrite run_try.
  destruct (run_switch_checks m c w) as (r & -> & Hr & Ha). destruct r as [a|e]; [|done].
  rewrite (Ha a) in * by done. intros E. split; [by apply Hr|]. revert E.
  destruct (Z.eqb_spec (sw_assetId c) CALL_ASSET_ID); rewrite run_try.
  - rewrite run_map_err, run_balance_sub.
    destruct (checked_sub (nat_bal w m) (sw_amount c)) as [b|] eqn:Eb; [|done].
    apply checked_sub_Some in Eb as [-> Hle]. cbn [map_err fst snd]. rewrite run_try, add_protocol_ok by done.
    destruct (Z.ltb_spec U128_MAX (bal (put_nat m (nat_bal w m - sw_amount c) w) (sw_assetId c) (sw_to c) + sw_amount c)); [done|].
    rewrite run_try. unfold emit_switch_event. rewrite w_run_emit. cbn [run]. intros [= <-]. by do 2 eexists.
  - destruct (run (call_erc20 _ _ _) w) as [[[]|e] w1]; [|done]. rewrite run_try, add_protocol_ok by auto.
    destruct (Z.ltb_spec U128_MAX (bal w1 (sw_assetId c) (sw_to c) + sw_amount c)); [done|].
    rewrite run_try. unfold emit_switch_event. rewrite w_run_emit. cbn [run]. intros [= <-]. by do 2 eexists.
Qed.

(** ** Tokens *)

Definition is_addr (a : Z) : Prop := 0 <= a < 2 ^ 160.
Definition is_u128 (v : Z) : Prop := 0 <= v <= U128_MAX.
Definition call_fits (m : Z) (c : switchCall) : Prop := is_addr m /\ is_addr (sw_to c) /\ is_u128 (sw_amount c).

(** [v] for one account. *)
Definition at_ (x v a : Z) : Z := if decide (a = x) then v else 0.

(** What an ERC-20 contract promises: balances are a function of its own
    storage, a call writes no other storage, a transfer that returns true
    moves the amount, and minting and burning change one balance by it. *)
Record erc20 (contract : Z) (tok : wstate -> Z -> Z) : Prop := {
  tok_own : forall m m' a, (forall s, slot m contract s = slot m' contract s) -> tok m a = tok m' a;
  tok_contained : forall data w g out st a s,
    transacts SWITCH_ADDRESS contract data w = Ok (Success g out, st) -> state_slot st a s -> a = contract;
  tok_transfer : forall w to amt g out st w',
    is_addr to -> is_u128 amt ->
    transacts SWITCH_ADDRESS contract (encode_transfer to amt) w = Ok (Success g out, st) ->
    decode_abi_bool out = true -> run (apply_state_changes st) w = (Ok tt, w') ->
    forall a, is_addr a -> tok (w_cur w') a = tok (w_cur w) a - at_ SWITCH_ADDRESS amt a + at_ to amt a;
  tok_transfer_from : forall w from to amt g out st w',
    is_addr from -> is_addr to -> is_u128 amt ->
    transacts SWITCH_ADDRESS contract (encode_transfer_from from to amt) w = Ok (Success g out, st) ->
    decode_abi_bool out = true -> run (apply_state_changes st) w = (Ok tt, w') ->
    forall a, is_addr a -> tok (w_cur w') a = tok (w_cur w) a - at_ from amt a + at_ to amt a;
  tok_mint : forall w to amt g out st w',
    is_addr to -> is_u128 amt ->
    transacts SWITCH_ADDRESS contract (encode_bridge_mint to amt) w = Ok (Success g out, st) ->
    run (apply_state_changes st) w = (Ok tt, w') ->
    forall a, is_addr a -> tok (w_cur w') a = tok (w_cur w) a + at_ to amt a;
  tok_burn : forall w from amt g out st w',
    is_addr from -> is_u128 amt ->
    transacts SWITCH_ADDRESS contract (encode_bridge_burn from amt) w = Ok (Success g out, st) ->
    run (apply_state_changes st) w = (Ok tt, w') ->
    forall a, is_addr a -> tok (w_cur w') a = tok (w_cur w) a - at_ from amt a
}.

(** An asset with its contract, and the accounts that hold it. *)
Record switch_setup (id contract : Z) (tok : wstate -> Z -> Z) (parties : list Z) : Prop := {
  su_token : erc20 contract tok;
  su_elsewhere : contract <> ASSET_ADDRESS;
  su_nodup : NoDup parties;
  su_addr : forall a, a ∈ parties -> is_addr a /\ a <> SWITCH_ADDRESS;
  su_inj : forall a b, a ∈ parties -> b ∈ parties -> slot_balance id a = slot_balance id b -> a = b;
  su_contract_ne : forall a, a ∈ parties -> slot_balance id a <> slot_evm_contract id;
  su_dominance_ne : forall a, a ∈ parties -> slot_balance id a <> meta_slot id "dominance"
}.

(** The EVM side of an asset: the native balance of CALL, the tokens of its
    contract otherwise. *)
Definition evm_side (id : Z) (tok : wstate -> Z -> Z) w (a : Z) : Z :=
  if id =? CALL_ASSET_ID then nat_bal w a else tok (w_cur w) a.

Definition dominated w (id : Z) : bool := meta8 w id "dominance" =? 1.

(** The configuration of an asset that a switch reads. *)
Definition same_setup (id : Z) w w' : Prop :=
  contract_of w' id = contract_of w id /\ dominated w' id = dominated w id.

(** What is held of an asset by the parties, on both sides. *)
Definition held (id : Z) (tok : wstate -> Z -> Z) (parties : list Z) w : Z :=
  sum_of (bal w id) parties + sum_of (evm_side id tok w) parties.

Section Asset.
Context (id contract : Z) (tok : wstate -> Z -> Z) (parties : list Z).
Context (SU : switch_setup id contract tok parties).

Lemma token_call_frame w data void w' s :
  contract_of w id = contract -> token_call w id data void w' ->
  wslot w' ASSET_ADDRESS s = wslot w ASSET_ADDRESS s.
Proof using SU.
  intros Hc (g & out & st & Et & _ & Ea). rewrite Hc in Et.
  pose proof (run_writes (state_slot st) (apply_state_changes st) w ASSET_ADDRESS s (writes_apply_state st)) as F.
  rewrite Ea in F. apply F. intros Hs. destruct SU as [T He _ _ _ _ _]. apply He. symmetry. by eapply (tok_contained _ _ T).
Qed.

Lemma bal_put_party a v w b :
  a ∈ parties -> b ∈ parties -> bal (put (slot_balance id a) v w) id b = if decide (b = a) then v else bal w id b.
Proof using SU.
  intros Ha Hb. unfold bal. rewrite wslot_put. destruct (decide (b = a)) as [->|Hne].
  - by rewrite decide_True.
  - rewrite decide_False; [done|]. intros E. apply Hne. symmetry. by apply (su_inj _ _ _ _ SU).
Qed.

Lemma tok_put w k v a : tok (w_cur (put k v w)) a = tok (w_cur w) a.
Proof using SU.
  apply (tok_own _ _ (su_token _ _ _ _ SU)). intros s. unfold put. cbn. apply slot_put_ne.
  pose proof (su_elsewhere _ _ _ _ SU). congruence.
Qed.

Lemma tok_log w ev a : tok (w_cur (with_log ev w)) a = tok (w_cur w) a.
Proof using SU. apply (tok_own _ _ (su_token _ _ _ _ SU)). intros s. apply slot_put_log. Qed.

Lemma same_setup_put w a v : a ∈ parties -> same_setup id w (put (slot_balance id a) v w).
Proof using SU.
  intros Ha. unfold same_setup, contract_of, dominated, meta8, meta_word.
  rewrite !wslot_put_ne; [done|by apply (su_dominance_ne _ _ _ _ SU)|by apply (su_contract_ne _ _ _ _ SU)].
Qed.

Lemma same_setup_call w data void w' :
  contract_of w id = contract -> token_call w id data void w' -> same_setup id w w'.
Proof using SU.
  intros Hc T. unfold same_setup, contract_of, dominated, meta8, meta_word. by rewrite !(token_call_frame _ _ _ _ _ Hc T).
Qed.

(** The two sides of the asset after a switch: [dp] on the protocol balance of
    [p], [de] on the EVM side of [e], and [ds] in escrow. *)
Record switched w w' (p dp e de ds : Z) : Prop := {
  sd_setup : same_setup id w w';
  sd_bal : forall a, a ∈ parties -> bal w' id a = bal w id a + at_ p dp a;
  sd_evm : forall a, is_addr a -> evm_side id tok w' a = evm_side id tok w a + at_ e de a + at_ SWITCH_ADDRESS ds a
}.

Definition escrowed w (v : Z) : Z := if (id =? CALL_ASSET_ID) || dominated w id then 0 else v.

Lemma to_evm_switches m c w w' :
  sw_assetId c = id -> m ∈ parties -> contract_of w id = contract -> call_fits m c -> 0 <= bal w id m ->
  run (switch_to_evm_handler m c) w = (Ok tt, w') ->
  switched w w' m (- sw_amount c) (sw_to c) (sw_amount c) (escrowed w (- sw_amount c)) /\ sw_amount c <= bal w id m.
Proof using All.
  intros Hid Hm Hc (_ & Hto & Hv) Hb E. destruct c as [i to v]; cbn [sw_assetId sw_to sw_amount] in *; subst i.
  apply to_evm_ok in E as (_ & Hle & w2 & ev & -> & E); cbn [sw_assetId sw_to sw_amount] in *; [|done|apply Hv]. split; [|lia].
  set (w1 := put (slot_balance id m) (bal w id m - v) w) in *.
  pose proof (same_setup_put w m (bal w id m - v) Hm) as S1. fold w1 in S1.
  assert (Ep : forall a, a ∈ parties -> bal w1 id a = bal w id a + at_ m (- v) a).
  { intros a Ha. unfold w1, at_. rewrite bal_put_party by done. case_decide; subst; lia. }
  unfold escrowed. destruct (Z.eqb_spec id CALL_ASSET_ID) as [Ei|Ei]; cbn [orb].
  - destruct E as [_ ->]. split; [exact S1|exact Ep|]. intros a _. unfold evm_side. rewrite (proj2 (Z.eqb_eq _ _) Ei).
    change (nat_bal (with_log ev ?u) a) with (nat_bal u a). rewrite nat_put. change (nat_bal w1 a) with (nat_bal w a).
    unfold at_. repeat case_decide; subst; try congruence; lia.
  - apply call_erc20_ok in E; [|done]. fold (dominated w1 id) in E. destruct S1 as [C1 D1]. rewrite D1 in E.
    pose proof (same_setup_call _ _ _ _ (eq_trans C1 Hc) E) as [C2 D2].
    split; [split; [exact (eq_trans C2 C1)|exact (eq_trans D2 D1)]| |].
    + intros a Ha. rewrite <- Ep by done. unfold bal. exact (token_call_frame _ _ _ _ _ (eq_trans C1 Hc) E).
    + intros a Ha. unfold evm_side. rewrite (proj2 (Z.eqb_neq _ _) Ei).
      rewrite tok_log, <- (tok_put w (slot_balance id m) (bal w id m - v)). fold w1.
      destruct E as (g & out & st & Et & Hb' & Ea). rewrite C1, Hc in Et. destruct (dominated w id).
      * rewrite (tok_mint _ _ (su_token _ _ _ _ SU) _ _ _ _ _ _ _ Hto Hv Et Ea) by done. unfold at_. repeat case_decide; lia.
      * destruct Hb' as [|Hb']; [done|].
        rewrite (tok_transfer _ _ (su_token _ _ _ _ SU) _ _ _ _ _ _ _ Hto Hv Et Hb' Ea) by done. unfold at_. repeat case_decide; lia.
Qed.

Lemma to_protocol_switches m c w w' :
  sw_assetId c = id -> sw_to c ∈ parties -> contract_of w id = contract -> call_fits m c -> 0 <= bal w id (sw_to c) ->
  run (switch_to_protocol_handler m c) w = (Ok tt, w') ->
  switched w w' (sw_to c) (sw_amount c) m (- sw_amount c) (escrowed w (sw_amount c)).
Proof using All.
  intros Hid Hm Hc (Hma & Hto & Hv) Hb E. destruct c as [i to v]; cbn [sw_assetId sw_to sw_amount] in *; subst i.
  assert (Hb1 : forall w1, id <> CALL_ASSET_ID -> run (call_erc20 id (encode_bridge_burn m v) (encode_transfer_from m SWITCH_ADDRESS v)) w = (Ok tt, w1) ->
    forall a, bal w1 id a = bal w id a).
  { intros w1 Ei E1 a. apply call_erc20_ok in E1; [|done]. unfold bal. exact (token_call_frame _ _ _ _ _ Hc E1). }
  apply to_protocol_ok in E as (_ & w1 & ev & Hle & -> & E); cbn [sw_assetId sw_to sw_amount] in *; [|done| |apply Hv].
  2:{ intros w1 Ei E1. by rewrite (Hb1 _ Ei E1). }
  assert (Ep : forall a, a ∈ parties -> bal w1 id a = bal w id a -> bal w1 id to = bal w id to ->
    bal (put (slot_balance id to) (bal w1 id to + v) w1) id a = bal w id a + at_ to v a).
  { intros a Ha Ea Et. unfold at_. rewrite bal_put_party by done. case_decide; subst; lia. }
  pose proof (same_setup_put w1 to (bal w1 id to + v) Hm) as [C2 D2].
  unfold escrowed. destruct (Z.eqb_spec id CALL_ASSET_ID) as [Ei|Ei]; cbn [orb].
  - destruct E as [_ ->]. split; [by split|intros a Ha; by apply Ep|]. intros a _. unfold evm_side. rewrite (proj2 (Z.eqb_eq _ _) Ei).
    change (nat_bal (with_log ev (put ?k ?x ?u)) a) with (nat_bal u a). rewrite nat_put.
    unfold at_. repeat case_decide; subst; try congruence; lia.
  - pose proof (Hb1 _ Ei E) as Hsame. apply call_erc20_ok in E; [|done]. fold (dominated w id) in E.
    pose proof (same_setup_call _ _ _ _ Hc E) as [C1 D1].
    split; [split; [exact (eq_trans C2 C1)|exact (eq_trans D2 D1)]|intros a Ha; by apply Ep|].
    intros a Ha. unfold evm_side. rewrite (proj2 (Z.eqb_neq _ _) Ei).
    rewrite tok_log, tok_put. destruct E as (g & out & st & Et & Hb' & Ea). rewrite Hc in Et. destruct (dominated w id).
    + rewrite (tok_burn _ _ (su_token _ _ _ _ SU) _ _ _ _ _ _ _ Hma Hv Et Ea) by done. unfold at_. repeat case_decide; lia.
    + destruct Hb' as [|Hb']; [done|].
      rewrite (tok_transfer_from _ _ (su_token _ _ _ _ SU) _ _ SWITCH_ADDRESS _ _ _ _ _ Hma ltac:(done) Hv Et Hb' Ea) by done.
      unfold at_. repeat case_decide; lia.
Qed.

Lemma sum_of_at (f g : Z -> Z) l x v :
  NoDup l -> x ∈ l -> (forall a, a ∈ l -> g a = f a + at_ x v a) -> sum_of g l = sum_of f l + v.
Proof using Type.
  intros Hn Hx Hg. rewrite (sum_of_update f g l x Hn Hx).
  - rewrite (Hg x Hx). unfold at_. rewrite decide_True by done. lia.
  - intros a Ha Hne. rewrite (Hg a Ha). unfold at_. rewrite decide_False by done. lia.
Qed.

Lemma sum_bal_switched w w' p dp e de ds :
  p ∈ parties -> switched w w' p dp e de ds -> sum_of (bal w' id) parties = sum_of (bal w id) parties + dp.
Proof using SU. intros Hp [_ Hb _]. by apply (sum_of_at _ _ _ p); [apply SU| |]. Qed.

Lemma held_switched w w' p e dp ds :
  p ∈ parties -> e ∈ parties -> switched w w' p dp e (- dp) ds -> held id tok parties w' = held id tok parties w.
Proof using SU.
  intros Hp He Sd. unfold held. rewrite (sum_bal_switched _ _ _ _ _ _ _ Hp Sd). destruct Sd as [_ _ Hev].
  rewrite (sum_of_at (evm_side id tok w) (evm_side id tok w') parties e (- dp)); [lia|apply SU|done|].
  intros a Ha. destruct (su_addr _ _ _ _ SU a Ha) as [Haa Hs]. rewrite (Hev a Haa). unfold at_ at 2. rewrite decide_False by done. lia.
Qed.

End Asset.
(** ** Conservation and backing *)


(** The life of an escrowed asset: switches of the parties, and anything else
    that neither takes tokens out of the escrow nor creates protocol balances
    of the asset. *)
Inductive escrow_step (id : Z) (tok : wstate -> Z -> Z) (parties : list Z) : world -> world -> Prop :=
| es_to_evm m c w w' :
    sw_assetId c = id -> m ∈ parties -> call_fits m c ->
    run (switch_to_evm_handler m c) w = (Ok tt, w') -> escrow_step id tok parties w w'
| es_to_protocol m c w w' :
    sw_assetId c = id -> sw_to c ∈ parties -> m <> SWITCH_ADDRESS -> call_fits m c ->
    run (switch_to_protocol_handler m c) w = (Ok tt, w') -> escrow_step id tok parties w w'
| es_other w w' :
    same_setup id w w' -> (forall a, a ∈ parties -> 0 <= bal w' id a) ->
    sum_of (bal w' id) parties <= sum_of (bal w id) parties ->
    tok (w_cur w) SWITCH_ADDRESS <= tok (w_cur w') SWITCH_ADDRESS -> escrow_step id tok parties w w'.

(** Every protocol balance is backed by tokens in escrow. *)
Record backed (id contract : Z) (tok : wstate -> Z -> Z) (parties : list Z) w : Prop := {
  bk_contract : contract_of w id = contract;
  bk_escrow : dominated w id = false;
  bk_bal : forall a, a ∈ parties -> 0 <= bal w id a;
  bk_sum : sum_of (bal w id) parties <= tok (w_cur w) SWITCH_ADDRESS
}.

Lemma backed_step id contract tok parties w w' :
  switch_setup id contract tok parties -> id <> CALL_ASSET_ID ->
  escrow_step id tok parties w w' -> backed id contract tok parties w -> backed id contract tok parties w'.
Proof using All.
  intros SU Hid St [Hc Hd Hb Hs]. revert Hc Hd Hb Hs.
  assert (Hev : forall u a, evm_side id tok u a = tok (w_cur u) a) by (intros u a; unfold evm_side; by rewrite (proj2 (Z.eqb_neq _ _) Hid)).
  assert (Hes : forall u v, dominated u id = false -> escrowed id u v = v).
  { intros u v Hd. unfold escrowed. by rewrite Hd, (proj2 (Z.eqb_neq _ _) Hid). }
  destruct St as [m c w w' Ei Hm Hf E|m c w w' Ei Hto Hms Hf E|w w' [Hc' Hd'] Hb' Hs' Ht]; intros Hc Hd Hb Hs.
  - destruct (to_evm_switches id contract tok parties SU _ _ _ _ Ei Hm Hc Hf (Hb _ Hm) E) as [Sd Hle].
    pose proof (sum_bal_switched _ _ _ _ SU _ _ _ _ _ _ _ Hm Sd) as Sb. destruct Sd as [[C' D'] Eb Ee]. split; [congruence..| |].
    + intros a Ha. rewrite Eb by done. specialize (Hb a Ha). unfold at_. case_decide; subst; lia.
    + specialize (Ee SWITCH_ADDRESS ltac:(done)). rewrite !Hev, Hes in Ee by done. destruct Hf as (_ & _ & Hv).
      unfold at_, is_u128 in *. rewrite (decide_True (P := SWITCH_ADDRESS = SWITCH_ADDRESS)) in Ee by done.
      destruct (decide (SWITCH_ADDRESS = sw_to c)); lia.
  - pose proof (to_protocol_switches id contract tok parties SU _ _ _ _ Ei Hto Hc Hf (Hb _ Hto) E) as Sd.
    pose proof (sum_bal_switched _ _ _ _ SU _ _ _ _ _ _ _ Hto Sd) as Sb. destruct Sd as [[C' D'] Eb Ee]. destruct Hf as (_ & _ & Hv).
    unfold is_u128 in Hv. split; [congruence..| |].
    + intros a Ha. rewrite Eb by done. specialize (Hb a Ha). unfold at_. case_decide; lia.
    + specialize (Ee SWITCH_ADDRESS ltac:(done)). rewrite !Hev, Hes in Ee by done. unfold at_ in Ee.
      rewrite (decide_True (P := SWITCH_ADDRESS = SWITCH_ADDRESS)), decide_False in Ee by congruence. lia.
  - split; [congruence..|done|lia].
Qed.


(** ** Round trip *)

Lemma to_protocol_runs m x amt w :
  switchable w x (mkSwitch CALL_ASSET_ID m amt) = true -> 0 <= bal w CALL_ASSET_ID m -> 0 <= amt <= nat_bal w x ->
  bal w CALL_ASSET_ID m + amt <= U128_MAX ->
  exists ev, run (switch_to_protocol_handler x (mkSwitch CALL_ASSET_ID m amt)) w =
    (Ok tt, with_log ev (put (slot_balance CALL_ASSET_ID m) (bal w CALL_ASSET_ID m + amt) (put_nat x (nat_bal w x - amt) w))).
Proof using Type.
  intros Hs Hb Hv Hle. unfold switch_to_protocol_handler. rewrite run_try.
  destruct (run_switch_checks x (mkSwitch CALL_ASSET_ID m amt) w) as (r & -> & Hr & _). rewrite (proj2 Hr Hs).
  cbn [sw_assetId sw_to sw_amount]. rewrite Z.eqb_refl, run_try, run_map_err, run_balance_sub. unfold checked_sub.
  destruct (Z.leb_spec amt (nat_bal w x)); [|lia]. cbn [map_err fst snd]. rewrite run_try, add_protocol_ok by (done || lia).
  change (bal (put_nat _ _ w) CALL_ASSET_ID m) with (bal w CALL_ASSET_ID m).
  destruct (Z.ltb_spec U128_MAX (bal w CALL_ASSET_ID m + amt)); [lia|].
  rewrite run_try. unfold emit_switch_event. rewrite w_run_emit. cbn [run]. by eexists.
Qed.

Lemma switchable_back m x amt w w1 :
  (forall a, restricted w1 a = restricted w a) -> meta8 w1 CALL_ASSET_ID "status" = meta8 w CALL_ASSET_ID "status" ->
  switchable w m (mkSwitch CALL_ASSET_ID x amt) = true -> switchable w1 x (mkSwitch CALL_ASSET_ID m amt) = true.
Proof using Type.
  intros Hr Hm. unfold switchable. cbn [sw_assetId sw_to sw_amount]. rewrite !Hr, Hm.
  destruct (m =? 0), (x =? 0), (restricted w m), (restricted w x), (amt =? 0); done.
Qed.

(** C19: CALL comes back.  After a successful switch of CALL to an account of
    the EVM, the switch of the same amount back succeeds, and every storage
    slot and every native balance is as before. *)
Theorem native_round_trip m x amt w w1 :
  slot_balance CALL_ASSET_ID m <> meta_slot CALL_ASSET_ID "status" ->
  0 <= bal w CALL_ASSET_ID m -> 0 <= amt -> 0 <= nat_bal w x ->
  run (switch_to_evm_handler m (mkSwitch CALL_ASSET_ID x amt)) w = (Ok tt, w1) ->
  exists w2, run (switch_to_protocol_handler x (mkSwitch CALL_ASSET_ID m amt)) w1 = (Ok tt, w2) /\
    (forall a s, wslot w2 a s = wslot w a s) /\ (forall a, nat_bal w2 a = nat_bal w a).
Proof using Type.
  intros Hne Hb Hv Hn E. apply to_evm_ok in E as (Hs & Hle & w' & ev & -> & E); cbn [sw_assetId sw_to sw_amount] in *; [|done..].
  cbn [Z.eqb CALL_ASSET_ID] in E. destruct E as [Hfit ->].
  set (w1 := with_log ev _).
  assert (En : nat_bal w1 x = nat_bal w x + amt) by (change (nat_bal w1 x) with (nat_bal (put_nat x (nat_bal w x + amt) (put (slot_balance CALL_ASSET_ID m) (bal w CALL_ASSET_ID m - amt) w)) x); rewrite nat_put; by rewrite decide_True).
  assert (Eb : bal w1 CALL_ASSET_ID m = bal w CALL_ASSET_ID m - amt) by (apply slot_put_same).
  destruct (to_protocol_runs m x amt w1) as [ev' E2]; [|lia..|].
  { apply (switchable_back m x amt w); [|..|done].
    - intros a. unfold restricted. do 3 f_equal. by apply slot_put_ne.
    - unfold meta8, meta_word. f_equal. apply slot_put_ne. congruence. }
  eexists; split; [exact E2|]. rewrite Eb, En. split; intros a.
  - intros s. replace (bal w CALL_ASSET_ID m - amt + amt) with (bal w CALL_ASSET_ID m) by lia.
    change (slot (put_slot ASSET_ADDRESS (slot_balance CALL_ASSET_ID m) (bal w CALL_ASSET_ID m)
      (put_slot ASSET_ADDRESS (slot_balance CALL_ASSET_ID m) (bal w CALL_ASSET_ID m - amt) (w_cur w))) a s = wslot w a s).
    rewrite !slot_put. case_decide as D; [|done]. by injection D as <- <-.
  - change (nat_bal (put_nat x (nat_bal w x + amt - amt) (put_nat x (nat_bal w x + amt) w)) a = nat_bal w a).
    rewrite !nat_put. case_decide; subst; lia.
Qed.

(** ** On the production provider *)

Lemma benign_meta_byte wr id key : benign wr (meta_byte id key).
Proof using Type. unfold meta_byte. benign_follow calling fail. Qed.

Lemma benign_sub id a v : benign true (sub_protocol_bal id a v).
Proof using Type. benign_follow calling fail. Qed.

Lemma benign_add id a v : benign true (add_protocol_bal id a v).
Proof using Type. benign_follow calling fail. Qed.

Lemma guarded_switching {A} wr (p : prog (sres A)) : benign wr p -> guarded wr (switching p).
Proof using Type. intros Hp. by apply guarded_map_err, benign_guarded. Qed.

Lemma guarded_call_erc20 id minting escrow : guarded true (call_erc20 id minting escrow).
Proof using All.
  unfold call_erc20. apply guarded_try; [apply guarded_switching; benign_follow calling fail|intros contract].
  constructor. intros code. cbn [prog_bind]. case_bool_decide; [constructor|].
  apply guarded_benign_bind; [benign_follow calling fail|intros d]. cbv zeta.
  apply guarded_try; [apply guarded_execute_evm_call|]. intros [[g out|g out|g why] st]; [|constructor..].
  destruct (_ && _); [constructor|apply guarded_apply_state].
Qed.

Lemma guarded_switch_checks m c : guarded true (switch_checks m c).
Proof using Type.
  unfold switch_checks. apply guarded_try; [constructor|intros caller]. do 2 (apply guarded_try; [apply guarded_check_compliance|intros _]).
  do 2 (destruct (_ =? _); [constructor|]).
  do 2 (apply guarded_try; [apply guarded_switching; benign_follow calling fail|intros _]). constructor.
Qed.

Lemma guarded_to_evm m c : guarded true (switch_to_evm_handler m c).
Proof using All.
  unfold switch_to_evm_handler. apply guarded_try; [apply guarded_switch_checks|intros caller].
  apply guarded_try; [apply guarded_switching, benign_sub|intros _]. apply guarded_try; [|intros _].
  - destruct (_ =? _); [apply guarded_map_err, guarded_balance_add|apply guarded_call_erc20].
  - apply guarded_try; [apply guarded_emit|constructor].
Qed.

Lemma guarded_to_protocol m c : guarded true (switch_to_protocol_handler m c).
Proof using All.
  unfold switch_to_protocol_handler. apply guarded_try; [apply guarded_switch_checks|intros caller].
  apply guarded_try; [|intros _].
  - destruct (_ =? _); [apply guarded_map_err, guarded_balance_sub|apply guarded_call_erc20].
  - apply guarded_try; [apply guarded_switching, benign_add|intros _]. apply guarded_try; [apply guarded_emit|constructor].
Qed.

Context `{SwitchAbi} {J : Type} `{HJ : JournalTr J} `{HL : !JournalLaws J}.

(** The switch calldata requests. *)
Definition switch_request (calldata : list Z) (m : Z) : option (world -> world -> Prop) :=
  let sel := take 4 calldata in
  if bool_decide (sel = sel_switchToEvm)
  then request_of (dec_switchToEvm calldata) (fun c => runs_to (switch_to_evm_handler m c))
  else if bool_decide (sel = sel_switchToProtocol)
  then request_of (dec_switchToProtocol calldata) (fun c => runs_to (switch_to_protocol_handler m c))
  else None.

(** C20: the switch precompile implements its operations.  On the production
    provider, outside a static call, a call fails or is a view and leaves the
    storage as it was, the changes of the ERC-20 contract included, or has
    exactly the effect of the switch its calldata requests. *)
Theorem switch_call_refines_handler calldata m (s : EvmStorageProvider J) :
  e_is_static (evm_env s) = false ->
  call_effect (switch_request calldata m) s (switch_call calldata m s).
Proof using All.
  intros Hst. unfold switch_call, switch_request. destruct (length calldata <? 4)%nat; [done|]. cbv zeta.
  case_bool_decide; [apply mutate_effect; [apply guarded_to_evm|done|done]|].
  case_bool_decide; [apply mutate_effect; [apply guarded_to_protocol|done|done]|].
  case_bool_decide; [apply view_effect; intros; unfold get_evm_contract_handler, read_evm_contract; readonly_prog|].
  case_bool_decide; [apply view_effect; intros; unfold can_switch_handler, check_asset_active, check_has_erc20, meta_byte; readonly_prog|].
  case_bool_decide; [apply view_effect; intros; unfold get_dominance_handler, switch_dominance, meta_byte; readonly_prog|]. done.
Qed.
End Effects.
