(* ===== verification/SwitchDemo.v ===== *)
(** * SwitchDemo: a token for the switch

    A concrete ERC-20 contract that keeps the balance of an account in the slot
    of its address, run by a small interpreter in place of revm.  It has the
    promises of [erc20], and the properties of the switch are applied to it. *)

From stdpp Require Import base gmap list strings.
From Stdlib Require Import ZArith Lia.
From S2P Require Import Prelude Provider World EvmProvider Refinement Dispatch Utils.
From S2P Require Import Asset AssetSpec AssetPrecompile Keyed SimpleJournal HashDemo.
From S2P Require Import CallSpec NestedEvm Switch SwitchSpec.

Local Open Scope Z_scope.
Local Open Scope callnode_scope.

Module SwitchDemo.
Import Demo.

Definition TOKEN : Z := 0x70CE.

(** ** The contract *)

Definition word (data : list Z) (i : nat) : Z := from_be (take 32 (drop (4 + 32 * i) data)).

(** Sender and recipient of a call; minting has no sender, burning no recipient. *)
Definition parse (caller : Z) (data : list Z) : option (option Z * option Z * Z) :=
  let sel := take 4 data in
  if bool_decide (sel = SELECTOR_TRANSFER) then Some (Some caller, Some (word data 0), word data 1)
  else if bool_decide (sel = SELECTOR_TRANSFER_FROM) then Some (Some (word data 0), Some (word data 1), word data 2)
  else if bool_decide (sel = SELECTOR_BRIDGE_MINT) then Some (None, Some (word data 0), word data 1)
  else if bool_decide (sel = SELECTOR_BRIDGE_BURN) then Some (Some (word data 0), None, word data 1)
  else None.

Definition outcome_of (slots : list StorageSlot) : result string (ExecutionResult * list Account) :=
  Ok (Success 30000 (be_bytes 32 1), [mkAccount TOKEN true slots 0 0]).
Definition refused : result string (ExecutionResult * list Account) := Ok (Reverted 21000 [], []).

Definition token_read (a : Z) (k : Z -> prog (result string (ExecutionResult * list Account))) :
    prog (result string (ExecutionResult * list Account)) :=
  Call (ORawSload TOKEN a) (fun r => match r with Ok v => k v | Err _ => Ret (Err "storage"%string) end).

Definition move (from to : option Z) (amt : Z) : prog (result string (ExecutionResult * list Account)) :=
  match from, to with
  | Some f, Some t =>
      token_read f (fun fb => token_read t (fun tb =>
        Ret (if fb <? amt then refused else if f =? t then outcome_of []
             else outcome_of [mkSlot f fb (fb - amt); mkSlot t tb (tb + amt)])))
  | None, Some t => token_read t (fun tb => Ret (outcome_of [mkSlot t tb (tb + amt)]))
  | Some f, None => token_read f (fun fb => Ret (if fb <? amt then refused else outcome_of [mkSlot f fb (fb - amt)]))
  | None, None => Ret refused
  end.

#[global] Instance token_evm : NestedEvm := fun caller contract data _ _ =>
  if negb (contract =? TOKEN) then Ret refused
  else match parse caller data with Some (f, t, v) => move f t v | None => Ret refused end.

Lemma reads_token a k : (forall v, reads_db (k v)) -> reads_db (token_read a k).
Proof. intros Hk. constructor. intros [v|e]; [apply Hk|constructor]. Qed.

#[global] Instance token_evm_laws : NestedEvmLaws.
Proof.
  intros caller contract data b ts. unfold evm_transact, token_evm. destruct (negb _); [constructor|].
  destruct (parse caller data) as [[[[f|] [t|]] v]|]; cbn [move];
    repeat ((apply reads_token; intros) || constructor).
Qed.

(** ** Its promises *)

Definition tok (m : wstate) (a : Z) : Z := slot m TOKEN a.
Definition at_opt (o : option Z) (v a : Z) : Z := match o with Some x => at_ x v a | None => 0 end.

Lemma run_token_read a k (w : world) : run (token_read a k) w = run (k (wslot w TOKEN a)) w.
Proof. done. Qed.

Lemma apply_one sl (w : world) a :
  original_value sl = tok (w_cur w) (sl_index sl) ->
  exists w', run (apply_slots TOKEN [sl]) w = (Ok tt, w') /\
    tok (w_cur w') a = if decide (a = sl_index sl) then present_value sl else tok (w_cur w) a.
Proof.
  intros Ho. cbn [apply_slots]. rewrite run_try. destruct (Z.eqb_spec (present_value sl) (original_value sl)) as [E|E]; cbn [negb].
  - eexists; split; [done|]. case_decide; congruence.
  - eexists; split; [done|]. unfold tok. cbn. rewrite slot_put. repeat case_decide; congruence.
Qed.

Lemma apply_slots_cons sl slots (w : world) :
  run (apply_slots TOKEN (sl :: slots)) w =
    (let x := run (apply_slots TOKEN [sl]) w in match x.1 with Ok _ => run (apply_slots TOKEN slots) x.2 | Err e => (Err e, x.2) end).
Proof.
  cbn [apply_slots]. rewrite !run_try. destruct (run _ w) as [[[]|e] w1]; done.
Qed.

Lemma apply_outcome slots (w w' : world) :
  run (apply_state_changes [mkAccount TOKEN true slots 0 0]) w = (Ok tt, w') -> run (apply_slots TOKEN slots) w = (Ok tt, w').
Proof.
  cbn [apply_state_changes is_touched negb ac_address ac_storage]. rewrite run_try.
  destruct (run (apply_slots TOKEN slots) w) as [[[]|e] w1]; [|done]. done.
Qed.

Lemma move_ok from to amt g out st (w w' : world) :
  (run (move from to amt) w).1 = Ok (Success g out, st) -> run (apply_state_changes st) w = (Ok tt, w') ->
  forall a, tok (w_cur w') a = tok (w_cur w) a - at_opt from amt a + at_opt to amt a.
Proof.
  intros E R a. destruct from as [f|], to as [t|]; cbn [move at_opt] in *; rewrite ?run_token_read in E; cbn [run fst] in E.
  - destruct (_ <? _); [done|]. destruct (Z.eqb_spec f t) as [->|Hne]; injection E as _ _ <-; apply apply_outcome in R.
    + injection R as <-. lia.
    + rewrite apply_slots_cons in R. cbv zeta in R.
      destruct (apply_one (mkSlot f (tok (w_cur w) f) (tok (w_cur w) f - amt)) w a eq_refl) as (w1 & E1 & T1).
      destruct (apply_one (mkSlot f (tok (w_cur w) f) (tok (w_cur w) f - amt)) w t eq_refl) as (w1' & E1' & T1').
      rewrite E1 in E1'. injection E1' as <-. cbn [sl_index present_value] in *. rewrite decide_False in T1' by congruence.
      unfold tok in E1 at 1 2. rewrite E1 in R. cbn [fst snd] in R.
      destruct (apply_one (mkSlot t (tok (w_cur w) t) (tok (w_cur w) t + amt)) w1 a (eq_sym T1')) as (w2 & E2 & T2).
      unfold tok in E2 at 1 2. rewrite E2 in R. injection R as <-. cbn [sl_index present_value] in *.
      rewrite T2, T1. unfold at_. repeat case_decide; subst; congruence || lia.
  - destruct (_ <? _); [done|]. injection E as _ _ <-. apply apply_outcome in R.
    destruct (apply_one (mkSlot f (tok (w_cur w) f) (tok (w_cur w) f - amt)) w a eq_refl) as (w1 & E1 & T1).
    unfold tok in E1 at 1 2. rewrite E1 in R. injection R as <-. cbn [sl_index present_value] in T1. rewrite T1. unfold at_. repeat case_decide; subst; congruence || lia.
  - injection E as _ _ <-. apply apply_outcome in R.
    destruct (apply_one (mkSlot t (tok (w_cur w) t) (tok (w_cur w) t + amt)) w a eq_refl) as (w1 & E1 & T1).
    unfold tok in E1 at 1 2. rewrite E1 in R. injection R as <-. cbn [sl_index present_value] in T1. rewrite T1. unfold at_. repeat case_decide; subst; congruence || lia.
  - done.
Qed.

Lemma word_address rest (sel : list Z) a :
  length sel = 4%nat -> is_addr a -> word (sel ++ abi_address a ++ rest) 0 = a.
Proof.
  intros Hl Ha. unfold word, abi_address. rewrite drop_app_length' by (rewrite Hl; done).
  rewrite take_app_length' by (rewrite length_app, length_replicate; unfold addr_bytes; by rewrite length_be_bytes).
  rewrite from_be_zeros. unfold addr_bytes. rewrite from_be_be_bytes. apply Z.mod_small. exact Ha.
Qed.

Lemma word_amount (pre : list Z) i v :
  length pre = (4 + 32 * i)%nat -> is_u128 v -> word (pre ++ be_bytes 32 v) i = v.
Proof.
  intros Hl Hv. unfold word. rewrite drop_app_length' by done. rewrite take_ge by (by rewrite length_be_bytes).
  rewrite from_be_be_bytes. apply Z.mod_small. unfold is_u128, U128_MAX in Hv. split; [apply Hv|].
  apply (Z.le_lt_trans _ (2 ^ 128 - 1)); [apply Hv|done].
Qed.

Lemma length_abi_address a : length (abi_address a) = 32%nat.
Proof. unfold abi_address. by rewrite length_app, length_replicate; unfold addr_bytes; rewrite length_be_bytes. Qed.

Lemma parse_one (sel : list Z) to amt :
  length sel = 4%nat -> is_addr to -> is_u128 amt ->
  word (sel ++ abi_address to ++ be_bytes 32 amt) 0 = to /\ word (sel ++ abi_address to ++ be_bytes 32 amt) 1 = amt.
Proof.
  intros Hl Ht Hv. split; [by apply word_address|]. rewrite app_assoc. apply word_amount; [|done].
  by rewrite length_app, length_abi_address, Hl.
Qed.

Lemma parse_transfer to amt :
  is_addr to -> is_u128 amt -> parse SWITCH_ADDRESS (encode_transfer to amt) = Some (Some SWITCH_ADDRESS, Some to, amt).
Proof.
  intros Ht Hv. destruct (parse_one SELECTOR_TRANSFER to amt eq_refl Ht Hv) as [E0 E1].
  transitivity (Some (Some SWITCH_ADDRESS, Some (word (encode_transfer to amt) 0), word (encode_transfer to amt) 1)); [reflexivity|].
  unfold encode_transfer. by rewrite E0, E1.
Qed.

Lemma parse_mint to amt :
  is_addr to -> is_u128 amt -> parse SWITCH_ADDRESS (encode_bridge_mint to amt) = Some (None, Some to, amt).
Proof.
  intros Ht Hv. destruct (parse_one SELECTOR_BRIDGE_MINT to amt eq_refl Ht Hv) as [E0 E1].
  transitivity (Some (None : option Z, Some (word (encode_bridge_mint to amt) 0), word (encode_bridge_mint to amt) 1)); [reflexivity|].
  unfold encode_bridge_mint. by rewrite E0, E1.
Qed.

Lemma parse_burn from amt :
  is_addr from -> is_u128 amt -> parse SWITCH_ADDRESS (encode_bridge_burn from amt) = Some (Some from, None, amt).
Proof.
  intros Ht Hv. destruct (parse_one SELECTOR_BRIDGE_BURN from amt eq_refl Ht Hv) as [E0 E1].
  transitivity (Some (Some (word (encode_bridge_burn from amt) 0), None : option Z, word (encode_bridge_burn from amt) 1)); [reflexivity|].
  unfold encode_bridge_burn. by rewrite E0, E1.
Qed.

Lemma parse_transfer_from from to amt :
  is_addr from -> is_addr to -> is_u128 amt ->
  parse SWITCH_ADDRESS (encode_transfer_from from to amt) = Some (Some from, Some to, amt).
Proof.
  intros Hf Ht Hv. set (d := encode_transfer_from from to amt).
  transitivity (Some (Some (word d 0), Some (word d 1), word d 2)); [reflexivity|].
  cut (word d 0 = from /\ word d 1 = to /\ word d 2 = amt); [by intros (-> & -> & ->)|]. split_and!.
  - by apply word_address.
  - transitivity (word (SELECTOR_TRANSFER_FROM ++ abi_address to ++ be_bytes 32 amt) 0); [reflexivity|by apply word_address].
  - unfold d, encode_transfer_from. rewrite !app_assoc. apply word_amount; [|done]. by rewrite !length_app, !length_abi_address.
Qed.

Lemma token_calls data from to amt (w : world) :
  parse SWITCH_ADDRESS data = Some (from, to, amt) ->
  transacts SWITCH_ADDRESS TOKEN data w = (run (move from to amt) w).1.
Proof. intros Ep. unfold transacts, evm_transact, token_evm. rewrite Z.eqb_refl. cbn [negb]. by rewrite Ep. Qed.

Lemma move_contained from to amt g out st (w : world) acc :
  (run (move from to amt) w).1 = Ok (Success g out, st) -> acc ∈ st -> ac_address acc = TOKEN.
Proof.
  intros E Hacc. assert (exists slots, st = [mkAccount TOKEN true slots 0 0]) as [slots ->].
  { destruct from as [f|], to as [t|]; cbn [move] in E; rewrite ?run_token_read in E; cbn [run fst] in E;
      repeat case_match; try done; injection E as _ _ <-; by eexists. }
  by apply list_elem_of_singleton in Hacc as ->.
Qed.

Lemma token_erc20 : erc20 TOKEN tok.
Proof.
  split.
  - intros m m' a E. apply E.
  - intros data w g out st a s E (acc & sl & Hacc & _ & <- & _).
    unfold transacts, evm_transact, token_evm in E. rewrite Z.eqb_refl in E. cbn [negb] in E.
    destruct (parse _ data) as [[[f t] v]|]; [|done]. by eapply move_contained.
  - intros w to amt g out st w' Ht Hv E _ R a _. rewrite (token_calls _ _ _ _ _ (parse_transfer to amt Ht Hv)) in E.
    exact (move_ok _ _ _ _ _ _ _ _ E R a).
  - intros w from to amt g out st w' Hf Ht Hv E _ R a _.
    rewrite (token_calls _ _ _ _ _ (parse_transfer_from from to amt Hf Ht Hv)) in E. exact (move_ok _ _ _ _ _ _ _ _ E R a).
  - intros w to amt g out st w' Ht Hv E R a _. rewrite (token_calls _ _ _ _ _ (parse_mint to amt Ht Hv)) in E.
    rewrite (move_ok _ _ _ _ _ _ _ _ E R a). cbn [at_opt]. lia.
  - intros w from amt g out st w' Hf Hv E R a _. rewrite (token_calls _ _ _ _ _ (parse_burn from amt Hf Hv)) in E.
    rewrite (move_ok _ _ _ _ _ _ _ _ E R a). cbn [at_opt]. lia.
Qed.

(** ** Switches of the token *)

#[global] Instance error_text : ErrorDisplay := fun _ => "error"%string.

Definition GOLD : Z := 7.
Definition people : list Z := [alice; bob].

Definition put_gold (key : string) (v : Z) (m : wstate) : wstate := put_slot ASSET_ADDRESS (meta_slot GOLD key) v m.

(** The switch holds 1000 tokens for protocol balances of 700 and 300; [bob]
    has 50 tokens and [alice] 90 CALL on the protocol side. *)
Definition vault (dominance : Z) : world := mkWorld
  (put_slot ASSET_ADDRESS (slot_balance GOLD alice) 700
  (put_slot ASSET_ADDRESS (slot_balance GOLD bob) 300
  (put_slot ASSET_ADDRESS (slot_balance CALL_ASSET_ID alice) 90
  (put_slot ASSET_ADDRESS (slot_evm_contract GOLD) TOKEN
  (put_gold "has_erc20" 1
  (put_gold "dominance" dominance
  (put_slot TOKEN SWITCH_ADDRESS 1000
  (put_slot TOKEN bob 50
  (mkW ∅ ∅ [] ∅ {[ TOKEN := [1] ]})))))))))
  (env0 1000000 false) [].

Lemma people_are a : a ∈ people -> a = alice \/ a = bob.
Proof. unfold people. set_solver. Qed.

Lemma gold_setup : switch_setup GOLD TOKEN tok people.
Proof.
  split.
  - exact token_erc20.
  - done.
  - apply (bool_decide_unpack _). vm_compute. exact I.
  - intros a Ha. destruct (people_are a Ha) as [->| ->]; done.
  - intros a b Ha Hb E. destruct (people_are a Ha) as [->| ->], (people_are b Hb) as [->| ->]; try done;
      vm_compute in E; done.
  - intros a Ha. destruct (people_are a Ha) as [->| ->]; vm_compute; done.
  - intros a Ha. destruct (people_are a Ha) as [->| ->]; vm_compute; done.
Qed.

Definition to_bob : switchCall := mkSwitch GOLD bob 30.
Definition to_alice : switchCall := mkSwitch GOLD alice 40.
Definition going : prog (res unit) := switch_to_evm_handler alice to_bob.
Definition returning : prog (res unit) := switch_to_protocol_handler bob to_alice.
Definition out_w (d : Z) : world := (run going (vault d)).2.
Definition back_w : world := (run returning (out_w 0)).2.

Lemma out_runs d : d = 0 \/ d = 1 -> run going (vault d) = (Ok tt, out_w d).
Proof. intros [->| ->]; [exact (run_to going (Ok tt) (vault 0) ltac:(vm_compute; reflexivity))|exact (run_to going (Ok tt) (vault 1) ltac:(vm_compute; reflexivity))]. Qed.
Lemma back_runs : run returning (out_w 0) = (Ok tt, back_w).
Proof. exact (run_to returning (Ok tt) (out_w 0) ltac:(vm_compute; reflexivity)). Qed.

(** Escrow pays from the tokens of the switch, minting makes new ones. *)
Example escrow_and_minting :
  (tok (w_cur (out_w 0)) SWITCH_ADDRESS, tok (w_cur (out_w 0)) bob, bal (out_w 0) GOLD alice) = (970, 80, 670) /\
  (tok (w_cur (out_w 1)) SWITCH_ADDRESS, tok (w_cur (out_w 1)) bob, bal (out_w 1) GOLD alice) = (1000, 80, 670) /\
  (tok (w_cur back_w) SWITCH_ADDRESS, tok (w_cur back_w) bob, bal back_w GOLD alice) = (1010, 40, 710).
Proof. vm_compute. done. Qed.

Lemma contract_is d : d = 0 \/ d = 1 -> contract_of (vault d) GOLD = TOKEN.
Proof. intros [->| ->]; vm_compute; reflexivity. Qed.


Lemma vault_backed : backed GOLD TOKEN tok people (vault 0).
Proof.
  split.
  - apply contract_is. by left.
  - vm_compute. reflexivity.
  - intros a Ha. destruct (people_are a Ha) as [->| ->]; vm_compute; done.
  - vm_compute. done.
Qed.

Lemma gold_history : rtc (escrow_step GOLD tok people) (vault 0) back_w.
Proof.
  apply (rtc_l _ _ (out_w 0)).
  - exact (es_to_evm GOLD tok people alice to_bob (vault 0) (out_w 0) eq_refl (list_elem_of_here _ _) ltac:(done) (out_runs 0 (or_introl eq_refl))).
  - apply rtc_once. exact (es_to_protocol GOLD tok people bob to_alice (out_w 0) back_w eq_refl (list_elem_of_here _ _) ltac:(done) ltac:(done) back_runs).
Qed.


Definition call_out : prog (res unit) := switch_to_evm_handler alice (mkSwitch CALL_ASSET_ID bob 60).
Definition call_w : world := (run call_out (vault 0)).2.

Lemma call_runs : run call_out (vault 0) = (Ok tt, call_w).
Proof. exact (run_to call_out (Ok tt) (vault 0) ltac:(vm_compute; reflexivity)). Qed.

Lemma native_round_trip_witness :
  nat_bal call_w bob = 60 /\
  exists w2, run (switch_to_protocol_handler bob (mkSwitch CALL_ASSET_ID alice 60)) call_w = (Ok tt, w2) /\
    (forall a s, wslot w2 a s = wslot (vault 0) a s) /\ (forall a, nat_bal w2 a = nat_bal (vault 0) a).
Proof.
  split; [vm_compute; reflexivity|]. apply (native_round_trip alice bob 60 (vault 0) call_w).
  - vm_compute. done.
  - vm_compute. done.
  - done.
  - vm_compute. done.
  - exact call_runs.
Defined.

#[local] Instance switch_abi : SwitchAbi := {|
  dec_switchToEvm := fun d => need (i ← decode_u64 d 4; t ← decode_address d 36; v ← decode_u128 d 68; Some (mkSwitch i t v));
  dec_switchToProtocol := fun d => need (i ← decode_u64 d 4; t ← decode_address d 36; v ← decode_u128 d 68; Some (mkSwitch i t v));
  dec_getEvmContract := fun d => need (decode_u64 d 4);
  dec_canSwitch := fun d => need (decode_u64 d 4);
  dec_getDominance := fun d => need (decode_u64 d 4);
  senc_address := abi_address;
  senc_bool := fun b => be_bytes 32 (if b then 1 else 0);
  senc_uint := be_bytes 32;
  sel_switchToEvm := [0; 0; 0; 1];
  sel_switchToProtocol := [0; 0; 0; 2];
  sel_getEvmContract := [0; 0; 0; 3];
  sel_canSwitch := [0; 0; 0; 4];
  sel_getDominance := [0; 0; 0; 5]
|}.

Definition switch_calldata : list Z := [0; 0; 0; 1] ++ encode_u64 GOLD ++ abi_address bob ++ encode_u128 30.
Definition s0 : EvmStorageProvider SimpleJournal := provider (w_cur (vault 0)) 200000 false.

(** The call runs the contract of the token. *)
Example switch_call_runs :
  let x := switch_call switch_calldata alice s0 in
  is_ok x.1 = true /\ slot (vw x.2) TOKEN bob = 80 /\ slot (vw x.2) TOKEN SWITCH_ADDRESS = 970.
Proof. vm_compute. done. Qed.

Lemma switch_call_refines_handler_witness :
  call_effect (switch_request switch_calldata alice) s0 (switch_call switch_calldata alice s0).
Proof. apply (switch_call_refines_handler switch_calldata alice s0). reflexivity. Defined.

End SwitchDemo.
