(* ===== verification/Agent.v ===== *)
(** * Agent: agents and session keys

    Models [AgentStorage] and the precompile of [crates/agent/src/lib.rs] and
    [crates/agent/src/precompile.rs] at 0x209: agents with balances of their
    own that they pay from, and sessions, by which an owner lets a delegate
    spend from the owner's balance within limits.  Sums of amounts are plain
    additions of 128 bits, which wrap in release builds.  The generated ABI
    codecs are the class [AgentAbi]. *)

From stdpp Require Import base gmap list strings.
From Stdlib Require Import ZArith Lia.
From S2P Require Import Prelude Provider World EvmProvider Refinement Dispatch Utils.
From S2P Require Import Asset AssetSpec Keyed.

Local Open Scope Z_scope.
Local Open Scope callnode_scope.

Inductive AgentError : Type :=
| AgentNotFound
| NotOwner
| PermissionsExpired
| AssetNotAllowed
| AmountExceedsLimit
| AgentInsufficientBalance
| AgentBalanceOverflow
| AgentArrayLengthMismatch
| AgentEmptyBatch
| SessionNotFound
| InvalidDelegate
| AgentAlreadyExists.

Definition agent_error_to_string (e : AgentError) : string :=
  match e with
  | AgentNotFound => "agent: not found"
  | NotOwner => "agent: sender is not owner"
  | PermissionsExpired => "agent: permissions expired"
  | AssetNotAllowed => "agent: asset not allowed"
  | AmountExceedsLimit => "agent: amount exceeds per-tx limit"
  | AgentInsufficientBalance => "agent: insufficient balance"
  | AgentBalanceOverflow => "agent: balance overflow"
  | AgentArrayLengthMismatch => "array length mismatch"
  | AgentEmptyBatch => "empty batch"
  | SessionNotFound => "agent: session not found"
  | InvalidDelegate => "agent: invalid delegate"
  | AgentAlreadyExists => "agent: address already registered"
  end.

Abbreviation gres A := (result AgentError A).

Definition BLOCKS_PER_DAY : Z := 17280.

(** ** Slots *)

Inductive agent_key : Type :=
| slot_agent_count
| slot_agent_owner (agent_id : Z)
| slot_agent_address (agent_id : Z)
| slot_agent_name (agent_id : Z)
| slot_agent_url (agent_id : Z)
| slot_agent_perms (agent_id : Z)
| slot_agent_registered_at (agent_id : Z)
| slot_agent_balance (agent_id asset_id : Z)
| slot_agent_by_address (addr : Z)
| slot_session_count
| slot_session_owner (session_id : Z)
| slot_session_delegate (session_id : Z)
| slot_session_limits (session_id : Z)
| slot_session_expires (session_id : Z)
| slot_session_spent (session_id : Z)
| slot_session_last_day (session_id : Z)
| slot_session_allowed_assets_count (session_id : Z)
| slot_session_allowed_asset (session_id index : Z)
| slot_session_allowed_recipients_count (session_id : Z)
| slot_session_allowed_recipient (session_id index : Z)
| slot_session_max_total_spend (session_id : Z)
| slot_session_min_interval_blocks (session_id : Z)
| slot_session_effective_at (session_id : Z)
| slot_session_max_executions (session_id : Z)
| slot_session_execution_count (session_id : Z)
| slot_session_last_execution_block (session_id : Z)
| slot_session_total_spent (session_id : Z).

#[global] Instance agent_key_eq_dec : EqDecision agent_key.
Proof. solve_decision. Defined.

Definition agent_parts (k : agent_key) : list (list Z) :=
  match k with
  | slot_agent_count => []
  | slot_agent_owner id => [b_ "agent"; u64_bytes id; b_ "owner"]
  | slot_agent_address id => [b_ "agent"; u64_bytes id; b_ "addr"]
  | slot_agent_name id => [b_ "agent"; u64_bytes id; b_ "name"]
  | slot_agent_url id => [b_ "agent"; u64_bytes id; b_ "url"]
  | slot_agent_perms id => [b_ "agent"; u64_bytes id; b_ "perms"]
  | slot_agent_registered_at id => [b_ "agent"; u64_bytes id; b_ "block"]
  | slot_agent_balance id asset => [b_ "abalance"; u64_bytes id; u64_bytes asset]
  | slot_agent_by_address a => [b_ "agent_by_addr"; addr_bytes a]
  | slot_session_count => [b_ "scount"]
  | slot_session_owner s => [b_ "sowner"; u64_bytes s]
  | slot_session_delegate s => [b_ "sdelegate"; u64_bytes s]
  | slot_session_limits s => [b_ "slimits"; u64_bytes s]
  | slot_session_expires s => [b_ "sexpires"; u64_bytes s]
  | slot_session_spent s => [b_ "sspent"; u64_bytes s]
  | slot_session_last_day s => [b_ "slastday"; u64_bytes s]
  | slot_session_allowed_assets_count s => [b_ "saac"; u64_bytes s]
  | slot_session_allowed_asset s i => [b_ "saa"; u64_bytes s; u64_bytes i]
  | slot_session_allowed_recipients_count s => [b_ "sarc"; u64_bytes s]
  | slot_session_allowed_recipient s i => [b_ "sar"; u64_bytes s; u64_bytes i]
  | slot_session_max_total_spend s => [b_ "smts"; u64_bytes s]
  | slot_session_min_interval_blocks s => [b_ "smib"; u64_bytes s]
  | slot_session_effective_at s => [b_ "sea"; u64_bytes s]
  | slot_session_max_executions s => [b_ "sme"; u64_bytes s]
  | slot_session_execution_count s => [b_ "sec"; u64_bytes s]
  | slot_session_last_execution_block s => [b_ "sleb"; u64_bytes s]
  | slot_session_total_spent s => [b_ "sts"; u64_bytes s]
  end.

#[global] Instance agent_keyed `{Keccak} : Keyed agent_key := {|
  key_address := AGENT_ADDRESS;
  key_slot k := match k with slot_agent_count => 0 | _ => storage_slot (agent_parts k) end
|}.

(** ** Packed words *)

Definition pack_agent_perms (per_tx_limit expires_at flags : Z) : Z :=
  from_be (be_bytes 16 per_tx_limit ++ be_bytes 8 expires_at ++ replicate 7 0 ++ [flags]).

Definition unpack_agent_perms (perms : Z) : Z * Z * Z :=
  let bs := be_bytes 32 perms in
  (from_be (slice bs 0 16), from_be (slice bs 16 8), default 0 (bs !! 31%nat)).

Definition pack_session_limits (per_tx_limit daily_limit : Z) : Z :=
  from_be (be_bytes 16 per_tx_limit ++ be_bytes 16 daily_limit).

Definition unpack_session_limits (limits : Z) : Z * Z :=
  let bs := be_bytes 32 limits in (from_be (slice bs 0 16), from_be (slice bs 16 16)).

Record SessionPolicy : Type := mkPolicy {
  max_total_spend : Z;
  min_interval_blocks : Z;
  effective_at : Z;
  max_executions : Z;
  allowed_assets : list Z;
  allowed_recipients : list Z
}.

Definition default_policy : SessionPolicy := mkPolicy 0 0 0 0 [] [].

Section Storage.
Context `{Keccak}.

(** ** Agents *)

Definition read_agent_count : prog Z := kget u256_to_u64 slot_agent_count.
Definition read_agent_owner (agent_id : Z) : prog Z := kget u256_to_address (slot_agent_owner agent_id).
Definition read_agent_address (agent_id : Z) : prog Z := kget u256_to_address (slot_agent_address agent_id).
Definition find_agent_by_address (addr : Z) : prog Z := kget u256_to_u64 (slot_agent_by_address addr).
Definition read_agent_name (agent_id : Z) : prog (list Z) := kget (be_bytes 32) (slot_agent_name agent_id).
Definition read_agent_url (agent_id : Z) : prog (list Z) := kget (be_bytes 32) (slot_agent_url agent_id).
Definition read_perms (agent_id : Z) : prog Z := kload (slot_agent_perms agent_id).
Definition read_registered_at (agent_id : Z) : prog Z := kget u256_to_u64 (slot_agent_registered_at agent_id).
Definition read_agent_balance (agent_id asset_id : Z) : prog Z :=
  kget u256_to_u128 (slot_agent_balance agent_id asset_id).
Definition write_agent_balance (agent_id asset_id amount : Z) : prog unit :=
  kstore (slot_agent_balance agent_id asset_id) (u128_to_u256 amount).

Definition agent_exists (agent_id : Z) : prog bool :=
  owner <- read_agent_owner agent_id; Ret (negb (owner =? 0)).

Definition check_owner (agent_id caller : Z) : prog (gres unit) :=
  owner <- read_agent_owner agent_id;
  Ret (if negb (owner =? caller) then Err NotOwner else Ok tt).

Definition check_agent (agent_id caller : Z) : prog (gres unit) :=
  agent <- read_agent_address agent_id;
  Ret (if negb (caller =? agent) then Err NotOwner else Ok tt).

Definition require_perms (agent_id asset_id current_block : Z) : prog (gres (Z * Z * Z)) :=
  perms <- read_perms agent_id;
  let '(per_tx_limit, expires_at, flags) := unpack_agent_perms perms in
  Ret (if negb (expires_at =? 0) && (expires_at <? current_block) then Err PermissionsExpired
       else if negb (asset_id =? CALL_ASSET_ID) && (Z.land flags 1 =? 0) then Err AssetNotAllowed
       else Ok (per_tx_limit, expires_at, flags)).

Definition register_agent (name url : list Z) (agent_address caller current_block : Z) : prog (gres unit) :=
  if agent_address =? 0 then Ret (Err AgentAlreadyExists) else
  existing <- find_agent_by_address agent_address;
  taken <- (if existing =? U64_MAX then Ret false else
            a <- read_agent_address existing; Ret (a =? agent_address));
  if (taken : bool) then Ret (Err AgentAlreadyExists) else
  count <- read_agent_count;
  do kstore slot_agent_count (u64_to_u256 (wrap_u64 (count + 1)));
  do kstore (slot_agent_owner count) (address_to_u256 caller);
  do kstore (slot_agent_address count) (address_to_u256 agent_address);
  do kstore (slot_agent_by_address agent_address) (u64_to_u256 count);
  do kstore (slot_agent_name count) (write_string32 name);
  do kstore (slot_agent_url count) (write_string32 url);
  do kstore (slot_agent_perms count) (pack_agent_perms 1000 0 1);
  do kstore (slot_agent_registered_at count) (u64_to_u256 current_block);
  Ret (Ok tt).

(** The two checks of an owner. *)
Definition require_owner (agent_id caller : Z) : prog (gres unit) :=
  exists_ <- agent_exists agent_id;
  if negb exists_ then Ret (Err AgentNotFound) else check_owner agent_id caller.

Definition grant_balance (agent_id asset_id amount caller : Z) : prog (gres unit) :=
  do? require_owner agent_id caller;
  do? prog_map_err (fun _ => AgentInsufficientBalance) (deduct_balance asset_id caller amount);
  current <- read_agent_balance agent_id asset_id;
  agent_bal <-? Ret (ok_or AgentBalanceOverflow (checked_add U128_MAX current amount));
  do write_agent_balance agent_id asset_id agent_bal;
  Ret (Ok tt).

Definition revoke_balance (agent_id asset_id caller : Z) : prog (gres unit) :=
  do? require_owner agent_id caller;
  current_bal <- read_agent_balance agent_id asset_id;
  do write_agent_balance agent_id asset_id 0;
  if 0 <? current_bal
  then prog_map_err (fun _ => AgentBalanceOverflow) (add_balance asset_id caller current_bal)
  else Ret (Ok tt).

(** The agent a caller is. *)
Definition calling_agent (caller : Z) : prog (gres Z) :=
  agent_id <- find_agent_by_address caller;
  exists_ <- agent_exists agent_id;
  if negb exists_ then Ret (Err AgentNotFound) else
  a <- read_agent_address agent_id;
  Ret (if negb (a =? caller) then Err AgentNotFound else Ok agent_id).

Definition spend_agent_balance (agent_id asset_id amount : Z) : prog (gres unit) :=
  current <- read_agent_balance agent_id asset_id;
  agent_bal <-? Ret (ok_or AgentInsufficientBalance (checked_sub current amount));
  do write_agent_balance agent_id asset_id agent_bal;
  Ret (Ok tt).

Definition pay (asset_id to amount caller current_block : Z) : prog (gres unit) :=
  agent_id <-? calling_agent caller;
  perms <-? require_perms agent_id asset_id current_block;
  if perms.1.1 <? amount then Ret (Err AmountExceedsLimit) else
  do? spend_agent_balance agent_id asset_id amount;
  prog_map_err (fun _ => AgentBalanceOverflow) (add_balance asset_id to amount).

Fixpoint credit_all (asset_id : Z) (recipients amounts : list Z) : prog (gres unit) :=
  match recipients, amounts with
  | r :: rs, a :: amts =>
      do? prog_map_err (fun _ => AgentBalanceOverflow) (add_balance asset_id r a);
      credit_all asset_id rs amts
  | _, _ => Ret (Ok tt)
  end.

Definition sum_u128 (amounts : list Z) : Z := fold_left (fun acc a => wrap_u128 (acc + a)) amounts 0.

Definition batch_pay (asset_id : Z) (recipients amounts : list Z) (caller current_block : Z) : prog (gres unit) :=
  if negb (length recipients =? length amounts)%nat then Ret (Err AgentArrayLengthMismatch) else
  if bool_decide (recipients = []) then Ret (Err AgentEmptyBatch) else
  agent_id <-? calling_agent caller;
  perms <-? require_perms agent_id asset_id current_block;
  if existsb (fun a => perms.1.1 <? a) amounts then Ret (Err AmountExceedsLimit) else
  do? spend_agent_balance agent_id asset_id (sum_u128 amounts);
  credit_all asset_id recipients amounts.

Definition revoke_agent (agent_id caller : Z) : prog (gres unit) :=
  do? require_owner agent_id caller;
  addr <- read_agent_address agent_id;
  do kstore (slot_agent_owner agent_id) 0;
  do kstore (slot_agent_address agent_id) 0;
  do kstore (slot_agent_name agent_id) 0;
  do kstore (slot_agent_url agent_id) 0;
  do kstore (slot_agent_perms agent_id) 0;
  do kstore (slot_agent_registered_at agent_id) 0;
  do (if negb (addr =? 0) then kstore (slot_agent_by_address addr) 0 else Ret tt);
  Ret (Ok tt).

(** ** Sessions *)

Definition read_session_count : prog Z := kget u256_to_u64 slot_session_count.
Definition read_session_owner (s : Z) : prog Z := kget u256_to_address (slot_session_owner s).
Definition read_session_delegate (s : Z) : prog Z := kget u256_to_address (slot_session_delegate s).
Definition read_session_limits (s : Z) : prog (Z * Z) := kget unpack_session_limits (slot_session_limits s).
Definition read_session_expires (s : Z) : prog Z := kget u256_to_u64 (slot_session_expires s).
Definition read_session_spent (s : Z) : prog Z := kget u256_to_u128 (slot_session_spent s).
Definition read_session_last_day (s : Z) : prog Z := kget u256_to_u64 (slot_session_last_day s).
Definition read_session_max_total_spend (s : Z) : prog Z := kget u256_to_u128 (slot_session_max_total_spend s).
Definition read_session_min_interval_blocks (s : Z) : prog Z := kget u256_to_u64 (slot_session_min_interval_blocks s).
Definition read_session_effective_at (s : Z) : prog Z := kget u256_to_u64 (slot_session_effective_at s).
Definition read_session_max_executions (s : Z) : prog Z := kget u256_to_u64 (slot_session_max_executions s).
Definition read_session_execution_count (s : Z) : prog Z := kget u256_to_u64 (slot_session_execution_count s).
Definition read_session_last_execution_block (s : Z) : prog Z := kget u256_to_u64 (slot_session_last_execution_block s).
Definition read_session_total_spent (s : Z) : prog Z := kget u256_to_u128 (slot_session_total_spent s).

Definition session_exists (s : Z) : prog bool :=
  owner <- read_session_owner s; Ret (negb (owner =? 0)).

(** The entries [i], [i + 1], ... of a stored list. *)
Fixpoint read_entries (conv : Z -> Z) (key : Z -> agent_key) (n : nat) (i : Z) : prog (list Z) :=
  match n with
  | O => Ret []
  | S n => v <- kget conv (key i); rest <- read_entries conv key n (i + 1); Ret (v :: rest)
  end.

Fixpoint store_entries (conv : Z -> Z) (key : Z -> agent_key) (i : Z) (vs : list Z) : prog unit :=
  match vs with
  | [] => Ret tt
  | v :: vs => do kstore (key i) (conv v); store_entries conv key (i + 1) vs
  end.

Definition read_session_allowed_assets (s : Z) : prog (list Z) :=
  count <- kget u256_to_u64 (slot_session_allowed_assets_count s);
  read_entries u256_to_u64 (slot_session_allowed_asset s) (Z.to_nat count) 0.

Definition read_session_allowed_recipients (s : Z) : prog (list Z) :=
  count <- kget u256_to_u64 (slot_session_allowed_recipients_count s);
  read_entries u256_to_address (slot_session_allowed_recipient s) (Z.to_nat count) 0.

Definition create_session (delegate per_tx_limit daily_limit expires_at : Z) (policy : SessionPolicy)
    (caller : Z) : prog (gres Z) :=
  count <- read_session_count;
  do kstore slot_session_count (u64_to_u256 (wrap_u64 (count + 1)));
  do kstore (slot_session_owner count) (address_to_u256 caller);
  do kstore (slot_session_delegate count) (address_to_u256 delegate);
  do kstore (slot_session_limits count) (pack_session_limits per_tx_limit daily_limit);
  do kstore (slot_session_expires count) (u64_to_u256 expires_at);
  do kstore (slot_session_spent count) 0;
  do kstore (slot_session_last_day count) 0;
  do kstore (slot_session_allowed_assets_count count) (u64_to_u256 (Z.of_nat (length (allowed_assets policy))));
  do store_entries u64_to_u256 (slot_session_allowed_asset count) 0 (allowed_assets policy);
  do kstore (slot_session_allowed_recipients_count count)
       (u64_to_u256 (Z.of_nat (length (allowed_recipients policy))));
  do store_entries address_to_u256 (slot_session_allowed_recipient count) 0 (allowed_recipients policy);
  do kstore (slot_session_max_total_spend count) (u128_to_u256 (max_total_spend policy));
  do kstore (slot_session_min_interval_blocks count) (u64_to_u256 (min_interval_blocks policy));
  do kstore (slot_session_effective_at count) (u64_to_u256 (effective_at policy));
  do kstore (slot_session_max_executions count) (u64_to_u256 (max_executions policy));
  do kstore (slot_session_execution_count count) 0;
  do kstore (slot_session_last_execution_block count) 0;
  do kstore (slot_session_total_spent count) 0;
  Ret (Ok count).

Definition session_slots (s : Z) : list agent_key :=
  [slot_session_owner s; slot_session_delegate s; slot_session_limits s; slot_session_expires s;
   slot_session_spent s; slot_session_last_day s; slot_session_allowed_assets_count s;
   slot_session_allowed_recipients_count s; slot_session_max_total_spend s;
   slot_session_min_interval_blocks s; slot_session_effective_at s; slot_session_max_executions s;
   slot_session_execution_count s; slot_session_last_execution_block s; slot_session_total_spent s].

Fixpoint clear_all (ks : list agent_key) : prog unit :=
  match ks with [] => Ret tt | k :: ks => do kstore k 0; clear_all ks end.

Definition revoke_session (s caller : Z) : prog (gres unit) :=
  owner <- read_session_owner s;
  if owner =? 0 then Ret (Err SessionNotFound) else
  if negb (owner =? caller) then Ret (Err NotOwner) else
  do clear_all (session_slots s);
  Ret (Ok tt).

Definition is_session_valid (s current_block : Z) : prog bool :=
  exists_ <- session_exists s;
  if negb exists_ then Ret false else
  effective <- read_session_effective_at s;
  if negb (effective =? 0) && (current_block <? effective) then Ret false else
  expires <- read_session_expires s;
  Ret (negb (negb (expires =? 0) && (expires <? current_block))).

(** The conditions of a session transfer: the delegate, the time window, the
    interval and number of executions, the limits and the allowed lists.  The
    spending of the current day and the day come back. *)
Definition session_checks (s asset_id to amount caller current_block : Z) : prog (gres (Z * Z)) :=
  exists_ <- session_exists s;
  if negb exists_ then Ret (Err SessionNotFound) else
  delegate <- read_session_delegate s;
  if negb (caller =? delegate) then Ret (Err InvalidDelegate) else
  expires <- read_session_expires s;
  if negb (expires =? 0) && (expires <? current_block) then Ret (Err SessionNotFound) else
  effective <- read_session_effective_at s;
  if negb (effective =? 0) && (current_block <? effective) then Ret (Err SessionNotFound) else
  min_interval <- read_session_min_interval_blocks s;
  too_soon <- (if min_interval =? 0 then Ret false else
               last_block <- read_session_last_execution_block s;
               Ret (negb (last_block =? 0) && (wrap_u64 (current_block - last_block) <? min_interval)));
  if (too_soon : bool) then Ret (Err AmountExceedsLimit) else
  max_exec <- read_session_max_executions s;
  used_up <- (if max_exec =? 0 then Ret false else
              exec_count <- read_session_execution_count s; Ret (max_exec <=? exec_count));
  if (used_up : bool) then Ret (Err AmountExceedsLimit) else
  limits <- read_session_limits s;
  if limits.1 <? amount then Ret (Err AmountExceedsLimit) else
  last_day <- read_session_last_day s;
  spent <- read_session_spent s;
  let current_day := current_block / BLOCKS_PER_DAY in
  let '(current_spent, new_last_day) :=
    if last_day <? current_day then (0, current_day) else (spent, last_day) in
  if limits.2 <? wrap_u128 (current_spent + amount) then Ret (Err AmountExceedsLimit) else
  max_total <- read_session_max_total_spend s;
  over <- (if max_total =? 0 then Ret false else
           total_spent <- read_session_total_spent s; Ret (max_total <? wrap_u128 (total_spent + amount)));
  if (over : bool) then Ret (Err AmountExceedsLimit) else
  assets <- read_session_allowed_assets s;
  if negb (bool_decide (assets = [])) && negb (bool_decide (asset_id ∈ assets)) then Ret (Err AssetNotAllowed) else
  recipients <- read_session_allowed_recipients s;
  if negb (bool_decide (recipients = [])) && negb (bool_decide (to ∈ recipients))
  then Ret (Err AmountExceedsLimit) else
  Ret (Ok (current_spent, new_last_day)).

Definition execute_session_transfer (s asset_id to amount caller current_block : Z) : prog (gres unit) :=
  day <-? session_checks s asset_id to amount caller current_block;
  do kstore (slot_session_spent s) (u128_to_u256 (wrap_u128 (day.1 + amount)));
  do kstore (slot_session_last_day s) (u64_to_u256 day.2);
  exec_count <- read_session_execution_count s;
  do kstore (slot_session_execution_count s) (u64_to_u256 (wrap_u64 (exec_count + 1)));
  do kstore (slot_session_last_execution_block s) (u64_to_u256 current_block);
  total_spent <- read_session_total_spent s;
  do kstore (slot_session_total_spent s) (u128_to_u256 (wrap_u128 (total_spent + amount)));
  owner <- read_session_owner s;
  do? prog_map_err (fun _ => AgentInsufficientBalance) (deduct_balance asset_id owner amount);
  prog_map_err (fun _ => AgentBalanceOverflow) (add_balance asset_id to amount).

End Storage.

(** ** The precompile *)

Record registerAgentCall : Type := mkRegisterAgent { ra_name : list Z; ra_url : list Z; ra_agentAddress : Z }.
Record grantBalanceCall : Type := mkGrant { gr_agentId : Z; gr_assetId : Z; gr_amount : Z }.
Record agentAssetCall : Type := mkAgentAsset { aa_agentId : Z; aa_assetId : Z }.
Record payCall : Type := mkPay { py_assetId : Z; py_to : Z; py_amount : Z }.
Record batchPayCall : Type := mkBatchPay { bp_assetId : Z; bp_to : list Z; bp_amounts : list Z }.
Record createSessionCall : Type := mkCreateSession {
  cs_delegate : Z; cs_perTxLimit : Z; cs_dailyLimit : Z; cs_expiresAt : Z; cs_maxTotalSpend : Z;
  cs_minIntervalBlocks : Z; cs_effectiveAt : Z; cs_maxExecutions : Z;
  cs_allowedAssets : list Z; cs_allowedRecipients : list Z
}.
Record executeSessionCall : Type := mkExecuteSession {
  es_sessionId : Z; es_assetId : Z; es_to : Z; es_amount : Z
}.

(** The codecs and selectors the [sol!] macro generates. *)
Class AgentAbi : Type := {
  dec_registerAgent : list Z -> result string registerAgentCall;
  dec_grantBalance : list Z -> result string grantBalanceCall;
  dec_revokeBalance : list Z -> result string agentAssetCall;
  dec_pay : list Z -> result string payCall;
  dec_batchPay : list Z -> result string batchPayCall;
  dec_revokeAgent : list Z -> result string Z;
  dec_getAgentOwner : list Z -> result string Z;
  dec_getAgentAddress : list Z -> result string Z;
  dec_getAgentBalance : list Z -> result string agentAssetCall;
  dec_getAgentName : list Z -> result string Z;
  dec_getAgentUrl : list Z -> result string Z;
  dec_getAgentPerms : list Z -> result string Z;
  dec_createSession : list Z -> result string createSessionCall;
  dec_revokeSession : list Z -> result string Z;
  dec_isSessionValid : list Z -> result string Z;
  dec_executeSession : list Z -> result string executeSessionCall;
  genc_uint : Z -> list Z;
  genc_address : Z -> list Z;
  genc_bytes32 : list Z -> list Z;
  sel_registerAgent : list Z;
  sel_grantBalance : list Z;
  sel_revokeBalance : list Z;
  sel_pay : list Z;
  sel_batchPay : list Z;
  sel_revokeAgent : list Z;
  sel_getAgentOwner : list Z;
  sel_getAgentBalance : list Z;
  sel_getAgentName : list Z;
  sel_getAgentUrl : list Z;
  sel_getAgentAddress : list Z;
  sel_getAgentPerms : list Z;
  sel_createSession : list Z;
  sel_revokeSession : list Z;
  sel_isSessionValid : list Z;
  sel_executeSession : list Z
}.

Section Precompile.
Context `{Keccak, AddressDisplay, AgentAbi} {S : Type} `{!StorageProvider S}.

Definition agenting {A} (p : prog (gres A)) : prog (res A) :=
  prog_map_err (fun e => Other (agent_error_to_string e)) p.

Definition register_agent_handler (msg_sender : Z) (call : registerAgentCall) : prog (res unit) :=
  caller <-? Ret (require_caller msg_sender);
  block <- block_number;
  agenting (register_agent (ra_name call) (ra_url call) (ra_agentAddress call) caller block).

(** The steps of [grant_balance], written out in the precompile. *)
Definition grant_balance_handler (msg_sender : Z) (call : grantBalanceCall) : prog (res unit) :=
  caller <-? Ret (require_caller msg_sender);
  do? check_compliance caller;
  do? agenting (require_owner (gr_agentId call) caller);
  do? prog_map_err (fun e => Other (asset_error_to_string e))
        (deduct_balance (gr_assetId call) caller (gr_amount call));
  current <- read_agent_balance (gr_agentId call) (gr_assetId call);
  agent_bal <-? Ret (ok_or (Other (agent_error_to_string AgentBalanceOverflow))
                       (checked_add U128_MAX current (gr_amount call)));
  do? sstore AGENT_ADDRESS (key_slot (slot_agent_balance (gr_agentId call) (gr_assetId call)))
        (u128_to_u256 agent_bal);
  Ret (Ok tt).

Definition revoke_balance_handler (msg_sender : Z) (call : agentAssetCall) : prog (res unit) :=
  caller <-? Ret (require_caller msg_sender);
  do? check_compliance caller;
  agenting (revoke_balance (aa_agentId call) (aa_assetId call) caller).

Definition pay_handler (msg_sender : Z) (call : payCall) : prog (res unit) :=
  caller <-? Ret (require_caller msg_sender);
  do? check_compliance (py_to call);
  block <- block_number;
  agenting (pay (py_assetId call) (py_to call) (py_amount call) caller block).

Fixpoint check_all_compliance (accounts : list Z) : prog (res unit) :=
  match accounts with
  | [] => Ret (Ok tt)
  | a :: accounts => do? check_compliance a; check_all_compliance accounts
  end.

Definition batch_pay_handler (msg_sender : Z) (call : batchPayCall) : prog (res unit) :=
  caller <-? Ret (require_caller msg_sender);
  do? check_all_compliance (bp_to call);
  block <- block_number;
  agenting (batch_pay (bp_assetId call) (bp_to call) (bp_amounts call) caller block).

Definition revoke_agent_handler (msg_sender agent_id : Z) : prog (res unit) :=
  caller <-? Ret (require_caller msg_sender);
  agenting (revoke_agent agent_id caller).

Definition create_session_handler (msg_sender : Z) (call : createSessionCall) : prog (res Z) :=
  caller <-? Ret (require_caller msg_sender);
  let policy := mkPolicy (cs_maxTotalSpend call) (cs_minIntervalBlocks call) (cs_effectiveAt call)
                  (cs_maxExecutions call) (cs_allowedAssets call) (cs_allowedRecipients call) in
  agenting (create_session (cs_delegate call) (cs_perTxLimit call) (cs_dailyLimit call)
              (cs_expiresAt call) policy caller).

Definition revoke_session_handler (msg_sender session_id : Z) : prog (res unit) :=
  caller <-? Ret (require_caller msg_sender);
  agenting (revoke_session session_id caller).

Definition is_session_valid_handler (session_id : Z) : prog (res Z) :=
  block <- block_number;
  valid <- is_session_valid session_id block;
  Ret (Ok (if valid : bool then 1 else 0)).

Definition execute_session_handler (msg_sender : Z) (call : executeSessionCall) : prog (res unit) :=
  caller <-? Ret (require_caller msg_sender);
  do? check_compliance (es_to call);
  block <- block_number;
  agenting (execute_session_transfer (es_sessionId call) (es_assetId call) (es_to call)
              (es_amount call) caller block).

(** A read that cannot fail. *)
Definition reading {A} (p : prog A) : prog (res A) := v <- p; Ret (Ok v).

Definition precompile_register_agent (calldata : list Z) (msg_sender : Z) (s : S) :=
  mutate_void dec_registerAgent calldata 6000 (register_agent_handler msg_sender) s.
Definition precompile_grant_balance (calldata : list Z) (msg_sender : Z) (s : S) :=
  mutate_void dec_grantBalance calldata 6000 (grant_balance_handler msg_sender) s.
Definition precompile_revoke_balance (calldata : list Z) (msg_sender : Z) (s : S) :=
  mutate_void dec_revokeBalance calldata 6000 (revoke_balance_handler msg_sender) s.
Definition precompile_pay (calldata : list Z) (msg_sender : Z) (s : S) :=
  mutate_void dec_pay calldata 30000 (pay_handler msg_sender) s.
Definition precompile_batch_pay (calldata : list Z) (msg_sender : Z) (s : S) :=
  mutate_void dec_batchPay calldata 30000 (batch_pay_handler msg_sender) s.
Definition precompile_revoke_agent (calldata : list Z) (msg_sender : Z) (s : S) :=
  mutate_void dec_revokeAgent calldata 20000 (revoke_agent_handler msg_sender) s.
Definition precompile_get_agent_owner (calldata : list Z) (s : S) :=
  view dec_getAgentOwner genc_address calldata 2000 (fun id => reading (read_agent_owner id)) s.
Definition precompile_get_agent_balance (calldata : list Z) (s : S) :=
  view dec_getAgentBalance genc_uint calldata 2000
    (fun call => reading (read_agent_balance (aa_agentId call) (aa_assetId call))) s.
Definition precompile_get_agent_name (calldata : list Z) (s : S) :=
  view dec_getAgentName genc_bytes32 calldata 2000 (fun id => reading (read_agent_name id)) s.
Definition precompile_get_agent_url (calldata : list Z) (s : S) :=
  view dec_getAgentUrl genc_bytes32 calldata 2000 (fun id => reading (read_agent_url id)) s.
Definition precompile_get_agent_address (calldata : list Z) (s : S) :=
  view dec_getAgentAddress genc_address calldata 2000 (fun id => reading (read_agent_address id)) s.
Definition precompile_get_agent_perms (calldata : list Z) (s : S) :=
  view dec_getAgentPerms genc_uint calldata 2000 (fun id => reading (read_perms id)) s.
Definition precompile_create_session (calldata : list Z) (msg_sender : Z) (s : S) :=
  mutate dec_createSession genc_uint calldata 10000 (create_session_handler msg_sender) s.
Definition precompile_revoke_session (calldata : list Z) (msg_sender : Z) (s : S) :=
  mutate_void dec_revokeSession calldata 6000 (revoke_session_handler msg_sender) s.
Definition precompile_is_session_valid (calldata : list Z) (s : S) :=
  view dec_isSessionValid genc_uint calldata 2000 is_session_valid_handler s.
Definition precompile_execute_session (calldata : list Z) (msg_sender : Z) (s : S) :=
  mutate_void dec_executeSession calldata 30000 (execute_session_handler msg_sender) s.

(** [StatefulPrecompile::call]: dispatch on the selector. *)
Definition agent_call (calldata : list Z) (msg_sender : Z) (s : S) : res PrecompileOutput * S :=
  if (length calldata <? 4)%nat then (Err (Other "too short"), s) else
  let selector := take 4 calldata in
  if bool_decide (selector = sel_registerAgent) then precompile_register_agent calldata msg_sender s
  else if bool_decide (selector = sel_grantBalance) then precompile_grant_balance calldata msg_sender s
  else if bool_decide (selector = sel_revokeBalance) then precompile_revoke_balance calldata msg_sender s
  else if bool_decide (selector = sel_pay) then precompile_pay calldata msg_sender s
  else if bool_decide (selector = sel_batchPay) then precompile_batch_pay calldata msg_sender s
  else if bool_decide (selector = sel_revokeAgent) then precompile_revoke_agent calldata msg_sender s
  else if bool_decide (selector = sel_getAgentOwner) then precompile_get_agent_owner calldata s
  else if bool_decide (selector = sel_getAgentBalance) then precompile_get_agent_balance calldata s
  else if bool_decide (selector = sel_getAgentName) then precompile_get_agent_name calldata s
  else if bool_decide (selector = sel_getAgentUrl) then precompile_get_agent_url calldata s
  else if bool_decide (selector = sel_getAgentAddress) then precompile_get_agent_address calldata s
  else if bool_decide (selector = sel_getAgentPerms) then precompile_get_agent_perms calldata s
  else if bool_decide (selector = sel_createSession) then precompile_create_session calldata msg_sender s
  else if bool_decide (selector = sel_revokeSession) then precompile_revoke_session calldata msg_sender s
  else if bool_decide (selector = sel_isSessionValid) then precompile_is_session_valid calldata s
  else if bool_decide (selector = sel_executeSession) then precompile_execute_session calldata msg_sender s
  else (Err (Other "unknown selector"), s).

End Precompile.
