(* ===== verification/AgentSpec.v ===== *)
(** * AgentSpec: what the operations of agents do

    The layout of the agent storage, the views of its slots, and the effect of
    the operations of [Agent] on them: which conditions a session transfer
    passes and what it records, what paying moves, and which slots each
    operation leaves alone. *)

From stdpp Require Import base gmap list strings.
From Stdlib Require Import ZArith Lia.
From S2P Require Import Prelude Provider World EvmProvider Refinement Dispatch Utils.
From S2P Require Import Asset AssetSpec Keyed Agent.

Local Open Scope Z_scope.
Local Open Scope callnode_scope.

(** ** Layout *)

Definition agent_used (k : agent_key) : Prop :=
  match k with
  | slot_agent_count | slot_session_count => True
  | slot_agent_owner i | slot_agent_address i | slot_agent_name i | slot_agent_url i
  | slot_agent_perms i | slot_agent_registered_at i => fits U64_MAX i
  | slot_agent_balance i a => fits U64_MAX i /\ fits U64_MAX a
  | slot_agent_by_address a => fits ADDRESS_MAX a
  | slot_session_owner s | slot_session_delegate s | slot_session_limits s | slot_session_expires s
  | slot_session_spent s | slot_session_last_day s | slot_session_allowed_assets_count s
  | slot_session_allowed_recipients_count s | slot_session_max_total_spend s
  | slot_session_min_interval_blocks s | slot_session_effective_at s | slot_session_max_executions s
  | slot_session_execution_count s | slot_session_last_execution_block s
  | slot_session_total_spent s => fits U64_MAX s
  | slot_session_allowed_asset s i | slot_session_allowed_recipient s i => fits U64_MAX s /\ fits U64_MAX i
  end.

Definition agent_preimage (k : agent_key) : list Z := concat (agent_parts k).

Lemma agent_preimage_inj k k' :
  agent_used k -> agent_used k' -> agent_preimage k = agent_preimage k' ->
  k <> slot_agent_count -> k' <> slot_agent_count -> k = k'.
Proof.
  intros H1 H2 E N1 N2. pose proof (f_equal length E) as L. unfold agent_preimage in *.
  destruct k, k'; try congruence;
    clear N1 N2; cbn [agent_parts concat agent_used] in *; try done; bytes_now; rewrite ?app_nil_r in *;
    cbn [app] in E; try discriminate E;
    rewrite ?length_app, ?length_cons, ?length_app, ?length_u64_bytes, ?length_addr_bytes in L;
    cbn [length] in L; try discriminate L; same_tail E; destruct_and?; take_apart; subst; done.
Qed.

Section Hash.
Context `{Keccak}.

(** The hash has no collision among the keys and avoids slot 0. *)
Record agent_collision_free : Prop := {
  acf_inj : forall k k', agent_used k -> agent_used k' ->
    keccak256 (agent_preimage k) = keccak256 (agent_preimage k') -> agent_preimage k = agent_preimage k';
  acf_low : forall k, agent_used k -> k <> slot_agent_count -> keccak256 (agent_preimage k) <> 0
}.

Lemma agent_layout_holds : agent_collision_free -> Layout agent_used.
Proof.
  intros [Ci Cl] k k' Hk Hk' E.
  assert (Hs : forall k, k <> slot_agent_count -> key_slot k = keccak256 (agent_preimage k)) by (intros []; done).
  destruct (decide (k = slot_agent_count)) as [->|N], (decide (k' = slot_agent_count)) as [->|N']; [done|..].
  - rewrite (Hs k') in E by done. symmetry in E. by apply Cl in E.
  - rewrite (Hs k) in E by done. by apply Cl in E.
  - rewrite !Hs in E by done. apply agent_preimage_inj; try done. by apply Ci.
Qed.

End Hash.

(** The session a key belongs to. *)
Definition session_of (k : agent_key) : option Z :=
  match k with
  | slot_session_owner s | slot_session_delegate s | slot_session_limits s | slot_session_expires s
  | slot_session_spent s | slot_session_last_day s | slot_session_allowed_assets_count s
  | slot_session_allowed_recipients_count s | slot_session_max_total_spend s
  | slot_session_min_interval_blocks s | slot_session_effective_at s | slot_session_max_executions s
  | slot_session_execution_count s | slot_session_last_execution_block s
  | slot_session_total_spent s | slot_session_allowed_asset s _ | slot_session_allowed_recipient s _ => Some s
  | _ => None
  end.

(** The part of the storage for agents. *)
Definition agent_side (k : agent_key) : Prop := session_of k = None /\ k <> slot_session_count.

Section Spec.
Context `{Keccak} `{!Layout agent_used}.
Implicit Types (w : world).

(** ** Packed words *)

Lemma pack_limits_round_trip p d :
  fits U128_MAX p -> fits U128_MAX d -> unpack_session_limits (pack_session_limits p d) = (p, d).
Proof using Type.
  intros Hp Hd. unfold unpack_session_limits, pack_session_limits.
  assert (E : be_bytes 32 (from_be (be_bytes 16 p ++ be_bytes 16 d)) = be_bytes 16 p ++ be_bytes 16 d).
  { apply (be_bytes_from_be (be_bytes 16 p ++ be_bytes 16 d)). apply Forall_app. split; apply be_bytes_is_byte. }
  rewrite E. unfold slice. rewrite drop_0, take_app_length' by (by rewrite length_be_bytes).
  rewrite drop_app_length' by (by rewrite length_be_bytes). rewrite take_ge by (by rewrite length_be_bytes).
  rewrite !from_be_be_bytes. unfold fits, U128_MAX in *. by rewrite !Z.mod_small by lia.
Qed.

Lemma pack_perms_round_trip p e f :
  fits U128_MAX p -> fits U64_MAX e -> is_byte f -> unpack_agent_perms (pack_agent_perms p e f) = (p, e, f).
Proof using Type.
  intros Hp He Hf. unfold unpack_agent_perms, pack_agent_perms.
  set (bs := be_bytes 16 p ++ be_bytes 8 e ++ replicate 7 0 ++ [f]).
  assert (E : be_bytes 32 (from_be bs) = bs).
  { apply (be_bytes_from_be bs). unfold bs. rewrite !Forall_app. split_and!; [apply be_bytes_is_byte..| |by constructor].
    apply Forall_replicate. done. }
  rewrite E. unfold slice, bs. rewrite drop_0, take_app_length' by (by rewrite length_be_bytes).
  rewrite drop_app_length' by (by rewrite length_be_bytes). rewrite take_app_length' by (by rewrite length_be_bytes).
  rewrite !from_be_be_bytes. unfold fits, U128_MAX, U64_MAX in *. rewrite !Z.mod_small by lia. do 2 f_equal.
Qed.

(** ** Views *)

Definition session_count w : Z := u256_to_u64 (krd w slot_session_count).
Definition s_owner w s : Z := u256_to_address (krd w (slot_session_owner s)).
Definition s_delegate w s : Z := u256_to_address (krd w (slot_session_delegate s)).
Definition s_limits w s : Z * Z := unpack_session_limits (krd w (slot_session_limits s)).
Definition s_expires w s : Z := u256_to_u64 (krd w (slot_session_expires s)).
Definition s_spent w s : Z := u256_to_u128 (krd w (slot_session_spent s)).
Definition s_last_day w s : Z := u256_to_u64 (krd w (slot_session_last_day s)).
Definition s_max_total w s : Z := u256_to_u128 (krd w (slot_session_max_total_spend s)).
Definition s_min_interval w s : Z := u256_to_u64 (krd w (slot_session_min_interval_blocks s)).
Definition s_effective w s : Z := u256_to_u64 (krd w (slot_session_effective_at s)).
Definition s_max_exec w s : Z := u256_to_u64 (krd w (slot_session_max_executions s)).
Definition s_exec_count w s : Z := u256_to_u64 (krd w (slot_session_execution_count s)).
Definition s_last_block w s : Z := u256_to_u64 (krd w (slot_session_last_execution_block s)).
Definition s_total w s : Z := u256_to_u128 (krd w (slot_session_total_spent s)).

Definition entries w (conv : Z -> Z) (key : Z -> agent_key) (n : Z) : list Z :=
  map (fun i => conv (krd w (key i))) (seqZ 0 n).
Definition s_assets w s : list Z :=
  entries w u256_to_u64 (slot_session_allowed_asset s) (u256_to_u64 (krd w (slot_session_allowed_assets_count s))).
Definition s_recipients w s : list Z :=
  entries w u256_to_address (slot_session_allowed_recipient s)
    (u256_to_u64 (krd w (slot_session_allowed_recipients_count s))).

Lemma run_read_entries conv key n i w :
  run (read_entries conv key n i) w = (map (fun i => conv (krd w (key i))) (seqZ i (Z.of_nat n)), w).
Proof using Type.
  revert i. induction n as [|n IH]; intros i; cbn [read_entries]; [done|].
  rewrite run_bind, run_kget. cbv iota beta. rewrite run_bind, IH. cbn [run].
  rewrite (seqZ_cons i) by lia. cbn [map]. do 4 f_equal; lia.
Qed.

Lemma run_read_assets s w : run (read_session_allowed_assets s) w = (s_assets w s, w).
Proof using Type.
  unfold read_session_allowed_assets, s_assets, entries. rewrite run_bind, run_kget. cbv iota beta.
  rewrite run_read_entries. do 3 f_equal. pose proof (u256_to_u64_fits (krd w (slot_session_allowed_assets_count s))). unfold fits in *. lia.
Qed.

Lemma run_read_recipients s w : run (read_session_allowed_recipients s) w = (s_recipients w s, w).
Proof using Type.
  unfold read_session_allowed_recipients, s_recipients, entries. rewrite run_bind, run_kget. cbv iota beta.
  rewrite run_read_entries. do 3 f_equal. pose proof (u256_to_u64_fits (krd w (slot_session_allowed_recipients_count s))). unfold fits in *. lia.
Qed.

(** ** Session transfers *)

(** What is spent on the day of a block, and the day. *)
Definition day_spent w s (b : Z) : Z := if s_last_day w s <? b / BLOCKS_PER_DAY then 0 else s_spent w s.
Definition day_now w s (b : Z) : Z := Z.max (s_last_day w s) (b / BLOCKS_PER_DAY).

(** The conditions of a session transfer. *)
Record session_allows w (s asset to amt caller b : Z) : Prop := {
  al_exists : s_owner w s <> 0;
  al_delegate : caller = s_delegate w s;
  al_expires : s_expires w s = 0 \/ b <= s_expires w s;
  al_effective : s_effective w s <= b \/ s_effective w s = 0;
  al_interval : s_min_interval w s = 0 \/ s_last_block w s = 0 \/ s_min_interval w s <= wrap_u64 (b - s_last_block w s);
  al_executions : s_max_exec w s = 0 \/ s_exec_count w s < s_max_exec w s;
  al_per_tx : amt <= (s_limits w s).1;
  al_daily : wrap_u128 (day_spent w s b + amt) <= (s_limits w s).2;
  al_total : s_max_total w s = 0 \/ wrap_u128 (s_total w s + amt) <= s_max_total w s;
  al_assets : s_assets w s = [] \/ asset ∈ s_assets w s;
  al_recipients : s_recipients w s = [] \/ to ∈ s_recipients w s
}.

Lemma day_cases w s b :
  (if s_last_day w s <? b / BLOCKS_PER_DAY then (0, b / BLOCKS_PER_DAY) else (s_spent w s, s_last_day w s)) =
  (day_spent w s b, day_now w s b).
Proof using Type.
  unfold day_spent, day_now. destruct (Z.ltb_spec (s_last_day w s) (b / BLOCKS_PER_DAY)); f_equal; lia.
Qed.

(** A chain of guards: it changes nothing and succeeds exactly under a
    condition. *)
Definition decides {E X} (p : prog (result E X)) w (x : X) (P : Prop) : Prop :=
  exists r, run p w = (r, w) /\ (r = Ok x <-> P) /\ (forall y, r = Ok y -> y = x).

Lemma decides_ret {E X} (x : X) w : decides (E := E) (Ret (Ok x)) w x True.
Proof using Type. exists (Ok x). split_and!; [done|done|by intros y [= <-]]. Qed.

Lemma decides_guard {E X} (c : bool) (e : E) (p : prog (result E X)) w x (P Q : Prop) :
  (c = true -> ~ P) -> (c = false -> P) -> decides p w x Q ->
  decides (if c then Ret (Err e) else p) w x (P /\ Q).
Proof using Type.
  intros Ht Hf (r & Er & Hr & Hx). destruct c.
  - exists (Err e). split_and!; [done| |done]. split; [done|]. intros [HP _]. by destruct (Ht eq_refl).
  - exists r. split_and!; [done| |done]. rewrite Hr. split; [auto|]. by intros [_ ?].
Qed.

Lemma decides_read {E X Y} (q : prog Y) (f : Y -> prog (result E X)) w v x P :
  run q w = (v, w) -> decides (f v) w x P -> decides (prog_bind q f) w x P.
Proof using Type. intros Eq (r & Er & HP). exists r. split; [|done]. by rewrite run_bind, Eq. Qed.

Lemma decides_iff {E X} (p : prog (result E X)) w x P Q : (P <-> Q) -> decides p w x P -> decides p w x Q.
Proof using Type. intros HPQ (r & Er & Hr & Hx). exists r. split_and!; [done|by rewrite Hr|done]. Qed.

(** An optional check on one more read. *)
Lemma run_optional_check (z : Z) (q : prog Z) (f : Z -> bool) v w :
  run q w = (v, w) -> run (if z =? 0 then Ret false else x <- q; Ret (f x)) w = (negb (z =? 0) && f v, w).
Proof using Type. intros E. destruct (z =? 0); [done|]. by rewrite run_bind, E. Qed.

(** The guard on condition [P], decided by the case analysis [cases]. *)
Tactic Notation "guard" constr(P) "by" tactic3(cases) :=
  refine (decides_guard _ _ _ _ _ P _ _ _ _);
    [cases; cbn [negb andb]; intuition (discriminate || lia || congruence)..|].
Ltac reads v := eapply (decides_read _ _ _ v); [reflexivity|].

Lemma run_session_checks s asset to amt caller b w :
  decides (session_checks s asset to amt caller b) w (day_spent w s b, day_now w s b)
    (session_allows w s asset to amt caller b).
Proof using Type.
  eapply decides_iff; [|unfold session_checks].
  2:{ reads (negb (s_owner w s =? 0)). guard (s_owner w s <> 0) by destruct (Z.eqb_spec (s_owner w s) 0).
      reads (s_delegate w s). guard (caller = s_delegate w s) by destruct (Z.eqb_spec caller (s_delegate w s)).
      reads (s_expires w s). guard (s_expires w s = 0 \/ b <= s_expires w s) by
        destruct (Z.eqb_spec (s_expires w s) 0), (Z.ltb_spec (s_expires w s) b).
      reads (s_effective w s). guard (s_effective w s <= b \/ s_effective w s = 0) by
        destruct (Z.eqb_spec (s_effective w s) 0), (Z.ltb_spec b (s_effective w s)).
      reads (s_min_interval w s).
      eapply decides_read; [apply (run_optional_check (s_min_interval w s) (read_session_last_execution_block s)
        (fun l => negb (l =? 0) && (wrap_u64 (b - l) <? s_min_interval w s)) (s_last_block w s)); reflexivity|].
      guard (s_min_interval w s = 0 \/ s_last_block w s = 0 \/ s_min_interval w s <= wrap_u64 (b - s_last_block w s)) by
        destruct (Z.eqb_spec (s_min_interval w s) 0), (Z.eqb_spec (s_last_block w s) 0),
          (Z.ltb_spec (wrap_u64 (b - s_last_block w s)) (s_min_interval w s)).
      reads (s_max_exec w s).
      eapply decides_read; [apply (run_optional_check (s_max_exec w s) (read_session_execution_count s)
        (fun n => s_max_exec w s <=? n) (s_exec_count w s)); reflexivity|].
      guard (s_max_exec w s = 0 \/ s_exec_count w s < s_max_exec w s) by
        destruct (Z.eqb_spec (s_max_exec w s) 0), (Z.leb_spec (s_max_exec w s) (s_exec_count w s)).
      reads (s_limits w s). guard (amt <= (s_limits w s).1) by destruct (Z.ltb_spec (s_limits w s).1 amt).
      reads (s_last_day w s). reads (s_spent w s). cbv zeta. rewrite day_cases. cbv iota beta.
      guard (wrap_u128 (day_spent w s b + amt) <= (s_limits w s).2) by
        destruct (Z.ltb_spec (s_limits w s).2 (wrap_u128 (day_spent w s b + amt))).
      reads (s_max_total w s).
      eapply decides_read; [apply (run_optional_check (s_max_total w s) (read_session_total_spent s)
        (fun t => s_max_total w s <? wrap_u128 (t + amt)) (s_total w s)); reflexivity|].
      guard (s_max_total w s = 0 \/ wrap_u128 (s_total w s + amt) <= s_max_total w s) by
        destruct (Z.eqb_spec (s_max_total w s) 0), (Z.ltb_spec (s_max_total w s) (wrap_u128 (s_total w s + amt))).
      eapply decides_read; [apply run_read_assets|]. guard (s_assets w s = [] \/ asset ∈ s_assets w s) by repeat case_bool_decide.
      eapply decides_read; [apply run_read_recipients|].
      guard (s_recipients w s = [] \/ to ∈ s_recipients w s) by repeat case_bool_decide.
      apply decides_ret. }
  split; [intros; destruct_and!; by constructor|]. intros []. by split_and!.
Qed.

(** What a transfer records in the slots of its session. *)
Definition recorded w s amt b : world :=
  kwr (slot_session_total_spent s) (u128_to_u256 (wrap_u128 (s_total w s + amt)))
  (kwr (slot_session_last_execution_block s) (u64_to_u256 b)
  (kwr (slot_session_execution_count s) (u64_to_u256 (wrap_u64 (s_exec_count w s + 1)))
  (kwr (slot_session_last_day s) (u64_to_u256 (day_now w s b))
  (kwr (slot_session_spent s) (u128_to_u256 (wrap_u128 (day_spent w s b + amt))) w)))).

Ltac agent_keys := repeat (rewrite (krd_kwr_ne agent_used) by (cbn [agent_used]; done || fit || congruence)).

Lemma execute_session_ok s asset to amt caller b w w' :
  fits U64_MAX s -> run (execute_session_transfer s asset to amt caller b) w = (Ok tt, w') ->
  session_allows w s asset to amt caller b /\
  exists w2, run (deduct_balance asset (s_owner w s) amt) (recorded w s amt b) = (Ok tt, w2) /\
    run (add_balance asset to amt) w2 = (Ok tt, w').
Proof using All.
  intros Hs E. unfold execute_session_transfer in E. rewrite run_try in E.
  destruct (run_session_checks s asset to amt caller b w) as (r & Er & Hr & Hx). rewrite Er in E.
  destruct r as [d|e]; [|done]. pose proof (Hx d eq_refl) as ->. split; [by apply Hr|]. cbn [fst snd] in E.
  unfold read_session_execution_count, read_session_total_spent, read_session_owner in E.
  autorewrite with krun in E. cbv iota beta in E. autorewrite with krun in E.
  revert E. agent_keys. fold (s_exec_count w s) (s_total w s) (s_owner w s). fold (recorded w s amt b).
  destruct (run (deduct_balance asset (s_owner w s) amt) (recorded w s amt b)) as [[[]|e] w2] eqn:Ed; cbn [map_err fst snd]; [|done].
  destruct (run (add_balance asset to amt) w2) as [[[]|e] w3] eqn:Ea; cbn [map_err fst snd]; [|done].
  intros [= <-]. by exists w2.
Qed.

(** Credits and debits of the ledger leave the agent storage alone. *)
Lemma credit_elsewhere id a v w r w' : run (add_balance id a v) w = (r, w') -> same_at AGENT_ADDRESS w w'.
Proof using Type. apply run_elsewhere_eq, writes_add_balance. intros s. done. Qed.
Lemma debit_elsewhere id a v w r w' : run (deduct_balance id a v) w = (r, w') -> same_at AGENT_ADDRESS w w'.
Proof using Type. apply run_elsewhere_eq, writes_deduct_balance. intros s. done. Qed.

Lemma execute_records s asset to amt caller b w w' :
  fits U64_MAX s -> run (execute_session_transfer s asset to amt caller b) w = (Ok tt, w') ->
  same_at AGENT_ADDRESS (recorded w s amt b) w'.
Proof using All.
  intros Hs E. apply execute_session_ok in E as (_ & w2 & E1 & E2); [|done].
  etransitivity; [by eapply debit_elsewhere|by eapply credit_elsewhere].
Qed.

(** ** Frames *)

(** The slots of one session. *)
Definition of_session (s : Z) (k : agent_key) : Prop := session_of k = Some s.

Lemma writes_clear_all P ks :
  Forall (fun k => agent_used k /\ P k) ks -> writes (kwrites agent_used P) (clear_all ks).
Proof using Type.
  induction 1 as [|k ks [Hu HP] _ IH]; cbn [clear_all]; [constructor|].
  apply writes_bind; [by apply writes_kstore|intros _; apply IH].
Qed.

Lemma writes_store_entries P conv key i vs :
  (forall j, i <= j < i + Z.of_nat (length vs) -> agent_used (key j) /\ P (key j)) ->
  writes (kwrites agent_used P) (store_entries conv key i vs).
Proof using Type.
  revert i. induction vs as [|v vs IH]; intros i HP; cbn [store_entries length] in *; [constructor|].
  apply writes_bind; [apply writes_kstore; apply HP; lia|]. intros _. apply IH. intros j Hj. apply HP. lia.
Qed.

(** ** Agents *)

Definition agent_count w : Z := u256_to_u64 (krd w slot_agent_count).
Definition a_owner w i : Z := u256_to_address (krd w (slot_agent_owner i)).
Definition a_addr w i : Z := u256_to_address (krd w (slot_agent_address i)).
Definition a_of w a : Z := u256_to_u64 (krd w (slot_agent_by_address a)).
Definition a_limit w i : Z := (unpack_agent_perms (krd w (slot_agent_perms i))).1.1.
Definition abal w i asset : Z := u256_to_u128 (krd w (slot_agent_balance i asset)).
Definition put_abal i asset v w : world := kwr (slot_agent_balance i asset) (u128_to_u256 v) w.

Definition registered w (name url : list Z) (a caller b : Z) : world :=
  let n := agent_count w in
  kwr (slot_agent_registered_at n) (u64_to_u256 b)
  (kwr (slot_agent_perms n) (pack_agent_perms 1000 0 1)
  (kwr (slot_agent_url n) (write_string32 url)
  (kwr (slot_agent_name n) (write_string32 name)
  (kwr (slot_agent_by_address a) (u64_to_u256 n)
  (kwr (slot_agent_address n) (address_to_u256 a)
  (kwr (slot_agent_owner n) (address_to_u256 caller)
  (kwr slot_agent_count (u64_to_u256 (wrap_u64 (n + 1))) w))))))).

Lemma register_ok name url a caller b w w' :
  run (register_agent name url a caller b) w = (Ok tt, w') ->
  a <> 0 /\ (a_of w a = U64_MAX \/ a_addr w (a_of w a) <> a) /\ w' = registered w name url a caller b.
Proof using Type.
  unfold register_agent. destruct (Z.eqb_spec a 0); [done|]. unfold find_agent_by_address, read_agent_count.
  rewrite run_bind, run_kget. cbv iota beta. fold (a_of w a). rewrite run_bind.
  intros E. split; [done|]. destruct (Z.eqb_spec (a_of w a) U64_MAX) as [Em|Em].
  - split; [by left|]. cbn [run] in E. autorewrite with krun in E. by injection E as <-.
  - unfold read_agent_address in E. autorewrite with krun in E. fold (a_addr w (a_of w a)) in E.
    destruct (Z.eqb_spec (a_addr w (a_of w a)) a); [done|]. split; [by right|].
    autorewrite with krun in E. by injection E as <-.
Qed.

Lemma require_owner_ok i m w : 
  run (require_owner i m) w = (if a_owner w i =? 0 then Err AgentNotFound else if a_owner w i =? m then Ok tt else Err NotOwner, w).
Proof using Type.
  unfold require_owner, agent_exists, check_owner, read_agent_owner. autorewrite with krun. fold (a_owner w i).
  destruct (a_owner w i =? 0); cbn [negb]; [done|]. autorewrite with krun. fold (a_owner w i). by destruct (a_owner w i =? m).
Qed.

Lemma grant_ok i asset amt m w w' :
  run (grant_balance i asset amt m) w = (Ok tt, w') ->
  a_owner w i = m /\ m <> 0 /\ exists w1, run (deduct_balance asset m amt) w = (Ok tt, w1) /\
    abal w i asset + amt <= U128_MAX /\ w' = put_abal i asset (abal w i asset + amt) w1.
Proof using Type.
  unfold grant_balance. rewrite run_try, require_owner_ok. destruct (Z.eqb_spec (a_owner w i) 0); [done|].
  destruct (Z.eqb_spec (a_owner w i) m) as [Eo|]; [|done]. intros E. split; [done|]. split; [congruence|]. revert E.
  rewrite run_try, run_map_err. destruct (run (deduct_balance asset m amt) w) as [[[]|e] w1] eqn:Ed; cbn [map_err fst snd]; [|done].
  pose proof (same_at_krd _ _ (slot_agent_balance i asset) (debit_elsewhere _ _ _ _ _ _ Ed)) as Ek.
  unfold read_agent_balance, write_agent_balance. rewrite run_bind, run_kget. cbv iota beta. rewrite Ek. fold (abal w i asset).
  rewrite run_try. destruct (checked_add U128_MAX (abal w i asset) amt) as [v|] eqn:Ev; cbn [ok_or run]; [|done].
  apply checked_add_Some in Ev as [-> Hle]. rewrite run_bind, run_kstore. cbv iota beta. cbn [run]. intros [= <-].
  by exists w1.
Qed.

Lemma revoke_balance_ok i asset m w w' :
  run (revoke_balance i asset m) w = (Ok tt, w') ->
  a_owner w i = m /\ m <> 0 /\
  if 0 <? abal w i asset then run (add_balance asset m (abal w i asset)) (put_abal i asset 0 w) = (Ok tt, w')
  else w' = put_abal i asset 0 w.
Proof using Type.
  unfold revoke_balance. rewrite run_try, require_owner_ok. destruct (Z.eqb_spec (a_owner w i) 0); [done|].
  destruct (Z.eqb_spec (a_owner w i) m) as [Eo|]; [|done]. intros E. split; [done|]. split; [congruence|]. revert E.
  unfold read_agent_balance, write_agent_balance. rewrite run_bind, run_kget. cbv iota beta. fold (abal w i asset).
  rewrite run_bind, run_kstore. cbv iota beta. fold (put_abal i asset 0 w). destruct (0 <? abal w i asset); [|cbn [run]; congruence].
  rewrite run_map_err. destruct (run (add_balance _ _ _) _) as [[[]|e] w1]; cbn [map_err fst snd]; [congruence|done].
Qed.

(** The caller is the agent [i], and may spend [amt] at once. *)
Definition paying w (m i amt : Z) : Prop :=
  i = a_of w m /\ a_owner w i <> 0 /\ a_addr w i = m /\ amt <= a_limit w i.

Lemma calling_agent_ok m w :
  run (calling_agent m) w =
    (if (a_owner w (a_of w m) =? 0) || negb (a_addr w (a_of w m) =? m) then Err AgentNotFound else Ok (a_of w m), w).
Proof using Type.
  unfold calling_agent, find_agent_by_address, agent_exists, read_agent_owner, read_agent_address. autorewrite with krun.
  fold (a_of w m). fold (a_owner w (a_of w m)). destruct (a_owner w (a_of w m) =? 0); cbn [negb orb]; [done|].
  autorewrite with krun. fold (a_addr w (a_of w m)). by destruct (a_addr w (a_of w m) =? m).
Qed.

Lemma require_perms_ok i asset b w x w' :
  run (require_perms i asset b) w = (Ok x, w') -> w' = w /\ x.1.1 = a_limit w i.
Proof using Type.
  unfold require_perms, read_perms, a_limit. rewrite run_bind, run_kload. cbv iota beta.
  destruct (unpack_agent_perms _) as [[l e] f]. cbn [run fst].
  destruct (_ && _); [done|]. destruct (_ && _); [done|]. by intros [= <- <-].
Qed.

Lemma spend_ok i asset amt w w' :
  run (spend_agent_balance i asset amt) w = (Ok tt, w') ->
  amt <= abal w i asset /\ w' = put_abal i asset (abal w i asset - amt) w.
Proof using Type.
  unfold spend_agent_balance, read_agent_balance, write_agent_balance. rewrite run_bind, run_kget. cbv iota beta.
  fold (abal w i asset). rewrite run_try. destruct (checked_sub (abal w i asset) amt) as [v|] eqn:Ev; cbn [ok_or run]; [|done].
  apply checked_sub_Some in Ev as [-> Hle]. rewrite run_bind, run_kstore. cbv iota beta. cbn [run]. by intros [= <-].
Qed.

Lemma pay_ok asset to amt m b w w' :
  run (pay asset to amt m b) w = (Ok tt, w') ->
  exists i, paying w m i amt /\ amt <= abal w i asset /\
    run (add_balance asset to amt) (put_abal i asset (abal w i asset - amt) w) = (Ok tt, w').
Proof using Type.
  unfold pay. rewrite run_try, calling_agent_ok.
  destruct (Z.eqb_spec (a_owner w (a_of w m)) 0); [done|]. destruct (Z.eqb_spec (a_addr w (a_of w m)) m); cbn [orb negb]; [|done].
  rewrite run_try. destruct (run (require_perms _ _ _) w) as [[x|err] w1] eqn:Ep; [|done].
  apply require_perms_ok in Ep as [-> El]. destruct (Z.ltb_spec x.1.1 amt); [done|].
  rewrite run_try. destruct (run (spend_agent_balance _ _ _) w) as [[[]|err] w2] eqn:Es; [|done].
  apply spend_ok in Es as [Hle ->]. rewrite run_map_err. intros E. exists (a_of w m). split; [split_and!; [done..|lia]|]. split; [done|].
  destruct (run (add_balance _ _ _) _) as [[[]|err] w3]; cbn [map_err fst snd] in E; [congruence|done].
Qed.

Lemma batch_pay_ok asset tos amts m b w w' :
  run (batch_pay asset tos amts m b) w = (Ok tt, w') ->
  length tos = length amts /\ tos <> [] /\
  exists i, i = a_of w m /\ a_owner w i <> 0 /\ a_addr w i = m /\ (forall a, a ∈ amts -> a <= a_limit w i) /\ sum_u128 amts <= abal w i asset /\
    run (credit_all asset tos amts) (put_abal i asset (abal w i asset - sum_u128 amts) w) = (Ok tt, w').
Proof using Type.
  unfold batch_pay. destruct (Nat.eqb_spec (length tos) (length amts)); cbn [negb]; [|done].
  case_bool_decide; [done|]. rewrite run_try, calling_agent_ok.
  destruct (Z.eqb_spec (a_owner w (a_of w m)) 0); [done|]. destruct (Z.eqb_spec (a_addr w (a_of w m)) m); cbn [orb negb]; [|done].
  rewrite run_try. destruct (run (require_perms _ _ _) w) as [[x|err] w1] eqn:Ep; [|done].
  apply require_perms_ok in Ep as [-> El]. destruct (existsb _ amts) eqn:Ex; [done|].
  rewrite run_try. destruct (run (spend_agent_balance _ _ _) w) as [[[]|err] w2] eqn:Es; [|done].
  apply spend_ok in Es as [Hle ->]. intros E. split_and!; [done..|]. exists (a_of w m). split_and!; [done..| |done|done].
  intros a Ha. destruct (Z.leb_spec a x.1.1); [lia|]. exfalso.
  rewrite <- not_true_iff_false, existsb_exists in Ex. apply Ex. exists a. split; [by apply list_elem_of_In|]. by apply Z.ltb_lt.
Qed.

Definition agent_slots (i : Z) : list agent_key :=
  [slot_agent_owner i; slot_agent_address i; slot_agent_name i; slot_agent_url i; slot_agent_perms i; slot_agent_registered_at i].

Definition zeroed (ks : list agent_key) w : world := foldl (fun w k => kwr k 0 w) w ks.

Definition revoked w i : world :=
  let w1 := zeroed (agent_slots i) w in
  if a_addr w i =? 0 then w1 else kwr (slot_agent_by_address (a_addr w i)) 0 w1.

Lemma revoke_agent_ok i m w w' :
  run (revoke_agent i m) w = (Ok tt, w') -> a_owner w i = m /\ m <> 0 /\ w' = revoked w i.
Proof using Type.
  unfold revoke_agent. rewrite run_try, require_owner_ok. destruct (Z.eqb_spec (a_owner w i) 0); [done|].
  destruct (Z.eqb_spec (a_owner w i) m) as [Eo|]; [|done]. intros E. split; [done|]. split; [congruence|].
  unfold read_agent_address in E. autorewrite with krun in E. fold (a_addr w i) in E. unfold revoked.
  destruct (a_addr w i =? 0); cbn [negb] in E; autorewrite with krun in E; by injection E as <-.
Qed.

Lemma run_clear_all ks w : run (clear_all ks) w = (tt, zeroed ks w).
Proof using Type.
  revert w. induction ks as [|k ks IH]; intros w; cbn [clear_all]; [done|]. by rewrite run_bind, run_kstore, IH.
Qed.

Lemma revoke_session_ok s m w w' :
  run (revoke_session s m) w = (Ok tt, w') -> s_owner w s = m /\ m <> 0 /\ w' = zeroed (session_slots s) w.
Proof using Type.
  unfold revoke_session, read_session_owner. rewrite run_bind, run_kget. cbv iota beta. fold (s_owner w s).
  destruct (Z.eqb_spec (s_owner w s) 0); [done|]. destruct (Z.eqb_spec (s_owner w s) m) as [Eo|]; cbn [negb]; [|done].
  rewrite run_bind, run_clear_all. cbn [run]. intros [= <-]. split; [done|]. split; [congruence|done].
Qed.

Lemma credit_all_elsewhere asset tos amts w r w' :
  run (credit_all asset tos amts) w = (r, w') -> same_at AGENT_ADDRESS w w'.
Proof using Type.
  revert amts w. induction tos as [|t tos IH]; intros [|a amts] w E; cbn [credit_all] in E; try (injection E as _ <-; done).
  rewrite run_try, run_map_err in E. destruct (run (add_balance asset t a) w) as [[[]|e] w1] eqn:Ea; cbn [map_err fst snd] in E.
  - etransitivity; [by eapply credit_elsewhere|by eapply IH].
  - injection E as _ <-. by eapply credit_elsewhere.
Qed.

(** ** New sessions *)

Lemma store_entries_spec conv (key : Z -> agent_key) vs : forall i w,
  (forall j, fits U64_MAX j -> agent_used (key j)) -> (forall j j', key j = key j' -> j = j') ->
  0 <= i -> i + Z.of_nat (length vs) <= U64_MAX ->
  let w' := (run (store_entries conv key i vs) w).2 in
  (forall j v, vs !! j = Some v -> krd w' (key (i + Z.of_nat j)) = conv v) /\
  (forall k, agent_used k -> (forall j, i <= j -> k <> key j) -> krd w' k = krd w k).
Proof using All.
  induction vs as [|v vs IH]; intros i w Hu Hi H0 Hl; cbn [store_entries length] in *; [by split|].
  rewrite run_bind, run_kstore. cbv iota beta.
  destruct (IH (i + 1) (kwr (key i) (conv v) w) Hu Hi ltac:(lia) ltac:(lia)) as [E1 E2]. split.
  - intros [|j] x Hx; cbn in Hx.
    + injection Hx as ->. rewrite Z.add_0_r, E2; [apply krd_kwr_same|apply Hu; fit|].
      intros j Hj Ej. apply Hi in Ej. lia.
    + replace (i + Z.of_nat (S j)) with (i + 1 + Z.of_nat j) by lia. by apply E1.
  - intros k Hk Hn. rewrite E2; [|done|intros j Hj; apply Hn; lia].
    apply (krd_kwr_ne agent_used); [apply Hu; fit|done|]. intros Ej. by apply (Hn i).
Qed.

Lemma entries_stored w conv conv' (key : Z -> agent_key) vs :
  (forall j v, vs !! j = Some v -> krd w (key (Z.of_nat j)) = conv' v) -> (forall v, v ∈ vs -> conv (conv' v) = v) ->
  entries w conv key (Z.of_nat (length vs)) = vs.
Proof using Type.
  intros Hs Hc. unfold entries. apply list_eq. intros j. rewrite list_lookup_fmap.
  destruct (decide (j < length vs)%nat) as [Hj|Hj].
  - rewrite lookup_seqZ_lt by lia. cbn [fmap option_fmap option_map]. rewrite Z.add_0_l. destruct (lookup_lt_is_Some_2 vs j Hj) as [v Ev]. rewrite Ev.
    rewrite (Hs j v Ev), Hc by (by eapply list_elem_of_lookup_2). done.
  - rewrite lookup_seqZ_ge by lia. by rewrite lookup_ge_None_2 by lia.
Qed.

Definition policy_fits (p : SessionPolicy) : Prop :=
  fits U128_MAX (max_total_spend p) /\ fits U64_MAX (min_interval_blocks p) /\ fits U64_MAX (effective_at p) /\
  fits U64_MAX (max_executions p) /\ Forall (fits U64_MAX) (allowed_assets p) /\
  Forall (fits ADDRESS_MAX) (allowed_recipients p) /\
  Z.of_nat (length (allowed_assets p)) <= U64_MAX /\ Z.of_nat (length (allowed_recipients p)) <= U64_MAX.

(** The terms of a session: owner, delegate, limits, expiry and policy. *)
Record terms : Type := mkTerms {
  t_owner : Z; t_delegate : Z; t_per_tx : Z; t_daily : Z; t_expires : Z; t_policy : SessionPolicy
}.

Definition terms_fit (t : terms) : Prop :=
  fits ADDRESS_MAX (t_owner t) /\ fits ADDRESS_MAX (t_delegate t) /\ fits U128_MAX (t_per_tx t) /\
  fits U128_MAX (t_daily t) /\ fits U64_MAX (t_expires t) /\ policy_fits (t_policy t).

(** The slots of a session hold its terms, the owner apart. *)
Record on_terms w s (t : terms) : Prop := {
  ot_delegate : s_delegate w s = t_delegate t;
  ot_limits : s_limits w s = (t_per_tx t, t_daily t);
  ot_expires : s_expires w s = t_expires t;
  ot_max_total : s_max_total w s = max_total_spend (t_policy t);
  ot_min_interval : s_min_interval w s = min_interval_blocks (t_policy t);
  ot_effective : s_effective w s = effective_at (t_policy t);
  ot_max_exec : s_max_exec w s = max_executions (t_policy t);
  ot_assets : s_assets w s = allowed_assets (t_policy t);
  ot_recipients : s_recipients w s = allowed_recipients (t_policy t)
}.

Definition creating (t : terms) : prog (gres Z) :=
  create_session (t_delegate t) (t_per_tx t) (t_daily t) (t_expires t) (t_policy t) (t_owner t).

(** The slots of the session before its lists are stored, and after. *)
Definition opened w (t : terms) : world :=
  let n := session_count w in
  kwr (slot_session_allowed_assets_count n) (u64_to_u256 (Z.of_nat (length (allowed_assets (t_policy t)))))
  (kwr (slot_session_last_day n) 0
  (kwr (slot_session_spent n) 0
  (kwr (slot_session_expires n) (u64_to_u256 (t_expires t))
  (kwr (slot_session_limits n) (pack_session_limits (t_per_tx t) (t_daily t))
  (kwr (slot_session_delegate n) (address_to_u256 (t_delegate t))
  (kwr (slot_session_owner n) (address_to_u256 (t_owner t))
  (kwr slot_session_count (u64_to_u256 (wrap_u64 (n + 1))) w))))))).

Definition closed_off n (t : terms) w : world :=
  kwr (slot_session_total_spent n) 0
  (kwr (slot_session_last_execution_block n) 0
  (kwr (slot_session_execution_count n) 0
  (kwr (slot_session_max_executions n) (u64_to_u256 (max_executions (t_policy t)))
  (kwr (slot_session_effective_at n) (u64_to_u256 (effective_at (t_policy t)))
  (kwr (slot_session_min_interval_blocks n) (u64_to_u256 (min_interval_blocks (t_policy t)))
  (kwr (slot_session_max_total_spend n) (u128_to_u256 (max_total_spend (t_policy t))) w)))))).

Definition created w (t : terms) : world :=
  let n := session_count w in
  let w1 := (run (store_entries u64_to_u256 (slot_session_allowed_asset n) 0 (allowed_assets (t_policy t))) (opened w t)).2 in
  let w2 := kwr (slot_session_allowed_recipients_count n)
              (u64_to_u256 (Z.of_nat (length (allowed_recipients (t_policy t))))) w1 in
  closed_off n t
    (run (store_entries address_to_u256 (slot_session_allowed_recipient n) 0 (allowed_recipients (t_policy t))) w2).2.

Lemma run_creating t w : run (creating t) w = (Ok (session_count w), created w t).
Proof using Type.
  unfold creating, create_session, read_session_count. autorewrite with krun. fold (session_count w).
  fold (opened w t). unfold created. set (p1 := store_entries u64_to_u256 _ _ _). set (p2 := store_entries address_to_u256 _ _ _).
  destruct (run p1 (opened w t)) as [[] w1]. cbn [snd]. autorewrite with krun.
  destruct (run p2 _) as [[] w2]. cbn [snd]. autorewrite with krun. done.
Qed.

Lemma session_count_fits w : fits U64_MAX (session_count w).
Proof using Type. apply u256_to_u64_fits. Qed.

Section Create.
Context (w : world) (t : terms) (Ht : terms_fit t).
Let n := session_count w.
Let w1 := (run (store_entries u64_to_u256 (slot_session_allowed_asset n) 0 (allowed_assets (t_policy t))) (opened w t)).2.
Let w2 := kwr (slot_session_allowed_recipients_count n) (u64_to_u256 (Z.of_nat (length (allowed_recipients (t_policy t))))) w1.
Let w3 := (run (store_entries address_to_u256 (slot_session_allowed_recipient n) 0 (allowed_recipients (t_policy t))) w2).2.

Lemma assets_stored :
  (forall j v, allowed_assets (t_policy t) !! j = Some v -> krd w1 (slot_session_allowed_asset n (Z.of_nat j)) = u64_to_u256 v) /\
  (forall k, agent_used k -> (forall j, k <> slot_session_allowed_asset n j) -> krd w1 k = krd (opened w t) k).
Proof using All.
  destruct Ht as (_ & _ & _ & _ & _ & _ & _ & _ & _ & _ & _ & Hla & _).
  destruct (store_entries_spec u64_to_u256 (slot_session_allowed_asset n) (allowed_assets (t_policy t)) 0 (opened w t)) as [E1 E2];
    [intros j Hj; split; [apply session_count_fits|done]|by intros j j' [= ->]|lia|lia|].
  split; [exact E1|]. intros k Hk Hn. apply E2; [done|]. intros j _. apply Hn.
Qed.

Lemma recipients_stored :
  (forall j v, allowed_recipients (t_policy t) !! j = Some v -> krd w3 (slot_session_allowed_recipient n (Z.of_nat j)) = address_to_u256 v) /\
  (forall k, agent_used k -> (forall j, k <> slot_session_allowed_recipient n j) -> krd w3 k = krd w2 k).
Proof using All.
  destruct Ht as (_ & _ & _ & _ & _ & _ & _ & _ & _ & _ & _ & _ & Hlr).
  destruct (store_entries_spec address_to_u256 (slot_session_allowed_recipient n) (allowed_recipients (t_policy t)) 0 w2) as [E1 E2];
    [intros j Hj; split; [apply session_count_fits|done]|by intros j j' [= ->]|lia|lia|].
  split; [exact E1|]. intros k Hk Hn. apply E2; [done|]. intros j _. apply Hn.
Qed.

Ltac key_ok := first [done | apply session_count_fits | split; [apply session_count_fits|by fit] | congruence].
Ltac new_key :=
  repeat (rewrite (krd_kwr_ne agent_used) by (cbn [agent_used]; key_ok)); rewrite ?krd_kwr_same.
(** Reads a key of the new storage. *)
Ltac created_key :=
  unfold created; cbv zeta; fold n; fold w1; fold w2; fold w3; unfold closed_off; new_key;
  try (rewrite (proj2 recipients_stored) by (cbn [agent_used]; key_ok); unfold w2; new_key;
       try (rewrite (proj2 assets_stored) by (cbn [agent_used]; key_ok); unfold opened; fold n; new_key)).

Lemma created_frame k :
  agent_used k -> session_of k <> Some n -> k <> slot_session_count -> krd (created w t) k = krd w k.
Proof using All.
  intros Hk Hs Hc. unfold created; cbv zeta; fold n; fold w1; fold w2; fold w3; unfold closed_off.
  repeat (rewrite (krd_kwr_ne agent_used); [|cbn [agent_used]; apply session_count_fits|done|intros <-; by apply Hs]).
  rewrite (proj2 recipients_stored); [|done|intros j ->; by apply Hs]. unfold w2.
  repeat (rewrite (krd_kwr_ne agent_used); [|cbn [agent_used]; apply session_count_fits|done|intros <-; by apply Hs]).
  rewrite (proj2 assets_stored); [|done|intros j ->; by apply Hs]. unfold opened; fold n.
  repeat (rewrite (krd_kwr_ne agent_used); [|cbn [agent_used]; apply session_count_fits|done|intros <-; by apply Hs]).
  by apply (krd_kwr_ne agent_used).
Qed.

Lemma created_count : session_count (created w t) = wrap_u64 (n + 1).
Proof using All. unfold session_count at 1. created_key. apply u64_word, wrap_u64_fits. Qed.

Lemma created_fresh :
  s_owner (created w t) n = t_owner t /\ s_spent (created w t) n = 0 /\ s_last_day (created w t) n = 0 /\
  s_exec_count (created w t) n = 0 /\ s_last_block (created w t) n = 0 /\ s_total (created w t) n = 0.
Proof using All.
  unfold s_owner, s_spent, s_last_day, s_exec_count, s_last_block, s_total. split_and!; created_key; [apply address_word, Ht|reflexivity..].
Qed.

Lemma created_assets : s_assets (created w t) n = allowed_assets (t_policy t).
Proof using All.
  pose proof Ht as (_ & _ & _ & _ & _ & _ & _ & _ & _ & Ha & _ & Hla & _). rewrite Forall_forall in Ha.
  unfold s_assets. replace (u256_to_u64 _) with (Z.of_nat (length (allowed_assets (t_policy t)))).
  - apply (entries_stored _ _ u64_to_u256); [|intros v Hv; apply u64_word; by apply Ha].
    intros j v Hj. assert (fits U64_MAX (Z.of_nat j)) by (apply lookup_lt_Some in Hj; fit).
    rewrite <- (proj1 assets_stored j v Hj). unfold created; cbv zeta; fold n; fold w1; fold w2; fold w3; unfold closed_off.
    new_key. rewrite (proj2 recipients_stored) by (cbn [agent_used]; key_ok). unfold w2. by new_key.
  - created_key. symmetry. apply u64_word. fit.
Qed.

Lemma created_recipients : s_recipients (created w t) n = allowed_recipients (t_policy t).
Proof using All.
  pose proof Ht as (_ & _ & _ & _ & _ & _ & _ & _ & _ & _ & Hr & _ & Hlr). rewrite Forall_forall in Hr.
  unfold s_recipients. replace (u256_to_u64 _) with (Z.of_nat (length (allowed_recipients (t_policy t)))).
  - apply (entries_stored _ _ address_to_u256); [|intros v Hv; apply address_word; by apply Hr].
    intros j v Hj. assert (fits U64_MAX (Z.of_nat j)) by (apply lookup_lt_Some in Hj; fit).
    rewrite <- (proj1 recipients_stored j v Hj). unfold created; cbv zeta; fold n; fold w1; fold w2; fold w3; unfold closed_off.
    by new_key.
  - created_key. symmetry. apply u64_word. fit.
Qed.

Lemma created_terms : on_terms (created w t) n t.
Proof using All.
  pose proof Ht as (_ & Hd & Hp & Hdl & He & Hm & Hi & Hef & Hx & _).
  split; [..|apply created_assets|apply created_recipients];
    unfold s_delegate, s_limits, s_expires, s_max_total, s_min_interval, s_effective, s_max_exec; created_key.
  - exact (address_word _ Hd).
  - exact (pack_limits_round_trip _ _ Hp Hdl).
  - exact (u64_word _ He).
  - exact (u128_word _ Hm).
  - exact (u64_word _ Hi).
  - exact (u64_word _ Hef).
  - exact (u64_word _ Hx).
Qed.
End Create.
End Spec.
