(* ===== verification/AgentProps.v ===== *)
(** * AgentProps: what owners and delegates can rely on

    Histories of agent operations over the blocks: a session spends within its
    terms whatever else happens, a revoked session spends nothing, addresses
    and agents correspond, and the balance of a revoked agent is out of reach. *)

From stdpp Require Import base gmap list strings.
From Stdlib Require Import ZArith Lia.
From S2P Require Import Prelude Provider World EvmProvider Refinement Dispatch Utils.
From S2P Require Import Asset AssetSpec Keyed Agent AgentSpec.

Local Open Scope Z_scope.
Local Open Scope callnode_scope.

(** ** Operations *)

Inductive agent_op : Type :=
| op_register (c : registerAgentCall)
| op_grant (c : grantBalanceCall)
| op_revoke_balance (c : agentAssetCall)
| op_pay (c : payCall)
| op_batch (c : batchPayCall)
| op_revoke_agent (agent_id : Z)
| op_create (c : createSessionCall)
| op_revoke_session (session_id : Z)
| op_execute (c : executeSessionCall).

Definition terms_of (m : Z) (c : createSessionCall) : terms :=
  mkTerms m (cs_delegate c) (cs_perTxLimit c) (cs_dailyLimit c) (cs_expiresAt c)
    (mkPolicy (cs_maxTotalSpend c) (cs_minIntervalBlocks c) (cs_effectiveAt c) (cs_maxExecutions c)
       (cs_allowedAssets c) (cs_allowedRecipients c)).

(** Arguments of the width of their types. *)
Definition agent_op_fits (m : Z) (op : agent_op) : Prop :=
  fits ADDRESS_MAX m /\
  match op with
  | op_register c => fits ADDRESS_MAX (ra_agentAddress c)
  | op_grant c => fits U64_MAX (gr_agentId c) /\ fits U64_MAX (gr_assetId c) /\ fits U128_MAX (gr_amount c)
  | op_revoke_balance c => fits U64_MAX (aa_agentId c) /\ fits U64_MAX (aa_assetId c)
  | op_pay c => fits U64_MAX (py_assetId c) /\ fits ADDRESS_MAX (py_to c) /\ fits U128_MAX (py_amount c)
  | op_batch c => fits U64_MAX (bp_assetId c) /\ Forall (fits ADDRESS_MAX) (bp_to c) /\
      Forall (fits U128_MAX) (bp_amounts c) /\ Z.of_nat (length (bp_amounts c)) <= U64_MAX
  | op_revoke_agent i => fits U64_MAX i
  | op_create c => terms_fit (terms_of m c)
  | op_revoke_session s => fits U64_MAX s
  | op_execute c => fits U64_MAX (es_sessionId c) /\ fits U64_MAX (es_assetId c) /\
      fits ADDRESS_MAX (es_to c) /\ fits U128_MAX (es_amount c)
  end.

Section Ops.
Context `{Keccak, AddressDisplay} `{!Layout agent_used}.
Implicit Types (w : world).

Definition block w : Z := e_block_number (w_env w).

Definition op_handler (m : Z) (op : agent_op) : prog (res unit) :=
  match op with
  | op_register c => register_agent_handler m c
  | op_grant c => grant_balance_handler m c
  | op_revoke_balance c => revoke_balance_handler m c
  | op_pay c => pay_handler m c
  | op_batch c => batch_pay_handler m c
  | op_revoke_agent i => revoke_agent_handler m i
  | op_create c => do? create_session_handler m c; Ret (Ok tt)
  | op_revoke_session s => revoke_session_handler m s
  | op_execute c => execute_session_handler m c
  end.

(** The operation of the storage behind a handler. *)
Definition op_core (m : Z) (op : agent_op) (b : Z) : prog (gres unit) :=
  match op with
  | op_register c => register_agent (ra_name c) (ra_url c) (ra_agentAddress c) m b
  | op_grant c => grant_balance (gr_agentId c) (gr_assetId c) (gr_amount c) m
  | op_revoke_balance c => revoke_balance (aa_agentId c) (aa_assetId c) m
  | op_pay c => pay (py_assetId c) (py_to c) (py_amount c) m b
  | op_batch c => batch_pay (bp_assetId c) (bp_to c) (bp_amounts c) m b
  | op_revoke_agent i => revoke_agent i m
  | op_create c => do? creating (terms_of m c); Ret (Ok tt)
  | op_revoke_session s => revoke_session s m
  | op_execute c => execute_session_transfer (es_sessionId c) (es_assetId c) (es_to c) (es_amount c) m b
  end.

Lemma caller_ok {A} m (f : Z -> prog (res A)) w x w' :
  run (try_ (Ret (require_caller m)) f) w = (Ok x, w') -> m <> 0 /\ run (f m) w = (Ok x, w').
Proof using Type.
  rewrite run_try. unfold require_caller. destruct (Z.eqb_spec m 0); cbn [run]; [done|]. auto.
Qed.

Lemma run_check_compliance_eq a w : exists r, run (check_compliance a) w = (r, w).
Proof using Type. by eexists. Qed.

Lemma compliance_ok {A} a (f : unit -> prog (res A)) w x w' :
  run (try_ (check_compliance a) f) w = (Ok x, w') -> run (f tt) w = (Ok x, w').
Proof using Type.
  rewrite run_try. destruct (run_check_compliance_eq a w) as [r ->]. by destruct r as [[]|e].
Qed.

Lemma all_compliance_ok {A} accounts (f : unit -> prog (res A)) w x w' :
  run (try_ (check_all_compliance accounts) f) w = (Ok x, w') -> run (f tt) w = (Ok x, w').
Proof using Type.
  rewrite run_try. induction accounts as [|a accounts IH]; cbn [check_all_compliance]; [done|].
  rewrite run_try. destruct (run_check_compliance_eq a w) as [r ->]. by destruct r as [[]|e].
Qed.

Lemma agenting_ok {A} (p : prog (gres A)) w x w' : run (agenting p) w = (Ok x, w') -> run p w = (Ok x, w').
Proof using Type. apply run_map_err_ok. Qed.

(** The precompile writes out the steps of granting; they are those of the
    storage. *)
Lemma grant_handler_core m c w w' :
  run (grant_balance_handler m c) w = (Ok tt, w') ->
  m <> 0 /\ run (grant_balance (gr_agentId c) (gr_assetId c) (gr_amount c) m) w = (Ok tt, w').
Proof using Type.
  unfold grant_balance_handler. intros E. apply caller_ok in E as [Hm E]; cbv beta in E. split; [done|]. apply compliance_ok in E; cbv beta in E.
  unfold grant_balance. rewrite run_try in E. rewrite run_try. unfold agenting in E. rewrite run_map_err, require_owner_ok in E.
  rewrite require_owner_ok. cbn [fst snd] in E. destruct (_ =? 0); [done|]. destruct (_ =? m); [|done]. cbn [map_err] in E.
  rewrite run_try, run_map_err in E. rewrite run_try, run_map_err.
  destruct (run (deduct_balance _ _ _) w) as [[[]|e] w1]; cbn [map_err fst snd] in *; [|done].
  rewrite run_bind in E. rewrite run_bind. unfold read_agent_balance in *. rewrite run_kget in E. rewrite run_kget. cbv iota beta in *.
  rewrite run_try in E. rewrite run_try. destruct (checked_add _ _ _) as [v|]; cbn [ok_or run] in *; [|done].
  rewrite run_try in E. rewrite run_bind. unfold write_agent_balance. rewrite run_kstore. cbn [run]. change (run (sstore _ _ ?x) w1) with (Ok tt : res unit, kwr (slot_agent_balance (gr_agentId c) (gr_assetId c)) x w1) in E. cbn [run] in E. injection E as <-. done.
Qed.

Lemma handler_core m op w w' :
  run (op_handler m op) w = (Ok tt, w') -> m <> 0 /\ run (op_core m op (block w)) w = (Ok tt, w').
Proof using Type.
  destruct op as [c|c|c|c|c|i|c|s|c]; cbn [op_handler op_core]; [|apply grant_handler_core|..]; intros E.
  - apply caller_ok in E as [Hm E]; cbv beta in E. split; [done|]. rewrite run_bind in E. by apply agenting_ok in E.
  - apply caller_ok in E as [Hm E]; cbv beta in E. split; [done|]. apply compliance_ok in E; cbv beta in E. by apply agenting_ok in E.
  - apply caller_ok in E as [Hm E]; cbv beta in E. split; [done|]. apply compliance_ok in E; cbv beta in E. rewrite run_bind in E. by apply agenting_ok in E.
  - apply caller_ok in E as [Hm E]; cbv beta in E. split; [done|]. apply all_compliance_ok in E; cbv beta in E. rewrite run_bind in E. by apply agenting_ok in E.
  - apply caller_ok in E as [Hm E]; cbv beta in E. split; [done|]. by apply agenting_ok in E.
  - rewrite run_try in E. destruct (run (create_session_handler m c) w) as [[n|e] w1] eqn:Ec; [|done].
    apply caller_ok in Ec as [Hm Ec]. split; [done|]. apply agenting_ok in Ec. rewrite run_try. unfold creating.
    cbn [terms_of t_delegate t_per_tx t_daily t_expires t_policy t_owner]. rewrite Ec. by injection E as <-.
  - apply caller_ok in E as [Hm E]; cbv beta in E. split; [done|]. by apply agenting_ok in E.
  - apply caller_ok in E as [Hm E]; cbv beta in E. split; [done|]. apply compliance_ok in E; cbv beta in E. rewrite run_bind in E. by apply agenting_ok in E.
Qed.

(** ** Frames *)

Lemma agent_count_fits w : fits U64_MAX (agent_count w).
Proof using Type. apply u256_to_u64_fits. Qed.
Lemma a_of_fits w a : fits U64_MAX (a_of w a).
Proof using Type. apply u256_to_u64_fits. Qed.
Lemma a_addr_fits w i : fits ADDRESS_MAX (a_addr w i).
Proof using Type. apply u256_to_address_fits. Qed.

Lemma same_agent w w' (k : agent_key) : same_at AGENT_ADDRESS w w' -> krd w' k = krd w k.
Proof using Type. intros Sa. apply Sa. Qed.

Lemma krd_zeroed ks w k :
  Forall agent_used ks -> agent_used k -> krd (zeroed ks w) k = if decide (k ∈ ks) then 0 else krd w k.
Proof using All.
  unfold zeroed. revert w. induction ks as [|k' ks IH]; intros w Hks Hk; cbn [foldl].
  { by rewrite decide_False by apply not_elem_of_nil. }
  apply Forall_cons in Hks as [Hk' Hks]. rewrite IH by done. rewrite (krd_kwr agent_used) by done.
  destruct (decide (k ∈ ks)); [by rewrite decide_True by (by apply list_elem_of_further)|].
  destruct (decide (k' = k)) as [->|Hne]; [by rewrite decide_True by apply list_elem_of_here|].
  rewrite decide_False; [done|]. rewrite elem_of_cons. naive_solver.
Qed.

Lemma session_slots_used s : fits U64_MAX s -> Forall agent_used (session_slots s).
Proof using Type. intros Hf. repeat (apply Forall_cons; split; [exact Hf|]). by apply Forall_nil. Qed.
Lemma agent_slots_used i : fits U64_MAX i -> Forall agent_used (agent_slots i).
Proof using Type. intros Hf. repeat (apply Forall_cons; split; [exact Hf|]). by apply Forall_nil. Qed.

(** The keys an operation may write. *)
Definition agent_op_writes (op : agent_op) w (k : agent_key) : Prop :=
  match op with
  | op_create _ => session_of k = Some (session_count w) \/ k = slot_session_count
  | op_revoke_session s => session_of k = Some s
  | op_execute c => session_of k = Some (es_sessionId c)
  | _ => agent_side k
  end.

Ltac used_now := cbn [agent_used]; first [assumption | apply agent_count_fits | apply a_of_fits | apply a_addr_fits
  | split; [first [apply a_of_fits | assumption]|assumption] | exact I].
Ltac apart Hs := repeat (rewrite (krd_kwr_ne agent_used); [|used_now|used_now|intros <-; by apply Hs]).

Lemma agent_slots_side k i : k ∈ agent_slots i -> agent_side k.
Proof using Type. unfold agent_slots, agent_side. rewrite !elem_of_cons. intros Hk. destruct_or?; subst; try done. by apply not_elem_of_nil in Hk. Qed.
Lemma session_slots_of k s : k ∈ session_slots s -> session_of k = Some s.
Proof using Type. unfold session_slots. rewrite !elem_of_cons. intros Hk. destruct_or?; subst; try done. by apply not_elem_of_nil in Hk. Qed.

Lemma agent_op_frame m op b w w' k :
  agent_op_fits m op -> agent_used k -> ~ agent_op_writes op w k ->
  run (op_core m op b) w = (Ok tt, w') -> krd w' k = krd w k.
Proof using All.
  intros [Hm Hf] Hk Hs E. destruct op as [c|c|c|c|c|i|c|s'|c]; cbn [op_core agent_op_writes] in *.
  - apply register_ok in E as (_ & _ & ->). unfold registered. cbv zeta. apart Hs. done.
  - apply grant_ok in E as (_ & _ & w1 & Ed & _ & ->). unfold put_abal. destruct Hf as (Hi & Ha & _). apart Hs.
    exact (same_agent _ _ k (debit_elsewhere _ _ _ _ _ _ Ed)).
  - apply revoke_balance_ok in E as (_ & _ & E). destruct Hf as [Hi Ha].
    assert (krd (put_abal (aa_agentId c) (aa_assetId c) 0 w) k = krd w k) as <- by (unfold put_abal; by apart Hs).
    destruct (0 <? _); [|by subst]. exact (same_agent _ _ k (credit_elsewhere _ _ _ _ _ _ E)).
  - apply pay_ok in E as (i & (-> & _) & _ & E). destruct Hf as (Ha & _).
    rewrite (same_agent _ _ k (credit_elsewhere _ _ _ _ _ _ E)). unfold put_abal. by apart Hs.
  - apply batch_pay_ok in E as (_ & _ & i & -> & _ & _ & _ & _ & E). destruct Hf as (Ha & _ & _ & _).
    rewrite (same_agent _ _ k (credit_all_elsewhere _ _ _ _ _ _ E)). unfold put_abal. by apart Hs.
  - apply revoke_agent_ok in E as (_ & _ & ->). unfold revoked.
    cbv zeta. transitivity (krd (zeroed (agent_slots i) w) k).
    { destruct (a_addr w i =? 0); [done|]. apply (krd_kwr_ne agent_used); [apply a_addr_fits|done|intros <-; by apply Hs]. }
    rewrite krd_zeroed by (done || by apply agent_slots_used). rewrite decide_False; [done|].
    intros Hin; by apply agent_slots_side in Hin.
  - rewrite run_try, run_creating in E. injection E as <-. apply created_frame; [done..| |]; intros Ek; apply Hs; auto.
  - apply revoke_session_ok in E as (_ & _ & ->). rewrite krd_zeroed by (done || by apply session_slots_used).
    rewrite decide_False; [done|]. intros Hin. by apply session_slots_of in Hin.
  - destruct Hf as (Hse & _). apply execute_records in E; [|done]. rewrite (same_agent _ _ k E). unfold recorded.
    repeat (rewrite (krd_kwr_ne agent_used); [|done|done|intros <-; by apply Hs]). done.
Qed.

Lemma core_count m op b w w' :
  agent_op_fits m op -> run (op_core m op b) w = (Ok tt, w') ->
  session_count w' = match op with op_create _ => wrap_u64 (session_count w + 1) | _ => session_count w end.
Proof using All.
  intros Hf E.
  assert (F : ~ agent_op_writes op w slot_session_count -> session_count w' = session_count w).
  { intros Hn. unfold session_count. by rewrite (agent_op_frame _ _ _ _ _ slot_session_count Hf I Hn E). }
  destruct op as [c|c|c|c|c|i|c|s'|c]; try (apply F; unfold agent_op_writes, agent_side; cbn; tauto || done).
  cbn [op_core] in E. rewrite run_try, run_creating in E. injection E as <-. apply created_count, Hf.
Qed.

(** ** Histories *)

(** Successful operations with block and sender, the latest first; between
    them anything that leaves the agent storage alone, as the blocks go on. *)
Inductive agent_history (w0 : world) : list (Z * Z * agent_op) -> world -> Prop :=
| ah_start : agent_history w0 [] w0
| ah_op h w m op w' :
    agent_history w0 h w -> agent_op_fits m op -> run (op_handler m op) w = (Ok tt, w') ->
    agent_history w0 ((block w, m, op) :: h) w'
| ah_other h w w' :
    agent_history w0 h w -> same_at AGENT_ADDRESS w w' -> block w <= block w' <= U64_MAX -> agent_history w0 h w'.

Lemma block_run {A} (p : prog A) w r w' : run p w = (r, w') -> block w' = block w.
Proof using Type. intros E. unfold block. pose proof (run_env p w) as Ee. rewrite E in Ee. cbn in Ee. by rewrite Ee. Qed.

(** The transfers of a session. *)
Definition executions (s : Z) (h : list (Z * Z * agent_op)) : list (Z * Z * executeSessionCall) :=
  omap (fun x => match x with
                 | (b, m, op_execute c) => if es_sessionId c =? s then Some (b, m, c) else None
                 | _ => None
                 end) h.

Definition ex_block (x : Z * Z * executeSessionCall) : Z := x.1.1.
Definition ex_amount (x : Z * Z * executeSessionCall) : Z := es_amount x.2.

Definition spent_on (d : Z) (es : list (Z * Z * executeSessionCall)) : Z :=
  sum_of (fun x => if ex_block x / BLOCKS_PER_DAY =? d then ex_amount x else 0) es.
Definition spent_in_all (es : list (Z * Z * executeSessionCall)) : Z := sum_of ex_amount es.

(** One transfer on the terms of a session. *)
Definition transfer_ok (t : terms) (x : Z * Z * executeSessionCall) : Prop :=
  x.1.2 = t_delegate t /\ ex_amount x <= t_per_tx t /\
  (t_expires t = 0 \/ ex_block x <= t_expires t) /\ effective_at (t_policy t) <= ex_block x /\
  (allowed_assets (t_policy t) = [] \/ es_assetId x.2 ∈ allowed_assets (t_policy t)) /\
  (allowed_recipients (t_policy t) = [] \/ es_to x.2 ∈ allowed_recipients (t_policy t)).

(** Consecutive transfers, the latest first, are far enough apart. *)
Fixpoint spaced (gap : Z) (es : list (Z * Z * executeSessionCall)) : Prop :=
  match es with
  | x :: ((y :: _) as es') => (gap = 0 \/ ex_block y = 0 \/ gap <= ex_block x - ex_block y) /\ spaced gap es'
  | _ => True
  end.

(** All transfers of a session together. *)
Record within_terms (t : terms) (es : list (Z * Z * executeSessionCall)) : Prop := {
  wt_each : Forall (transfer_ok t) es;
  wt_daily : forall d, spent_on d es <= t_daily t;
  wt_total : max_total_spend (t_policy t) = 0 \/ spent_in_all es <= max_total_spend (t_policy t);
  wt_count : max_executions (t_policy t) = 0 \/ Z.of_nat (length es) <= max_executions (t_policy t);
  wt_spaced : spaced (min_interval_blocks (t_policy t)) es
}.

(** ** Sessions stay within their terms *)

(** The slots of a live session account for its transfers. *)
Record accounts w s (t : terms) (es : list (Z * Z * executeSessionCall)) : Prop := {
  ac_terms : on_terms w s t;
  ac_spent : s_spent w s = spent_on (s_last_day w s) es;
  ac_days : Forall (fun x => ex_block x / BLOCKS_PER_DAY <= s_last_day w s) es;
  ac_today : s_last_day w s <= block w / BLOCKS_PER_DAY;
  ac_last : s_last_block w s = match es with [] => 0 | x :: _ => ex_block x end;
  ac_total : max_total_spend (t_policy t) = 0 \/ s_total w s = spent_in_all es;
  ac_count : max_executions (t_policy t) = 0 \/ s_exec_count w s = Z.of_nat (length es)
}.

Record session_inv w s (t : terms) (es : list (Z * Z * executeSessionCall)) : Prop := {
  si_terms : within_terms t es;
  si_known : s < session_count w;
  si_block : fits U64_MAX (block w);
  si_past : Forall (fun x => 0 <= ex_block x <= block w /\ 0 <= ex_amount x) es;
  si_live : s_owner w s <> 0 -> accounts w s t es
}.

(** The slots of a session decide its views. *)
Definition same_session s w w' : Prop := forall k, agent_used k -> session_of k = Some s -> krd w' k = krd w k.

Lemma same_entries w w' conv (key : Z -> agent_key) n :
  (forall i, fits U64_MAX i -> krd w' (key i) = krd w (key i)) -> n <= U64_MAX ->
  entries w' conv key n = entries w conv key n.
Proof using Type.
  intros Hs Hn. unfold entries. apply map_ext_in. intros i Hi. apply list_elem_of_In, elem_of_seqZ in Hi.
  by rewrite Hs by fit.
Qed.

(** The counters of a session; its other slots hold its terms. *)
Definition counter_key (k : agent_key) : bool :=
  match k with
  | slot_session_spent _ | slot_session_last_day _ | slot_session_execution_count _
  | slot_session_last_execution_block _ | slot_session_total_spent _ => true
  | _ => false
  end.

Lemma same_session_terms s w w' t :
  fits U64_MAX s -> (forall k, agent_used k -> session_of k = Some s -> counter_key k = false -> krd w' k = krd w k) ->
  on_terms w s t -> on_terms w' s t.
Proof using Type.
  intros Hf Sm [T1 T2 T3 T4 T5 T6 T7 T8 T9].
  split; unfold s_delegate, s_limits, s_expires, s_max_total, s_min_interval, s_effective, s_max_exec, s_assets, s_recipients in *;
    rewrite ?Sm by done; try done.
  - rewrite <- T8. apply same_entries; [|apply u256_to_u64_fits]. intros i Hi. by apply Sm.
  - rewrite <- T9. apply same_entries; [|apply u256_to_u64_fits]. intros i Hi. by apply Sm.
Qed.

Lemma same_session_accounts s w w' t es :
  fits U64_MAX s -> same_session s w w' -> block w <= block w' -> accounts w s t es -> accounts w' s t es.
Proof using Type.
  intros Hf Sm Hb [A1 A2 A3 A4 A5 A6 A7].
  assert (Ed : s_last_day w' s = s_last_day w s) by (unfold s_last_day; by rewrite Sm).
  split; rewrite ?Ed; unfold s_spent, s_last_block, s_total, s_exec_count in *; rewrite ?Sm by done; try done.
  - apply (same_session_terms s w); [done| |done]. intros k Hk Hs _. by apply Sm.
  - etransitivity; [done|]. apply Z.div_le_mono; [done|lia].
Qed.

Lemma frame_inv s w w' t es :
  fits U64_MAX s -> same_session s w w' -> session_count w <= session_count w' -> block w <= block w' <= U64_MAX ->
  session_inv w s t es -> session_inv w' s t es.
Proof using Type.
  intros Hf Sm Hc Hb [I1 I2 I3 I4 I5]. split; [done|lia|fit| |].
  - eapply Forall_impl; [done|]. cbn. lia.
  - intros Ho. apply (same_session_accounts s w); [done..|lia|]. apply I5. unfold s_owner in *. by rewrite Sm in Ho.
Qed.

(** What a transfer leaves in the slots. *)
Lemma recorded_views w s amt b :
  fits U64_MAX s -> fits U64_MAX b ->
  let w' := recorded w s amt b in
  s_spent w' s = wrap_u128 (day_spent w s b + amt) /\ s_last_day w' s = day_now w s b /\
  s_exec_count w' s = wrap_u64 (s_exec_count w s + 1) /\ s_last_block w' s = b /\
  s_total w' s = wrap_u128 (s_total w s + amt) /\ (forall t, on_terms w s t -> on_terms w' s t).
Proof using All.
  intros Hs Hb w'. assert (Hd : fits U64_MAX (day_now w s b)).
  { unfold day_now. pose proof (u256_to_u64_fits (krd w (slot_session_last_day s))) as Hl. fold (s_last_day w s) in Hl.
    unfold fits in *. pose proof (Z.div_pos b BLOCKS_PER_DAY ltac:(lia) ltac:(done)).
    pose proof (Z.div_le_upper_bound b BLOCKS_PER_DAY U64_MAX ltac:(done)). unfold BLOCKS_PER_DAY, U64_MAX in *. lia. }
  pose proof (wrap_u128_fits (day_spent w s b + amt)) as F1. pose proof (wrap_u64_fits (s_exec_count w s + 1)) as F2.
  pose proof (wrap_u128_fits (s_total w s + amt)) as F3.
  unfold s_spent, s_last_day, s_exec_count, s_last_block, s_total, w', recorded. split_and!;
    [..|intros t; apply same_session_terms; [done|]; intros k Hk Hsk Hc;
        repeat (rewrite (krd_kwr_ne agent_used); [|exact Hs|done|intros <-; discriminate Hc]); done];
    repeat (rewrite (krd_kwr_ne agent_used) by (exact Hs || congruence)); rewrite krd_kwr_same.
  - exact (u128_word _ F1).
  - exact (u64_word _ Hd).
  - exact (u64_word _ F2).
  - exact (u64_word _ Hb).
  - exact (u128_word _ F3).
Qed.

(** The sums of amounts cannot wrap. *)
Definition no_wrap (t : terms) : Prop :=
  t_daily t + t_per_tx t <= U128_MAX /\ max_total_spend (t_policy t) + t_per_tx t <= U128_MAX.

Lemma spent_on_nonneg d es : Forall (fun x => 0 <= ex_amount x) es -> 0 <= spent_on d es.
Proof using Type.
  rewrite Forall_forall. intros Ha. apply sum_of_nonneg. intros x Hx. specialize (Ha x Hx). destruct (_ =? d); lia.
Qed.

Lemma spent_later d es : Forall (fun x => ex_block x / BLOCKS_PER_DAY < d) es -> spent_on d es = 0.
Proof using Type.
  unfold spent_on. induction 1 as [|x es Hx _ IH]; cbn [sum_of]; [done|]. rewrite IH.
  destruct (Z.eqb_spec (ex_block x / BLOCKS_PER_DAY) d); lia.
Qed.

Lemma day_accounted w s t es :
  accounts w s t es -> day_now w s (block w) = block w / BLOCKS_PER_DAY /\
    day_spent w s (block w) = spent_on (block w / BLOCKS_PER_DAY) es.
Proof using Type.
  intros [_ As Ad At _ _ _]. unfold day_now, day_spent. split; [lia|].
  destruct (Z.ltb_spec (s_last_day w s) (block w / BLOCKS_PER_DAY)) as [Hl|Hl].
  - symmetry. apply spent_later. eapply Forall_impl; [done|]. cbn. lia.
  - rewrite As. f_equal. lia.
Qed.

Lemma within_cons w s t es m c :
  no_wrap t -> 0 <= es_amount c -> es_sessionId c = s -> accounts w s t es -> session_inv w s t es ->
  session_allows w s (es_assetId c) (es_to c) (es_amount c) m (block w) ->
  within_terms t ((block w, m, c) :: es) /\
  wrap_u128 (day_spent w s (block w) + es_amount c) = spent_on (block w / BLOCKS_PER_DAY) es + es_amount c /\
  (max_total_spend (t_policy t) = 0 \/ wrap_u128 (s_total w s + es_amount c) = spent_in_all es + es_amount c).
Proof using Type.
  intros [Nd Nt] Hc Hs A I L. destruct (day_accounted _ _ _ _ A) as [_ Ed]. destruct I as [[W1 W2 W3 W4 W5] _ Hb Hp _].
  destruct A as [[T1 T2 T3 T4 T5 T6 T7 T8 T9] _ _ _ Al At Ac].
  destruct L as [_ L2 L3 L4 L5 L6 L7 L8 L9 L10 L11]. rewrite T2 in L7, L8. cbn [fst snd] in L7, L8.
  rewrite T1 in L2. rewrite T3 in L3. rewrite T6 in L4. rewrite T5, Al in L5. rewrite T7 in L6. rewrite T4 in L9. rewrite T8 in L10. rewrite T9 in L11.
  assert (Hn : Forall (fun x => 0 <= ex_amount x) es) by (eapply Forall_impl; [exact Hp|]; intros x [_ Hx]; exact Hx).
  pose proof (spent_on_nonneg (block w / BLOCKS_PER_DAY) es Hn) as Hd0. pose proof (W2 (block w / BLOCKS_PER_DAY)) as Hdl.
  assert (Ew : wrap_u128 (day_spent w s (block w) + es_amount c) = spent_on (block w / BLOCKS_PER_DAY) es + es_amount c).
  { rewrite Ed. apply wrap_u128_id. fit. }
  assert (Et : max_total_spend (t_policy t) = 0 \/ wrap_u128 (s_total w s + es_amount c) = spent_in_all es + es_amount c).
  { destruct (Z.eq_dec (max_total_spend (t_policy t)) 0); [by left|right]. destruct At as [|At], W3 as [|W3]; try done.
    rewrite At. apply wrap_u128_id. rewrite Forall_forall in Hn. pose proof (sum_of_nonneg ex_amount es Hn) as H0'.
    fold (spent_in_all es) in H0'. fit. }
  split; [|done]. split.
  - constructor; [|exact W1]. unfold transfer_ok, ex_amount, ex_block. cbn [fst snd]. unfold fits in Hb. split_and!; [congruence|lia|lia|lia|exact L10|exact L11].
  - intros d. change (spent_on d ((block w, m, c) :: es)) with
      ((if block w / BLOCKS_PER_DAY =? d then es_amount c else 0) + spent_on d es).
    destruct (Z.eqb_spec (block w / BLOCKS_PER_DAY) d) as [<-|]; [lia|]. specialize (W2 d). lia.
  - change (spent_in_all ((block w, m, c) :: es)) with (es_amount c + spent_in_all es). lia.
  - cbn [length]. destruct L6 as [|L6]; [by left|]. destruct Ac as [|Ac]; [by left|right]. lia.
  - destruct es as [|y es]; [exact I|]. cbn [spaced]. split; [|exact W5]. destruct L5 as [|[|L5]]; [by left|right; by left|right; right].
    apply Forall_cons in Hp as [[Hy _] _]. unfold ex_block in *. cbn [fst snd] in *. rewrite wrap_u64_id in L5; [lia|]. fit.
Qed.

Lemma execute_inv w s t es m c w' :
  fits U64_MAX s -> no_wrap t -> 0 <= es_amount c -> es_sessionId c = s -> session_inv w s t es ->
  run (execute_session_transfer s (es_assetId c) (es_to c) (es_amount c) m (block w)) w = (Ok tt, w') ->
  session_inv w' s t ((block w, m, c) :: es).
Proof using All.
  intros Hs Nw Hc Es I E. pose proof (execute_records _ _ _ _ _ _ _ _ Hs E) as Sr. pose proof (block_run _ _ _ _ E) as Eb.
  apply execute_session_ok in E as (L & _); [|done]. pose proof (si_live _ _ _ _ I (al_exists _ _ _ _ _ _ _ L)) as A.
  destruct (within_cons _ _ _ _ _ _ Nw Hc Es A I L) as (W & Ew & Et). destruct (day_accounted _ _ _ _ A) as [En _].
  destruct (recorded_views w s (es_amount c) (block w) Hs (si_block _ _ _ _ I)) as (V1 & V2 & V3 & V4 & V5 & V6).
  destruct I as [_ Hk Hb Hp _]. unfold fits in Hb.
  assert (Ek : forall k : agent_key, krd w' k = krd (recorded w s (es_amount c) (block w)) k) by (intros k; by apply same_agent).
  split; [exact W| |rewrite Eb; fit| |].
  - unfold session_count. rewrite Ek. unfold recorded.
    repeat (rewrite (krd_kwr_ne agent_used) by (exact Hs || exact Logic.I || congruence)). exact Hk.
  - rewrite Eb. constructor; [unfold ex_block, ex_amount; cbn [fst snd]; lia|exact Hp].
  - intros _. unfold s_spent, s_last_day, s_exec_count, s_last_block, s_total in V1, V2, V3, V4, V5.
    split; unfold s_spent, s_last_day, s_exec_count, s_last_block, s_total; rewrite ?Ek, ?V1, ?V2, ?V3, ?V4, ?V5, ?Eb, ?En.
    + apply (same_session_terms s (recorded w s (es_amount c) (block w))); [done| |apply V6, A]. intros k _ _ _. apply Ek.
    + rewrite Ew. change (spent_on ?d ((block w, m, c) :: es)) with ((if block w / BLOCKS_PER_DAY =? d then es_amount c else 0) + spent_on d es).
      rewrite Z.eqb_refl. lia.
    + constructor; [unfold ex_block; cbn [fst snd]; lia|]. eapply Forall_impl; [exact (ac_days _ _ _ _ A)|]. cbn. pose proof (ac_today _ _ _ _ A). lia.
    + lia.
    + done.
    + change (spent_in_all ((block w, m, c) :: es)) with (es_amount c + spent_in_all es). fold (s_total w s). lia.
    + cbn [length]. destruct (wt_count _ _ W) as [|Hw]; [by left|]. destruct (ac_count _ _ _ _ A) as [|Ac]; [by left|right].
      fold (s_exec_count w s). rewrite Ac. cbn [length] in Hw. rewrite wrap_u64_id; [lia|]. pose proof (ot_max_exec _ _ _ (ac_terms _ _ _ _ A)) as Em.
      pose proof (u256_to_u64_fits (krd w (slot_session_max_executions s))) as Hm. fold (s_max_exec w s) in Hm. unfold fits in *. lia.
Qed.

Lemma same_agent_count w w' : same_at AGENT_ADDRESS w w' -> session_count w' = session_count w.
Proof using Type. intros Sa. unfold session_count. by rewrite (same_agent _ _ _ Sa). Qed.

Lemma count_bound w0 h w :
  agent_history w0 h w -> session_count w0 + Z.of_nat (length h) <= U64_MAX ->
  session_count w0 <= session_count w <= session_count w0 + Z.of_nat (length h).
Proof using All.
  induction 1 as [|h w m op w' Hh IH Hf E|h w w' Hh IH Sa Hb]; intros Hl; cbn [length] in *; [lia|..].
  - apply handler_core in E as [_ E]. apply core_count in E; [|done]. rewrite E. specialize (IH ltac:(lia)).
    pose proof (session_count_fits w) as Hw. unfold fits in Hw.
    destruct op; try lia. rewrite wrap_u64_id; [lia|fit].
  - rewrite (same_agent_count _ _ Sa). by apply IH.
Qed.

Lemma blocks_grow w0 h w : agent_history w0 h w -> fits U64_MAX (block w0) -> fits U64_MAX (block w).
Proof using Type.
  induction 1 as [|h w m op w' Hh IH Hf E|h w w' Hh IH Sa Hb]; intros H0'; [done|..]; specialize (IH H0').
  - by rewrite (block_run _ _ _ _ E).
  - fit.
Qed.

Lemma same_at_session s w w' : same_at AGENT_ADDRESS w w' -> same_session s w w'.
Proof using Type. intros Sa k _ _. by apply same_agent. Qed.

(** Operations that do not work on a session keep it as it is. *)
Lemma op_other_inv w s t es m op b w' :
  fits U64_MAX s -> session_count w < U64_MAX -> agent_op_fits m op -> session_inv w s t es ->
  run (op_core m op b) w = (Ok tt, w') -> (forall k, agent_used k -> session_of k = Some s -> ~ agent_op_writes op w k) ->
  session_inv w' s t es.
Proof using All.
  intros Hs Hc Hf I E Hn. pose proof (core_count _ _ _ _ _ Hf E) as Ec. pose proof (block_run _ _ _ _ E) as Eb.
  pose proof (session_count_fits w) as Hw. pose proof (si_block _ _ _ _ I) as Hb. unfold fits in Hw, Hb.
  apply (frame_inv s w); [done| | |lia|done].
  - intros k Hk Hsk. apply (agent_op_frame _ _ _ _ _ _ Hf Hk (Hn k Hk Hsk) E).
  - rewrite Ec. destruct op; try lia. rewrite wrap_u64_id; [lia|fit].
Qed.

Lemma revoke_session_views s m w w' :
  fits U64_MAX s -> run (revoke_session s m) w = (Ok tt, w') -> session_count w' = session_count w /\ s_owner w' s = 0.
Proof using All.
  intros Hs E. apply revoke_session_ok in E as (_ & _ & ->). unfold session_count, s_owner.
  rewrite !krd_zeroed by (done || by apply session_slots_used). rewrite decide_False, decide_True; [done|apply list_elem_of_here|].
  intros Hin. by apply session_slots_of in Hin.
Qed.

Lemma op_inv w s t h m op w' :
  fits U64_MAX s -> no_wrap t -> session_count w < U64_MAX -> agent_op_fits m op ->
  session_inv w s t (executions s h) -> run (op_handler m op) w = (Ok tt, w') ->
  session_inv w' s t (executions s ((block w, m, op) :: h)).
Proof using All.
  intros Hs Nw Hc Hf I E. apply handler_core in E as [_ E].
  assert (F : executions s ((block w, m, op) :: h) = executions s h ->
    (forall k, agent_used k -> session_of k = Some s -> ~ agent_op_writes op w k) ->
    session_inv w' s t (executions s ((block w, m, op) :: h))).
  { intros -> Hn. by eapply op_other_inv. }
  destruct op as [c|c|c|c|c|i|c|s'|c];
    try (apply F; [done|]; intros k _ Hk Hw; cbn in Hw; unfold agent_side in Hw; by (destruct Hw; congruence)).
  - apply F; [done|]. intros k _ Hk Hw. cbn in Hw. pose proof (si_known _ _ _ _ I). destruct Hw as [Hw| ->]; [|done].
    rewrite Hk in Hw. injection Hw as Hw. lia.
  - destruct (decide (s' = s)) as [->|Hne].
    + cbn [op_core] in E. pose proof (block_run _ _ _ _ E) as Eb. apply revoke_session_views in E as [Ec Eo]; [|done].
      destruct I as [I1 I2 I3 I4 _]. rewrite <- Eb in I3, I4. split; [done|lia|done|done|done].
    + apply F; [done|]. intros k _ Hk Hw. cbn in Hw. congruence.
  - destruct (Z.eqb_spec (es_sessionId c) s) as [Es|Hne].
    + unfold executions. cbn [omap list_omap]. rewrite (proj2 (Z.eqb_eq _ _) Es). cbn [op_core] in E. rewrite Es in E.
      apply (execute_inv w s t (executions s h) m c w'); try done. destruct Hf as (_ & _ & _ & _ & Ha). apply Ha.
    + apply F; [|intros k _ Hk Hw; cbn in Hw; congruence]. unfold executions. cbn [omap list_omap].
      by rewrite (proj2 (Z.eqb_neq _ _) Hne).
Qed.

Lemma session_history_inv w1 h w s t :
  fits U64_MAX s -> no_wrap t -> session_count w1 + Z.of_nat (length h) <= U64_MAX -> session_inv w1 s t [] ->
  agent_history w1 h w -> session_inv w s t (executions s h).
Proof using All.
  intros Hs Nw Hl I1 Hh. induction Hh as [|h w m op w' Hh IH Hf E|h w w' Hh IH Sa Hb]; [done|..]; cbn [length] in *.
  - apply op_inv; try done; [|apply IH; lia]. pose proof (count_bound _ _ _ Hh ltac:(lia)). lia.
  - specialize (IH Hl). apply (frame_inv s w); [done|by apply same_at_session| |done|done].
    by rewrite (same_agent_count _ _ Sa).
Qed.

Lemma created_inv m c w0 s w1 :
  fits U64_MAX (block w0) -> agent_op_fits m (op_create c) -> session_count w0 < U64_MAX ->
  run (create_session_handler m c) w0 = (Ok s, w1) -> s = session_count w0 /\ session_count w1 = s + 1 /\ session_inv w1 s (terms_of m c) [].
Proof using All.
  intros Hb [Hm Ht] Hc E. pose proof (block_run _ _ _ _ E) as Eb. apply caller_ok in E as [Hm0 E]. apply agenting_ok in E.
  change (run (creating (terms_of m c)) w0 = (Ok s, w1)) in E. rewrite run_creating in E. injection E as <- <-.
  pose proof (session_count_fits w0) as Hw. unfold fits in Hw. cbn [agent_op_fits] in Ht.
  assert (Ec : session_count (created w0 (terms_of m c)) = session_count w0 + 1).
  { rewrite created_count by done. apply wrap_u64_id. fit. }
  split; [done|]. split; [done|]. destruct (created_fresh w0 (terms_of m c) Ht) as (_ & V1 & V2 & V3 & V4 & V5). pose proof Ht as (_ & _ & Hp & Hd & _ & Hmx & _ & _ & Hme & _).
  split; [|lia|by rewrite Eb|constructor|].
  - split; [constructor|intros d; apply Hd|right; apply Hmx|right; apply Hme|done].
  - intros _. split; [by apply created_terms|by rewrite V1|constructor| |by rewrite V4|right; by rewrite V5|right; by rewrite V3].
    rewrite V2. apply Z.div_pos; [|done]. rewrite Eb. apply Hb.
Qed.


Lemma dead_step s h w m op w' :
  fits U64_MAX s -> s < session_count w -> agent_op_fits m op -> executions s h = [] -> s_owner w s = 0 ->
  run (op_core m op (block w)) w = (Ok tt, w') ->
  executions s ((block w, m, op) :: h) = [] /\ s_owner w' s = 0.
Proof using All.
  intros Hs Hk Hf He Ho E.
  assert (F : ~ agent_op_writes op w (slot_session_owner s) -> s_owner w' s = 0).
  { intros Hn. unfold s_owner. by rewrite (agent_op_frame _ _ _ _ _ (slot_session_owner s) Hf Hs Hn E). }
  destruct op as [c|c|c|c|c|i|c|s'|c]; try (split; [exact He|apply F; intros Hw; by destruct Hw]).
  - split; [exact He|]. apply F. intros [[= Hw]|Hw]; [lia|done].
  - split; [exact He|]. destruct (decide (s' = s)) as [->|Hne]; [|apply F; intros [= Hw]; congruence].
    cbn [op_core] in E. by apply revoke_session_views in E as [_ ?].
  - cbn [op_core] in E. pose proof E as E'. apply execute_session_ok in E' as [L _]; [|apply Hf].
    assert (es_sessionId c <> s) as Hne by (intros <-; by apply (al_exists _ _ _ _ _ _ _ L)).
    split; [|apply F; intros [= Hw]; congruence]. unfold executions. cbn [omap list_omap].
    by rewrite (proj2 (Z.eqb_neq _ _) Hne).
Qed.

(** C22: A revoked session stays revoked.  After its owner revoked a session no
    transfer of it succeeds any more, whatever happens. *)
Theorem revoked_session_inert m s w0 w1 h w :
  fits U64_MAX s -> s < session_count w0 -> session_count w0 + Z.of_nat (length h) <= U64_MAX ->
  run (revoke_session_handler m s) w0 = (Ok tt, w1) -> agent_history w1 h w ->
  executions s h = [] /\ s_owner w s = 0.
Proof using All.
  intros Hs Hk Hl E Hh. apply caller_ok in E as [_ E]. apply agenting_ok in E.
  apply revoke_session_views in E as [Ec Eo]; [|done]. rewrite <- Ec in Hk, Hl. clear Ec w0.
  induction Hh as [|h w m' op w' Hh IH Hf E|h w w' Hh IH Sa Hb]; [done|..]; cbn [length] in *.
  - destruct (IH ltac:(lia)) as [IHe IHo]. pose proof (count_bound _ _ _ Hh ltac:(lia)) as Hcb.
    apply handler_core in E as [_ E]. apply (dead_step s h w m' op w'); [done|lia|done..].
  - destruct (IH Hl) as [-> IHo]. split; [done|]. unfold s_owner. by rewrite (same_agent _ _ _ Sa).
Qed.
End Ops.
