(* ===== verification/AgentFunds.v ===== *)
(** * AgentFunds: agents and their balances

    Every live agent is called by its own address and by no other, agents and
    sessions move assets without creating or losing any, and the balance of a
    revoked agent can never be moved again. *)

From stdpp Require Import base gmap list strings.
From Stdlib Require Import ZArith Lia.
From S2P Require Import Prelude Provider World EvmProvider Refinement Dispatch Utils.
From S2P Require Import Asset AssetSpec Keyed Agent AgentSpec AgentProps.

Local Open Scope Z_scope.
Local Open Scope callnode_scope.

Section Registry.
Context `{Keccak, AddressDisplay} `{!Layout agent_used}.
Implicit Types (w : world).

(** ** The registry *)

(** Agents are numbered below the count; a live agent has an address that
    leads back to it, a dead one has none; nobody pays more than 1000 at once. *)
Record registry w : Prop := {
  rg_new : forall i, fits U64_MAX i -> agent_count w <= i -> a_owner w i = 0;
  rg_live : forall i, fits U64_MAX i -> a_owner w i <> 0 -> a_addr w i <> 0 /\ a_of w (a_addr w i) = i;
  rg_dead : forall i, fits U64_MAX i -> a_owner w i = 0 -> a_addr w i = 0;
  rg_limit : forall i, fits U64_MAX i -> a_limit w i <= 1000
}.

(** The keys the registry reads. *)
Definition registry_key (k : agent_key) : bool :=
  match k with
  | slot_agent_count | slot_agent_owner _ | slot_agent_address _ | slot_agent_by_address _ | slot_agent_perms _ => true
  | _ => false
  end.

Lemma registry_frame w w' :
  (forall k, agent_used k -> registry_key k = true -> krd w' k = krd w k) -> registry w -> registry w'.
Proof using Type.
  intros Sm [R1 R2 R3 R4].
  assert (Ea : forall i, fits U64_MAX i -> a_addr w' i = a_addr w i) by (intros i Hi; unfold a_addr; by rewrite Sm).
  assert (Eo : forall i, fits U64_MAX i -> a_owner w' i = a_owner w i) by (intros i Hi; unfold a_owner; by rewrite Sm).
  split; intros i Hi; rewrite ?Ea, ?Eo by done; [..|unfold a_limit; rewrite Sm by done; by apply R4].
  - unfold agent_count. rewrite Sm by done. by apply R1.
  - unfold a_of. rewrite Sm; [by apply R2|apply a_addr_fits|done].
  - by apply R3.
Qed.

Lemma registered_views w name url a caller b :
  fits ADDRESS_MAX a -> fits ADDRESS_MAX caller -> agent_count w < U64_MAX ->
  let n := agent_count w in let w' := registered w name url a caller b in
  agent_count w' = n + 1 /\ a_owner w' n = caller /\ a_addr w' n = a /\ a_of w' a = n /\ a_limit w' n = 1000 /\
  (forall i, fits U64_MAX i -> i <> n -> a_owner w' i = a_owner w i /\ a_addr w' i = a_addr w i /\ a_limit w' i = a_limit w i) /\
  (forall x, fits ADDRESS_MAX x -> x <> a -> a_of w' x = a_of w x).
Proof using All.
  intros Ha Hc Hn n w'. pose proof (agent_count_fits w) as Hf. fold n in Hf, Hn.
  unfold agent_count, a_owner, a_addr, a_of, a_limit, w', registered. fold n. split_and!.
  all: try (intros i Hi Hne; split_and!).
  all: repeat (rewrite (krd_kwr_ne agent_used) by (first [exact Hf | exact Hi | exact Ha | exact Logic.I | congruence])).
  all: rewrite ?krd_kwr_same; try done.
  - rewrite wrap_u64_id by fit. apply u64_word. fit.
  - exact (address_word _ Hc).
  - exact (address_word _ Ha).
  - exact (u64_word _ Hf).
  - intros x Hx Hne.
    by repeat (rewrite (krd_kwr_ne agent_used) by (first [exact Hf | exact Hx | exact Ha | exact Logic.I | congruence])).
Qed.

Lemma revoked_views w i :
  fits U64_MAX i ->
  let w' := revoked w i in
  agent_count w' = agent_count w /\ a_owner w' i = 0 /\ a_addr w' i = 0 /\ a_limit w' i = 0 /\
  (forall j, fits U64_MAX j -> j <> i -> a_owner w' j = a_owner w j /\ a_addr w' j = a_addr w j /\ a_limit w' j = a_limit w j) /\
  (forall x, fits ADDRESS_MAX x -> x <> a_addr w i -> a_of w' x = a_of w x).
Proof using All.
  intros Hi w'.
  assert (Er : forall k, agent_used k -> k <> slot_agent_by_address (a_addr w i) ->
    krd w' k = if decide (k ∈ agent_slots i) then 0 else krd w k).
  { intros k Hk Hne. unfold w', revoked. cbv zeta. rewrite <- krd_zeroed by (done || by apply agent_slots_used).
    destruct (a_addr w i =? 0); [done|]. apply (krd_kwr_ne agent_used); [apply a_addr_fits|done|congruence]. }
  unfold agent_count, a_owner, a_limit, a_of, a_addr in *. split_and!.
  - rewrite Er; [|done..]. by rewrite decide_False by (unfold agent_slots; set_solver).
  - rewrite Er; [|done..]. by rewrite decide_True by (unfold agent_slots; set_solver).
  - rewrite Er; [|done..]. by rewrite decide_True by (unfold agent_slots; set_solver).
  - rewrite Er; [|done..]. by rewrite decide_True by (unfold agent_slots; set_solver).
  - intros j Hj Hne. rewrite !Er by done. by rewrite !decide_False by (unfold agent_slots; set_solver).
  - intros x Hx Hne. rewrite Er by (done || congruence). by rewrite decide_False by (unfold agent_slots; set_solver).
Qed.

Lemma register_registry name url a m b w w' :
  fits ADDRESS_MAX a -> fits ADDRESS_MAX m -> m <> 0 -> agent_count w < U64_MAX -> registry w ->
  run (register_agent name url a m b) w = (Ok tt, w') -> registry w'.
Proof using All.
  intros Ha Hm Hm0 Hc [R1 R2 R3 R4] E. apply register_ok in E as (Ha0 & Hfree & ->).
  destruct (registered_views w name url a m b Ha Hm Hc) as (V1 & V2 & V3 & V4 & V5 & V6 & V7). pose proof (agent_count_fits w) as Hn.
  set (n := agent_count w) in *. set (w' := registered w name url a m b) in *.
  assert (Hnone : forall j, fits U64_MAX j -> a_owner w j <> 0 -> a_addr w j <> a).
  { intros j Hj Ho Ej. destruct (R2 j Hj Ho) as [_ Eo]. rewrite Ej in Eo.
    destruct Hfree as [Hmax|Hne]; [|rewrite Eo in Hne; congruence].
    destruct (Z.lt_ge_cases j n); [lia|]. by apply R1 in Hj. }
  split; intros j Hj; destruct (decide (j = n)) as [->|Hne].
  - lia.
  - intros Hl. destruct (V6 j Hj Hne) as (-> & _). apply R1; [done|]. fold n. lia.
  - intros _. by rewrite V3, V4.
  - destruct (V6 j Hj Hne) as (-> & -> & _). intros Ho. destruct (R2 j Hj Ho) as [H1 H2']. split; [done|].
    rewrite V7; [done|apply a_addr_fits|by apply Hnone].
  - congruence.
  - destruct (V6 j Hj Hne) as (-> & -> & _). by apply R3.
  - lia.
  - destruct (V6 j Hj Hne) as (_ & _ & ->). by apply R4.
Qed.

Lemma revoke_registry i m w w' :
  fits U64_MAX i -> registry w -> run (revoke_agent i m) w = (Ok tt, w') -> registry w'.
Proof using All.
  intros Hi [R1 R2 R3 R4] E. apply revoke_agent_ok in E as (Eo & Hm & ->). rewrite <- Eo in Hm.
  destruct (revoked_views w i Hi) as (V1 & V2 & V3 & V4 & V5 & V6). set (w' := revoked w i) in *.
  split; intros j Hj; destruct (decide (j = i)) as [->|Hne]; try done; try (destruct (V5 j Hj Hne) as (V5o & V5a & V5l)).
  - rewrite V1, V5o. by apply R1.
  - rewrite V5o, V5a. intros Ho. destruct (R2 j Hj Ho) as [H1 H2']. split; [done|]. rewrite V6; [done|apply a_addr_fits|].
    intros Ej. destruct (R2 i Hi Hm) as [_ Ei]. congruence.
  - rewrite V5o, V5a. by apply R3.
  - lia.
  - rewrite V5l. by apply R4.
Qed.

(** Of the operations only registering and revoking change the registry. *)
Lemma abal_key_frame i asset v w k :
  fits U64_MAX i -> fits U64_MAX asset -> agent_used k -> registry_key k = true -> krd (put_abal i asset v w) k = krd w k.
Proof using All. intros Hi Ha Hk Hr. apply (krd_kwr_ne agent_used); [done..|]. intros <-. discriminate Hr. Qed.

Definition keeps_registry (op : agent_op) : bool :=
  match op with op_register _ | op_revoke_agent _ => false | _ => true end.

Lemma registry_key_frame m op b w w' k :
  agent_op_fits m op -> keeps_registry op = true -> agent_used k -> registry_key k = true ->
  run (op_core m op b) w = (Ok tt, w') -> krd w' k = krd w k.
Proof using All.
  intros Hf Hkp Hk Hr E. pose proof Hf as [Hm Hop]. destruct op as [c|c|c|c|c|i|c|s'|c]; cbn [op_core agent_op_fits] in *; try done.
  - apply grant_ok in E as (_ & _ & w1 & Ed & _ & ->). destruct Hop as (Hi & Ha & _).
    rewrite abal_key_frame by done. exact (same_agent _ _ k (debit_elsewhere _ _ _ _ _ _ Ed)).
  - apply revoke_balance_ok in E as (_ & _ & E). destruct Hop as [Hi Ha].
    rewrite <- (abal_key_frame _ _ 0 w k Hi Ha Hk Hr). destruct (0 <? _); [|by subst].
    exact (same_agent _ _ k (credit_elsewhere _ _ _ _ _ _ E)).
  - apply pay_ok in E as (i & (-> & _) & _ & E). destruct Hop as (Ha & _).
    rewrite (same_agent _ _ k (credit_elsewhere _ _ _ _ _ _ E)). by apply abal_key_frame; [apply a_of_fits|..].
  - apply batch_pay_ok in E as (_ & _ & i & -> & _ & _ & _ & _ & E). destruct Hop as (Ha & _).
    rewrite (same_agent _ _ k (credit_all_elsewhere _ _ _ _ _ _ E)). by apply abal_key_frame; [apply a_of_fits|..].
  - apply (agent_op_frame m (op_create c) b w w' k Hf Hk); [|exact E]. intros [Hs| ->]; [|done]. by destruct k.
  - apply (agent_op_frame m (op_revoke_session s') b w w' k Hf Hk); [|exact E]. intros Hs. by destruct k.
  - apply (agent_op_frame m (op_execute c) b w w' k Hf Hk); [|exact E]. intros Hs. by destruct k.
Qed.

Lemma op_registry m op b w w' :
  agent_op_fits m op -> m <> 0 -> agent_count w < U64_MAX -> registry w ->
  run (op_core m op b) w = (Ok tt, w') -> registry w'.
Proof using All.
  intros Hf Hm0 Hc R E. destruct (keeps_registry op) eqn:Hk.
  - apply (registry_frame w); [|done]. intros k Hu Hr. by eapply registry_key_frame.
  - destruct Hf as [Hm Hop]. destruct op as [c|c|c|c|c|i|c|s'|c]; try discriminate Hk; cbn [op_core] in E.
    + exact (register_registry _ _ _ _ _ _ _ Hop Hm Hm0 Hc R E).
    + exact (revoke_registry _ _ _ _ Hop R E).
Qed.

Lemma op_agent_count m op b w w' :
  agent_op_fits m op -> agent_count w < U64_MAX -> run (op_core m op b) w = (Ok tt, w') ->
  agent_count w <= agent_count w' <= agent_count w + 1.
Proof using All.
  intros Hf Hc E. destruct (keeps_registry op) eqn:Hk.
  - assert (agent_count w' = agent_count w) as ->; [|lia]. unfold agent_count.
    by rewrite (registry_key_frame _ _ _ _ _ slot_agent_count Hf Hk Logic.I eq_refl E).
  - destruct Hf as [Hm Hop]. destruct op as [c|c|c|c|c|i|c|s'|c]; try discriminate Hk; cbn [op_core] in E.
    + apply register_ok in E as (_ & _ & ->). destruct (registered_views w (ra_name c) (ra_url c) (ra_agentAddress c) m b Hop Hm Hc) as [-> _]. lia.
    + apply revoke_agent_ok in E as (_ & _ & ->). destruct (revoked_views w i Hop) as [-> _]. lia.
Qed.

Lemma agent_count_bound w0 h w :
  agent_history w0 h w -> agent_count w0 + Z.of_nat (length h) <= U64_MAX ->
  agent_count w0 <= agent_count w <= agent_count w0 + Z.of_nat (length h).
Proof using All.
  induction 1 as [|h w m op w' Hh IH Hf E|h w w' Hh IH Sa Hb]; intros Hl; cbn [length] in *; [lia|..].
  - apply handler_core in E as [_ E]. specialize (IH ltac:(lia)). apply op_agent_count in E; [|done|lia]. lia.
  - replace (agent_count w') with (agent_count w); [by apply IH|]. unfold agent_count. by rewrite (same_agent _ _ _ Sa).
Qed.

Lemma history_registry w0 h w :
  agent_history w0 h w -> agent_count w0 + Z.of_nat (length h) <= U64_MAX -> registry w0 -> registry w.
Proof using All.
  induction 1 as [|h w m op w' Hh IH Hf E|h w w' Hh IH Sa Hb]; intros Hl R; cbn [length] in *; [done|..].
  - pose proof (agent_count_bound _ _ _ Hh ltac:(lia)). apply handler_core in E as [Hm E].
    apply (op_registry m op (block w) w); [done|done|lia|apply IH; [lia|done]|done].
  - apply (registry_frame w); [|by apply IH]. intros k _ _. by apply same_agent.
Qed.

(** Nothing is stored yet. *)
Definition no_agents w : Prop := forall s, wslot w AGENT_ADDRESS s = 0.

Lemma no_agents_registry w : no_agents w -> registry w /\ agent_count w = 0.
Proof using Type.
  intros Hn. assert (Ek : forall k : agent_key, krd w k = 0) by (intros k; apply Hn).
  split; [|unfold agent_count; by rewrite Ek].
  split; intros i Hi; unfold a_owner, a_addr, a_limit; rewrite ?Ek.
  - reflexivity.
  - intros Ho. by destruct Ho.
  - reflexivity.
  - discriminate.
Qed.


(** ** Agent balances *)

Lemma abal_fits w i q : fits U128_MAX (abal w i q).
Proof using Type. apply u256_to_u128_fits. Qed.

Lemma abal_same w w' i q : same_at AGENT_ADDRESS w w' -> abal w' i q = abal w i q.
Proof using Type. intros Sa. unfold abal. by rewrite (same_agent _ _ _ Sa). Qed.

Lemma abal_put i asset v w j q :
  fits U64_MAX i -> fits U64_MAX asset -> fits U64_MAX j -> fits U64_MAX q -> fits U128_MAX v ->
  abal (put_abal i asset v w) j q = if decide (i = j /\ asset = q) then v else abal w j q.
Proof using All.
  intros Hi Ha Hj Hq Hv. unfold abal, put_abal. rewrite (krd_kwr agent_used) by done.
  destruct (decide (i = j /\ asset = q)) as [[-> ->]|Hne].
  - rewrite decide_True by done. exact (u128_word _ Hv).
  - rewrite decide_False; [done|]. intros [= -> ->]. by apply Hne.
Qed.

(** Operations that work on no agent balance. *)
Definition keeps_agent_balances (op : agent_op) : bool :=
  match op with op_grant _ | op_revoke_balance _ | op_pay _ | op_batch _ => false | _ => true end.

Lemma abal_op_frame m op b w w' j q :
  agent_op_fits m op -> keeps_agent_balances op = true -> fits U64_MAX j -> fits U64_MAX q ->
  run (op_core m op b) w = (Ok tt, w') -> abal w' j q = abal w j q.
Proof using All.
  intros Hf Hk Hj Hq E. unfold abal. f_equal. pose proof Hf as [Hm Hop]. pose proof (agent_count_fits w) as Hn.
  destruct op as [c|c|c|c|c|i|c|s'|c]; try discriminate Hk; cbn [agent_op_fits] in Hop.
  - cbn [op_core] in E. apply register_ok in E as (_ & _ & ->). unfold registered. cbv zeta.
    repeat (rewrite (krd_kwr_ne agent_used); [|first [exact Hn|exact Hop|exact Logic.I]|by split|discriminate]). done.
  - cbn [op_core] in E. apply revoke_agent_ok in E as (_ & _ & ->). unfold revoked. cbv zeta.
    transitivity (krd (zeroed (agent_slots i) w) (slot_agent_balance j q)).
    { destruct (a_addr w i =? 0); [done|]. apply (krd_kwr_ne agent_used); [apply a_addr_fits|by split|discriminate]. }
    rewrite krd_zeroed by (by apply agent_slots_used || by split). by rewrite decide_False by (unfold agent_slots; set_solver).
  - apply (agent_op_frame m (op_create c) b w w' (slot_agent_balance j q) Hf (conj Hj Hq)); [|exact E]. by intros [?|?].
  - apply (agent_op_frame m (op_revoke_session s') b w w' (slot_agent_balance j q) Hf (conj Hj Hq)); [|exact E]. done.
  - apply (agent_op_frame m (op_execute c) b w w' (slot_agent_balance j q) Hf (conj Hj Hq)); [|exact E]. done.
Qed.

Lemma sum_u128_fits amts : fits U128_MAX (sum_u128 amts).
Proof using Type.
  unfold sum_u128. assert (G : forall l acc, fits U128_MAX acc -> fits U128_MAX (fold_left (fun acc a => wrap_u128 (acc + a)) l acc)).
  { induction l as [|x l IH]; intros acc Hacc; cbn [fold_left]; [done|]. apply IH, wrap_u128_fits. }
  by apply G.
Qed.

(** ** Revoked agents *)

Lemma stranded_step m op b w w' i :
  fits U64_MAX i -> i < agent_count w -> agent_count w < U64_MAX -> a_owner w i = 0 -> agent_op_fits m op ->
  run (op_core m op b) w = (Ok tt, w') ->
  a_owner w' i = 0 /\ forall q, fits U64_MAX q -> abal w' i q = abal w i q.
Proof using All.
  intros Hi Hc Hc' Ho Hf E. pose proof Hf as [Hm Hop]. split.
  - destruct (keeps_registry op) eqn:Hk.
    + unfold a_owner. by rewrite (registry_key_frame _ _ _ _ _ (slot_agent_owner i) Hf Hk Hi eq_refl E).
    + destruct op as [c|c|c|c|c|j|c|s'|c]; try discriminate Hk; cbn [op_core agent_op_fits] in *.
      * apply register_ok in E as (_ & _ & ->).
        destruct (registered_views w (ra_name c) (ra_url c) (ra_agentAddress c) m b Hop Hm Hc') as (_ & _ & _ & _ & _ & V & _).
        destruct (V i Hi ltac:(lia)) as [-> _]. done.
      * apply revoke_agent_ok in E as (_ & _ & ->). destruct (revoked_views w j Hop) as (_ & V2 & _ & _ & V & _).
        destruct (decide (i = j)) as [->|Hne]; [done|]. destruct (V i Hi Hne) as [-> _]. done.
  - intros q Hq. destruct (keeps_agent_balances op) eqn:Hk; [by eapply abal_op_frame|].
    destruct op as [c|c|c|c|c|j|c|s'|c]; try discriminate Hk; cbn [op_core agent_op_fits] in *.
    + apply grant_ok in E as (Eo & Hm0 & w1 & Ed & Hle & ->). destruct Hop as (Hj & Ha & Hv).
      pose proof (abal_fits w (gr_agentId c) (gr_assetId c)) as Hb. rewrite abal_put by (done || fit).
      rewrite decide_False by (intros [Ei _]; congruence). exact (abal_same _ _ _ _ (debit_elsewhere _ _ _ _ _ _ Ed)).
    + apply revoke_balance_ok in E as (Eo & Hm0 & E). destruct Hop as (Hj & Ha).
      assert (abal (put_abal (aa_agentId c) (aa_assetId c) 0 w) i q = abal w i q) as <-.
      { rewrite abal_put by (done || fit). rewrite decide_False by (intros [Ei _]; congruence). done. }
      destruct (0 <? _); [|by subst]. exact (abal_same _ _ _ _ (credit_elsewhere _ _ _ _ _ _ E)).
    + apply pay_ok in E as (j & (-> & Hoj & _) & Hle & E). destruct Hop as (Ha & _ & Hv).
      rewrite (abal_same _ _ _ _ (credit_elsewhere _ _ _ _ _ _ E)). pose proof (abal_fits w (a_of w m) (py_assetId c)) as Hb.
      rewrite abal_put by (apply a_of_fits || done || fit). rewrite decide_False by (intros [Ei _]; congruence). done.
    + apply batch_pay_ok in E as (_ & _ & j & -> & Hoj & _ & _ & Hle & E). destruct Hop as (Ha & _ & _ & _).
      rewrite (abal_same _ _ _ _ (credit_all_elsewhere _ _ _ _ _ _ E)). pose proof (abal_fits w (a_of w m) (bp_assetId c)) as Hb.
      pose proof (sum_u128_fits (bp_amounts c)) as Hs.
      rewrite abal_put by (apply a_of_fits || done || fit). rewrite decide_False by (intros [Ei _]; congruence). done.
Qed.

(** C40: the balance of a revoked agent is lost.  Revoking an agent leaves its
    balances where they are, and no later operation of anyone ever changes
    them: the owner cannot take them back and the agent cannot pay them out. *)
Theorem revoked_agent_strands_balance m i w0 w1 h w :
  fits U64_MAX i -> i < agent_count w0 -> agent_count w0 + Z.of_nat (length h) <= U64_MAX ->
  run (revoke_agent_handler m i) w0 = (Ok tt, w1) -> agent_history w1 h w ->
  a_owner w i = 0 /\ forall q, fits U64_MAX q -> abal w i q = abal w0 i q.
Proof using All.
  intros Hi Hc Hl E Hh. apply caller_ok in E as [_ E]. apply agenting_ok in E. pose proof E as E'. apply revoke_agent_ok in E' as (Eo & Hm & ->).
  destruct (revoked_views w0 i Hi) as (V1 & V2 & _). rewrite <- V1 in Hc, Hl.
  assert (B0 : forall q, fits U64_MAX q -> abal (revoked w0 i) i q = abal w0 i q).
  { intros q Hq. apply (abal_op_frame m (op_revoke_agent i) 0); try done. split; [|done]. rewrite <- Eo. apply u256_to_address_fits. }
  induction Hh as [|h w m' op w' Hh IH Hf Er|h w w' Hh IH Sa Hb]; [done|..]; cbn [length] in *.
  - destruct (IH ltac:(lia)) as [IHo IHb]. pose proof (agent_count_bound _ _ _ Hh ltac:(lia)).
    apply handler_core in Er as [_ Er]. apply (stranded_step _ _ _ _ _ i) in Er as [Eo' Eb]; [|done|lia|lia|done|done].
    split; [done|]. intros q Hq. by rewrite Eb, IHb.
  - destruct (IH Hl) as [IHo IHb]. unfold a_owner. rewrite (same_agent _ _ _ Sa). split; [done|].
    intros q Hq. by rewrite (abal_same _ _ _ _ Sa), IHb.
Qed.
End Registry.

(** ** Conservation *)

Section Money.
Context `{Keccak, AddressDisplay} `{!Layout agent_used}.
Context (parties : list Z) (N : Z).
Implicit Types (w : world).

(** Accounts with ledger slots of their own, and room for the agents. *)
Record ledger_layout : Prop := {
  ll_nodup : NoDup parties;
  ll_ids : 0 <= N <= U64_MAX;
  ll_slots : forall id a id' a', fits U64_MAX id -> fits U64_MAX id' -> a ∈ parties -> a' ∈ parties ->
    slot_balance id a = slot_balance id' a' -> id = id' /\ a = a'
}.
Hypothesis layout : ledger_layout.

(** An asset in accounts and with agents. *)
Definition agent_money q w : Z := sum_of (bal w q) parties + sum_of (fun i => abal w i q) (seqZ 0 N).

Definition ledger_fits w : Prop := forall id a, fits U64_MAX id -> a ∈ parties -> fits U128_MAX (bal w id a).

Lemma bal_put_ledger id a v w id' a' :
  fits U64_MAX id -> fits U64_MAX id' -> a ∈ parties -> a' ∈ parties ->
  bal (put (slot_balance id a) v w) id' a' = if decide (id = id' /\ a = a') then v else bal w id' a'.
Proof using layout.
  intros Hi Hi' Ha Ha'. unfold bal. rewrite wslot_put. destruct (decide (id = id' /\ a = a')) as [[-> ->]|Hne].
  - by rewrite decide_True.
  - rewrite decide_False; [done|]. intros E. apply Hne. by apply (ll_slots layout).
Qed.

(** A step that changes one ledger balance to [v]. *)
Lemma money_put id a v w :
  fits U64_MAX id -> a ∈ parties -> fits U128_MAX v -> ledger_fits w ->
  ledger_fits (put (slot_balance id a) v w) /\
  forall q, fits U64_MAX q ->
    agent_money q (put (slot_balance id a) v w) = agent_money q w + (if id =? q then v - bal w id a else 0).
Proof using layout.
  intros Hi Ha Hv Hl. split.
  - intros id' a' Hi' Ha'. rewrite bal_put_ledger by done. case_decide; [done|by apply Hl].
  - intros q Hq. unfold agent_money.
    rewrite (sum_of_ext (fun i => abal (put (slot_balance id a) v w) i q) (fun i => abal w i q) (seqZ 0 N))
      by (intros i _; apply abal_same, same_at_put; done).
    destruct (Z.eqb_spec id q) as [<-|Hne].
    + rewrite (sum_of_update (bal w id) (bal (put (slot_balance id a) v w) id) parties a); [|apply layout|done|].
      * rewrite bal_put_ledger by done. rewrite decide_True by done. lia.
      * intros x Hx Hxa. rewrite bal_put_ledger by done. rewrite decide_False by naive_solver. done.
    + rewrite (sum_of_ext (bal (put (slot_balance id a) v w) q) (bal w q)); [lia|].
      intros x Hx. rewrite bal_put_ledger by done. by rewrite decide_False by naive_solver.
Qed.

Lemma money_credit id a v w w' :
  fits U64_MAX id -> a ∈ parties -> 0 <= v -> ledger_fits w -> run (add_balance id a v) w = (Ok tt, w') ->
  ledger_fits w' /\ forall q, fits U64_MAX q -> agent_money q w' = agent_money q w + (if id =? q then v else 0).
Proof using layout.
  intros Hi Ha Hv Hl E. pose proof (Hl id a Hi Ha) as Hb. unfold fits in Hb.
  apply add_balance_ok in E as [Hle ->]; [|lia|done].
  assert (Hf : fits U128_MAX (bal w id a + v)) by (split; lia). destruct (money_put id a (bal w id a + v) w Hi Ha Hf Hl) as [Hl' Hm]. split; [done|]. intros q Hq. rewrite Hm by done.
  destruct (id =? q); lia.
Qed.

Lemma money_debit id a v w w' :
  fits U64_MAX id -> a ∈ parties -> 0 <= v -> ledger_fits w -> run (deduct_balance id a v) w = (Ok tt, w') ->
  ledger_fits w' /\ forall q, fits U64_MAX q -> agent_money q w' = agent_money q w - (if id =? q then v else 0).
Proof using layout.
  intros Hi Ha Hv Hl E. pose proof (Hl id a Hi Ha) as Hb. unfold fits in Hb.
  apply deduct_balance_ok in E as [Hle ->]; [|lia|done].
  assert (Hf : fits U128_MAX (bal w id a - v)) by (split; lia). destruct (money_put id a (bal w id a - v) w Hi Ha Hf Hl) as [Hl' Hm]. split; [done|]. intros q Hq. rewrite Hm by done.
  destruct (id =? q); lia.
Qed.

Lemma kwr_ledger (k : agent_key) v w : ledger_fits w -> ledger_fits (kwr k v w).
Proof using Type. intros Hl id a Hi Ha. unfold bal. rewrite wslot_kwr by done. by apply Hl. Qed.

Lemma money_abal i asset v w :
  0 <= i < N -> fits U64_MAX asset -> fits U128_MAX v -> ledger_fits w ->
  ledger_fits (put_abal i asset v w) /\
  forall q, fits U64_MAX q -> agent_money q (put_abal i asset v w) = agent_money q w + (if asset =? q then v - abal w i asset else 0).
Proof using All.
  intros Hi Ha Hv Hl. pose proof (ll_ids layout) as HN. split; [by apply kwr_ledger|]. intros q Hq. unfold agent_money.
  rewrite (sum_of_ext (bal (put_abal i asset v w) q) (bal w q)) by (intros x _; unfold bal, put_abal; by rewrite wslot_kwr).
  assert (Hs : forall j, j ∈ seqZ 0 N -> fits U64_MAX j) by (intros j Hj; apply elem_of_seqZ in Hj; fit).
  destruct (Z.eqb_spec asset q) as [<-|Hne].
  - rewrite (sum_of_update (fun j => abal w j asset) (fun j => abal (put_abal i asset v w) j asset) (seqZ 0 N) i).
    + rewrite abal_put by (done || fit). rewrite decide_True by done. lia.
    + apply NoDup_seqZ.
    + apply elem_of_seqZ. lia.
    + intros j Hj Hji. rewrite abal_put by (done || fit || by apply Hs). by rewrite decide_False by naive_solver.
  - rewrite (sum_of_ext (fun j => abal (put_abal i asset v w) j q) (fun j => abal w j q)); [lia|].
    intros j Hj. rewrite abal_put by (done || fit || by apply Hs). by rewrite decide_False by naive_solver.
Qed.

Definition total (amts : list Z) : Z := sum_of (fun v => v) amts.

Lemma money_credit_all asset tos amts : forall w w',
  fits U64_MAX asset -> Forall (fun a => a ∈ parties) tos -> Forall (fun v => 0 <= v) amts -> length tos = length amts ->
  ledger_fits w -> run (credit_all asset tos amts) w = (Ok tt, w') ->
  ledger_fits w' /\ forall q, fits U64_MAX q -> agent_money q w' = agent_money q w + (if asset =? q then total amts else 0).
Proof using layout.
  revert amts. induction tos as [|t tos IH]; intros [|a amts] w w' Ha Ht Hv Hlen Hl E; try done; cbn [credit_all] in E.
  - injection E as <-. split; [done|]. intros q _. unfold total. cbn [sum_of]. destruct (asset =? q); lia.
  - apply Forall_cons in Ht as [Ht Hts], Hv as [Hv Hvs]. rewrite run_try, run_map_err in E.
    destruct (run (add_balance asset t a) w) as [[[]|e] w1] eqn:Ea; cbn [map_err fst snd] in E; [|done].
    destruct (money_credit _ _ _ _ _ Ha Ht Hv Hl Ea) as [Hl1 M1].
    destruct (IH amts w1 w' Ha Hts Hvs ltac:(cbn in Hlen; lia) Hl1 E) as [Hl2 M2]. split; [done|].
    intros q Hq. rewrite M2, M1 by done. unfold total. cbn [sum_of]. destruct (asset =? q); lia.
Qed.

Lemma sum_u128_total amts :
  Forall (fun v => 0 <= v <= 1000) amts -> Z.of_nat (length amts) <= U64_MAX -> sum_u128 amts = total amts.
Proof using Type.
  intros Hf Hl. unfold sum_u128, total.
  assert (G : forall l acc, Forall (fun v => 0 <= v <= 1000) l -> 0 <= acc -> acc + 1000 * Z.of_nat (length l) <= U128_MAX ->
    fold_left (fun acc a => wrap_u128 (acc + a)) l acc = acc + sum_of (fun v => v) l).
  { induction l as [|x l IH]; intros acc Hx H0' Hle; cbn [fold_left sum_of length] in *; [lia|].
    apply Forall_cons in Hx as [Hx Hl']. rewrite wrap_u128_id by (unfold fits; lia). rewrite IH by (done || lia). lia. }
  rewrite G; [lia|done|lia|]. unfold U128_MAX, U64_MAX in *. lia.
Qed.

(** The accounts an operation moves assets of. *)
Definition involved (m : Z) (op : agent_op) w : list Z :=
  match op with
  | op_grant _ | op_revoke_balance _ => [m]
  | op_pay c => [py_to c]
  | op_batch c => bp_to c
  | op_execute c => [s_owner w (es_sessionId c); es_to c]
  | _ => []
  end.

Lemma money_same q w w' : (forall s, wslot w' ASSET_ADDRESS s = wslot w ASSET_ADDRESS s) ->
  (forall i, 0 <= i < N -> abal w' i q = abal w i q) -> agent_money q w' = agent_money q w.
Proof using Type.
  intros Hs Ha. unfold agent_money. rewrite (sum_of_ext (bal w' q) (bal w q)) by (intros; apply Hs).
  rewrite (sum_of_ext (fun i => abal w' i q) (fun i => abal w i q)); [done|]. intros i Hi. apply elem_of_seqZ in Hi. apply Ha. lia.
Qed.

(** Sessions and the registry move nothing but what a transfer says. *)
Definition moves_nothing (op : agent_op) : bool :=
  match op with op_register _ | op_revoke_agent _ | op_create _ | op_revoke_session _ => true | _ => false end.

Lemma ledger_kept m op b w w' :
  moves_nothing op = true -> run (op_core m op b) w = (Ok tt, w') -> forall s, wslot w' ASSET_ADDRESS s = wslot w ASSET_ADDRESS s.
Proof using Type.
  intros Hm E. apply (run_elsewhere_eq ASSET_ADDRESS (op_core m op b) w (Ok tt) w'); [|done].
  assert (Hk : forall (k : agent_key) v, writes (elsewhere ASSET_ADDRESS) (kstore k v)) by (intros; by apply writes_store).
  assert (He : forall conv key vs i, writes (elsewhere ASSET_ADDRESS) (store_entries conv key i vs)).
  { intros conv key vs. induction vs as [|v vs IH]; intros i; cbn [store_entries]; [constructor|]. apply writes_bind; [apply Hk|intros; apply IH]. }
  assert (Hc : forall ks, writes (elsewhere ASSET_ADDRESS) (clear_all ks)).
  { induction ks as [|k ks IH]; cbn [clear_all]; [constructor|]. apply writes_bind; [apply Hk|intros; apply IH]. }
  destruct op; try discriminate Hm; cbn [op_core].
  - unfold register_agent, find_agent_by_address, read_agent_address, read_agent_count, kget. writes_prog; apply Hk.
  - unfold revoke_agent, require_owner, agent_exists, check_owner, read_agent_owner, read_agent_address, kget. writes_prog; apply Hk.
  - unfold creating, create_session, read_session_count, kget. writes_prog; apply Hk || apply He.
  - unfold revoke_session, read_session_owner, kget. writes_prog; apply Hc.
Qed.

Lemma live_agent_known i w : registry w -> agent_count w <= N -> fits U64_MAX i -> a_owner w i <> 0 -> 0 <= i < N.
Proof using Type.
  intros R Hc Hi Ho. destruct (Z.lt_ge_cases i (agent_count w)) as [|Hge]; [unfold fits in Hi; lia|].
  by apply (rg_new _ R) in Hge.
Qed.

Lemma still_money m op b w w' :
  agent_op_fits m op -> moves_nothing op = true -> ledger_fits w -> run (op_core m op b) w = (Ok tt, w') ->
  ledger_fits w' /\ forall q, fits U64_MAX q -> agent_money q w' = agent_money q w.
Proof using All.
  intros Hf Hn Hl E. pose proof (ledger_kept _ _ _ _ _ Hn E) as Hs. pose proof (ll_ids layout) as HN. split.
  - intros id a Hi Ha. unfold bal. rewrite Hs. by apply Hl.
  - intros q Hq. apply money_same; [done|]. intros i Hi.
    apply (abal_op_frame m op b); [done|by destruct op|unfold fits; lia|done|done].
Qed.

(** The transfer of a session moves from its owner to the recipient. *)
Lemma execute_money s asset to amt m b w w' :
  fits U64_MAX s -> fits U64_MAX asset -> 0 <= amt -> s_owner w s ∈ parties -> to ∈ parties -> ledger_fits w ->
  run (execute_session_transfer s asset to amt m b) w = (Ok tt, w') ->
  ledger_fits w' /\ forall q, fits U64_MAX q -> agent_money q w' = agent_money q w.
Proof using All.
  intros Hs Ha Hv Ho Ht Hl E. apply execute_session_ok in E as (_ & w2 & E1 & E2); [|done]. pose proof (ll_ids layout) as HN.
  assert (Hr : ledger_fits (recorded w s amt b)) by (unfold recorded; by repeat apply kwr_ledger).
  destruct (money_debit _ _ _ _ _ Ha Ho Hv Hr E1) as [Hl2 M2]. destruct (money_credit _ _ _ _ _ Ha Ht Hv Hl2 E2) as [Hl3 M3].
  split; [done|]. intros q Hq. rewrite M3, M2 by done.
  rewrite (money_same q w (recorded w s amt b)); [destruct (asset =? q); lia|..].
  - intros k. unfold recorded. by rewrite !wslot_kwr.
  - intros i Hi. unfold abal, recorded.
    by repeat (rewrite (krd_kwr_ne agent_used); [|exact Hs|split; [unfold fits; lia|done]|discriminate]).
Qed.

Lemma op_money m op b w w' :
  agent_op_fits m op -> registry w -> agent_count w <= N -> Forall (fun a => a ∈ parties) (involved m op w) ->
  ledger_fits w -> run (op_core m op b) w = (Ok tt, w') ->
  ledger_fits w' /\ forall q, fits U64_MAX q -> agent_money q w' = agent_money q w.
Proof using All.
  intros Hf R Hc Hp Hl E. destruct (moves_nothing op) eqn:Hn; [by eapply still_money|]. pose proof Hf as [Hm Hop].
  destruct op as [c|c|c|c|c|i|c|s'|c]; try discriminate Hn; cbn [op_core agent_op_fits involved] in *.
  - apply Forall_cons in Hp as [Hp _]. apply grant_ok in E as (Eo & Hm0 & w1 & Ed & Hle & ->). destruct Hop as (Hi & Ha & Hv).
    destruct (money_debit _ _ _ _ _ Ha Hp ltac:(apply Hv) Hl Ed) as [Hl1 M1].
    pose proof (abal_fits w (gr_agentId c) (gr_assetId c)) as Hb. unfold fits in Hb, Hv.
    destruct (money_abal (gr_agentId c) (gr_assetId c) (abal w (gr_agentId c) (gr_assetId c) + gr_amount c) w1) as [Hl2 M2];
      [apply (live_agent_known _ w); congruence|done|split; lia|done|].
    split; [done|]. intros q Hq. rewrite M2, M1 by done. rewrite (abal_same _ _ _ _ (debit_elsewhere _ _ _ _ _ _ Ed)).
    destruct (gr_assetId c =? q); lia.
  - apply Forall_cons in Hp as [Hp _]. apply revoke_balance_ok in E as (Eo & Hm0 & E). destruct Hop as (Hi & Ha).
    pose proof (abal_fits w (aa_agentId c) (aa_assetId c)) as Hb. unfold fits in Hb.
    destruct (money_abal (aa_agentId c) (aa_assetId c) 0 w) as [Hl1 M1]; [apply (live_agent_known _ w); congruence|done|done|done|].
    destruct (Z.ltb_spec 0 (abal w (aa_agentId c) (aa_assetId c))).
    + destruct (money_credit _ _ _ _ _ Ha Hp (proj1 Hb) Hl1 E) as [Hl2 M2]. split; [done|]. intros q Hq. rewrite M2, M1 by done.
      destruct (aa_assetId c =? q); lia.
    + subst w'. split; [done|]. intros q Hq. rewrite M1 by done. destruct (aa_assetId c =? q); lia.
  - apply Forall_cons in Hp as [Hp _]. apply pay_ok in E as (i & (-> & Hoi & _) & Hle & E). destruct Hop as (Ha & _ & Hv).
    pose proof (abal_fits w (a_of w m) (py_assetId c)) as Hb. unfold fits in Hb, Hv.
    destruct (money_abal (a_of w m) (py_assetId c) (abal w (a_of w m) (py_assetId c) - py_amount c) w) as [Hl1 M1];
      [apply (live_agent_known _ w); [done|done|apply a_of_fits|done]|done|split; lia|done|].
    destruct (money_credit _ _ _ _ _ Ha Hp (proj1 Hv) Hl1 E) as [Hl2 M2]. split; [done|]. intros q Hq. rewrite M2, M1 by done.
    destruct (py_assetId c =? q); lia.
  - apply batch_pay_ok in E as (Hlen & _ & i & -> & Hoi & _ & Hlim & Hle & E). destruct Hop as (Ha & _ & Hv & Hn').
    pose proof (abal_fits w (a_of w m) (bp_assetId c)) as Hb. pose proof (sum_u128_fits (bp_amounts c)) as Hs. unfold fits in Hb, Hs.
    rewrite Forall_forall in Hv.
    assert (Hr : Forall (fun v => 0 <= v <= 1000) (bp_amounts c)).
    { apply Forall_forall. intros v Hin. pose proof (Hv v Hin). pose proof (Hlim v Hin). pose proof (rg_limit _ R _ (a_of_fits w m)). unfold fits in *. lia. }
    destruct (money_abal (a_of w m) (bp_assetId c) (abal w (a_of w m) (bp_assetId c) - sum_u128 (bp_amounts c)) w) as [Hl1 M1];
      [apply (live_agent_known _ w); [done|done|apply a_of_fits|done]|done|split; lia|done|].
    destruct (money_credit_all _ _ _ _ _ Ha Hp (Forall_impl _ _ _ Hr (fun v Hv => proj1 Hv)) Hlen Hl1 E) as [Hl2 M2].
    split; [done|]. intros q Hq. rewrite M2, M1, (sum_u128_total (bp_amounts c)) by done. destruct (bp_assetId c =? q); lia.
  - apply Forall_cons in Hp as [Hp1 Hp2]. apply Forall_cons in Hp2 as [Hp2 _]. destruct Hop as (Hs & Ha & _ & Hv).
    by apply (execute_money _ _ _ _ _ _ _ _ Hs Ha (proj1 Hv) Hp1 Hp2 Hl E).
Qed.

(** A successful operation among the parties. *)
Definition money_step w w' : Prop :=
  exists m op, agent_op_fits m op /\ Forall (fun a => a ∈ parties) (involved m op w) /\ run (op_handler m op) w = (Ok tt, w').

(** C24: agents and sessions conserve every asset.  Along any sequence of
    operations of agents and sessions, what the accounts and the agents hold
    of an asset together stays the same. *)
Theorem agents_conserve_assets n w0 w q :
  registry w0 -> ledger_fits w0 -> agent_count w0 + Z.of_nat n <= N -> nsteps money_step n w0 w -> fits U64_MAX q ->
  agent_money q w = agent_money q w0.
Proof using All.
  intros R Hl Hc Hn Hq. pose proof (ll_ids layout) as HN. revert R Hl Hc.
  induction Hn as [w|n w w1 w' (m & op & Hf & Hp & E) Hn IH]; intros R Hl Hc; [done|].
  apply handler_core in E as [Hm E]. destruct (op_money m op (block w) w w1) as [Hl1 M1]; [done|done|lia|done|done|done|].
  assert (Hlt : agent_count w < U64_MAX) by lia. pose proof (op_agent_count _ _ _ _ _ Hf Hlt E).
  rewrite IH; [by apply M1| |done|lia].
  apply (op_registry m op (block w) w); [done|done|lia|done|done].
Qed.
End Money.
