(* ===== verification/AgentCall.v ===== *)
(** * AgentCall: the agent precompile on the production provider

    A call of the agent precompile on [EvmStorageProvider] fails or is a view
    and leaves the storage as it was, or has exactly the effect of the handler
    its calldata requests. *)

From stdpp Require Import base gmap list strings.
From Stdlib Require Import ZArith Lia.
From S2P Require Import Prelude Provider World EvmProvider Refinement Dispatch Utils.
From S2P Require Import Asset AssetSpec AssetPrecompile AssetPrecompileSpec Keyed CallSpec Agent.

Local Open Scope Z_scope.
Local Open Scope callnode_scope.

Section Handlers.
Context `{Keccak, AddressDisplay}.

Lemma benign_read_entries wr conv key n i : benign wr (read_entries conv key n i).
Proof using Type.
  revert i. induction n as [|n IH]; intros i; cbn [read_entries]; [constructor|].
  apply benign_bind; [unfold kget, kload; apply benign_bind; [apply benign_load|constructor]|intros v].
  apply benign_bind; [apply IH|constructor].
Qed.

Lemma benign_store_entries conv key i vs : benign true (store_entries conv key i vs).
Proof using Type.
  revert i. induction vs as [|v vs IH]; intros i; cbn [store_entries]; [constructor|].
  apply benign_bind; [apply benign_store|intros; apply IH].
Qed.

Lemma benign_clear_all ks : benign true (clear_all ks).
Proof using Type. induction ks as [|k ks IH]; cbn [clear_all]; [constructor|]. apply benign_bind; [apply benign_store|intros; apply IH]. Qed.

Lemma benign_credit_all asset tos amts : benign true (credit_all asset tos amts).
Proof using Type.
  revert amts. induction tos as [|t tos IH]; intros amts; [constructor|].
  destruct amts as [|a amts]; cbn [credit_all]; [constructor|].
  apply benign_try; [apply benign_map_err; benign_follow calling fail|intros; apply IH].
Qed.

Ltac agent_benign :=
  benign_follow calling (first [apply benign_read_entries | apply benign_store_entries | apply benign_clear_all | apply benign_credit_all]).

Lemma benign_register name url a m b : benign true (register_agent name url a m b).
Proof using Type. agent_benign. Qed.
Lemma benign_require_owner wr i m : benign wr (require_owner i m).
Proof using Type. agent_benign. Qed.
Lemma benign_revoke_balance i asset m : benign true (revoke_balance i asset m).
Proof using Type. agent_benign. Qed.
Lemma benign_pay asset to amt m b : benign true (pay asset to amt m b).
Proof using Type. agent_benign. Qed.
Lemma benign_batch_pay asset tos amts m b : benign true (batch_pay asset tos amts m b).
Proof using Type. agent_benign. Qed.
Lemma benign_revoke_agent i m : benign true (revoke_agent i m).
Proof using Type. agent_benign. Qed.
Lemma benign_create d p l e pol m : benign true (create_session d p l e pol m).
Proof using Type. agent_benign. Qed.
Lemma benign_revoke_session s m : benign true (revoke_session s m).
Proof using Type. agent_benign. Qed.
Lemma benign_execute_session s asset to amt m b : benign true (execute_session_transfer s asset to amt m b).
Proof using Type. agent_benign. Qed.

Lemma guarded_agenting {A} wr (p : prog (gres A)) : benign wr p -> guarded wr (agenting p).
Proof using Type. intros Hp. by apply guarded_map_err, benign_guarded. Qed.

Lemma guarded_all_compliance wr accounts : guarded wr (check_all_compliance accounts).
Proof using Type.
  induction accounts as [|a accounts IH]; cbn [check_all_compliance]; [constructor|].
  apply guarded_try; [apply guarded_check_compliance|intros; apply IH].
Qed.

Ltac handler :=
  repeat lazymatch goal with
  | |- guarded _ (Ret _) => constructor
  | |- guarded _ (check_compliance _) => apply guarded_check_compliance
  | |- guarded _ (check_all_compliance _) => apply guarded_all_compliance
  | |- guarded _ (agenting _) => apply guarded_agenting
  | |- guarded _ (try_ _ _) => apply guarded_try; [|intros]
  | |- guarded _ (prog_bind block_number _) => apply guarded_benign_bind; [apply benign_block_number|intros]
  end.

Lemma guarded_register_agent m c : guarded true (register_agent_handler m c).
Proof using Type. unfold register_agent_handler. handler. apply benign_register. Qed.
Lemma guarded_grant m c : guarded true (grant_balance_handler m c).
Proof using Type.
  unfold grant_balance_handler. handler; [apply benign_require_owner|apply guarded_map_err, benign_guarded; benign_follow calling fail|].
  apply guarded_benign_bind; [benign_follow calling fail|intros]. handler. apply g_sstore; [done|constructor|right; by eexists].
Qed.
Lemma guarded_revoke_balance m c : guarded true (revoke_balance_handler m c).
Proof using Type. unfold revoke_balance_handler. handler. apply benign_revoke_balance. Qed.
Lemma guarded_pay m c : guarded true (pay_handler m c).
Proof using Type. unfold pay_handler. handler. apply benign_pay. Qed.
Lemma guarded_batch_pay m c : guarded true (batch_pay_handler m c).
Proof using Type. unfold batch_pay_handler. handler. apply benign_batch_pay. Qed.
Lemma guarded_revoke_agent m i : guarded true (revoke_agent_handler m i).
Proof using Type. unfold revoke_agent_handler. handler. apply benign_revoke_agent. Qed.
Lemma guarded_create m c : guarded true (create_session_handler m c).
Proof using Type. unfold create_session_handler. handler. cbv zeta. handler. apply benign_create. Qed.
Lemma guarded_revoke_session m s : guarded true (revoke_session_handler m s).
Proof using Type. unfold revoke_session_handler. handler. apply benign_revoke_session. Qed.
Lemma guarded_execute m c : guarded true (execute_session_handler m c).
Proof using Type. unfold execute_session_handler. handler. apply benign_execute_session. Qed.

End Handlers.

Section Entry.
Context `{Keccak, AddressDisplay, AgentAbi}.
Context {J : Type} `{HJ : JournalTr J} `{HL : !JournalLaws J}.
Implicit Types (s : EvmStorageProvider J).

(** The operation calldata requests, as a relation on storages. *)
Definition agent_request (calldata : list Z) (m : Z) : option (world -> world -> Prop) :=
  let sel := take 4 calldata in
  if bool_decide (sel = sel_registerAgent)
  then request_of (dec_registerAgent calldata) (fun c => runs_to (register_agent_handler m c))
  else if bool_decide (sel = sel_grantBalance)
  then request_of (dec_grantBalance calldata) (fun c => runs_to (grant_balance_handler m c))
  else if bool_decide (sel = sel_revokeBalance)
  then request_of (dec_revokeBalance calldata) (fun c => runs_to (revoke_balance_handler m c))
  else if bool_decide (sel = sel_pay)
  then request_of (dec_pay calldata) (fun c => runs_to (pay_handler m c))
  else if bool_decide (sel = sel_batchPay)
  then request_of (dec_batchPay calldata) (fun c => runs_to (batch_pay_handler m c))
  else if bool_decide (sel = sel_revokeAgent)
  then request_of (dec_revokeAgent calldata) (fun i => runs_to (revoke_agent_handler m i))
  else if bool_decide (sel = sel_getAgentOwner) then None
  else if bool_decide (sel = sel_getAgentBalance) then None
  else if bool_decide (sel = sel_getAgentName) then None
  else if bool_decide (sel = sel_getAgentUrl) then None
  else if bool_decide (sel = sel_getAgentAddress) then None
  else if bool_decide (sel = sel_getAgentPerms) then None
  else if bool_decide (sel = sel_createSession)
  then request_of (dec_createSession calldata) (fun c => returns (create_session_handler m c))
  else if bool_decide (sel = sel_revokeSession)
  then request_of (dec_revokeSession calldata) (fun i => runs_to (revoke_session_handler m i))
  else if bool_decide (sel = sel_isSessionValid) then None
  else if bool_decide (sel = sel_executeSession)
  then request_of (dec_executeSession calldata) (fun c => runs_to (execute_session_handler m c))
  else None.

(** C25: the agent precompile implements its operations.  On the production
    provider, outside a static call, a call fails or is a view and leaves the
    storage as it was, or performs the one operation its calldata requests,
    with exactly the effect of its handler. *)
Theorem agent_call_refines_handler calldata m s :
  e_is_static (evm_env s) = false ->
  call_effect (agent_request calldata m) s (agent_call calldata m s).
Proof using HL.
  intros Hst. unfold agent_call, agent_request. destruct (length calldata <? 4)%nat; [done|]. cbv zeta.
  case_bool_decide; [apply mutate_effect; [apply guarded_register_agent|done|done]|].
  case_bool_decide; [apply mutate_effect; [apply guarded_grant|done|done]|].
  case_bool_decide; [apply mutate_effect; [apply guarded_revoke_balance|done|done]|].
  case_bool_decide; [apply mutate_effect; [apply guarded_pay|done|done]|].
  case_bool_decide; [apply mutate_effect; [apply guarded_batch_pay|done|done]|].
  case_bool_decide; [apply mutate_effect; [apply guarded_revoke_agent|done|done]|].
  case_bool_decide; [apply view_effect; intros; unfold reading, read_agent_owner, kget, kload; readonly_prog|].
  case_bool_decide; [apply view_effect; intros; unfold reading, read_agent_balance, kget, kload; readonly_prog|].
  case_bool_decide; [apply view_effect; intros; unfold reading, read_agent_name, kget, kload; readonly_prog|].
  case_bool_decide; [apply view_effect; intros; unfold reading, read_agent_url, kget, kload; readonly_prog|].
  case_bool_decide; [apply view_effect; intros; unfold reading, read_agent_address, kget, kload; readonly_prog|].
  case_bool_decide; [apply view_effect; intros; unfold reading, read_perms, kget, kload; readonly_prog|].
  case_bool_decide; [apply mutate_value_effect; [apply guarded_create|done|done]|].
  case_bool_decide; [apply mutate_effect; [apply guarded_revoke_session|done|done]|].
  case_bool_decide; [apply view_effect; intros; unfold is_session_valid_handler, is_session_valid, session_exists,
    read_session_owner, read_session_effective_at, read_session_expires, kget, kload; readonly_prog; constructor; constructor|].
  case_bool_decide; [apply mutate_effect; [apply guarded_execute|done|done]|]. done.
Qed.
End Entry.
