(* ===== verification/AgentDemo.v ===== *)
(** * AgentDemo: an agent and a session

    A concrete history in which [alice] lets [bob] spend through a session and
    pays through an agent, to which the properties of agents are applied, and
    examples of what the code allows. *)

From stdpp Require Import base gmap list strings.
From Stdlib Require Import ZArith Lia.
From S2P Require Import Prelude Provider World EvmProvider Refinement Dispatch Utils.
From S2P Require Import Asset AssetSpec AssetPrecompile Keyed SimpleJournal HashDemo CallSpec.
From S2P Require Import Agent AgentSpec AgentProps AgentFunds AgentCall.

Local Open Scope Z_scope.
Local Open Scope callnode_scope.

Module AgentDemo.
Import Demo HashDemo.

Lemma agent_preimage_bytes k : Forall is_byte (agent_preimage k).
Proof.
  unfold agent_preimage. destruct k; cbn [agent_parts concat]; rewrite ?Forall_app; split_and?;
    first [by constructor | apply b_bytes | apply be_bytes_is_byte].
Qed.

#[local] Instance layout : Layout agent_used.
Proof.
  apply agent_layout_holds. split.
  - intros k k' _ _ E. apply hash_inj; [apply agent_preimage_bytes..|done].
  - intros k _ _. apply hash_positive, agent_preimage_bytes.
Qed.

Definition robot : Z := 0x0B07.
Definition people : list Z := [alice; bob].
Definition at_block (b : Z) (m : wstate) : world := mkWorld m (mkEnv 1000000 false 1 1000 b 0) [].

(** [alice] has 700 and [bob] 300 of asset 1. *)
Definition start : world := at_block 20000
  (put_slot ASSET_ADDRESS (slot_balance 1 alice) 700 (put_slot ASSET_ADDRESS (slot_balance 1 bob) 300 w0)).

Definition after {A} (p : prog A) (w : world) : world := (run p w).2.

(** ** A session *)

Definition order : createSessionCall := mkCreateSession bob 100 150 50000 400 5 0 10 [1] [].
Definition spend (v : Z) : executeSessionCall := mkExecuteSession 0 1 bob v.

Definition opening : prog (res Z) := create_session_handler alice order.
Definition spending (v : Z) : prog (res unit) := execute_session_handler bob (spend v).
Definition closing : prog (res unit) := revoke_session_handler alice 0.

Definition open_w : world := after opening start.
Definition later (w : world) : world := at_block 20010 (w_cur w).
Definition spent_w : world := after (spending 100) open_w.
Definition twice_w : world := after (spending 50) (later spent_w).
Definition closed_w : world := after closing spent_w.

Lemma opening_runs : run opening start = (Ok 0, open_w).
Proof. exact (run_to opening (Ok 0) start ltac:(vm_compute; reflexivity)). Qed.
Lemma spending_runs : run (spending 100) open_w = (Ok tt, spent_w).
Proof. exact (run_to (spending 100) (Ok tt) open_w ltac:(vm_compute; reflexivity)). Qed.
Lemma spending_again_runs : run (spending 50) (later spent_w) = (Ok tt, twice_w).
Proof. exact (run_to (spending 50) (Ok tt) (later spent_w) ltac:(vm_compute; reflexivity)). Qed.
Lemma closing_runs : run closing spent_w = (Ok tt, closed_w).
Proof. exact (run_to closing (Ok tt) spent_w ltac:(vm_compute; reflexivity)). Qed.

(** More on the same day, or soon after a transfer, is refused. *)
Example limits_refuse :
  (run (spending 1) (later twice_w)).1 = Err (Other (agent_error_to_string AmountExceedsLimit)) /\
  (run (spending 50) spent_w).1 = Err (Other (agent_error_to_string AmountExceedsLimit)) /\
  (run (spending 50) (later closed_w)).1 = Err (Other (agent_error_to_string SessionNotFound)).
Proof. vm_compute. done. Qed.

Definition history : list (Z * Z * agent_op) := [(20010, bob, op_execute (spend 50)); (20000, bob, op_execute (spend 100))].

Lemma spend_fits v : fits U128_MAX v -> agent_op_fits bob (op_execute (spend v)).
Proof. intros Hv. split; [done|]. cbn [agent_op_fits spend es_sessionId es_assetId es_to es_amount]. split; [done|]. split; [done|]. split; [done|exact Hv]. Qed.

Lemma session_history : agent_history open_w history twice_w.
Proof.
  apply (ah_op open_w [(20000, bob, op_execute (spend 100))] (later spent_w) bob (op_execute (spend 50)) twice_w);
    [|by apply spend_fits|exact spending_again_runs].
  apply (ah_other open_w _ spent_w (later spent_w)); [|done|by vm_compute].
  apply (ah_op open_w [] open_w bob (op_execute (spend 100)) spent_w); [constructor|by apply spend_fits|exact spending_runs].
Qed.

Lemma order_fits : agent_op_fits alice (op_create order).
Proof. split; [done|]. repeat split; try done; repeat constructor; done. Qed.


Lemma revoked_session_inert_witness : executions 0 [] = [] /\ s_owner (later closed_w) 0 = 0.
Proof.
  apply (revoked_session_inert alice 0 spent_w closed_w [] (later closed_w)).
  - done.
  - vm_compute. done.
  - vm_compute. done.
  - exact closing_runs.
  - apply (ah_other closed_w [] closed_w (later closed_w)); [constructor|done|by vm_compute].
Defined.

(** ** An agent *)

Definition enroll_call : registerAgentCall := mkRegisterAgent (b_ "shop") (b_ "shop.example") robot.
Definition grant_call : grantBalanceCall := mkGrant 0 1 200.
Definition pay_call : payCall := mkPay 1 bob 60.

Definition enroll : prog (res unit) := register_agent_handler alice enroll_call.
Definition funding : prog (res unit) := grant_balance_handler alice grant_call.
Definition paying_bob : prog (res unit) := pay_handler robot pay_call.
Definition dismiss : prog (res unit) := revoke_agent_handler alice 0.
Definition recall : prog (res unit) := revoke_balance_handler alice (mkAgentAsset 0 1).

Definition enrolled_w : world := after enroll start.
Definition funded_w : world := after funding enrolled_w.
Definition paid_w : world := after paying_bob funded_w.
Definition dismissed_w : world := after dismiss paid_w.

Lemma enroll_runs : run enroll start = (Ok tt, enrolled_w).
Proof. exact (run_to enroll (Ok tt) start ltac:(vm_compute; reflexivity)). Qed.
Lemma funding_runs : run funding enrolled_w = (Ok tt, funded_w).
Proof. exact (run_to funding (Ok tt) enrolled_w ltac:(vm_compute; reflexivity)). Qed.
Lemma paying_runs : run paying_bob funded_w = (Ok tt, paid_w).
Proof. exact (run_to paying_bob (Ok tt) funded_w ltac:(vm_compute; reflexivity)). Qed.
Lemma dismiss_runs : run dismiss paid_w = (Ok tt, dismissed_w).
Proof. exact (run_to dismiss (Ok tt) paid_w ltac:(vm_compute; reflexivity)). Qed.

(** The owner cannot take back what a dismissed agent holds. *)
Example recall_fails :
  (bal paid_w 1 alice, bal paid_w 1 bob, abal paid_w 0 1) = (500, 360, 140) /\
  abal dismissed_w 0 1 = 140 /\ (run recall dismissed_w).1 = Err (Other (agent_error_to_string AgentNotFound)).
Proof. vm_compute. done. Qed.

Lemma start_empty : no_agents start.
Proof. intros s. unfold start, at_block. cbn [w_cur]. by rewrite !slot_put_ne by discriminate. Qed.

Definition career : list (Z * Z * agent_op) :=
  [(20000, robot, op_pay pay_call); (20000, alice, op_grant grant_call); (20000, alice, op_register enroll_call)].

Lemma enroll_fits : agent_op_fits alice (op_register enroll_call).
Proof. by split. Qed.
Lemma grant_fits : agent_op_fits alice (op_grant grant_call).
Proof. by repeat split. Qed.
Lemma pay_fits : agent_op_fits robot (op_pay pay_call).
Proof. by repeat split. Qed.

Lemma career_history : agent_history start career paid_w.
Proof.
  apply (ah_op start [(20000, alice, op_grant grant_call); (20000, alice, op_register enroll_call)] funded_w robot (op_pay pay_call) paid_w);
    [|exact pay_fits|exact paying_runs].
  apply (ah_op start [(20000, alice, op_register enroll_call)] enrolled_w alice (op_grant grant_call) funded_w);
    [|exact grant_fits|exact funding_runs].
  apply (ah_op start [] start alice (op_register enroll_call) enrolled_w); [constructor|exact enroll_fits|exact enroll_runs].
Qed.


Lemma revoked_agent_strands_balance_witness :
  a_owner dismissed_w 0 = 0 /\ forall q, fits U64_MAX q -> abal dismissed_w 0 q = abal paid_w 0 q.
Proof.
  apply (revoked_agent_strands_balance alice 0 paid_w dismissed_w [] dismissed_w).
  - done.
  - vm_compute. done.
  - vm_compute. done.
  - exact dismiss_runs.
  - constructor.
Defined.

Lemma agent_people_are a : a ∈ people -> a = alice \/ a = bob.
Proof. unfold people. set_solver. Qed.

Lemma demo_ledger : ledger_layout people 10.
Proof.
  split; [refine (bool_decide_eq_true_1 _ _); vm_compute; reflexivity|done|].
  intros id a id' a' Hi Hi' Ha Ha' E. unfold slot_balance, storage_slot in E. cbn [concat] in E. rewrite !app_nil_r in E.
  apply hash_inj in E; [|apply Forall_app; split; apply be_bytes_is_byte..].
  apply app_inj_len in E as [E1 E2]; [|by rewrite !length_u64_bytes]. apply u64_bytes_inj in E1; [|done..]. split; [done|].
  apply addr_bytes_inj in E2; [done|..]; [destruct (agent_people_are a Ha) as [->| ->]|destruct (agent_people_are a' Ha') as [->| ->]]; done.
Qed.

Lemma start_fits : ledger_fits people start.
Proof.
  intros id a Hi Ha. unfold bal, start, at_block. cbn [w_cur]. rewrite !slot_put. repeat case_decide; done.
Qed.

Lemma career_steps : nsteps (money_step people) 3 start paid_w.
Proof.
  apply (nsteps_l _ 2 start enrolled_w paid_w).
  { exists alice, (op_register enroll_call). split; [exact enroll_fits|]. split; [constructor|exact enroll_runs]. }
  apply (nsteps_l _ 1 enrolled_w funded_w paid_w).
  { exists alice, (op_grant grant_call). split; [exact grant_fits|]. split; [|exact funding_runs].
    apply Forall_singleton. apply list_elem_of_here. }
  apply (nsteps_l _ 0 funded_w paid_w paid_w); [|constructor].
  exists robot, (op_pay pay_call). split; [exact pay_fits|]. split; [|exact paying_runs].
  apply Forall_singleton. apply list_elem_of_further, list_elem_of_here.
Qed.

Lemma agents_conserve_assets_witness : agent_money people 10 1 paid_w = agent_money people 10 1 start.
Proof.
  apply (agents_conserve_assets people 10 demo_ledger 3 start paid_w 1).
  - exact (proj1 (no_agents_registry start start_empty)).
  - exact start_fits.
  - vm_compute. done.
  - exact career_steps.
  - done.
Defined.

(** ** What the code allows *)

(** The compliance of the owner is not checked: a restricted account moves its
    balance through a session it opens itself. *)
Definition restricted_start : world :=
  at_block 20000 (put_slot COMPLIANCE_ADDRESS (slot_compliance alice) 1 (w_cur start)).

Example restricted_owner_spends :
  let w1 := after opening restricted_start in
  (run (check_compliance alice) w1).1 = Err (Other "compliance check failed") /\
  (run (spending 100) w1).1 = Ok tt /\ bal (after (spending 100) w1) 1 alice = 600.
Proof. vm_compute. done. Qed.

(** A daily limit near 2^128 is passed: the sum wraps. *)
Definition generous : createSessionCall :=
  mkCreateSession bob (U128_MAX - 5) (U128_MAX - 5) 0 0 0 0 0 [] [].
Definition rich : world := at_block 20000 (put_slot ASSET_ADDRESS (slot_balance 1 alice) U128_MAX w0).
Definition to_self (v : Z) : prog (res unit) := execute_session_handler bob (mkExecuteSession 0 1 alice v).

Example daily_limit_wraps :
  let w1 := after (create_session_handler alice generous) rich in
  let w2 := after (to_self (U128_MAX - 5)) w1 in
  (run (to_self (U128_MAX - 5)) w1).1 = Ok tt /\ (run (to_self 10) w2).1 = Ok tt /\
  s_spent (after (to_self 10) w2) 0 = 4.
Proof. vm_compute. done. Qed.

(** ** A call *)

#[local] Instance agent_abi : AgentAbi := {|
  dec_registerAgent := fun _ => Err "dynamic"%string;
  dec_grantBalance := fun d => need (i ← decode_u64 d 4; a ← decode_u64 d 36; v ← decode_u128 d 68; Some (mkGrant i a v));
  dec_revokeBalance := fun d => need (i ← decode_u64 d 4; a ← decode_u64 d 36; Some (mkAgentAsset i a));
  dec_pay := fun d => need (a ← decode_u64 d 4; t ← decode_address d 36; v ← decode_u128 d 68; Some (mkPay a t v));
  dec_batchPay := fun _ => Err "dynamic"%string;
  dec_revokeAgent := fun d => need (decode_u64 d 4);
  dec_getAgentOwner := fun d => need (decode_u64 d 4);
  dec_getAgentAddress := fun d => need (decode_u64 d 4);
  dec_getAgentBalance := fun d => need (i ← decode_u64 d 4; a ← decode_u64 d 36; Some (mkAgentAsset i a));
  dec_getAgentName := fun d => need (decode_u64 d 4);
  dec_getAgentUrl := fun d => need (decode_u64 d 4);
  dec_getAgentPerms := fun d => need (decode_u64 d 4);
  dec_createSession := fun _ => Err "dynamic"%string;
  dec_revokeSession := fun d => need (decode_u64 d 4);
  dec_isSessionValid := fun d => need (decode_u64 d 4);
  dec_executeSession := fun d => need (
    i ← decode_u64 d 4; a ← decode_u64 d 36; t ← decode_address d 68; v ← decode_u128 d 100; Some (mkExecuteSession i a t v));
  genc_uint := be_bytes 32;
  genc_address := be_bytes 32;
  genc_bytes32 := fun b => b;
  sel_registerAgent := [0; 0; 0; 1];
  sel_grantBalance := [0; 0; 0; 2];
  sel_revokeBalance := [0; 0; 0; 3];
  sel_pay := [0; 0; 0; 4];
  sel_batchPay := [0; 0; 0; 5];
  sel_revokeAgent := [0; 0; 0; 6];
  sel_getAgentOwner := [0; 0; 0; 7];
  sel_getAgentBalance := [0; 0; 0; 8];
  sel_getAgentName := [0; 0; 0; 9];
  sel_getAgentUrl := [0; 0; 0; 10];
  sel_getAgentAddress := [0; 0; 0; 11];
  sel_getAgentPerms := [0; 0; 0; 12];
  sel_createSession := [0; 0; 0; 13];
  sel_revokeSession := [0; 0; 0; 14];
  sel_isSessionValid := [0; 0; 0; 15];
  sel_executeSession := [0; 0; 0; 16]
|}.

Definition agent_calldata : list Z :=
  [0; 0; 0; 4] ++ be_bytes 32 1 ++ be_bytes 32 bob ++ be_bytes 32 60.
Definition s0 : EvmStorageProvider SimpleJournal := provider (w_cur funded_w) 200000 false.

Example pay_call_runs :
  let x := agent_call agent_calldata robot s0 in
  is_ok x.1 = true /\ slot (vw x.2) ASSET_ADDRESS (slot_balance 1 bob) = 360.
Proof. vm_compute. done. Qed.

Lemma agent_call_refines_handler_witness :
  call_effect (agent_request agent_calldata robot) s0 (agent_call agent_calldata robot s0).
Proof. apply (agent_call_refines_handler agent_calldata robot s0). reflexivity. Defined.

End AgentDemo.
